(* ===== verification/_CoqProject ===== *)
-Q . S2P
Prelude.v
Memory.v
CopyTypes.v
DeepCopy.v
DeepCopyFacts.v
KubeTypes.v
InstanceTypes.v
Types.v
Updates.v
World.v
Sha256.v
Common.v
Reconcile.v
Team.v
VirtualKey.v
Model.v
Password.v
User.v
Organization.v
Customer.v
Budget.v
Bodies.v
Credential.v
Duration.v
ConfigSync.v
Rollout.v
ProxyConfig.v
Wire.v
Cleared.v
Client.v
ClientFacts.v
Redaction.v
Queries.v
Transport.v
Mock.v
Workload.v
Manifests.v
Wiring.v
PodHealth.v
Main.v
InstanceResources.v
InstanceStatus.v
Instance.v
InstanceCalls.v
InstanceReady.v
Guardrail.v
Watches.v
CopyExamples.v
Examples.v
WatchExamples.v
InstanceExamples.v
ClientExamples.v
MainExamples.v
