(* ===== verification/Prelude.v ===== *)
(** * Verification of the LiteLLM operator

    The operator reconciles custom resources (teams, users, virtual keys, models,
    ...) of a Kubernetes cluster with the objects of LiteLLM proxies.  This library
    models its controllers (src/internal/controller), the objects they render
    (src/internal/resources), the client of LiteLLM and its mock (src/internal/litellm),
    the data they exchange (src/api/v1alpha1) and the entry point (src/cmd), and proves
    what makes them correct.

    ** How the program is modelled

    A controller runs between calls whose answers it does not control: the API
    server, the LiteLLM proxy, the clock, random bytes, the order of a map
    iteration.  A controller is therefore a program ([prog], in this file): a finite
    tree of calls, with every answer possible at each call, failures included.  The
    client is a program over HTTP exchanges, [main] one over the set-up calls of
    controller-runtime.
    [runs p t a] says that with the answers of the trace [t] the program returns [a];
    [partial p t] describes an execution cut short (a crash); [always G p] says that
    in every execution, complete or cut short, each call [c] issued after the history
    [h] satisfies [G h c].  Programs are trees without loops, so every execution ends
    ([runs_exists]): no fuel is involved but in [Duration], in the text functions ([replace_all],
    [escape_bytes], [trim_left]) and in the order of map iterations, where the fuel is
    the length of the input.  Properties are proved by
    weakest preconditions ([wp], [wpM]).

    A Go function that mutates the object it was given and returns early is a
    handler of the state monad [M]: the object in memory is the state, [exit] is
    [return], [try] and [check] are [if err != nil].  Pointers are options, maps are
    [gmap], ints are [Z] (the operator computes on none but in durations, where
    int64 is written out).  Texts of errors, events and conditions are kept as a
    format and its arguments.  Logging is left out.

    ** The files

    - [Prelude]: programs, traces, handlers, their rules; Go errors ([errors.Is],
      [Unwrap]).
    - [KubeTypes]: the Kubernetes structures the operator reads and builds, field by
      field where it looks, the rest as JSON; [InstanceTypes]: the specification and
      the status of a LiteLLMInstance; [Types], [Updates]: the other custom resources,
      the bodies of the API, and the record updates.
    - [World]: the calls ([kcall]), one constructor per method of the LiteLLM client
      ([api_req]); the helpers of the Kubernetes libraries are parameters
      ([KubeLib]) with their documented behaviour as laws ([KubeLibLaws]), and the
      module [Documented] is an implementation that satisfies them.  JSON encoding
      and parsing, YAML encoding, float parsing and Argon2 are parameters too.
    - [Sha256]: SHA-256, hexadecimal, [computeSpecHash].
    - [Common] (common.go): references to instances and [spec.allowedNamespaces],
      Secrets, endpoints, error classification, the adopted mark.
    - [Reconcile]: the [Reconcile] and [handleDeletion] functions that seven
      controllers share up to names, written once over the class [Reconciler], whose
      laws [ReconcilerLaws] each controller proves; [recordCreated] and [pushSpec],
      the two writes every body shares.
    - [Team], [VirtualKey], [Model], [User], [Organization], [Customer], [Budget]:
      the bodies of the controllers ([reconcileTeam], [reconcileKey], ...), each an
      instance of [Reconciler]; [Bodies]: the calls of the last three; [Password]: base64, the PHC digest of the initial
      password and its parser; [Credential]: the credential controller, which has a
      [Reconcile] of its own.
    - [Duration]: [time.ParseDuration] with its int64 overflow checks;
      [ConfigSync] (configsync_syncer.go, configsync_controller.go): the cycle that
      compares custom resources and LiteLLM objects; its six sync functions are one
      definition over the class [SyncKind].
    - [Rollout] (secret_rollout.go, configmap_rollout.go): the digests stamped on
      the pod template, and what a pod consumes, given as rules.
    - [ProxyConfig] (internal/resources/configmap.go): the configuration of the proxy
      as a tree of values, its sections, guardrails, cache, raw settings, and the
      names of the variables it refers to.
    - [Workload] (deployment.go, migration_job.go): the environment, the volumes and
      the container of the proxy, the Deployment, the migration Job and its name.
    - [Manifests]: the other builders of internal/resources (Service, autoscaler,
      disruption budget, network policy, routes, monitoring, backup, dashboard), and
      a recognizer of JSON texts.  [Wiring]: how these objects refer to each other.
    - The client (internal/litellm).  [Wire]: the JSON of every request and response,
      field by field as the struct tags say ([Encode], [OmitEmpty], [Decode]), Go's
      escaping of strings; [Client]: [NewClient], [do] and every method of the services
      over HTTP exchanges, and [client], which implements each [api_req];
      [ClientFacts]: errors and requests; [Redaction]: [SetPassword]; [Queries]: how the
      query of a URL is read; [Transport]: [lower], the controllers over HTTP; [Mock]:
      the mock client (mock_client.go).
    - [Cleared]: what the empty fields of an update do to what LiteLLM stores.
    - [Main] (cmd/main.go): flags, TLS options as slices in a heap, the calls up to the
      start of the manager.
    - [Watches]: the builder chains of [SetupWithManager], one per controller, as data; the
      events that enqueue a resource; the stamp each pass leaves in the status.
    - The generated deep copies (zz_generated.deepcopy.go).  [Memory]: a Go heap of
      variables, arrays and maps, the shapes of types, what a value represents ([reps],
      shared cells allowed; [owns], by cells of its own), and the rule of each statement the
      generator emits; [CopyTypes]: the structs of api/v1alpha1 as shapes; [DeepCopy]: the
      three methods of the 151 types, and the types registered; [DeepCopyFacts]: every one of
      them meets the contract [copies].
    - The instance controller (litellminstance_controller.go): [PodHealth]
      ([inspectPodHealth]); [InstanceResources] ([createOrUpdate] and the mutations of
      each owned object, the generated Secrets, the merge of the live Deployment);
      [InstanceStatus] (license, migration, rollback, probes); [Instance] (validation,
      status, the pass [ReconcileInstance], the watches); [InstanceCalls] and
      [InstanceReady], its theorems.  [Guardrail]: the guardrail controller.
    - [Examples], [CopyExamples], [WatchExamples], [InstanceExamples], [ClientExamples],
      [MainExamples]: a concrete cluster, a concrete instance and its renderings, a proxy, a command line, and the
      theorems with hypotheses applied to executions computed there.

    The parts meet in the instance controller: its pass lists the guardrails, renders
    [BuildConfigMap] and [BuildDeployment], stamps the digests of [Rollout] on the pod
    template, and writes what [createOrUpdate] merges.  The other controllers reach
    an instance through [resolveInstance] of [Common] and LiteLLM through the calls
    [KApi], each of which [client] implements by one exchange: [lower] composes the two,
    so the theorems on calls are theorems on the traffic.  Everywhere but in [Memory] and its
    clients objects are values: the deep copies are what makes this right where the code
    keeps a copy of an object it goes on to change.

    ** What the theorems show

    - Instances (C3, C18, C19, C20, C28, C40): what a pass may touch, by kind, name and
      namespace, when Ready is reported, the Secrets as an insert-if-absent store, the
      Deployment settles although the API server fills in defaults ([api_defaults], with an
      update that changes nothing in every pass: a defect), the license is watched where it is
      read; the automatic rollback changes nothing that lasts (C40, a defect).
    - References (C4): a reference across namespaces is guarded.
    - The loop (C1, C24, C25): finalizer before any LiteLLM call, no live resource is
      given up, deletion always completes and touches only what the resource owns.
    - Watches (C35, C36): six of the objects a controller reads under a name its resource
      gives are watched (the Secret of an inline key of a model is not,
      [model_secrets_not_watched]); every successful pass starts another one (C36, a defect).
    - Rendering (C9, C10, C11, C21, C22): raw settings never replace derived
      ones, the configuration is well typed, the Secrets it refers to reach the
      container, that of a guardrail unless another source claims the name of its variable;
      selectors, ports and names of the objects of an instance fit together
      (C22, with two defects in it).
    - Teams and organizations (C5, C26, C29): the membership of the recorded team or
      organization converges to what is asked for, and no other is touched; a team is bound
      only to one created or safely adopted.
    - Virtual keys (C8, C17): a key is rotated only when its Secret is gone, and stored
      before it is recorded.
    - Models (C30), guardrails (C23), organizations, customers and budgets (C14): what is
      sent or reported, and when; for C14 and C30 nothing else, and all that is due.
    - Passwords (C13, C31): sent only when they changed, recorded only when accepted,
      removed from the errors that echo them.
    - Config sync (C2, C27): pruning only unclaimed objects, writing only when custom
      resources win.
    - Rollouts (C32, C33): the references collected are what the pod consumes, and
      the digest sees exactly the consumed values when Secrets are consumed key by
      key and no value is the mark of a missing one ([missing_mark_collides]).
    - Pods (C39): the faulty pods of an unready instance, with bounded messages.
    - Deep copies (C34): the copy of every type is a snapshot, apart from the original.
    - The client (C6, C7, C12, C37, C38): one authenticated exchange per call, with
      errors that say what happened; the traffic of a controller is that of its calls, each
      the request the API table [wire] has for it; requests determine calls; lookups reach the object asked for, unless its
      identifier needs escaping; the mock behaves as some proxy would.
    - The entry point (C15, C16): set up in order or not at all; each server with its own
      certificate, but for the webhook server when the runtime leaves room in the array the two
      lists of options then share (the growth of arrays is the parameter [growslice]).

    Further results are lemmas of the files: [pushSpec_spec], [finishReconcile_spec],
    [reconcileUser_binds_safely], [reconcileCredential_calls], [handleDrift_remediates],
    [ConfigSyncReconcile_requeues], [reconcileKeySecret_writes], [updateKeySecret_converges],
    [passwordMatchesDigest_digestWith], [mergeEnvVars_spec], [volumes_mounted],
    [guardrails_rendered], [jobName_identifies], [env_names_valid],
    [grafanaDashboardJSON_valid], [podTemplateSecretHash_spec],
    [resolveInstance_reads_secrets_permitted], [reconcileMembers_calls],
    [registered_objects] and others, and
    some defects: [credential_orphaned_after_failed_pass] (a failed pass makes a later
    deletion leave the credential behind), [podTemplateSecretHash_collision] (Secrets
    consumed whole can exchange contents unseen), [redact_misses_other_escapes] (an echo
    escaped otherwise than by Go keeps the password), [customer_of_another] (an
    unescaped identifier reads as another one), [cleared_fields_stay] (a field cleared in a
    specification keeps its value in LiteLLM).  [InstanceExamples] computes more:
    colliding variables of guardrails, a password reference without a variable.

    ** What is not modelled, and why

    - controller-runtime, net/http, certificates, the flags of other packages, the deep
      copies of the Kubernetes types: their code is not in the repository; they are calls,
      parameters or classes with their documented behaviour as laws.
    - The text of the YAML encoding, of floats and times, and the JSON parser, which are
      parameters: configuration and bodies are modelled up to the tree that is encoded
      (the escaping of JSON strings is modelled, redaction depends on it).
    - The difference between nil and empty slices and maps, where the code does not
      test it.
    - Concurrency of passes: controller-runtime runs one pass per object at a time;
      interference of other writers is in the answers, which are arbitrary. *)

From stdpp Require Export base list strings gmap.
From Stdlib Require Export ZArith Lia.
From Stdlib Require Import Eqdep.
Open Scope Z_scope.

(** ** Go values shared by every component *)

(** Result of a fallible Go call [(x, err)]: callers test [err] before they
    touch [x]. *)
Inductive res (A E : Type) : Type :=
| Ok (a : A)
| Err (e : E).
Arguments Ok {A E} a.
Arguments Err {A E} e.

Definition is_Ok {A E} (r : res A E) : bool :=
  match r with Ok _ => true | Err _ => false end.

(** Reason carried by an error of the Kubernetes API machinery, as far as the
    operator looks at it. *)
Inductive KReason := KNotFound | KConflict | KOtherReason.

(** Go error values.  [Errorf fmt args w] is [fmt.Errorf]: [args] are the
    arguments other than the one formatted by [%w], which is [w] (what
    [errors.Unwrap] returns).  Texts are kept as format and arguments; the
    operator never inspects a rendered text. *)
Inductive error : Type :=
| ErrSentinel (name : string)
| ErrAPI (StatusCode : Z) (Message Path : string)
| ErrKube (reason : KReason) (msg : string)
| ErrLib (msg : string)
| Errorf (fmt : string) (args : list farg) (wrapped : option error)
with farg : Type :=
| FStr (s : string)
| FInt (z : Z)
| FErr (e : error).

(** A string built by [fmt.Sprintf]. *)
Record text := Sprintf { tx_fmt : string; tx_args : list farg }.

(** [err.Error()] and a string constant, as texts. *)
Definition err_text (e : error) : text := Sprintf "%v" [FErr e].
Definition lit (s : string) : text := Sprintf s [].

(** [errors.Unwrap]. *)
Definition errors_Unwrap (e : error) : option error :=
  match e with Errorf _ _ w => w | _ => None end.

(** The first error of the [Unwrap] chain of [e] on which [f] answers. *)
Fixpoint errors_find {A} (f : error → option A) (e : error) : option A :=
  match f e with
  | Some a => Some a
  | None =>
      match e with
      | Errorf _ _ (Some w) => errors_find f w
      | _ => None
      end
  end.

(** [errors.Is(err, sentinel)]: sentinels are compared by identity. *)
Definition errors_Is (e : error) (sentinel : string) : bool :=
  match errors_find (λ e, match e with
                          | ErrSentinel s => if decide (s = sentinel) then Some tt else None
                          | _ => None
                          end) e with
  | Some _ => true
  | None => false
  end.

(** [apierrors.IsNotFound]: looks through wrapped errors. *)
Definition apierrors_IsNotFound (e : error) : bool :=
  match errors_find (λ e, match e with ErrKube r _ => Some r | _ => None end) e with
  | Some KNotFound => true
  | _ => false
  end.

(** [client.IgnoreNotFound]. *)
Definition IgnoreNotFound (e : error) : option error :=
  if apierrors_IsNotFound e then None else Some e.

(** [time.Duration] in nanoseconds. *)
Definition time_Second : Z := 1000000000.
Definition time_Minute : Z := 60 * time_Second.

(** [ctrl.Result]. *)
Record Result := MkResult { RequeueAfter : Z; Requeue : bool }.
Definition Result0 : Result := MkResult 0 false.
Definition RequeueIn (d : Z) : Result := MkResult d false.

(** Map reads of Go: a missing key, or any key of a nil map, reads as the zero
    value. *)
Definition map_get_str (m : gmap string string) (k : string) : string := default "" (m !! k).

(** ** Lists and strings *)

(** Filters that agree on the elements of a list. *)
Lemma list_filter_ext_in {A} (P Q : A → Prop) `{∀ x, Decision (P x)} `{∀ x, Decision (Q x)} (l : list A) :
  (∀ x, x ∈ l → P x ↔ Q x) → filter P l = filter Q l.
Proof.
  induction l as [|x l IH]; intros Hl; [done|]. rewrite !filter_cons, IH by (intros; apply Hl; by right).
  destruct (decide (P x)) as [HP|HP]; destruct (decide (Q x)) as [HQ|HQ]; [done| | |done]; exfalso; [apply HQ|apply HP];
    by apply Hl; [left|].
Qed.

Lemma append_inj_l p s s' : p +:+ s = p +:+ s' → s = s'.
Proof. induction p as [|c p IH]; [done|]. intros [= Heq]. by apply IH. Qed.

Lemma append_assoc a b c : (a +:+ b) +:+ c = a +:+ (b +:+ c).
Proof. induction a as [|x a IH]; [done|]. exact (f_equal (String.String x) IH). Qed.

Lemma append_nil_r s : s +:+ "" = s.
Proof. induction s as [|c s IH]; [done|]. exact (f_equal (String.String c) IH). Qed.

(** The characters of a string. *)
Definition chars : string → list Ascii.ascii := String.list_ascii_of_string.

Lemma chars_app s s' : chars (s +:+ s') = chars s ++ chars s'.
Proof. induction s as [|a s IH]; [done|]. cbn. by rewrite <-IH. Qed.

Lemma chars_inj s s' : chars s = chars s' → s = s'.
Proof.
  intros Heq. rewrite <-(String.string_of_list_ascii_of_string s), <-(String.string_of_list_ascii_of_string s').
  by f_equal.
Qed.

Lemma append_inj_r p s s' : s +:+ p = s' +:+ p → s = s'.
Proof. intros Heq. apply chars_inj, (app_inv_tail (chars p)). by rewrite <-!chars_app, Heq. Qed.

(** A double quote. *)
Definition dquote : string := String.String (Ascii.ascii_of_nat 34) "".

Lemma length_append s s' : String.length (s +:+ s') = (String.length s + String.length s')%nat.
Proof. induction s as [|a s IH]; simpl; [done|]. by rewrite IH. Qed.

(** ** Programs over external calls

    A reconciler interacts with the outside (Kubernetes API server, LiteLLM
    proxy, clock) only through calls whose answers it does not control.  A
    program is a finite tree of calls; its behaviours are all the traces the
    tree allows, for every answer of the outside. *)

Record Sig := MkSig { op : Type; ar : op → Type }.

Section Programs.
Context {S : Sig}.

Inductive prog (A : Type) : Type :=
| Ret (a : A)
| Vis (c : op S) (k : ar S c → prog A).
Arguments Ret {A} a.
Arguments Vis {A} c k.

Record event := Ev { ev_op : op S; ev_ans : ar S ev_op }.

Definition hist := list event.

#[global] Instance prog_ret : MRet prog := @Ret.
#[global] Instance prog_bind : MBind prog :=
  λ A B f, fix go (p : prog A) : prog B :=
    match p with
    | Ret a => f a
    | Vis c k => Vis c (λ x, go (k x))
    end.

Definition call (c : op S) : prog (ar S c) := Vis c Ret.

(** [runs p t a]: answering the calls of [p] as in the trace [t], the program
    ends with [a]. *)
Fixpoint runs {A} (p : prog A) (t : hist) (a : A) : Prop :=
  match p with
  | Ret b => t = [] ∧ a = b
  | Vis c k => ∃ x t', t = Ev c x :: t' ∧ runs (k x) t' a
  end.

(** [partial p t]: [t] is the trace of an execution of [p] up to some point,
    such as a crash of the operator. *)
Fixpoint partial {A} (p : prog A) (t : hist) : Prop :=
  match p with
  | Ret _ => t = []
  | Vis c k => t = [] ∨ ∃ x t', t = Ev c x :: t' ∧ partial (k x) t'
  end.

(** [always G p]: in every execution of [p], complete or cut short, each call
    [c] issued after the history [h] satisfies [G h c]. *)
Definition always (G : hist → op S → Prop) {A} (p : prog A) : Prop :=
  ∀ t, partial p t → ∀ t1 e t2, t = t1 ++ e :: t2 → G t1 (ev_op e).

(** Answers allowed by an assumption [R] on the outside. *)
Fixpoint respects (R : hist → ∀ c, ar S c → Prop) (h t : hist) : Prop :=
  match t with
  | [] => True
  | e :: t' => R h (ev_op e) (ev_ans e) ∧ respects R (h ++ [e]) t'
  end.

Definition any_answer : hist → ∀ c, ar S c → Prop := λ _ _ _, True.

(** Weakest precondition: under the assumption [R] on the answers, every call
    of [p] satisfies [G] and the final history and value satisfy [Q]. *)
Fixpoint wp {A} (G : hist → op S → Prop) (R : hist → ∀ c, ar S c → Prop)
    (p : prog A) (h : hist) (Q : hist → A → Prop) : Prop :=
  match p with
  | Ret a => Q h a
  | Vis c k => G h c ∧ ∀ x, R h c x → wp G R (k x) (h ++ [Ev c x]) Q
  end.

(** Running a program against an executable outside with state [W]. *)
Fixpoint interp {A W} (srv : ∀ c, W → ar S c * W) (p : prog A) (w : W) : hist * A * W :=
  match p with
  | Ret a => ([], a, w)
  | Vis c k =>
      let '(x, w1) := srv c w in
      let '(t, a, w2) := interp srv (k x) w1 in
      (Ev c x :: t, a, w2)
  end.
End Programs.

Arguments prog : clear implicits.
Arguments event : clear implicits.
Arguments hist : clear implicits.
Arguments Ret {S A} a.
Arguments Vis {S A} c k.
Arguments Ev {S} ev_op ev_ans.

Section ProgramLemmas.
Context {S : Sig}.
Implicit Types (G : hist S → op S → Prop) (R : hist S → ∀ c, ar S c → Prop).

Lemma Ev_inj (c : op S) (x y : ar S c) : Ev c x = Ev c y → x = y.
Proof. intros Heq. injection Heq as Heq. by apply inj_pair2 in Heq. Qed.

Lemma Ev_cons_inj (c : op S) (x y : ar S c) (t t' : hist S) :
  Ev c x :: t = Ev c y :: t' → x = y ∧ t = t'.
Proof.
  intros Heq. split.
  - apply Ev_inj. apply (f_equal head) in Heq. simpl in Heq. congruence.
  - by apply (f_equal tail) in Heq.
Qed.

Lemma wp_ret {A} G R (a : A) h Q : Q h a → wp G R (mret a) h Q.
Proof. done. Qed.

Lemma wp_mono {A} G R (p : prog S A) h (Q Q' : hist S → A → Prop) :
  wp G R p h Q → (∀ h' a, Q h' a → Q' h' a) → wp G R p h Q'.
Proof. revert h. induction p as [a|c k IH]; simpl; naive_solver. Qed.

Lemma wp_weaken {A} G G' R (p : prog S A) h Q :
  wp G R p h Q → (∀ h c, G h c → G' h c) → wp G' R p h Q.
Proof. revert h. induction p as [a|c k IH]; simpl; naive_solver. Qed.

Lemma wp_bind {A B} G R (p : prog S A) (f : A → prog S B) h Q :
  wp G R p h (λ h' a, wp G R (f a) h' Q) → wp G R (p ≫= f) h Q.
Proof. revert h. induction p as [a|c k IH]; simpl; [done|]. naive_solver. Qed.

Lemma wp_call G R (c : op S) h Q :
  G h c → (∀ x, R h c x → Q (h ++ [Ev c x]) x) → wp G R (call c) h Q.
Proof. done. Qed.

Lemma wp_runs {A} G R (p : prog S A) h Q t a :
  wp G R p h Q → runs p t a → respects R h t → Q (h ++ t) a.
Proof.
  revert h t. induction p as [b|c k IH]; intros h t; simpl.
  - intros HQ [-> ->] _. by rewrite app_nil_r.
  - intros [_ Hk] (x & t' & -> & Hr) [HR Hresp].
    rewrite (cons_middle _ h t'), (app_assoc h). eauto.
Qed.

Lemma wp_partial {A} G R (p : prog S A) h Q t :
  wp G R p h Q → partial p t → respects R h t →
  ∀ t1 e t2, t = t1 ++ e :: t2 → G (h ++ t1) (ev_op e).
Proof.
  revert h t. induction p as [b|c k IH]; intros h t; simpl.
  - intros _ -> _ t1 e t2 Heq. by destruct t1.
  - intros [HG Hk] [->|(x & t' & -> & Hr)] Hresp t1 e t2 Heq; [by destruct t1|].
    destruct Hresp as [HR Hresp].
    destruct t1 as [|e' t1]; simplify_eq/=; [by rewrite app_nil_r|].
    specialize (IH x (h ++ [Ev c x]) _ (Hk x HR) Hr Hresp t1 e t2 eq_refl).
    by rewrite <- app_assoc in IH.
Qed.

Lemma respects_any h (t : hist S) : respects any_answer h t.
Proof. revert h. induction t; simpl; by eauto. Qed.

Lemma runs_partial {A} (p : prog S A) t a : runs p t a → partial p t.
Proof.
  revert t. induction p as [b|c k IH]; intros t; simpl; [by intros [-> _]|].
  intros (x & t' & -> & Hr). right. eauto.
Qed.

Lemma wp_always {A} G (p : prog S A) Q : wp G any_answer p [] Q → always G p.
Proof. intros Hwp t Ht. eapply (wp_partial _ _ _ []); eauto using respects_any. Qed.

Lemma wp_runs_any {A} G (p : prog S A) Q t a :
  wp G any_answer p [] Q → runs p t a → Q t a.
Proof. intros Hwp Hr. eapply (wp_runs _ _ _ []); eauto using respects_any. Qed.

Lemma interp_runs {A W} (srv : ∀ c, W → ar S c * W) (p : prog S A) w t a w' :
  interp srv p w = (t, a, w') → runs p t a.
Proof.
  revert w t. induction p as [b|c k IH]; intros w t; simpl; [by intros [= <- <- _]|].
  destruct (srv c w) as [x w1]. destruct (interp srv (k x) w1) as [[t1 a1] w2] eqn:Hi.
  intros [= <- <- <-]. eauto.
Qed.

Lemma interp_bind {A B W} (srv : ∀ c, W → ar S c * W) (p : prog S A) (f : A → prog S B) w :
  interp srv (p ≫= f) w =
  let '(t1, a, w1) := interp srv p w in
  let '(t2, b, w2) := interp srv (f a) w1 in (t1 ++ t2, b, w2).
Proof.
  revert w. induction p as [a|c k IH]; intros w; simpl.
  - by destruct (interp srv (f a) w) as [[t2 b] w2].
  - destruct (srv c w) as [x w1]. change (prog_bind A B f (k x)) with (k x ≫= f). rewrite IH. destruct (interp srv (k x) w1) as [[t1 a] w2].
    by destruct (interp srv (f a) w2) as [[t2 b] w3].
Qed.

Lemma interp_bind_eq {A B W} (srv : ∀ c, W → ar S c * W) (p : prog S A) (f : A → prog S B) w t1 a w1 t2 b w2 :
  interp srv p w = (t1, a, w1) → interp srv (f a) w1 = (t2, b, w2) →
  interp srv (p ≫= f) w = (t1 ++ t2, b, w2).
Proof. intros H1 H2. by rewrite interp_bind, H1, H2. Qed.

Lemma runs_bind_inv {A B} (p : prog S A) (f : A → prog S B) t b :
  runs (p ≫= f) t b → ∃ t1 t2 a, t = t1 ++ t2 ∧ runs p t1 a ∧ runs (f a) t2 b.
Proof.
  revert t. induction p as [a|c k IH]; intros t; simpl.
  - intros Hf. by exists [], t, a.
  - intros (x & t' & -> & Hr). destruct (IH x t' Hr) as (t1 & t2 & a & -> & H1 & H2).
    exists (Ev c x :: t1), t2, a. split; [done|]. split; [|done]. by exists x, t1.
Qed.

Lemma partial_bind_inv {A B} (p : prog S A) (f : A → prog S B) t :
  partial (p ≫= f) t → partial p t ∨ ∃ t1 t2 a, t = t1 ++ t2 ∧ runs p t1 a ∧ partial (f a) t2.
Proof.
  revert t. induction p as [a|c k IH]; intros t.
  - intros Hf. right. by exists [], t, a.
  - intros [->|(x & t' & -> & [Hk|(t1 & t2 & a & -> & Hr & Hf)]%IH)]; [by left; left|left; right; by exists x, t'|].
    right. exists (Ev c x :: t1), t2, a. split; [done|]. split; [by exists x, t1|done].
Qed.

Lemma runs_bind {A B} (p : prog S A) (f : A → prog S B) t1 t2 a b :
  runs p t1 a → runs (f a) t2 b → runs (p ≫= f) (t1 ++ t2) b.
Proof.
  revert t1. induction p as [a'|c k IH]; intros t1; simpl.
  - by intros [-> ->].
  - intros (x & t' & -> & Hr) Hf. exists x, (t' ++ t2). split; [done|]. by apply IH.
Qed.

(** A trace determines the part of it that belongs to a prefix of the program. *)
Lemma runs_bind_prefix {A B} (p : prog S A) (f : A → prog S B) t1 t2 a b :
  runs p t1 a → runs (p ≫= f) (t1 ++ t2) b → runs (f a) t2 b.
Proof.
  revert t1. induction p as [a'|c k IH]; intros t1; simpl.
  - by intros [-> ->].
  - intros (x & t' & -> & Hr) (y & t'' & Heq & Hr').
    apply Ev_cons_inj in Heq as [<- <-]. by eapply IH.
Qed.

(** Every program ends, whatever the answers: [interp] is total. *)
Lemma runs_exists {A W} (srv : ∀ c, W → ar S c * W) (p : prog S A) (w : W) :
  ∃ t a, runs p t a.
Proof. destruct (interp srv p w) as [[t a] w'] eqn:Hi. eauto using interp_runs. Qed.
End ProgramLemmas.

(** ** Handlers that mutate an object and return early

    A reconciler holds a Go object in memory, mutates it while it calls the
    outside, and leaves through many [return] statements.  [M S St Rt A] is a
    computation on the in-memory object [St] that either goes on with an [A] or
    has returned an [Rt]. *)

Definition M (S : Sig) (St Rt A : Type) : Type := St → prog S (St * (Rt + A)).

Section Handlers.
Context {S : Sig} {St Rt : Type}.

#[global] Instance M_ret : MRet (M S St Rt) := λ A a s, Ret (s, inr a).
#[global] Instance M_bind : MBind (M S St Rt) :=
  λ A B f m s,
    m s ≫= λ '(s', r),
      match r with
      | inl e => Ret (s', inl e)
      | inr a => f a s'
      end.

(** [return r] *)
Definition exit {A} (r : Rt) : M S St Rt A := λ s, Ret (s, inl r).
Definition get : M S St Rt St := λ s, Ret (s, inr s).
Definition put (s' : St) : M S St Rt unit := λ _, Ret (s', inr tt).
Definition modify (f : St → St) : M S St Rt unit := λ s, Ret (f s, inr tt).
Definition lift {A} (p : prog S A) : M S St Rt A := λ s, p ≫= λ a, Ret (s, inr a).

(** [x, err := p(); if err != nil { return f(err) }] *)
Definition try {A E} (m : M S St Rt (res A E)) (f : E → Rt) : M S St Rt A :=
  m ≫= λ r, match r with Ok a => mret a | Err e => exit (f e) end.

(** [err := p(); if err != nil { return f(err) }] *)
Definition check {E} (m : M S St Rt (option E)) (f : E → Rt) : M S St Rt unit :=
  m ≫= λ r, match r with None => mret tt | Some e => exit (f e) end.

Definition when (b : bool) (m : M S St Rt unit) : M S St Rt unit :=
  if b then m else mret tt.

(** [for _, x := range l { body }]; the body may return from the function. *)
Fixpoint for_each {A} (l : list A) (body : A → M S St Rt unit) : M S St Rt unit :=
  match l with
  | [] => mret tt
  | x :: l' => body x ≫= λ _, for_each l' body
  end.

(** A body all of whose paths return. *)
Definition run_M (m : M S St Rt Rt) (s : St) : prog S (St * Rt) :=
  m s ≫= λ '(s', r), Ret (s', match r with inl e => e | inr e => e end).

(** A call of another function that mutates the same object. *)
Definition call_fn {A} (m : M S St A A) : M S St Rt A :=
  λ s, m s ≫= λ '(s', r), Ret (s', inr match r with inl a => a | inr a => a end).
End Handlers.

Lemma get_bind {S : Sig} {St Rt B} (f : St → M S St Rt B) (s : St) : (get ≫= f) s = f s s.
Proof. done. Qed.

(** Rules of the weakest precondition for handlers: [wpM G R m s h Q] with
    [Q h s r] on the final history, object and early return or value. *)
Definition wpM {S St Rt A} (G : hist S → op S → Prop) (R : hist S → ∀ c, ar S c → Prop)
    (m : M S St Rt A) (s : St) (h : hist S) (Q : hist S → St → Rt + A → Prop) : Prop :=
  wp G R (m s) h (λ h' p, Q h' (fst p) (snd p)).

Section HandlerLemmas.
Context {S : Sig} {St Rt : Type}.
Implicit Types (G : hist S → op S → Prop) (R : hist S → ∀ c, ar S c → Prop) (s : St).

Lemma wpM_ret {A} G R (a : A) s h (Q : _ → _ → Rt + A → Prop) :
  Q h s (inr a) → wpM G R (mret a) s h Q.
Proof. done. Qed.

Lemma wpM_exit {A} G R (r : Rt) s h (Q : _ → _ → Rt + A → Prop) :
  Q h s (inl r) → wpM G R (exit r) s h Q.
Proof. done. Qed.

Lemma wpM_bind {A B} G R (m : M S St Rt A) (f : A → M S St Rt B) s h Q :
  wpM G R m s h (λ h' s' r, match r with
                            | inl e => Q h' s' (inl e)
                            | inr a => wpM G R (f a) s' h' Q
                            end) →
  wpM G R (m ≫= f) s h Q.
Proof.
  intros Hm. apply wp_bind. eapply wp_mono; [exact Hm|].
  intros h' [s' [e|a]] H; exact H.
Qed.

Lemma wpM_get G R s h (Q : _ → _ → Rt + St → Prop) : Q h s (inr s) → wpM G R get s h Q.
Proof. done. Qed.

Lemma wpM_put G R s s' h (Q : _ → _ → Rt + unit → Prop) :
  Q h s' (inr tt) → wpM G R (put s') s h Q.
Proof. done. Qed.

Lemma wpM_modify G R f s h (Q : _ → _ → Rt + unit → Prop) :
  Q h (f s) (inr tt) → wpM G R (modify f) s h Q.
Proof. done. Qed.

Lemma wpM_lift {A} G R (p : prog S A) s h (Q : _ → _ → Rt + A → Prop) :
  wp G R p h (λ h' a, Q h' s (inr a)) → wpM G R (lift p) s h Q.
Proof. intros H. apply wp_bind. eapply wp_mono; [exact H|]. done. Qed.

Lemma wpM_try {A E} G R (m : M S St Rt (res A E)) f s h Q :
  wpM G R m s h (λ h' s' r, match r with
                            | inl e => Q h' s' (inl e)
                            | inr (Ok a) => Q h' s' (inr a)
                            | inr (Err e) => Q h' s' (inl (f e))
                            end) →
  wpM G R (try m f) s h Q.
Proof.
  intros H. apply wpM_bind. eapply wp_mono; [exact H|].
  intros h' [s' [e|[a|e]]] Hq; exact Hq.
Qed.

Lemma wpM_check {E} G R (m : M S St Rt (option E)) f s h Q :
  wpM G R m s h (λ h' s' r, match r with
                            | inl e => Q h' s' (inl e)
                            | inr None => Q h' s' (inr tt)
                            | inr (Some e) => Q h' s' (inl (f e))
                            end) →
  wpM G R (check m f) s h Q.
Proof.
  intros H. apply wpM_bind. eapply wp_mono; [exact H|].
  intros h' [s' [e|[e|]]] Hq; exact Hq.
Qed.

Lemma wpM_when G R b m s h (Q : _ → _ → Rt + unit → Prop) :
  (b = true → wpM G R m s h Q) → (b = false → Q h s (inr tt)) → wpM G R (when b m) s h Q.
Proof. destruct b; simpl; intros H1 H2; [by apply H1|by apply H2]. Qed.

(** Loop rule: [I] holds between iterations, of the elements still to do. *)
Lemma wpM_for_each {A} G R (I : list A → hist S → St → Prop) (l : list A) body s h
    (Q : _ → _ → Rt + unit → Prop) :
  I l h s →
  (∀ x l' h' s', I (x :: l') h' s' →
     wpM G R (body x) s' h' (λ h'' s'' r, match r with
                                          | inl e => Q h'' s'' (inl e)
                                          | inr _ => I l' h'' s''
                                          end)) →
  (∀ h' s', I [] h' s' → Q h' s' (inr tt)) →
  wpM G R (for_each l body) s h Q.
Proof.
  intros HI Hbody HQ. revert h s HI. induction l as [|x l IH]; intros h s HI; simpl.
  - by apply wpM_ret, HQ.
  - apply wpM_bind. eapply wp_mono; [by apply Hbody|].
    intros h' [s' [e|[]]] H; [exact H|]. by apply IH.
Qed.

Lemma wp_run_M G R (m : M S St Rt Rt) s h Q :
  wpM G R m s h (λ h' s' r, Q h' (s', match r with inl e => e | inr e => e end)) →
  wp G R (run_M m s) h Q.
Proof.
  intros H. apply wp_bind. eapply wp_mono; [exact H|]. by intros h' [s' [e|e]].
Qed.

Lemma wpM_call_fn {A} G R (m : M S St A A) s h (Q : _ → _ → Rt + A → Prop) :
  wpM G R m s h (λ h' s' r, Q h' s' (inr match r with inl a => a | inr a => a end)) →
  wpM G R (call_fn m) s h Q.
Proof.
  intros H. apply wp_bind. eapply wp_mono; [exact H|]. by intros h' [s' [a|a]].
Qed.

Lemma wpM_mono {A} G R (m : M S St Rt A) s h (Q Q' : _ → _ → Rt + A → Prop) :
  wpM G R m s h Q → (∀ h' s' r, Q h' s' r → Q' h' s' r) → wpM G R m s h Q'.
Proof. intros H HQ. eapply wp_mono; [exact H|]. intros h' [s' r]; apply HQ. Qed.
End HandlerLemmas.

#[global] Arguments wp : simpl never.
#[global] Arguments wpM : simpl never.

Create HintDb go.
#[export] Hint Resolve wp_ret wpM_ret wpM_exit wpM_get wpM_put wpM_modify : go.

(** One step of symbolic execution of a program or handler.  [wp_simp] stops at
    the calls (whose guarantee is to be proved) and at the matches on data. *)
Ltac wp_step :=
  lazymatch goal with
  | |- wpM _ _ (mret _) _ _ _ => apply wpM_ret
  | |- wpM _ _ (exit _) _ _ _ => apply wpM_exit
  | |- wpM _ _ (_ ≫= _) _ _ _ => apply wpM_bind
  | |- wpM _ _ (try _ _) _ _ _ => apply wpM_try
  | |- wpM _ _ (check _ _) _ _ _ => apply wpM_check
  | |- wpM _ _ get _ _ _ => apply wpM_get
  | |- wpM _ _ (put _) _ _ _ => apply wpM_put
  | |- wpM _ _ (modify _) _ _ _ => apply wpM_modify
  | |- wpM _ _ (lift _) _ _ _ => apply wpM_lift
  | |- wpM _ _ (call_fn _) _ _ _ => apply wpM_call_fn
  | |- wpM _ _ (when _ _) _ _ _ => apply wpM_when; intros ?
  | |- wp _ _ (mret _) _ _ => apply wp_ret
  | |- wp _ _ (Ret _) _ _ => apply wp_ret
  | |- wp _ _ (_ ≫= _) _ _ => apply wp_bind
  | |- wp _ _ (call _) _ _ => apply wp_call; [|intros ? ?]
  | |- wp _ _ (run_M _ _) _ _ => apply wp_run_M
  end.
