(* ===== verification/Memory.v ===== *)
(** * Go memory: structs, pointers, slices and maps

    The memory that the generated deep copies (zz_generated.deepcopy.go) read and write:
    a heap of variables, arrays and maps, with pointers, slices and map references into it.
    The shape of a Go type is a [ty]; what a value of that type stands for, once every
    reference is followed, is a [data].  [reps] says that a heap represents a [data], shared
    cells allowed; [owns] that it does so with every reference to cells of its own.
    [copies t f] is the contract of a deep copy of type [t], and the section [Rules] proves
    it for the statements controller-gen emits. *)

From S2P Require Import Prelude.

(** ** Values *)

Notation loc := positive.

Inductive basic :=
| BBool (b : bool)
| BInt (z : Z)
| BFloat (bits : Z)
| BString (s : string).

(** Values as a variable holds them.  A slice is a window of an array; [VNil] is the nil
    pointer, slice or map. *)
Inductive value :=
| VBasic (b : basic)
| VNil
| VPtr (l : loc)
| VSlice (l : loc) (off len : nat)
| VMap (l : loc)
| VStruct (fs : list (string * value)).

Inductive cell :=
| CVar (v : value)
| CArray (vs : list value)
| CMap (m : gmap string value).

Notation heap := (gmap positive cell).

(** Types. *)
Inductive kind := KBool | KInt | KFloat | KString.

Inductive ty :=
| TBasic (k : kind)
| TPtr (t : ty)
| TSlice (t : ty)
| TMap (t : ty)
| TStruct (fs : list (string * ty)).

Definition kind_of (b : basic) : kind :=
  match b with BBool _ => KBool | BInt _ => KInt | BFloat _ => KFloat | BString _ => KString end.

(** The zero value of a type. *)
Definition zero_basic (k : kind) : basic :=
  match k with KBool => BBool false | KInt => BInt 0 | KFloat => BFloat 0 | KString => BString "" end.

Fixpoint zero (t : ty) : value :=
  match t with
  | TBasic k => VBasic (zero_basic k)
  | TPtr _ | TSlice _ | TMap _ => VNil
  | TStruct fs =>
      VStruct ((fix go (fs : list (string * ty)) : list (string * value) :=
                  match fs with [] => [] | (F, t) :: fs => (F, zero t) :: go fs end) fs)
  end.

(** No reference inside: assigning such a value copies all of it. *)
Fixpoint plain (t : ty) : bool :=
  match t with
  | TBasic _ => true
  | TPtr _ | TSlice _ | TMap _ => false
  | TStruct fs =>
      (fix go (fs : list (string * ty)) : bool :=
         match fs with [] => true | (_, t) :: fs => plain t && go fs end) fs
  end.

(** What a value stands for. *)
Inductive data :=
| DBasic (b : basic)
| DNil
| DPtr (d : data)
| DSlice (ds : list data)
| DMap (m : gmap string data)
| DStruct (fs : list (string * data)).

(** ** Programs on the memory

    [None] is a panic: nil dereferenced, index out of range, a value of another type. *)
Definition mem (A : Type) : Type := heap → option (A * heap).

#[export] Instance mem_ret : MRet mem := λ A a h, Some (a, h).
#[export] Instance mem_bind : MBind mem := λ A B f p h, '(a, h') ← p h; f a h'.

Definition copier := value → mem value.

Definition panic {A} : mem A := λ _, None.
Definition of_option {A} (o : option A) : mem A := λ h, (λ a, (a, h)) <$> o.

Definition alloc (c : cell) : mem loc := λ h, let l := fresh (dom h) in Some (l, <[l := c]> h).
Definition store (l : loc) (c : cell) : mem unit := λ h, _ ← h !! l; Some (tt, <[l := c]> h).
Definition read (l : loc) : mem cell := λ h, (λ c, (c, h)) <$> h !! l.

Definition is_nil (v : value) : bool := match v with VNil => true | _ => false end.

(** [*p] *)
Definition load (v : value) : mem value :=
  match v with
  | VPtr l => c ← read l; match c with CVar w => mret w | _ => panic end
  | _ => panic
  end.

(** [len(s)] and [s[i]] of a slice that is not nil. *)
Definition slice_len (v : value) : mem nat :=
  match v with VSlice _ _ n => mret n | _ => panic end.

Definition index (v : value) (i : nat) : mem value :=
  match v with
  | VSlice l off n =>
      c ← read l;
      match c with
      | CArray ws => if decide (i < n)%nat then of_option (ws !! (off + i)%nat) else panic
      | _ => panic
      end
  | _ => panic
  end.

(** [s[i] = w] of a slice made at [l], and [m[key] = w] of a map made at [l]. *)
Definition set_index (l : loc) (i : nat) (w : value) : mem unit :=
  c ← read l;
  match c with
  | CArray ws => if decide (i < length ws)%nat then store l (CArray (<[i := w]> ws)) else panic
  | _ => panic
  end.

Definition set_key (l : loc) (key : string) (w : value) : mem unit :=
  c ← read l;
  match c with CMap m => store l (CMap (<[key := w]> m)) | _ => panic end.

Definition map_of (v : value) : mem (gmap string value) :=
  match v with
  | VMap l => c ← read l; match c with CMap m => mret m | _ => panic end
  | _ => panic
  end.

(** [v.F] and [v.F = w]. *)
Fixpoint lookup_field (F : string) (fs : list (string * value)) : option value :=
  match fs with
  | [] => None
  | (G, v) :: fs => if decide (F = G) then Some v else lookup_field F fs
  end.

Fixpoint insert_field (F : string) (w : value) (fs : list (string * value)) : list (string * value) :=
  match fs with
  | [] => []
  | (G, v) :: fs => if decide (F = G) then (G, w) :: fs else (G, v) :: insert_field F w fs
  end.

Definition field (F : string) (v : value) : mem value :=
  match v with VStruct fs => of_option (lookup_field F fs) | _ => panic end.

Definition set_field (F : string) (w v : value) : value :=
  match v with VStruct fs => VStruct (insert_field F w fs) | _ => v end.

(** [range] visits the entries of a map in an order the language leaves open. *)
Class RangeOrder := {
  range_order : heap → gmap string value → list (string * value);
  range_order_perm h m : range_order h m ≡ₚ map_to_list m;
}.

Definition range_map `{RangeOrder} (m : gmap string value) : mem (list (string * value)) :=
  λ h, Some (range_order h m, h).

(** ** The statements of a generated [DeepCopyInto]

    A statement handles one field: given [in.F], it yields the new [out.F], or [None] when
    it leaves it as it is. *)
Definition stmt : Type := string * (value → mem (option value)).

Fixpoint exec (ss : list stmt) (i o : value) : mem value :=
  match ss with
  | [] => mret o
  | (F, s) :: ss =>
      x ← field F i;
      r ← s x;
      exec ss i (match r with Some y => set_field F y o | None => o end)
  end.

(** [*out = *in], then the statements.  The variable behind [out] is threaded as a value: every
    caller passes one that nothing else refers to yet (the field of a copy being made, an
    element of an array just made, or what [new] returned). *)
Definition into (ss : list stmt) : copier := λ i, exec ss i i.

(** [out.F = in.F] *)
Definition assign_field (F : string) : stmt := (F, λ x, mret (Some x)).

(** [in.F.DeepCopyInto(&out.F)] *)
Definition field_into (F : string) (f : copier) : stmt := (F, λ x, y ← f x; mret (Some y)).

(** [if in.F != nil { in, out := &in.F, &out.F; ... }], the body yielding [*out] from [*in]. *)
Definition if_set (F : string) (body : copier) : stmt :=
  (F, λ x, if is_nil x then mret None else y ← body x; mret (Some y)).

(** [*out = new(T); **out = **in] *)
Definition new_assign (t : ty) : copier := λ x,
  l ← alloc (CVar (zero t));
  w ← load x;
  _ ← store l (CVar w);
  mret (VPtr l).

(** [*out = new(T); ( *in).DeepCopyInto( *out)] *)
Definition new_into (t : ty) (f : copier) : copier := λ x,
  l ← alloc (CVar (zero t));
  w ← load x;
  y ← f w;
  _ ← store l (CVar y);
  mret (VPtr l).

(** [for i := range *in] from index [i] on, [n] times. *)
Fixpoint range_slice (body : nat → mem unit) (i n : nat) : mem unit :=
  match n with
  | O => mret tt
  | S n => _ ← body i; range_slice body (S i) n
  end.

(** [*out = make([]T, len( *in)); for i := range *in { ( *in)[i].DeepCopyInto(&( *out)[i]) }] *)
Definition make_slice_into (t : ty) (f : copier) : copier := λ x,
  n ← slice_len x;
  l ← alloc (CArray (replicate n (zero t)));
  _ ← range_slice (λ i, w ← index x i; y ← f w; set_index l i y) 0 n;
  mret (VSlice l 0 n).

(** [*out = make([]T, len( *in)); copy( *out, *in)] *)
Definition make_slice_copy (t : ty) : copier := make_slice_into t mret.

(** [for key, val := range *in { ( *out)[key] = ... }] *)
Fixpoint range_entries (body : copier) (l : loc) (kvs : list (string * value)) : mem unit :=
  match kvs with
  | [] => mret tt
  | (key, val) :: kvs => w ← body val; _ ← set_key l key w; range_entries body l kvs
  end.

Section Statements.
Context `{RangeOrder}.

(** [*out = make(map[string]T, len( *in)); for key, val := range *in { ( *out)[key] = body val }] *)
Definition make_map (body : copier) : copier := λ x,
  m ← map_of x;
  l ← alloc (CMap ∅);
  kvs ← range_map m;
  _ ← range_entries body l kvs;
  mret (VMap l).

(** [( *out)[key] = *val.DeepCopy()]: [val] is a variable of the loop, the method takes its
    address. *)
Definition deref_copy (f : copier) : copier := λ val,
  l ← alloc (CVar val);
  p ← f (VPtr l);
  load p.

(** [var outVal T; if val == nil { ( *out)[key] = nil } else { ... }; ( *out)[key] = outVal] *)
Definition unless_nil (body : copier) : copier := λ val,
  if is_nil val then mret VNil else body val.

End Statements.

(** [func (in *T) DeepCopy() *T] *)
Definition DeepCopy_of (t : ty) (f : copier) : copier := λ x,
  if is_nil x then mret VNil else new_into t f x.

(** [func (in *T) DeepCopyObject() runtime.Object]: [None] is the nil interface. *)
Definition DeepCopyObject_of (f : copier) (x : value) : mem (option value) :=
  c ← f x;
  mret (if is_nil c then None else Some c).

(** ** Representation

    Assertions hold in every larger heap.  The conjunction of the parts of a value is a
    parameter: [∧] lets them share cells, [sep] does not. *)
Definition assertion := heap → Prop.

Definition points (l : loc) (c : cell) : assertion := λ h, h !! l = Some c.
Definition conj (P Q : assertion) : assertion := λ h, P h ∧ Q h.
Definition sep (P Q : assertion) : assertion := λ h,
  ∃ h1 h2, h1 ##ₘ h2 ∧ h1 ⊆ h ∧ h2 ⊆ h ∧ P h1 ∧ Q h2.

Section Rep.
Variable star : assertion → assertion → assertion.

(** Two lists related element by element, the parts starred. *)
Fixpoint star_list {A B} (R : A → B → assertion) (l : list A) (k : list B) : assertion :=
  match l, k with
  | [], [] => λ _, True
  | x :: l, y :: k => star (R x y) (star_list R l k)
  | _, _ => λ _, False
  end.

Fixpoint rep (t : ty) : value → data → assertion :=
  match t with
  | TBasic k => λ v d _, ∃ b, kind_of b = k ∧ v = VBasic b ∧ d = DBasic b
  | TPtr t => λ v d h,
      (v = VNil ∧ d = DNil) ∨
      ∃ l w e, v = VPtr l ∧ d = DPtr e ∧ star (points l (CVar w)) (rep t w e) h
  | TSlice t => λ v d h,
      (v = VNil ∧ d = DNil) ∨
      ∃ l off n ws es, v = VSlice l off n ∧ d = DSlice es ∧ (off + n ≤ length ws)%nat ∧
        star (points l (CArray ws)) (star_list (rep t) (take n (drop off ws)) es) h
  | TMap t => λ v d h,
      (v = VNil ∧ d = DNil) ∨
      ∃ l kvs kes, v = VMap l ∧ d = DMap (list_to_map kes) ∧ kvs.*1 = kes.*1 ∧ NoDup kvs.*1 ∧
        star (points l (CMap (list_to_map kvs))) (star_list (rep t) kvs.*2 kes.*2) h
  | TStruct fs => λ v d h, ∃ vs ds, v = VStruct vs ∧ d = DStruct ds ∧
      (fix go (fs : list (string * ty)) (vs : list (string * value)) (ds : list (string * data)) : assertion :=
         match fs, vs, ds with
         | [], [], [] => λ _, True
         | (F, t) :: fs, (G, w) :: vs, (G', e) :: ds => λ h,
             F = G ∧ F = G' ∧ star (rep t w e) (go fs vs ds) h
         | _, _, _ => λ _, False
         end) fs vs ds h
  end.

(** The part of [rep] on the fields of a struct. *)
Fixpoint rep_fields (fs : list (string * ty)) (vs : list (string * value)) (ds : list (string * data)) : assertion :=
  match fs, vs, ds with
  | [], [], [] => λ _, True
  | (F, t) :: fs, (G, w) :: vs, (G', e) :: ds => λ h, F = G ∧ F = G' ∧ star (rep t w e) (rep_fields fs vs ds) h
  | _, _, _ => λ _, False
  end.

End Rep.

Definition reps : ty → value → data → assertion := rep conj.
Definition owns : ty → value → data → assertion := rep sep.

(** The contract of a deep copy: it does not panic, changes no cell that was there, and what
    it returns stands for the same data by new cells only. *)
Definition copies (t : ty) (f : copier) : Prop :=
  ∀ h v d, reps t v d h →
    ∃ v' hx, f v h = Some (v', h ∪ hx) ∧ h ##ₘ hx ∧ owns t v' d hx.

(** ** Lemmas on representation *)

(** Induction on types, through the fields of structs. *)
Lemma ty_rect_fields (P : ty → Prop) :
  (∀ k, P (TBasic k)) → (∀ t, P t → P (TPtr t)) → (∀ t, P t → P (TSlice t)) → (∀ t, P t → P (TMap t)) →
  (∀ fs, Forall (P ∘ snd) fs → P (TStruct fs)) → ∀ t, P t.
Proof.
  intros Hb Hp Hs Hm Hf. fix IH 1. intros [k|t|t|t|fs]; [apply Hb|apply Hp, IH|apply Hs, IH|apply Hm, IH|].
  apply Hf. induction fs as [|[F t] fs IHfs]; constructor; [apply IH|exact IHfs].
Qed.

Lemma rep_struct star fs v d h :
  rep star (TStruct fs) v d h ↔ ∃ vs ds, v = VStruct vs ∧ d = DStruct ds ∧ rep_fields star fs vs ds h.
Proof. reflexivity. Qed.

Definition upward (P : assertion) : Prop := ∀ h h', h ⊆ h' → P h → P h'.

Lemma upward_points l c : upward (points l c).
Proof. intros h h' Hh Hp. by eapply lookup_weaken. Qed.

Lemma upward_conj P Q : upward P → upward Q → upward (conj P Q).
Proof. intros HP HQ h h' Hh [? ?]. split; eauto. Qed.

Lemma upward_sep P Q : upward P → upward Q → upward (sep P Q).
Proof. intros _ _ h h' Hh (h1 & h2 & Hd & H1 & H2 & ?). exists h1, h2. split_and!; [done|by etrans..|tauto|tauto]. Qed.

Section Upward.
Variable star : assertion → assertion → assertion.
Hypothesis upward_star : ∀ P Q, upward P → upward Q → upward (star P Q).

Lemma upward_star_list {A B} (R : A → B → assertion) l k :
  (∀ x y, upward (R x y)) → upward (star_list star R l k).
Proof.
  intros HR. revert k. induction l as [|x l IH]; intros [|y k]; simpl; try by intros ????.
  by apply upward_star.
Qed.

Lemma upward_rep t : ∀ v d, upward (rep star t v d).
Proof using upward_star.
  induction t as [k|t IH|t IH|t IH|fs IH] using ty_rect_fields; intros v d h h' Hh.
  - done.
  - intros [?|(l & w & e & ? & ? & Hr)]; [by left|]. right. exists l, w, e. split_and!; [done..|].
    by eapply (upward_star _ _ (upward_points _ _) (IH _ _)).
  - intros [?|(l & off & n & ws & es & ? & ? & ? & Hr)]; [by left|]. right. exists l, off, n, ws, es. split_and!; [done..|].
    by eapply (upward_star _ _ (upward_points _ _) (upward_star_list _ _ _ IH)).
  - intros [?|(l & kvs & kes & ? & ? & ? & ? & Hr)]; [by left|]. right. exists l, kvs, kes. split_and!; [done..|].
    by eapply (upward_star _ _ (upward_points _ _) (upward_star_list _ _ _ IH)).
  - rewrite !rep_struct. intros (vs & ds & -> & -> & Hr). exists vs, ds. split_and!; [done..|].
    revert vs ds h h' Hh Hr. induction IH as [|[F t] fs Ht Hfs IHfs]; intros [|[G w] vs] [|[G' e] ds] h h' Hh; simpl; try done.
    intros (-> & <- & Hr). split_and!; [done..|].
    refine (upward_star _ _ (Ht _ _) _ _ _ Hh Hr). intros h1 h2 H12. by apply IHfs.
Qed.

Lemma upward_fields fs vs ds : upward (rep_fields star fs vs ds).
Proof using upward_star.
  revert vs ds. induction fs as [|[F t] fs IH]; intros [|[G w] vs] [|[G' e] ds] h h' Hh; simpl; try done.
  intros (-> & <- & Hr). split_and!; [done..|]. refine (upward_star _ _ (upward_rep _ _ _) _ _ _ Hh Hr). apply IH.
Qed.

End Upward.

#[export] Hint Resolve upward_points upward_conj upward_sep upward_star_list upward_rep upward_fields : memory.

Lemma reps_mono t v d h h' : h ⊆ h' → reps t v d h → reps t v d h'.
Proof. apply upward_rep; eauto with memory. Qed.

Lemma owns_mono t v d h h' : h ⊆ h' → owns t v d h → owns t v d h'.
Proof. apply upward_rep; eauto with memory. Qed.

(** What is owned can be read. *)
Lemma sep_conj (P P' Q Q' : assertion) h :
  upward P' → upward Q' → (∀ h, P h → P' h) → (∀ h, Q h → Q' h) → sep P Q h → conj P' Q' h.
Proof. intros HP HQ H1 H2 (h1 & h2 & _ & Hh1 & Hh2 & ? & ?). split; eauto. Qed.

Lemma star_list_sep_conj {A B} (R R' : A → B → assertion) l k h :
  (∀ x y, upward (R' x y)) → (∀ x y h, R x y h → R' x y h) → star_list sep R l k h → star_list conj R' l k h.
Proof.
  intros HR' HR. revert k h. induction l as [|x l IH]; intros [|y k] h; simpl; try done.
  apply sep_conj; eauto with memory.
Qed.

Lemma owns_reps t : ∀ v d h, owns t v d h → reps t v d h.
Proof.
  unfold owns, reps. induction t as [k|t IH|t IH|t IH|fs IH] using ty_rect_fields; intros v d h.
  - done.
  - intros [?|(l & w & e & ? & ? & Hr)]; [by left|]. right. exists l, w, e. split_and!; [done..|].
    revert Hr. apply sep_conj; eauto with memory.
  - intros [?|(l & off & n & ws & es & ? & ? & ? & Hr)]; [by left|]. right. exists l, off, n, ws, es. split_and!; [done..|].
    revert Hr. apply sep_conj; eauto using star_list_sep_conj with memory.
  - intros [?|(l & kvs & kes & ? & ? & ? & ? & Hr)]; [by left|]. right. exists l, kvs, kes. split_and!; [done..|].
    revert Hr. apply sep_conj; eauto using star_list_sep_conj with memory.
  - rewrite !rep_struct. intros (vs & ds & -> & -> & Hr). exists vs, ds. split_and!; [done..|].
    revert vs ds h Hr. induction IH as [|[F t] fs Ht Hfs IHfs]; intros [|[G w] vs] [|[G' e] ds] h; simpl; try done.
    intros (-> & <- & Hr). split_and!; [done..|]. revert Hr. apply sep_conj; eauto with memory.
Qed.

Lemma sep_intro (P Q : assertion) h1 h2 h : h1 ##ₘ h2 → h1 ⊆ h → h2 ⊆ h → P h1 → Q h2 → sep P Q h.
Proof. intros. by exists h1, h2. Qed.

(** A value without references stands for itself in any heap. *)
Lemma plain_owns t : ∀ v d h, plain t = true → reps t v d h → owns t v d ∅.
Proof.
  unfold owns, reps. induction t as [k|t IH|t IH|t IH|fs IH] using ty_rect_fields; intros v d h; [done..|].
  rewrite !rep_struct. intros Hp (vs & ds & -> & -> & Hr). exists vs, ds. split_and!; [done..|].
  revert vs ds Hr Hp. induction IH as [|[F t] fs Ht Hfs IHfs]; intros [|[G w] vs] [|[G' e] ds]; simpl; try done.
  intros (-> & <- & Hr1 & Hr2) [Hp1 Hp2]%andb_true_iff. split_and!; [done..|].
  apply (sep_intro _ _ ∅ ∅); [by apply map_disjoint_empty_l|done..|by eapply Ht|by apply IHfs].
Qed.

(** ** Rules: every statement of a generated [DeepCopyInto] keeps the contract *)

Definition nilable (t : ty) : bool := match t with TPtr _ | TSlice _ | TMap _ => true | _ => false end.

(** The contract on values that are not nil, and of a statement. *)
Definition copies_set (t : ty) (f : copier) : Prop :=
  ∀ h v d, is_nil v = false → reps t v d h →
    ∃ v' hx, f v h = Some (v', h ∪ hx) ∧ h ##ₘ hx ∧ owns t v' d hx.

Definition copies_stmt (t : ty) (s : value → mem (option value)) : Prop :=
  ∀ h v d, reps t v d h →
    ∃ r hx, s v h = Some (r, h ∪ hx) ∧ h ##ₘ hx ∧ owns t (default v r) d hx.

Lemma bind_some {A B} (p : mem A) (f : A → mem B) h a h' : p h = Some (a, h') → (p ≫= f) h = f a h'.
Proof. intros Hp. unfold mbind, mem_bind. by rewrite Hp. Qed.

Lemma union_insert_r (h hx : heap) l c : h !! l = None → <[l := c]> (h ∪ hx) = h ∪ <[l := c]> hx.
Proof. apply insert_union_r. Qed.

Lemma alloc_fresh c h : ∃ l, alloc c h = Some (l, h ∪ <[l := c]> ∅) ∧ h !! l = None.
Proof.
  exists (fresh (dom h)). assert (h !! fresh (dom h) = None) as Hl by apply not_elem_of_dom, is_fresh.
  unfold alloc. by rewrite <-union_insert_r, (right_id_L ∅ (∪) _).
Qed.

Lemma store_new l c c0 (h hx : heap) :
  h !! l = None → store l c (h ∪ <[l := c0]> hx) = Some (tt, h ∪ <[l := c]> hx).
Proof.
  intros Hl. unfold store. rewrite lookup_union_r, lookup_insert_eq by done. simpl.
  by rewrite union_insert_r, insert_insert_eq.
Qed.

Lemma read_new l c0 (h hx : heap) :
  h !! l = None → read l (h ∪ <[l := c0]> hx) = Some (c0, h ∪ <[l := c0]> hx).
Proof. intros Hl. unfold read. by rewrite lookup_union_r, lookup_insert_eq by done. Qed.

Lemma read_old l c (h hx : heap) : h !! l = Some c → read l (h ∪ hx) = Some (c, h ∪ hx).
Proof. intros Hl. unfold read. by rewrite (lookup_union_Some_l _ _ _ _ Hl). Qed.

Lemma disjoint_new (h hx : heap) l c : h ##ₘ hx → h !! l = None → h ##ₘ <[l := c]> hx.
Proof. intros. by apply map_disjoint_insert_r_2. Qed.

(** A variable, an array or a map made for the copy, apart from what it refers to. *)
Lemma owns_cell (P : assertion) l c (hx : heap) : hx !! l = None → P hx → sep (points l c) P (<[l := c]> hx).
Proof.
  intros Hl HP. apply (sep_intro _ _ {[l := c]} hx).
  - by apply map_disjoint_singleton_l.
  - rewrite map_singleton_subseteq_l. apply lookup_insert_eq.
  - by apply insert_subseteq.
  - apply lookup_singleton_eq.
  - done.
Qed.

Lemma copies_mret t : plain t = true → copies t mret.
Proof.
  intros Ht h v d Hr. exists v, ∅. split_and!.
  - by rewrite (right_id_L ∅ (∪) _).
  - apply map_disjoint_empty_r.
  - by eapply plain_owns.
Qed.

Lemma nil_owns t d : nilable t = true → (∃ h, reps t VNil d h) → owns t VNil d ∅.
Proof.
  unfold owns, reps. destruct t; try done; intros _ [h Hr]; left; naive_solver.
Qed.

Lemma is_nil_inv v : is_nil v = true → v = VNil.
Proof. by destruct v. Qed.

(** [*out = ( *in).DeepCopy()] and the methods [DeepCopy] themselves copy nil as nil. *)
Lemma copies_or_nil t f : nilable t = true → copies_set t f →
  copies t (λ x, if is_nil x then mret VNil else f x).
Proof.
  intros Ht Hf h v d Hr. destruct (is_nil v) eqn:Hv; [|by apply Hf].
  apply is_nil_inv in Hv as ->. exists VNil, ∅. split_and!.
  - by rewrite (right_id_L ∅ (∪) _).
  - apply map_disjoint_empty_r.
  - eauto using nil_owns.
Qed.

Lemma copies_copies_set t f : copies t f → copies_set t f.
Proof. intros Hf h v d _. apply Hf. Qed.

Lemma copies_if_set t F f : nilable t = true → copies_set t f → copies_stmt t (if_set F f).2.
Proof.
  intros Ht Hf h v d Hr. simpl. destruct (is_nil v) eqn:Hv.
  - apply is_nil_inv in Hv as ->. exists None, ∅. split_and!.
    + by rewrite (right_id_L ∅ (∪) _).
    + apply map_disjoint_empty_r.
    + eauto using nil_owns.
  - destruct (Hf h v d Hv Hr) as (v' & hx & Hrun & Hd & Ho). exists (Some v'), hx.
    split_and!; [|done|done]. by rewrite (bind_some _ _ _ _ _ Hrun).
Qed.

Lemma copies_field_into t F f : copies t f → copies_stmt t (field_into F f).2.
Proof.
  intros Hf h v d Hr. destruct (Hf h v d Hr) as (v' & hx & Hrun & Hd & Ho). exists (Some v'), hx.
  split_and!; [|done|done]. simpl. by rewrite (bind_some _ _ _ _ _ Hrun).
Qed.

Lemma copies_assign_field t F : plain t = true → copies_stmt t (assign_field F).2.
Proof.
  intros Ht h v d Hr. destruct (copies_mret t Ht h v d Hr) as (v' & hx & [= <- Hh] & Hd & Ho).
  exists (Some v), hx. simpl. by rewrite <-Hh.
Qed.

Lemma copies_new_into t z f : copies t f → copies_set (TPtr t) (new_into z f).
Proof.
  intros Hf h v d Hnil [[-> _]|(l0 & w & e & -> & -> & Hl0 & Hw)]; [done|]. unfold points in Hl0.
  destruct (alloc_fresh (CVar (zero z)) h) as (l & Ha & Hl).
  set (h1 := h ∪ <[l := CVar (zero z)]> ∅) in *.
  destruct (Hf h1 w e) as (y & hx & Hrun & Hd & Ho).
  { eapply reps_mono; [|exact Hw]. apply map_union_subseteq_l. }
  assert (hx !! l = None ∧ h ##ₘ hx) as [Hlx Hdx].
  { apply map_disjoint_union_l in Hd as [? Hd]. split; [|done]. by apply map_disjoint_insert_l in Hd as [? _]. }
  exists (VPtr l), (<[l := CVar y]> hx). split_and!; [|by apply disjoint_new|].
  - unfold new_into. rewrite (bind_some _ _ _ _ _ Ha). unfold load.
    rewrite (bind_some _ _ _ w h1), (bind_some _ _ _ _ _ Hrun), (bind_some _ _ _ tt (h ∪ <[l := CVar y]> hx)); [done| |].
    + unfold h1. rewrite <-(map_union_assoc h), <-insert_union_l, (left_id_L ∅ (∪) hx). by apply store_new.
    + rewrite (bind_some _ _ _ (CVar w) h1); [done|]. by apply read_old.
  - right. exists l, y, e. split_and!; [done..|]. by apply owns_cell.
Qed.

Lemma copies_new_assign t z : plain t = true → copies_set (TPtr t) (new_assign z).
Proof. intros Ht. exact (copies_new_into t z mret (copies_mret t Ht)). Qed.

Lemma copies_DeepCopy t z f : copies t f → copies (TPtr t) (DeepCopy_of z f).
Proof. intros Hf. by apply copies_or_nil, copies_new_into. Qed.

(** The elements of an array, one more at the end. *)
Lemma owns_list_snoc {A B} (R : A → B → assertion) l k x y h1 h2 h :
  (∀ x y, upward (R x y)) → h1 ##ₘ h2 → h1 ⊆ h → h2 ⊆ h →
  star_list sep R l k h1 → R x y h2 → star_list sep R (l ++ [x]) (k ++ [y]) h.
Proof.
  intros HR. revert k h1 h. induction l as [|x' l IH]; intros [|y' k] h1 h Hd H1 H2; simpl; try done.
  - intros _ HR2. by apply (sep_intro _ _ h2 ∅); [apply map_disjoint_empty_r|done|apply map_empty_subseteq|..].
  - intros (h3 & h4 & Hd34 & H3 & H4 & HR3 & HR4) HR2.
    apply (sep_intro _ _ h3 (h4 ∪ h2)); [| |by apply map_union_least; [etrans|]|done|].
    + apply map_disjoint_union_r_2; [done|]. by eapply map_disjoint_weaken_l.
    + by etrans.
    + apply (IH k h4); [by eapply map_disjoint_weaken_l|apply map_union_subseteq_l|..|done|done].
      apply map_union_subseteq_r. by eapply map_disjoint_weaken_l.
Qed.

Lemma reps_list_lookup {A B} (R : A → B → assertion) l k i x h :
  star_list conj R l k h → l !! i = Some x → ∃ y, k !! i = Some y ∧ R x y h.
Proof.
  revert k i. induction l as [|x' l IH]; intros [|y' k] [|i]; simpl; try done.
  - intros [? _] [= ->]. eauto.
  - intros [_ ?]. by apply IH.
Qed.

Lemma star_list_length {A B} (star : assertion → assertion → assertion) (R : A → B → assertion) l k h :
  (∀ P Q h, star P Q h → ∃ h', Q h') → star_list star R l k h → length l = length k.
Proof.
  intros Hs. revert k h. induction l as [|x l IH]; intros [|y k] h; simpl; try done.
  intros [h' ?]%Hs. f_equal. eauto.
Qed.

Section Slices.
Context (t : ty) (f : copier) (Hf : copies t f) (h : heap) (x : value) (l : loc) (ws : list value) (es : list data).
Hypothesis Hws : star_list conj (reps t) ws es h.
Hypothesis Hx : ∀ i w hx, ws !! i = Some w → index x i (h ∪ hx) = Some (w, h ∪ hx).
Hypothesis Hl : h !! l = None.

Let body (i : nat) : mem unit := w ← index x i; y ← f w; set_index l i y.

(** The loop, with the elements [done] copied into cells [hd] and [n] to go. *)
Lemma range_slice_copies z n : ∀ dn hd,
  (length dn + n = length ws)%nat → h ##ₘ hd → hd !! l = None →
  star_list sep (owns t) dn (take (length dn) es) hd →
  ∃ vs hx, range_slice body (length dn) n (h ∪ <[l := CArray (dn ++ replicate n z)]> hd) =
      Some (tt, h ∪ <[l := CArray vs]> hx) ∧
    length vs = length ws ∧ h ##ₘ hx ∧ hx !! l = None ∧ star_list sep (owns t) vs es hx.
Proof using Hf Hl Hws Hx.
  assert (length ws = length es) as Hlen.
  { eapply star_list_length; [|exact Hws]. intros P Q h0 [_ ?]. eauto. }
  induction n as [|n IH]; intros dn hd Hn Hd Hhd Ho.
  { exists dn, hd. rewrite app_nil_r, take_ge in * by lia. split_and!; [done|lia|done..]. }
  destruct (lookup_lt_is_Some_2 ws (length dn)) as [w Hw]; [lia|].
  destruct (reps_list_lookup _ _ _ _ _ _ Hws Hw) as (e & He & Hr).
  destruct (Hf (h ∪ <[l := CArray (dn ++ replicate (S n) z)]> hd) w e) as (y & hy & Hrun & Hdy & Hoy).
  { eapply reps_mono; [|exact Hr]. apply map_union_subseteq_l. }
  apply map_disjoint_union_l in Hdy as [Hdy Hy]. apply map_disjoint_insert_l in Hy as [Hly Hy].
  destruct (IH (dn ++ [y]) (hd ∪ hy)) as (vs & hx & Hloop & ? & ? & ? & ?).
  - rewrite length_app. simpl. lia.
  - by apply map_disjoint_union_r_2.
  - by apply lookup_union_None.
  - rewrite length_app. simpl. rewrite Nat.add_1_r, (take_S_r _ _ e) by done.
    apply (owns_list_snoc _ _ _ _ _ hd hy); [apply upward_rep; eauto with memory|done| | |done|done].
    + apply map_union_subseteq_l.
    + by apply map_union_subseteq_r.
  - exists vs, hx. split_and!; [|done..]. simpl.
    rewrite (bind_some _ _ _ tt (h ∪ <[l := CArray ((dn ++ [y]) ++ replicate n z)]> (hd ∪ hy))).
    { rewrite <-Hloop, length_app. f_equal. simpl. lia. }
    unfold body. rewrite (bind_some _ _ _ _ _ (Hx _ _ _ Hw)), (bind_some _ _ _ _ _ Hrun).
    rewrite <-(map_union_assoc h), <-insert_union_l. unfold set_index.
    rewrite (bind_some _ _ _ _ _ (read_new _ _ _ _ Hl)), decide_True by (rewrite length_app; simpl; lia).
    rewrite store_new by done. by rewrite insert_app_r_alt, Nat.sub_diag, <-app_assoc by lia.
Qed.
End Slices.

Lemma copies_make_slice_into t z f : copies t f → copies_set (TSlice t) (make_slice_into z f).
Proof.
  intros Hf h v d Hnil [[-> _]|(l0 & off & n & arr & es & -> & -> & Hn & Hl0 & Hws)]; [done|].
  destruct (alloc_fresh (CArray (replicate n (zero z))) h) as (l & Ha & Hl).
  assert (length (take n (drop off arr)) = n) as Hlen by (rewrite length_take, length_drop; lia).
  destruct (range_slice_copies t f Hf h (VSlice l0 off n) l (take n (drop off arr)) es) with (z := zero z) (n := n)
    (dn := @nil value) (hd := ∅ : heap) as (vs & hx & Hrun & Hvs & Hd & Hlx & Ho).
  - exact Hws.
  - intros i w hx Hw. unfold index. rewrite (bind_some _ _ _ _ _ (read_old _ _ _ _ Hl0)).
    apply lookup_take_Some in Hw as [Hw Hi]. rewrite decide_True by done.
    rewrite lookup_drop in Hw. unfold of_option. by rewrite Hw.
  - done.
  - by rewrite Hlen.
  - apply map_disjoint_empty_r.
  - done.
  - done.
  - exists (VSlice l 0 n), (<[l := CArray vs]> hx). split_and!; [|by apply disjoint_new|].
    + unfold make_slice_into. rewrite (bind_some _ _ _ n h), (bind_some _ _ _ _ _ Ha) by done.
      by rewrite (bind_some _ _ _ _ _ Hrun).
    + right. exists l, 0%nat, n, vs, es. split_and!; [done..|lia|]. rewrite drop_0, take_ge by lia. by apply owns_cell.
Qed.

Lemma copies_make_slice_copy t z : plain t = true → copies_set (TSlice t) (make_slice_copy z).
Proof. intros Ht. by apply copies_make_slice_into, copies_mret. Qed.

Section Maps.
Context `{RangeOrder}.

(** The loop over the entries of a map, with the entries [dn] copied into cells [hd]. *)
Lemma range_entries_copies t f h l :
  copies t f → h !! l = None → ∀ (kvs : list (string * value)) (kes : list (string * data)) dn dnes hd,
  kvs.*1 = kes.*1 → star_list conj (reps t) kvs.*2 kes.*2 h →
  dn.*1 = dnes.*1 → h ##ₘ hd → hd !! l = None → star_list sep (owns t) dn.*2 dnes.*2 hd →
  ∃ kvs' hx, range_entries f l kvs (h ∪ <[l := CMap (list_to_map dn)]> hd) =
      Some (tt, h ∪ <[l := CMap (list_to_map kvs')]> hx) ∧
    kvs'.*1 = (reverse kes ++ dnes).*1 ∧ h ##ₘ hx ∧ hx !! l = None ∧
    star_list sep (owns t) kvs'.*2 (reverse kes ++ dnes).*2 hx.
Proof.
  intros Hf Hl kvs. induction kvs as [|[k w] kvs IH]; intros [|[k' e] kes] dn dnes hd; simpl; try done.
  { intros _ _ ????. by exists dn, hd. }
  intros [= <- Hk] [Hr Hrs] Hdn Hd Hhd Ho.
  destruct (Hf (h ∪ <[l := CMap (list_to_map dn)]> hd) w e) as (y & hy & Hrun & Hdy & Hoy).
  { eapply reps_mono; [|exact Hr]. apply map_union_subseteq_l. }
  apply map_disjoint_union_l in Hdy as [Hdy Hy]. apply map_disjoint_insert_l in Hy as [Hly Hy].
  destruct (IH kes ((k, y) :: dn) ((k, e) :: dnes) (hy ∪ hd)) as (kvs' & hx & Hloop & Hkvs & ? & ? & ?); [done|done|..].
  - csimpl. by f_equal.
  - by apply map_disjoint_union_r_2.
  - by apply lookup_union_None.
  - simpl. apply (sep_intro _ _ hy hd); [done|apply map_union_subseteq_l|by apply map_union_subseteq_r|done|done].
  - exists kvs', hx. rewrite reverse_cons, <-app_assoc. split_and!; [|done..].
    rewrite <-Hloop, (bind_some _ _ _ _ _ Hrun), <-(map_union_assoc h), <-insert_union_l.
    unfold set_key. erewrite bind_some; [done|].
    rewrite (bind_some _ _ _ _ _ (read_new _ _ _ _ Hl)), store_new by done. by rewrite (map_union_comm hd hy).
Qed.

(** Entries listed in another order. *)
Lemma reps_entries_perm t (kvs kvs' : list (string * value)) (kes : list (string * data)) h :
  kvs.*1 = kes.*1 → star_list conj (reps t) kvs.*2 kes.*2 h → kvs ≡ₚ kvs' →
  ∃ kes', kes ≡ₚ kes' ∧ kvs'.*1 = kes'.*1 ∧ star_list conj (reps t) kvs'.*2 kes'.*2 h.
Proof.
  intros Hk Hr Hp. revert kes Hk Hr. induction Hp as [|[k w] l l' Hp IH|[k1 w1] [k2 w2] l|l l' l'' H1 IH1 H2 IH2].
  - intros [|? kes]; [|done]. by exists [].
  - intros [|[k' e] kes]; [done|]. simpl. intros [= <- Hk] [? Hr]. destruct (IH kes Hk Hr) as (kes' & ? & ? & ?).
    exists ((k, e) :: kes'). simpl. split_and!; [by constructor|by f_equal|done].
  - intros [|[k1' e1] [|[k2' e2] kes]]; try done. simpl. intros [= <- <- Hk] (? & ? & ?).
    exists ((k1, e2) :: (k2, e1) :: kes). simpl. rewrite Hk. split_and!; [by constructor|done..].
  - intros kes Hk Hr. destruct (IH1 kes Hk Hr) as (kes' & ? & Hk' & Hr'). destruct (IH2 kes' Hk' Hr') as (kes'' & ? & ? & ?).
    exists kes''. split_and!; [by etrans|done..].
Qed.

Lemma copies_make_map t f : copies t f → copies_set (TMap t) (make_map f).
Proof.
  intros Hf h v d Hnil [[-> _]|(l0 & kvs & kes & -> & -> & Hk & Hnd & Hl0 & Hr)]; [done|].
  unfold points in Hl0. set (m := list_to_map kvs : gmap string value) in *.
  destruct (alloc_fresh (CMap ∅) h) as (l & Ha & Hl). set (h1 := h ∪ <[l := CMap ∅]> ∅) in *.
  destruct (reps_entries_perm t kvs (range_order h1 m) kes h Hk Hr) as (kes' & Hp & Hk' & Hr').
  { rewrite range_order_perm. unfold m. by rewrite map_to_list_to_map. }
  destruct (range_entries_copies t f h l Hf Hl (range_order h1 m) kes' [] [] ∅) as (kvs' & hx & Hrun & Hkvs & Hd & Hlx & Ho);
    [done|done|done|apply map_disjoint_empty_r|done|done|].
  rewrite app_nil_r in Hkvs, Ho.
  assert (kes ≡ₚ reverse kes') as Hp' by by rewrite reverse_Permutation.
  exists (VMap l), (<[l := CMap (list_to_map kvs')]> hx). split_and!; [|by apply disjoint_new|].
  - unfold make_map, map_of. rewrite (bind_some _ _ _ m h).
    2:{ rewrite (bind_some _ _ _ (CMap m) h); [done|]. unfold read. by rewrite Hl0. }
    rewrite (bind_some _ _ _ _ _ Ha), (bind_some _ _ _ (range_order h1 m) h1) by done.
    by rewrite (bind_some _ _ _ _ _ Hrun).
  - right. exists l, kvs', (reverse kes'). split_and!; [done| |done| |].
    + f_equal. apply list_to_map_proper; [by rewrite <-Hk|done].
    + by rewrite Hkvs, <-Hp', <-Hk.
    + by apply owns_cell.
Qed.

(** The copy made by a method on the address of the loop variable. *)
Lemma copies_deref_copy t f : copies (TPtr t) f → copies t (deref_copy f).
Proof.
  intros Hf h v d Hr. destruct (alloc_fresh (CVar v) h) as (l & Ha & Hl). set (h1 := h ∪ <[l := CVar v]> ∅) in *.
  destruct (Hf h1 (VPtr l) (DPtr d)) as (p & hx & Hrun & Hd & Ho).
  { right. exists l, v, d. split_and!; [done..|]. split.
    - unfold points, h1. by rewrite lookup_union_r, lookup_insert_eq.
    - eapply reps_mono; [|exact Hr]. apply map_union_subseteq_l. }
  destruct Ho as [[_ ?]|(lp & w & e & -> & [= <-] & h2 & h3 & Hd23 & H2 & H3 & Hlp & Hw)]; [done|].
  unfold points in Hlp. assert (hx !! lp = Some (CVar w)) as Hx by by eapply lookup_weaken.
  exists w, (<[l := CVar v]> ∅ ∪ hx). apply map_disjoint_union_l in Hd as [Hd Hdl]. split_and!.
  - unfold deref_copy. rewrite (bind_some _ _ _ _ _ Ha), (bind_some _ _ _ _ _ Hrun). unfold load.
    rewrite (bind_some _ _ _ (CVar w) (h1 ∪ hx)).
    + unfold h1. by rewrite map_union_assoc.
    + unfold read. rewrite (lookup_union_Some_r _ _ _ (CVar w)); [done| |done].
      unfold h1. by apply map_disjoint_union_l_2.
  - apply map_disjoint_union_r_2; [apply disjoint_new; [apply map_disjoint_empty_r|done]|done].
  - eapply owns_mono; [|exact Hw]. etrans; [exact H3|]. by apply map_union_subseteq_r.
Qed.

Lemma copies_unless_nil t f : nilable t = true → copies_set t f → copies t (unless_nil f).
Proof. apply copies_or_nil. Qed.

End Maps.

(** *** Structs *)

(** The statements handle, in the order of the fields, every field whose value may hold a
    reference. *)
Inductive covers : list (string * ty) → list stmt → Prop :=
| covers_nil : covers [] []
| covers_plain F t fs ss : plain t = true → covers fs ss → covers ((F, t) :: fs) ss
| covers_stmt F t s fs ss : copies_stmt t s → covers fs ss → covers ((F, t) :: fs) ((F, s) :: ss).

Lemma lookup_field_app F vs us : F ∉ vs.*1 → lookup_field F (vs ++ us) = lookup_field F us.
Proof.
  induction vs as [|[G v] vs IH]; [done|]. csimpl. intros [HG HF]%not_elem_of_cons. simpl.
  rewrite decide_False by done. by apply IH.
Qed.

Lemma insert_field_app F w v vs us : F ∉ vs.*1 → insert_field F w (vs ++ (F, v) :: us) = vs ++ (F, w) :: us.
Proof.
  induction vs as [|[G u] vs IH]; simpl; [by rewrite decide_True|].
  csimpl. intros [HG HF]%not_elem_of_cons. rewrite decide_False by done. by rewrite IH.
Qed.

Lemma rep_fields_names star fs vs ds h :
  (∀ P Q h, star P Q h → ∃ h', Q h') → rep_fields star fs vs ds h → vs.*1 = fs.*1.
Proof.
  intros Hs. revert vs ds h. induction fs as [|[F t] fs IH]; intros [|[G w] vs] [|[G' e] ds] h; simpl; try done.
  intros (-> & _ & [h' ?]%Hs). csimpl. f_equal. eauto.
Qed.

(** The statements from some field on: [pre] is done, [vs] is left, both in [in] and [out]. *)
Lemma exec_copies fs ss : covers fs ss → ∀ pre0 pre vs ds h,
  NoDup (pre.*1 ++ fs.*1) → pre0.*1 = pre.*1 → rep_fields conj fs vs ds h →
  ∃ vs' hx, exec ss (VStruct (pre0 ++ vs)) (VStruct (pre ++ vs)) h = Some (VStruct (pre ++ vs'), h ∪ hx) ∧
    h ##ₘ hx ∧ rep_fields sep fs vs' ds hx.
Proof.
  induction 1 as [|F t fs ss Hp Hc IH|F t s fs ss Hs Hc IH]; intros pre0 pre [|[G w] vs] [|[G' e] ds] h Hnd Hpre; simpl; try done.
  - intros _. exists [], ∅. split_and!; [by rewrite (right_id_L ∅ (∪) _)|apply map_disjoint_empty_r|done].
  - intros (<- & <- & Hw & Hr).
    destruct (IH (pre0 ++ [(F, w)]) (pre ++ [(F, w)]) vs ds h) as (vs' & hx & Hrun & Hd & Ho); [|by rewrite !fmap_app, Hpre|done|].
    { by rewrite fmap_app, <-app_assoc. }
    exists ((F, w) :: vs'), hx. rewrite <-!app_assoc in Hrun. split_and!; [done..|].
    apply (sep_intro _ _ ∅ hx); [apply map_disjoint_empty_l|apply map_empty_subseteq|done|by eapply plain_owns|done].
  - intros (<- & <- & Hw & Hr). csimpl. destruct (Hs h w e Hw) as (r & hx1 & Hrun1 & Hd1 & Ho1).
    assert (F ∉ pre.*1) as HF by (apply NoDup_app in Hnd as (_ & Hn & _); intros ?; eapply Hn; [done|left]).
    destruct (IH (pre0 ++ [(F, w)]) (pre ++ [(F, default w r)]) vs ds (h ∪ hx1)) as (vs' & hx & Hrun & Hd & Ho).
    { by rewrite fmap_app, <-app_assoc. }
    { by rewrite !fmap_app, Hpre. }
    { eapply upward_fields; [|apply map_union_subseteq_l|exact Hr]. eauto with memory. }
    apply map_disjoint_union_l in Hd as [Hd Hd']. exists ((F, default w r) :: vs'), (hx1 ∪ hx). split_and!.
    + rewrite (bind_some _ _ _ w h).
      2:{ simpl. unfold of_option. rewrite lookup_field_app by by rewrite Hpre. simpl. by rewrite decide_True. }
      rewrite (bind_some _ _ _ _ _ Hrun1). rewrite <-!app_assoc, <-map_union_assoc in Hrun. etrans; [|exact Hrun].
      destruct r as [y|]; simpl; by rewrite ?insert_field_app.
    + by apply map_disjoint_union_r_2.
    + done.
    + done.
    + by apply (sep_intro _ _ hx1 hx); [|apply map_union_subseteq_l|apply map_union_subseteq_r|..].
Qed.

Lemma copies_into fs ss : bool_decide (NoDup fs.*1) = true → covers fs ss → copies (TStruct fs) (into ss).
Proof.
  intros Hnd%bool_decide_eq_true Hc h v d Hr. apply rep_struct in Hr as (vs & ds & -> & -> & Hr).
  destruct (exec_copies fs ss Hc [] [] vs ds h Hnd eq_refl Hr) as (vs' & hx & Hrun & Hd & Ho).
  exists (VStruct vs'), hx. split_and!; [done..|]. apply rep_struct. eauto.
Qed.

(** ** Reading a value back

    The data a value stands for, computed. *)
#[export] Instance kind_eq_dec : EqDecision kind.
Proof. solve_decision. Defined.

Fixpoint read_data (h : heap) (t : ty) (v : value) : option data :=
  match t with
  | TBasic k =>
      match v with VBasic b => if decide (kind_of b = k) then Some (DBasic b) else None | _ => None end
  | TPtr t =>
      match v with
      | VNil => Some DNil
      | VPtr l => match h !! l with Some (CVar w) => DPtr <$> read_data h t w | _ => None end
      | _ => None
      end
  | TSlice t =>
      match v with
      | VNil => Some DNil
      | VSlice l off n =>
          match h !! l with
          | Some (CArray ws) =>
              if decide (off + n ≤ length ws)%nat
              then DSlice <$> mapM (read_data h t) (take n (drop off ws)) else None
          | _ => None
          end
      | _ => None
      end
  | TMap t =>
      match v with
      | VNil => Some DNil
      | VMap l =>
          match h !! l with
          | Some (CMap m) =>
              (λ es, DMap (list_to_map (zip (map_to_list m).*1 es))) <$> mapM (read_data h t) (map_to_list m).*2
          | _ => None
          end
      | _ => None
      end
  | TStruct fs =>
      match v with
      | VStruct vs =>
          DStruct <$>
          (fix go (fs : list (string * ty)) (vs : list (string * value)) : option (list (string * data)) :=
             match fs, vs with
             | [], [] => Some []
             | (F, t) :: fs, (G, w) :: vs =>
                 if decide (F = G) then e ← read_data h t w; es ← go fs vs; Some ((F, e) :: es) else None
             | _, _ => None
             end) fs vs
      | _ => None
      end
  end.

Lemma mapM_reps (R : value → data → assertion) (f : value → option data) h ws es :
  (∀ w e, f w = Some e → R w e h) → mapM f ws = Some es → star_list conj R ws es h.
Proof.
  intros HR Hm%mapM_Some. induction Hm as [|w e ws es Hw Hm IH]; simpl; [done|]. split; auto.
Qed.

Lemma read_data_reps h t : ∀ v d, read_data h t v = Some d → reps t v d h.
Proof.
  unfold reps. induction t as [k|t IH|t IH|t IH|fs IH] using ty_rect_fields; intros v d; simpl.
  - destruct v; try done. case_decide; [|done]. intros [= <-]. eauto.
  - destruct v as [|?|l| | |]; try done; [intros [= <-]; by left|].
    destruct (h !! l) as [[w| |]|] eqn:Hl; try done. intros (e & He & ->)%fmap_Some. right. exists l, w, e.
    split_and!; [done..|]. split; [done|auto].
  - destruct v as [|?| |l off n| |]; try done; [intros [= <-]; by left|].
    destruct (h !! l) as [[|ws|]|] eqn:Hl; try done. case_decide; [|done]. intros (es & He & ->)%fmap_Some.
    right. exists l, off, n, ws, es. split_and!; [done..|]. split; [done|]. by eapply mapM_reps.
  - destruct v as [|?| | |l|]; try done; [intros [= <-]; by left|].
    destruct (h !! l) as [[| |m]|] eqn:Hl; try done. intros (es & He & ->)%fmap_Some.
    assert (length (map_to_list m).*1 = length es) as Hlen.
    { apply length_mapM in He as <-. by rewrite !length_fmap. }
    right. exists l, (map_to_list m), (zip (map_to_list m).*1 es).
    rewrite fst_zip, snd_zip, list_to_map_to_list by lia. split_and!; [done..|apply NoDup_fst_map_to_list|].
    split; [done|]. by eapply mapM_reps.
  - intros Hv. apply rep_struct. revert Hv. destruct v as [| | | | |vs]; try done. intros (ds & Hd & ->)%fmap_Some.
    exists vs, ds. split_and!; [done..|]. revert vs ds Hd.
    induction IH as [|[F t] fs Ht Hfs IHfs]; intros [|[G w] vs]; simpl; try done; [by intros ? [= <-]|].
    intros ds Hd. case_decide as HF; [|done]. apply bind_Some in Hd as (e & He & (es & Hes & [= <-])%bind_Some).
    split_and!; [done..|]. split; [by apply Ht|by apply IHfs].
Qed.
