(* ===== verification/CopyTypes.v ===== *)
(** * The Go types of the custom resources, as they lie in memory

    One [ty] per struct of src/api/v1alpha1, its fields in order with the types they are
    declared with.  The types of other packages are those of the class [External]. *)

From S2P Require Import Prelude Memory.

(** The types of the Kubernetes libraries, by package and name, with the deep copies they
    come with. *)
Class External := {
  ext : string → ty;
  ext_DeepCopyInto : string → copier;
  ext_DeepCopy : string → copier;
}.

(** What their documentation says of them: the deep copies are deep, and some types are
    strings or structs of strings.  (A [metav1.Time] counts as one value: the time zone it
    points to is never written.) *)
Class ExternalLaws `{External} := {
  ext_DeepCopyInto_copies n : copies (ext n) (ext_DeepCopyInto n);
  ext_DeepCopy_copies n : copies (TPtr (ext n)) (ext_DeepCopy n);
  ext_plain n : n ∈ ["metav1.TypeMeta"; "corev1.ServiceType"; "corev1.PullPolicy"] → plain (ext n) = true;
}.

Section Types.
Context `{External}.

Definition AWSSecretManagerConfig_ty : ty := TStruct [
  ("Region", TBasic KString);
  ("RoleARN", TBasic KString);
  ("SessionName", TBasic KString);
  ("WebIdentityTokenPath", TBasic KString);
  ("STSEndpoint", TBasic KString)].

Definition ConfigMapRef_ty : ty := TStruct [
  ("Name", TBasic KString)].

Definition AdminUISpec_ty : ty := TStruct [
  ("Disabled", TPtr (TBasic KBool));
  ("AdminOnly", TPtr (TBasic KBool));
  ("StoreModelInDB", TPtr (TBasic KBool));
  ("DefaultTeamDisabled", TPtr (TBasic KBool));
  ("APIDocBaseURL", TBasic KString);
  ("DocsURL", TBasic KString);
  ("RootRedirectURL", TBasic KString);
  ("LogoURL", TBasic KString);
  ("EmailLogoURL", TBasic KString);
  ("EmailSupportContact", TBasic KString);
  ("ColorThemeConfigMapRef", TPtr ConfigMapRef_ty)].

Definition AllowedNamespaces_ty : ty := TStruct [
  ("From", TBasic KString);
  ("Selector", TPtr (ext "metav1.LabelSelector"));
  ("Kinds", TSlice (TBasic KString))].

Definition AuditLogSpec_ty : ty := TStruct [
  ("Enabled", TBasic KBool);
  ("RetentionDays", TPtr (TBasic KInt))].

Definition AutoscalingSpec_ty : ty := TStruct [
  ("Enabled", TBasic KBool);
  ("MinReplicas", TBasic KInt);
  ("MaxReplicas", TBasic KInt);
  ("TargetCPUUtilization", TPtr (TBasic KInt));
  ("TargetMemoryUtilization", TPtr (TBasic KInt))].

Definition AzureKeyVaultConfig_ty : ty := TStruct [
  ("VaultURI", TBasic KString);
  ("TenantID", TBasic KString)].

Definition BackupStatus_ty : ty := TStruct [
  ("Configured", TBasic KBool);
  ("LastBackupTime", TPtr (ext "metav1.Time"));
  ("LastBackupStatus", TBasic KString)].

Definition CASecretRef_ty : ty := TStruct [
  ("Name", TBasic KString);
  ("Key", TBasic KString)].

Definition CNPGBackupSpec_ty : ty := TStruct [
  ("Enabled", TBasic KBool);
  ("Schedule", TBasic KString);
  ("Retention", TBasic KInt);
  ("Suspend", TBasic KBool);
  ("Method", TBasic KString)].

Definition SecretKeyRef_ty : ty := TStruct [
  ("Name", TBasic KString);
  ("Key", TBasic KString)].

Definition CacheGCSSpec_ty : ty := TStruct [
  ("BucketName", TBasic KString);
  ("CredentialsSecretRef", TPtr SecretKeyRef_ty)].

Definition CacheQdrantSpec_ty : ty := TStruct [
  ("URL", TBasic KString);
  ("APIKeySecretRef", TPtr SecretKeyRef_ty);
  ("CollectionName", TBasic KString)].

Definition CacheRedisSpec_ty : ty := TStruct [
  ("Host", TBasic KString);
  ("Port", TPtr (TBasic KInt));
  ("PasswordSecretRef", TPtr SecretKeyRef_ty);
  ("SSL", TBasic KBool)].

Definition CacheS3Spec_ty : ty := TStruct [
  ("BucketName", TBasic KString);
  ("Region", TBasic KString);
  ("CredentialsSecretRef", TPtr SecretKeyRef_ty)].

Definition CachingSpec_ty : ty := TStruct [
  ("Enabled", TBasic KBool);
  ("Type", TBasic KString);
  ("Redis", TPtr CacheRedisSpec_ty);
  ("S3", TPtr CacheS3Spec_ty);
  ("GCS", TPtr CacheGCSSpec_ty);
  ("Qdrant", TPtr CacheQdrantSpec_ty);
  ("TTL", TPtr (TBasic KInt));
  ("Namespace", TBasic KString);
  ("SupportedCallTypes", TSlice (TBasic KString));
  ("Mode", TBasic KString)].

Definition CallbacksSpec_ty : ty := TStruct [
  ("Types", TSlice (TBasic KString));
  ("EnvVars", TSlice (ext "corev1.EnvVar"))].

Definition CloudNativePGSpec_ty : ty := TStruct [
  ("ClusterName", TBasic KString);
  ("Backup", TPtr CNPGBackupSpec_ty)].

Definition ConfigSyncSpec_ty : ty := TStruct [
  ("Enabled", TBasic KBool);
  ("Interval", TBasic KString);
  ("UnmanagedResourcePolicy", TBasic KString);
  ("ConflictResolution", TBasic KString);
  ("AuditChanges", TBasic KBool)].

Definition ConfigSyncStatus_ty : ty := TStruct [
  ("LastSyncTime", TPtr (ext "metav1.Time"));
  ("SyncedModels", TBasic KInt);
  ("SyncedTeams", TBasic KInt);
  ("SyncedUsers", TBasic KInt);
  ("SyncedKeys", TBasic KInt);
  ("SyncedOrganizations", TBasic KInt);
  ("SyncedCustomers", TBasic KInt);
  ("UnmanagedModels", TBasic KInt);
  ("UnmanagedTeams", TBasic KInt);
  ("UnmanagedUsers", TBasic KInt);
  ("UnmanagedKeys", TBasic KInt);
  ("UnmanagedOrganizations", TBasic KInt);
  ("UnmanagedCustomers", TBasic KInt);
  ("SyncErrors", TSlice (TBasic KString))].

Definition ConnectionPoolSpec_ty : ty := TStruct [
  ("MaxConnections", TBasic KInt)].

Definition CredentialRef_ty : ty := TStruct [
  ("Name", TBasic KString)].

Definition CustomSSOHandlerConfigMapRef_ty : ty := TStruct [
  ("Name", TBasic KString);
  ("FileName", TBasic KString);
  ("FunctionName", TBasic KString)].

Definition CustomSSOHandlerSpec_ty : ty := TStruct [
  ("Module", TBasic KString);
  ("ConfigMapRef", TPtr CustomSSOHandlerConfigMapRef_ty)].

Definition DatabaseImageSpec_ty : ty := TStruct [
  ("Repository", TBasic KString);
  ("Tag", TBasic KString);
  ("PullPolicy", ext "corev1.PullPolicy")].

Definition SecretRef_ty : ty := TStruct [
  ("Name", TBasic KString)].

Definition DatabaseTLSSpec_ty : ty := TStruct [
  ("CASecretRef", TPtr CASecretRef_ty);
  ("ClientCertSecretRef", TPtr SecretRef_ty)].

Definition ExternalDBSpec_ty : ty := TStruct [
  ("ConnectionSecretRef", SecretKeyRef_ty)].

Definition ManagedDBSpec_ty : ty := TStruct [
  ("Enabled", TBasic KBool);
  ("StorageSize", TBasic KString);
  ("StorageClassName", TPtr (TBasic KString))].

Definition MigrationSpec_ty : ty := TStruct [
  ("Enabled", TBasic KBool);
  ("Timeout", TBasic KString);
  ("UseDatabaseImage", TBasic KBool);
  ("DatabaseImage", TPtr DatabaseImageSpec_ty)].

Definition DatabaseSpec_ty : ty := TStruct [
  ("CloudNativePG", TPtr CloudNativePGSpec_ty);
  ("External", TPtr ExternalDBSpec_ty);
  ("Managed", TPtr ManagedDBSpec_ty);
  ("ConnectionPool", TPtr ConnectionPoolSpec_ty);
  ("Migration", TPtr MigrationSpec_ty);
  ("TLS", TPtr DatabaseTLSSpec_ty)].

Definition DatabaseStatus_ty : ty := TStruct [
  ("Connected", TBasic KBool);
  ("MigrationVersion", TBasic KString)].

Definition DefaultCustomerBudgetSpec_ty : ty := TStruct [
  ("MaxBudget", TPtr (TBasic KFloat));
  ("BudgetID", TBasic KString)].

Definition DefaultTeamParams_ty : ty := TStruct [
  ("MaxBudget", TPtr (TBasic KFloat));
  ("BudgetDuration", TBasic KString);
  ("Models", TSlice (TBasic KString));
  ("TPMLimit", TPtr (TBasic KInt));
  ("RPMLimit", TPtr (TBasic KInt))].

Definition DefaultUserTeam_ty : ty := TStruct [
  ("TeamID", TBasic KString);
  ("MaxBudgetInTeam", TPtr (TBasic KFloat));
  ("Role", TBasic KString)].

Definition DefaultUserParams_ty : ty := TStruct [
  ("MaxBudget", TPtr (TBasic KFloat));
  ("BudgetDuration", TBasic KString);
  ("Models", TSlice (TBasic KString));
  ("UserRole", TBasic KString);
  ("Teams", TSlice DefaultUserTeam_ty)].

Definition DeploymentSpec_ty : ty := TStruct [
  ("Annotations", TMap (TBasic KString))].

Definition ModelFallbackEntry_ty : ty := TStruct [
  ("Model", TBasic KString);
  ("Fallbacks", TSlice (TBasic KString))].

Definition FallbackSpec_ty : ty := TStruct [
  ("DefaultFallbacks", TSlice (TBasic KString));
  ("ModelFallbacks", TSlice ModelFallbackEntry_ty);
  ("ContentPolicyFallbacks", TSlice ModelFallbackEntry_ty);
  ("ContextWindowFallbacks", TSlice ModelFallbackEntry_ty);
  ("MaxFallbacks", TPtr (TBasic KInt))].

Definition GatewayParentRef_ty : ty := TStruct [
  ("Name", TBasic KString);
  ("Namespace", TBasic KString);
  ("SectionName", TBasic KString)].

Definition GatewayHTTPRouteSpec_ty : ty := TStruct [
  ("Enabled", TBasic KBool);
  ("Host", TBasic KString);
  ("ParentRefs", TSlice GatewayParentRef_ty);
  ("Annotations", TMap (TBasic KString))].

Definition GeneralSettingsSpec_ty : ty := TStruct [
  ("Extra", TMap (ext "apiextensionsv1.JSON"));
  ("ProxyBatchWriteAt", TBasic KInt);
  ("MasterKeyRequired", TPtr (TBasic KBool));
  ("AlertTypes", TSlice (TBasic KString));
  ("Alerting", TSlice (TBasic KString));
  ("AlertingThreshold", TPtr (TBasic KInt));
  ("AlertToWebhookURL", TMap (TBasic KString));
  ("BackgroundHealthChecks", TPtr (TBasic KBool));
  ("HealthCheckInterval", TPtr (TBasic KInt));
  ("HealthCheckDetails", TPtr (TBasic KBool));
  ("HealthCheckSkipDisabledModels", TPtr (TBasic KBool));
  ("CustomKeyGenerate", TBasic KString);
  ("AllowUserAuth", TPtr (TBasic KBool));
  ("MaxBudget", TPtr (TBasic KString));
  ("BudgetDuration", TBasic KString);
  ("GlobalMaxParallelRequests", TPtr (TBasic KInt));
  ("BudgetReschedulerMinTime", TPtr (TBasic KInt));
  ("BudgetReschedulerMaxTime", TPtr (TBasic KInt))].

Definition GrafanaDashboardSpec_ty : ty := TStruct [
  ("Enabled", TBasic KBool);
  ("Labels", TMap (TBasic KString));
  ("Folder", TBasic KString)].

Definition HeaderSecretRef_ty : ty := TStruct [
  ("HeaderName", TBasic KString);
  ("Prefix", TBasic KString);
  ("SecretRef", SecretKeyRef_ty)].

Definition HealthCheckSpec_ty : ty := TStruct [
  ("LivenessInitialDelay", TBasic KInt);
  ("ReadinessInitialDelay", TBasic KInt);
  ("StartupFailureThreshold", TBasic KInt)].

Definition IPAllowlistSpec_ty : ty := TStruct [
  ("Enabled", TBasic KBool);
  ("AllowedIPs", TSlice (TBasic KString));
  ("UseXForwardedFor", TPtr (TBasic KBool));
  ("MaxRequestSizeMB", TPtr (TBasic KInt));
  ("MaxResponseSizeMB", TPtr (TBasic KInt))].

Definition ImageSpec_ty : ty := TStruct [
  ("Repository", TBasic KString);
  ("Tag", TBasic KString);
  ("PullPolicy", ext "corev1.PullPolicy");
  ("PullSecrets", TSlice SecretRef_ty)].

Definition IngressTLSSpec_ty : ty := TStruct [
  ("Enabled", TBasic KBool);
  ("SecretName", TBasic KString)].

Definition IngressSpec_ty : ty := TStruct [
  ("Enabled", TBasic KBool);
  ("IngressClassName", TPtr (TBasic KString));
  ("Host", TBasic KString);
  ("TLS", TPtr IngressTLSSpec_ty);
  ("Annotations", TMap (TBasic KString))].

Definition SpendLogRetentionSpec_ty : ty := TStruct [
  ("MaxRetentionPeriod", TBasic KString);
  ("CleanupInterval", TBasic KString)].

Definition InstanceLoggingSpec_ty : ty := TStruct [
  ("AuditLogs", TPtr AuditLogSpec_ty);
  ("TurnOffMessageLogging", TPtr (TBasic KBool));
  ("RedactUserAPIKeyInfo", TPtr (TBasic KBool));
  ("SpendLogRetention", TPtr SpendLogRetentionSpec_ty)].

Definition InstanceRef_ty : ty := TStruct [
  ("Name", TBasic KString);
  ("Namespace", TBasic KString)].

Definition JWTLiteLLMRoleMapEntry_ty : ty := TStruct [
  ("JWTRole", TBasic KString);
  ("LiteLLMRole", TBasic KString)].

Definition JWTRoleMapping_ty : ty := TStruct [
  ("Role", TBasic KString);
  ("InternalRole", TBasic KString)].

Definition JWTRoutingOverride_ty : ty := TStruct [
  ("Iss", TBasic KString);
  ("ClientID", TBasic KString);
  ("Scope", TBasic KString);
  ("Aud", TBasic KString);
  ("Path", TBasic KString)].

Definition JWTScopeMapping_ty : ty := TStruct [
  ("Scope", TBasic KString);
  ("Models", TSlice (TBasic KString));
  ("Routes", TSlice (TBasic KString))].

Definition JWTAuthSpec_ty : ty := TStruct [
  ("Enabled", TBasic KBool);
  ("PublicKeyURL", TBasic KString);
  ("Issuer", TBasic KString);
  ("Audience", TBasic KString);
  ("AdminJWTScope", TBasic KString);
  ("AdminAllowedRoutes", TSlice (TBasic KString));
  ("TeamIDJWTField", TBasic KString);
  ("TeamIDsJWTField", TBasic KString);
  ("OrgIDJWTField", TBasic KString);
  ("UserIDJWTField", TBasic KString);
  ("UserIDUpsert", TPtr (TBasic KBool));
  ("UserEmailJWTField", TBasic KString);
  ("UserRoleJWTField", TBasic KString);
  ("UserRolesJWTField", TBasic KString);
  ("UserAllowedRoles", TSlice (TBasic KString));
  ("EnforceRBAC", TPtr (TBasic KBool));
  ("ObjectIDJWTField", TBasic KString);
  ("EndUserIDJWTField", TBasic KString);
  ("PublicKeyTTL", TPtr (TBasic KInt));
  ("ScopeModelMappings", TMap (TSlice (TBasic KString)));
  ("ScopeMappings", TSlice JWTScopeMapping_ty);
  ("RolesJWTField", TBasic KString);
  ("RoleMappings", TSlice JWTRoleMapping_ty);
  ("JWTLiteLLMRoleMap", TSlice JWTLiteLLMRoleMapEntry_ty);
  ("TeamAliasJWTField", TBasic KString);
  ("OrgAliasJWTField", TBasic KString);
  ("TeamIDDefault", TBasic KString);
  ("TeamAllowedRoutes", TSlice (TBasic KString));
  ("TeamIDUpsert", TPtr (TBasic KBool));
  ("TeamClaimFallback", TPtr (TBasic KBool));
  ("UserAllowedEmailDomain", TBasic KString);
  ("EnforceTeamBasedModelAccess", TPtr (TBasic KBool));
  ("EnforceScopeBasedAccess", TPtr (TBasic KBool));
  ("SyncUserRoleAndTeams", TPtr (TBasic KBool));
  ("CustomValidate", TBasic KString);
  ("VirtualKeyClaimField", TBasic KString);
  ("VirtualKeyMappingCacheTTL", TPtr (TBasic KInt));
  ("RoutingOverrides", TSlice JWTRoutingOverride_ty);
  ("OIDCUserInfoEnabled", TPtr (TBasic KBool));
  ("OIDCUserInfoEndpoint", TBasic KString);
  ("OIDCUserInfoCacheTTL", TPtr (TBasic KInt))].

Definition PersonalKeyGenerationSettings_ty : ty := TStruct [
  ("AllowedUserRoles", TSlice (TBasic KString))].

Definition TeamKeyGenerationSettings_ty : ty := TStruct [
  ("AllowedTeamMemberRoles", TSlice (TBasic KString))].

Definition KeyGenerationSettings_ty : ty := TStruct [
  ("TeamKeyGeneration", TPtr TeamKeyGenerationSettings_ty);
  ("PersonalKeyGeneration", TPtr PersonalKeyGenerationSettings_ty)].

Definition KeySecretTemplateSpec_ty : ty := TStruct [
  ("Annotations", TMap (TBasic KString));
  ("Labels", TMap (TBasic KString))].

Definition LicenseStatus_ty : ty := TStruct [
  ("Active", TBasic KBool);
  ("SecretName", TBasic KString)].

Definition LiteLLMBudgetSpec_ty : ty := TStruct [
  ("InstanceRef", InstanceRef_ty);
  ("BudgetID", TBasic KString);
  ("MaxBudget", TPtr (TBasic KFloat));
  ("SoftBudget", TPtr (TBasic KFloat));
  ("BudgetDuration", TBasic KString);
  ("TPMLimit", TPtr (TBasic KInt));
  ("RPMLimit", TPtr (TBasic KInt));
  ("MaxParallelRequests", TPtr (TBasic KInt));
  ("ModelMaxBudget", TMap (TBasic KFloat))].

Definition LiteLLMBudgetStatus_ty : ty := TStruct [
  ("Synced", TBasic KBool);
  ("LiteLLMBudgetID", TBasic KString);
  ("CurrentSpend", TPtr (TBasic KFloat));
  ("LastSyncTime", TPtr (ext "metav1.Time"));
  ("Conditions", TSlice (ext "metav1.Condition"))].

Definition LiteLLMBudget_ty : ty := TStruct [
  ("TypeMeta", ext "metav1.TypeMeta");
  ("ObjectMeta", ext "metav1.ObjectMeta");
  ("Spec", LiteLLMBudgetSpec_ty);
  ("Status", LiteLLMBudgetStatus_ty)].

Definition LiteLLMBudgetList_ty : ty := TStruct [
  ("TypeMeta", ext "metav1.TypeMeta");
  ("ListMeta", ext "metav1.ListMeta");
  ("Items", TSlice LiteLLMBudget_ty)].

Definition LiteLLMCredentialSpec_ty : ty := TStruct [
  ("InstanceRef", InstanceRef_ty);
  ("CredentialName", TBasic KString);
  ("APIKeySecretRef", SecretKeyRef_ty);
  ("APIBase", TBasic KString);
  ("APIVersion", TBasic KString);
  ("Params", TMap (ext "apiextensionsv1.JSON"))].

Definition LiteLLMCredentialStatus_ty : ty := TStruct [
  ("Configured", TBasic KBool);
  ("ReferencedByModels", TBasic KInt);
  ("LastSyncTime", TPtr (ext "metav1.Time"));
  ("Conditions", TSlice (ext "metav1.Condition"))].

Definition LiteLLMCredential_ty : ty := TStruct [
  ("TypeMeta", ext "metav1.TypeMeta");
  ("ObjectMeta", ext "metav1.ObjectMeta");
  ("Spec", LiteLLMCredentialSpec_ty);
  ("Status", LiteLLMCredentialStatus_ty)].

Definition LiteLLMCredentialList_ty : ty := TStruct [
  ("TypeMeta", ext "metav1.TypeMeta");
  ("ListMeta", ext "metav1.ListMeta");
  ("Items", TSlice LiteLLMCredential_ty)].

Definition ObjectPermission_ty : ty := TStruct [
  ("MCPServers", TSlice (TBasic KString));
  ("AccessGroups", TSlice (TBasic KString));
  ("VectorStores", TSlice (TBasic KString));
  ("Agents", TSlice (TBasic KString))].

Definition LiteLLMCustomerSpec_ty : ty := TStruct [
  ("InstanceRef", InstanceRef_ty);
  ("CustomerID", TBasic KString);
  ("Alias", TBasic KString);
  ("MaxBudget", TPtr (TBasic KFloat));
  ("BudgetDuration", TBasic KString);
  ("BudgetID", TBasic KString);
  ("TpmLimit", TPtr (TBasic KInt));
  ("RpmLimit", TPtr (TBasic KInt));
  ("AllowedModelRegion", TBasic KString);
  ("DefaultModel", TBasic KString);
  ("Models", TSlice (TBasic KString));
  ("Blocked", TPtr (TBasic KBool));
  ("ObjectPermission", TPtr ObjectPermission_ty);
  ("Metadata", TMap (TBasic KString))].

Definition LiteLLMCustomerStatus_ty : ty := TStruct [
  ("Synced", TBasic KBool);
  ("CurrentSpend", TPtr (TBasic KFloat));
  ("Blocked", TBasic KBool);
  ("LastSyncTime", TPtr (ext "metav1.Time"));
  ("Conditions", TSlice (ext "metav1.Condition"))].

Definition LiteLLMCustomer_ty : ty := TStruct [
  ("TypeMeta", ext "metav1.TypeMeta");
  ("ObjectMeta", ext "metav1.ObjectMeta");
  ("Spec", LiteLLMCustomerSpec_ty);
  ("Status", LiteLLMCustomerStatus_ty)].

Definition LiteLLMCustomerList_ty : ty := TStruct [
  ("TypeMeta", ext "metav1.TypeMeta");
  ("ListMeta", ext "metav1.ListMeta");
  ("Items", TSlice LiteLLMCustomer_ty)].

Definition LiteLLMGuardrailSpec_ty : ty := TStruct [
  ("InstanceRef", InstanceRef_ty);
  ("GuardrailName", TBasic KString);
  ("Provider", TBasic KString);
  ("GuardrailClass", TBasic KString);
  ("UnreachableFallback", TBasic KString);
  ("Mode", TBasic KString);
  ("APIKeySecretRef", TPtr SecretKeyRef_ty);
  ("APIBase", TBasic KString);
  ("DefaultOn", TPtr (TBasic KBool));
  ("Params", TMap (ext "apiextensionsv1.JSON"));
  ("EnvVars", TSlice (ext "corev1.EnvVar"))].

Definition LiteLLMGuardrailStatus_ty : ty := TStruct [
  ("Configured", TBasic KBool);
  ("LastSyncTime", TPtr (ext "metav1.Time"));
  ("Conditions", TSlice (ext "metav1.Condition"))].

Definition LiteLLMGuardrail_ty : ty := TStruct [
  ("TypeMeta", ext "metav1.TypeMeta");
  ("ObjectMeta", ext "metav1.ObjectMeta");
  ("Spec", LiteLLMGuardrailSpec_ty);
  ("Status", LiteLLMGuardrailStatus_ty)].

Definition LiteLLMGuardrailList_ty : ty := TStruct [
  ("TypeMeta", ext "metav1.TypeMeta");
  ("ListMeta", ext "metav1.ListMeta");
  ("Items", TSlice LiteLLMGuardrail_ty)].

Definition LiteLLMSettingsSpec_ty : ty := TStruct [
  ("JSONLogs", TPtr (TBasic KBool));
  ("CheckProviderEndpoint", TPtr (TBasic KBool));
  ("Extra", TMap (ext "apiextensionsv1.JSON"))].

Definition MasterKeySpec_ty : ty := TStruct [
  ("SecretRef", TPtr SecretKeyRef_ty);
  ("AutoGenerate", TBasic KBool)].

Definition OAuth2Mapping_ty : ty := TStruct [
  ("Name", TBasic KString);
  ("JWTField", TBasic KString);
  ("LiteLLMAttribute", TBasic KString)].

Definition OAuth2AuthSpec_ty : ty := TStruct [
  ("Enabled", TBasic KBool);
  ("ConfigMappings", TSlice OAuth2Mapping_ty)].

Definition PrometheusRuleSpec_ty : ty := TStruct [
  ("Enabled", TBasic KBool);
  ("Labels", TMap (TBasic KString));
  ("DisabledAlerts", TSlice (TBasic KString))].

Definition ServiceMonitorAuthorization_ty : ty := TStruct [
  ("Type", TBasic KString);
  ("Credentials", TPtr SecretKeyRef_ty)].

Definition ServiceMonitorSpec_ty : ty := TStruct [
  ("Enabled", TBasic KBool);
  ("Interval", TBasic KString);
  ("Labels", TMap (TBasic KString));
  ("Path", TBasic KString);
  ("Authorization", TPtr ServiceMonitorAuthorization_ty)].

Definition ObservabilitySpec_ty : ty := TStruct [
  ("ServiceMonitor", TPtr ServiceMonitorSpec_ty);
  ("PrometheusRule", TPtr PrometheusRuleSpec_ty);
  ("GrafanaDashboard", TPtr GrafanaDashboardSpec_ty)].

Definition PDBSpec_ty : ty := TStruct [
  ("Enabled", TBasic KBool);
  ("MinAvailable", TPtr (TBasic KInt));
  ("MaxUnavailable", TPtr (TBasic KInt))].

Definition PassThroughEndpoint_ty : ty := TStruct [
  ("Path", TBasic KString);
  ("Target", TBasic KString);
  ("Auth", TPtr (TBasic KBool));
  ("ForwardHeaders", TPtr (TBasic KBool));
  ("IncludeSubpath", TPtr (TBasic KBool));
  ("Methods", TSlice (TBasic KString));
  ("Headers", TMap (TBasic KString));
  ("HeaderSecrets", TSlice HeaderSecretRef_ty);
  ("DefaultQueryParams", TMap (TBasic KString))].

Definition PodSchedulingSpec_ty : ty := TStruct [
  ("NodeSelector", TMap (TBasic KString));
  ("Tolerations", TSlice (ext "corev1.Toleration"));
  ("Affinity", TPtr (ext "corev1.Affinity"))].

Definition RolePermission_ty : ty := TStruct [
  ("Routes", TSlice (TBasic KString));
  ("Models", TSlice (TBasic KString))].

Definition RBACSpec_ty : ty := TStruct [
  ("Enabled", TBasic KBool);
  ("AdminOnlyRoutes", TSlice (TBasic KString));
  ("AllowedRoutes", TSlice (TBasic KString));
  ("KeyGeneration", TPtr KeyGenerationSettings_ty);
  ("RolePermissions", TMap RolePermission_ty);
  ("DefaultTeamDisabled", TPtr (TBasic KBool))].

Definition RedisSpec_ty : ty := TStruct [
  ("Enabled", TBasic KBool);
  ("ConnectionSecretRef", TPtr SecretKeyRef_ty);
  ("Host", TBasic KString);
  ("Port", TBasic KInt);
  ("PasswordSecretRef", TPtr SecretKeyRef_ty)].

Definition RouteSpec_ty : ty := TStruct [
  ("Enabled", TBasic KBool);
  ("Host", TBasic KString);
  ("TLSTermination", TBasic KString)].

Definition ProviderBudget_ty : ty := TStruct [
  ("BudgetLimit", TBasic KString);
  ("TimePeriod", TBasic KString)].

Definition RouterSettingsSpec_ty : ty := TStruct [
  ("RoutingStrategy", TBasic KString);
  ("NumRetries", TPtr (TBasic KInt));
  ("Timeout", TPtr (TBasic KInt));
  ("RetryAfter", TPtr (TBasic KInt));
  ("AllowedFails", TPtr (TBasic KInt));
  ("CooldownTime", TPtr (TBasic KInt));
  ("RetryPolicy", TMap (TBasic KInt));
  ("ModelGroupRetryPolicy", TMap (TMap (TBasic KInt)));
  ("EnableTagFiltering", TPtr (TBasic KBool));
  ("TagFilteringMatchAny", TPtr (TBasic KBool));
  ("DefaultMaxParallelRequests", TPtr (TBasic KInt));
  ("ProviderBudgetConfig", TMap ProviderBudget_ty);
  ("StreamTimeout", TPtr (TBasic KInt));
  ("EnablePreCallChecks", TPtr (TBasic KBool));
  ("ModelGroupAlias", TMap (TBasic KString))].

Definition SCIMSpec_ty : ty := TStruct [
  ("Enabled", TBasic KBool);
  ("TokenSecretRef", TPtr SecretKeyRef_ty);
  ("GeneratedTokenSecretName", TBasic KString)].

Definition UserAttributeMappings_ty : ty := TStruct [
  ("UserID", TBasic KString);
  ("Email", TBasic KString);
  ("DisplayName", TBasic KString);
  ("FirstName", TBasic KString);
  ("LastName", TBasic KString);
  ("Role", TBasic KString)].

Definition SSOSpec_ty : ty := TStruct [
  ("Enabled", TBasic KBool);
  ("Provider", TBasic KString);
  ("ClientID", SecretKeyRef_ty);
  ("ClientSecret", SecretKeyRef_ty);
  ("TenantID", TBasic KString);
  ("AuthorizationEndpoint", TBasic KString);
  ("TokenEndpoint", TBasic KString);
  ("UserinfoEndpoint", TBasic KString);
  ("Scopes", TSlice (TBasic KString));
  ("TeamIDsJWTField", TBasic KString);
  ("UserAttributeMappings", TPtr UserAttributeMappings_ty);
  ("DefaultUserParams", TPtr DefaultUserParams_ty);
  ("DefaultTeamParams", TPtr DefaultTeamParams_ty);
  ("CustomSSOHandler", TPtr CustomSSOHandlerSpec_ty);
  ("LogoutURL", TBasic KString)].

Definition SaltKeySpec_ty : ty := TStruct [
  ("SecretRef", TPtr SecretKeyRef_ty);
  ("AutoGenerate", TBasic KBool)].

Definition VaultConfig_ty : ty := TStruct [
  ("Address", TBasic KString);
  ("Namespace", TBasic KString);
  ("AuthMethod", TBasic KString);
  ("AppRoleMountPath", TBasic KString);
  ("MountName", TBasic KString);
  ("PathPrefix", TBasic KString);
  ("RefreshInterval", TPtr (TBasic KInt))].

Definition SecretManagerSpec_ty : ty := TStruct [
  ("Provider", TBasic KString);
  ("CredentialsSecretRef", TPtr SecretRef_ty);
  ("HostedKeys", TSlice (TBasic KString));
  ("StoreVirtualKeys", TPtr (TBasic KBool));
  ("PrefixForStoredVirtualKeys", TBasic KString);
  ("AccessMode", TBasic KString);
  ("PrimarySecretName", TBasic KString);
  ("AWS", TPtr AWSSecretManagerConfig_ty);
  ("Azure", TPtr AzureKeyVaultConfig_ty);
  ("Vault", TPtr VaultConfig_ty)].

Definition NetworkPolicySpec_ty : ty := TStruct [
  ("Enabled", TBasic KBool);
  ("AllowedNamespaces", TSlice (TBasic KString))].

Definition SecuritySpec_ty : ty := TStruct [
  ("NetworkPolicy", TPtr NetworkPolicySpec_ty);
  ("RunAsNonRoot", TPtr (TBasic KBool));
  ("IPAllowlist", TPtr IPAllowlistSpec_ty)].

Definition ServiceAccountSpec_ty : ty := TStruct [
  ("Annotations", TMap (TBasic KString));
  ("Labels", TMap (TBasic KString))].

Definition ServiceSpec_ty : ty := TStruct [
  ("Type", ext "corev1.ServiceType");
  ("Port", TBasic KInt)].

Definition TLSSpec_ty : ty := TStruct [
  ("ServerCertSecretRef", TPtr SecretRef_ty);
  ("TrustedCASecretRef", TPtr CASecretRef_ty);
  ("ClientCertSecretRef", TPtr SecretRef_ty)].

Definition UpgradeSpec_ty : ty := TStruct [
  ("Strategy", TBasic KString);
  ("MaxUnavailable", TPtr (TBasic KInt));
  ("MaxSurge", TPtr (TBasic KInt));
  ("HealthCheckTimeout", TBasic KString);
  ("AutoRollback", TBasic KBool)].

Definition WorkloadSpec_ty : ty := TStruct [
  ("Managed", TPtr (TBasic KBool));
  ("Endpoint", TBasic KString)].

Definition LiteLLMInstanceSpec_ty : ty := TStruct [
  ("Image", ImageSpec_ty);
  ("Workload", TPtr WorkloadSpec_ty);
  ("Replicas", TBasic KInt);
  ("Autoscaling", TPtr AutoscalingSpec_ty);
  ("MasterKey", MasterKeySpec_ty);
  ("Database", DatabaseSpec_ty);
  ("Redis", TPtr RedisSpec_ty);
  ("SaltKey", TPtr SaltKeySpec_ty);
  ("GeneralSettings", TPtr GeneralSettingsSpec_ty);
  ("RouterSettings", TPtr RouterSettingsSpec_ty);
  ("LiteLLMSettings", TPtr LiteLLMSettingsSpec_ty);
  ("Fallbacks", TPtr FallbackSpec_ty);
  ("ConfigSync", TPtr ConfigSyncSpec_ty);
  ("Service", ServiceSpec_ty);
  ("ServiceAccount", TPtr ServiceAccountSpec_ty);
  ("Deployment", TPtr DeploymentSpec_ty);
  ("PodScheduling", TPtr PodSchedulingSpec_ty);
  ("Ingress", TPtr IngressSpec_ty);
  ("Route", TPtr RouteSpec_ty);
  ("GatewayHTTPRoute", TPtr GatewayHTTPRouteSpec_ty);
  ("Security", TPtr SecuritySpec_ty);
  ("HealthCheck", TPtr HealthCheckSpec_ty);
  ("Resources", TPtr (ext "corev1.ResourceRequirements"));
  ("PodDisruptionBudget", TPtr PDBSpec_ty);
  ("TopologySpreadConstraints", TSlice (ext "corev1.TopologySpreadConstraint"));
  ("ExtraEnvVars", TSlice (ext "corev1.EnvVar"));
  ("ExtraEnvFrom", TSlice (ext "corev1.EnvFromSource"));
  ("Callbacks", TPtr CallbacksSpec_ty);
  ("Observability", TPtr ObservabilitySpec_ty);
  ("Upgrade", TPtr UpgradeSpec_ty);
  ("SSO", TPtr SSOSpec_ty);
  ("SCIM", TPtr SCIMSpec_ty);
  ("JWTAuth", TPtr JWTAuthSpec_ty);
  ("OAuth2Auth", TPtr OAuth2AuthSpec_ty);
  ("Caching", TPtr CachingSpec_ty);
  ("PassThroughEndpoints", TSlice PassThroughEndpoint_ty);
  ("DefaultCustomerBudget", TPtr DefaultCustomerBudgetSpec_ty);
  ("SecretManager", TPtr SecretManagerSpec_ty);
  ("RBAC", TPtr RBACSpec_ty);
  ("Logging", TPtr InstanceLoggingSpec_ty);
  ("AdminUI", TPtr AdminUISpec_ty);
  ("TLS", TPtr TLSSpec_ty);
  ("ExtraVolumes", TSlice (ext "corev1.Volume"));
  ("ExtraVolumeMounts", TSlice (ext "corev1.VolumeMount"));
  ("AllowedNamespaces", TPtr AllowedNamespaces_ty)].

Definition RedisStatus_ty : ty := TStruct [
  ("Connected", TBasic KBool)].

Definition SCIMStatus_ty : ty := TStruct [
  ("Configured", TBasic KBool);
  ("TokenSecretName", TBasic KString)].

Definition SSOStatus_ty : ty := TStruct [
  ("Configured", TBasic KBool);
  ("Provider", TBasic KString)].

Definition SecretManagerStatus_ty : ty := TStruct [
  ("Configured", TBasic KBool);
  ("Provider", TBasic KString)].

Definition UnhealthyPod_ty : ty := TStruct [
  ("Name", TBasic KString);
  ("Phase", TBasic KString);
  ("Reason", TBasic KString);
  ("Message", TBasic KString);
  ("RestartCount", TBasic KInt)].

Definition LiteLLMInstanceStatus_ty : ty := TStruct [
  ("Ready", TBasic KBool);
  ("Replicas", TBasic KInt);
  ("ReadyReplicas", TBasic KInt);
  ("Endpoint", TBasic KString);
  ("Version", TBasic KString);
  ("Database", DatabaseStatus_ty);
  ("Redis", TPtr RedisStatus_ty);
  ("ConfigSync", TPtr ConfigSyncStatus_ty);
  ("SSO", TPtr SSOStatus_ty);
  ("SCIM", TPtr SCIMStatus_ty);
  ("SecretManager", TPtr SecretManagerStatus_ty);
  ("License", TPtr LicenseStatus_ty);
  ("Backup", TPtr BackupStatus_ty);
  ("LastSuccessfulRevision", TBasic KString);
  ("UnhealthyPods", TSlice UnhealthyPod_ty);
  ("Conditions", TSlice (ext "metav1.Condition"))].

Definition LiteLLMInstance_ty : ty := TStruct [
  ("TypeMeta", ext "metav1.TypeMeta");
  ("ObjectMeta", ext "metav1.ObjectMeta");
  ("Spec", LiteLLMInstanceSpec_ty);
  ("Status", LiteLLMInstanceStatus_ty)].

Definition LiteLLMInstanceList_ty : ty := TStruct [
  ("TypeMeta", ext "metav1.TypeMeta");
  ("ListMeta", ext "metav1.ListMeta");
  ("Items", TSlice LiteLLMInstance_ty)].

Definition LiteLLMModelParams_ty : ty := TStruct [
  ("Model", TBasic KString);
  ("APIBase", TBasic KString);
  ("APIVersion", TBasic KString);
  ("APIKeySecretRef", TPtr SecretKeyRef_ty);
  ("CredentialRef", TPtr CredentialRef_ty);
  ("RPM", TPtr (TBasic KInt));
  ("TPM", TPtr (TBasic KInt));
  ("Timeout", TPtr (TBasic KInt));
  ("StreamTimeout", TPtr (TBasic KInt));
  ("MaxRetries", TPtr (TBasic KInt));
  ("Weight", TPtr (TBasic KInt));
  ("Order", TPtr (TBasic KInt));
  ("MaxInputTokens", TPtr (TBasic KInt));
  ("Temperature", TPtr (TBasic KFloat));
  ("TopP", TPtr (TBasic KFloat));
  ("MaxTokens", TPtr (TBasic KInt));
  ("Seed", TPtr (TBasic KInt));
  ("Organization", TBasic KString);
  ("AWSRegionName", TBasic KString);
  ("ExtraHeaders", TMap (TBasic KString));
  ("DropParams", TPtr (TBasic KBool));
  ("VertexProject", TBasic KString);
  ("VertexLocation", TBasic KString);
  ("VertexCredentialsSecretRef", TPtr SecretKeyRef_ty)].

Definition ModelHealthCheck_ty : ty := TStruct [
  ("DisableBackgroundHealthCheck", TPtr (TBasic KBool));
  ("TimeoutSeconds", TPtr (TBasic KInt));
  ("MaxTokens", TPtr (TBasic KInt));
  ("MaxTokensReasoning", TPtr (TBasic KInt));
  ("MaxTokensNonReasoning", TPtr (TBasic KInt));
  ("SupportsMaxTokens", TPtr (TBasic KBool));
  ("ReasoningEffort", TBasic KString);
  ("Voice", TBasic KString);
  ("Model", TBasic KString)].

Definition ModelInfo_ty : ty := TStruct [
  ("MaxTokens", TPtr (TBasic KInt));
  ("InputCostPerToken", TPtr (TBasic KFloat));
  ("OutputCostPerToken", TPtr (TBasic KFloat));
  ("Mode", TBasic KString);
  ("BaseModel", TBasic KString);
  ("Tier", TBasic KString);
  ("RegionName", TBasic KString);
  ("AccessGroups", TSlice (TBasic KString));
  ("SupportedEnvironments", TSlice (TBasic KString));
  ("UseInPassThrough", TPtr (TBasic KBool));
  ("InputCostPerPixel", TPtr (TBasic KFloat));
  ("InputCostPerSecond", TPtr (TBasic KFloat));
  ("CacheReadInputTokenCost", TPtr (TBasic KFloat));
  ("CacheCreationInputTokenCost", TPtr (TBasic KFloat));
  ("HealthCheck", TPtr ModelHealthCheck_ty)].

Definition LiteLLMModelSpec_ty : ty := TStruct [
  ("InstanceRef", InstanceRef_ty);
  ("ModelName", TBasic KString);
  ("LiteLLMParams", LiteLLMModelParams_ty);
  ("ModelInfo", TPtr ModelInfo_ty);
  ("Tags", TSlice (TBasic KString))].

Definition LiteLLMModelStatus_ty : ty := TStruct [
  ("Synced", TBasic KBool);
  ("LiteLLMModelID", TBasic KString);
  ("LastSyncTime", TPtr (ext "metav1.Time"));
  ("Health", TBasic KString);
  ("LatencyP50Ms", TPtr (TBasic KInt));
  ("LatencyP95Ms", TPtr (TBasic KInt));
  ("RequestsLast24h", TPtr (TBasic KInt));
  ("Conditions", TSlice (ext "metav1.Condition"))].

Definition LiteLLMModel_ty : ty := TStruct [
  ("TypeMeta", ext "metav1.TypeMeta");
  ("ObjectMeta", ext "metav1.ObjectMeta");
  ("Spec", LiteLLMModelSpec_ty);
  ("Status", LiteLLMModelStatus_ty)].

Definition LiteLLMModelList_ty : ty := TStruct [
  ("TypeMeta", ext "metav1.TypeMeta");
  ("ListMeta", ext "metav1.ListMeta");
  ("Items", TSlice LiteLLMModel_ty)].

Definition OrganizationMember_ty : ty := TStruct [
  ("Email", TBasic KString);
  ("Role", TBasic KString)].

Definition LiteLLMOrganizationSpec_ty : ty := TStruct [
  ("InstanceRef", InstanceRef_ty);
  ("OrganizationAlias", TBasic KString);
  ("Models", TSlice (TBasic KString));
  ("MaxBudget", TPtr (TBasic KFloat));
  ("BudgetDuration", TBasic KString);
  ("TpmLimit", TPtr (TBasic KInt));
  ("RpmLimit", TPtr (TBasic KInt));
  ("SoftBudget", TPtr (TBasic KFloat));
  ("ModelRPMLimit", TMap (TBasic KInt));
  ("ModelTPMLimit", TMap (TBasic KInt));
  ("Members", TSlice OrganizationMember_ty);
  ("ObjectPermission", TPtr ObjectPermission_ty);
  ("Metadata", TMap (TBasic KString))].

Definition LiteLLMOrganizationStatus_ty : ty := TStruct [
  ("Synced", TBasic KBool);
  ("LiteLLMOrganizationID", TBasic KString);
  ("CurrentSpend", TPtr (TBasic KFloat));
  ("MemberCount", TBasic KInt);
  ("LastSyncTime", TPtr (ext "metav1.Time"));
  ("Conditions", TSlice (ext "metav1.Condition"))].

Definition LiteLLMOrganization_ty : ty := TStruct [
  ("TypeMeta", ext "metav1.TypeMeta");
  ("ObjectMeta", ext "metav1.ObjectMeta");
  ("Spec", LiteLLMOrganizationSpec_ty);
  ("Status", LiteLLMOrganizationStatus_ty)].

Definition LiteLLMOrganizationList_ty : ty := TStruct [
  ("TypeMeta", ext "metav1.TypeMeta");
  ("ListMeta", ext "metav1.ListMeta");
  ("Items", TSlice LiteLLMOrganization_ty)].

Definition OrganizationRef_ty : ty := TStruct [
  ("Name", TBasic KString)].

Definition TeamCallback_ty : ty := TStruct [
  ("Name", TBasic KString);
  ("Type", TBasic KString);
  ("CredentialsSecretRef", SecretRef_ty);
  ("Config", TMap (TBasic KString))].

Definition TeamLoggingSpec_ty : ty := TStruct [
  ("Disabled", TBasic KBool);
  ("Callbacks", TSlice TeamCallback_ty)].

Definition TeamMember_ty : ty := TStruct [
  ("Email", TBasic KString);
  ("Role", TBasic KString)].

Definition LiteLLMTeamSpec_ty : ty := TStruct [
  ("InstanceRef", InstanceRef_ty);
  ("OrganizationRef", TPtr OrganizationRef_ty);
  ("TeamID", TBasic KString);
  ("TeamAlias", TBasic KString);
  ("Models", TSlice (TBasic KString));
  ("MaxBudgetMonthly", TPtr (TBasic KFloat));
  ("BudgetDuration", TBasic KString);
  ("TPMLimit", TPtr (TBasic KInt));
  ("RPMLimit", TPtr (TBasic KInt));
  ("SoftBudget", TPtr (TBasic KFloat));
  ("ModelRPMLimit", TMap (TBasic KInt));
  ("ModelTPMLimit", TMap (TBasic KInt));
  ("TeamMemberRPMLimit", TPtr (TBasic KInt));
  ("TeamMemberTPMLimit", TPtr (TBasic KInt));
  ("TeamMemberBudget", TPtr (TBasic KFloat));
  ("Metadata", TMap (TBasic KString));
  ("Blocked", TPtr (TBasic KBool));
  ("ObjectPermission", TPtr ObjectPermission_ty);
  ("Tags", TSlice (TBasic KString));
  ("MaxParallelRequests", TPtr (TBasic KInt));
  ("MemberManagement", TBasic KString);
  ("Members", TSlice TeamMember_ty);
  ("Guardrails", TSlice (TBasic KString));
  ("Logging", TPtr TeamLoggingSpec_ty)].

Definition TeamMemberStatus_ty : ty := TStruct [
  ("Email", TBasic KString);
  ("Role", TBasic KString);
  ("Source", TBasic KString);
  ("Synced", TBasic KBool)].

Definition LiteLLMTeamStatus_ty : ty := TStruct [
  ("Synced", TBasic KBool);
  ("LiteLLMTeamID", TBasic KString);
  ("CurrentSpend", TPtr (TBasic KFloat));
  ("TotalMemberCount", TBasic KInt);
  ("CRDMembers", TSlice TeamMemberStatus_ty);
  ("SSOMembers", TSlice TeamMemberStatus_ty);
  ("LoggingSynced", TBasic KBool);
  ("LoggingDisabled", TBasic KBool);
  ("LastSyncTime", TPtr (ext "metav1.Time"));
  ("Conditions", TSlice (ext "metav1.Condition"))].

Definition LiteLLMTeam_ty : ty := TStruct [
  ("TypeMeta", ext "metav1.TypeMeta");
  ("ObjectMeta", ext "metav1.ObjectMeta");
  ("Spec", LiteLLMTeamSpec_ty);
  ("Status", LiteLLMTeamStatus_ty)].

Definition LiteLLMTeamList_ty : ty := TStruct [
  ("TypeMeta", ext "metav1.TypeMeta");
  ("ListMeta", ext "metav1.ListMeta");
  ("Items", TSlice LiteLLMTeam_ty)].

Definition TeamRef_ty : ty := TStruct [
  ("Name", TBasic KString)].

Definition UserTeamMembership_ty : ty := TStruct [
  ("TeamRef", TPtr TeamRef_ty);
  ("TeamID", TBasic KString);
  ("Role", TBasic KString);
  ("MaxBudgetInTeam", TPtr (TBasic KFloat))].

Definition LiteLLMUserSpec_ty : ty := TStruct [
  ("InstanceRef", InstanceRef_ty);
  ("UserID", TBasic KString);
  ("UserEmail", TBasic KString);
  ("UserRole", TBasic KString);
  ("MaxBudget", TPtr (TBasic KFloat));
  ("BudgetDuration", TBasic KString);
  ("Models", TSlice (TBasic KString));
  ("Teams", TSlice UserTeamMembership_ty);
  ("TPMLimit", TPtr (TBasic KInt));
  ("RPMLimit", TPtr (TBasic KInt));
  ("SoftBudget", TPtr (TBasic KFloat));
  ("ModelRPMLimit", TMap (TBasic KInt));
  ("ModelTPMLimit", TMap (TBasic KInt));
  ("Metadata", TMap (TBasic KString));
  ("Blocked", TPtr (TBasic KBool));
  ("ObjectPermission", TPtr ObjectPermission_ty);
  ("InitialPasswordSecretRef", TPtr SecretKeyRef_ty);
  ("AutoCreateKey", TPtr (TBasic KBool))].

Definition ResolvedTeamMembership_ty : ty := TStruct [
  ("TeamID", TBasic KString);
  ("TeamAlias", TBasic KString);
  ("Role", TBasic KString);
  ("Synced", TBasic KBool)].

Definition LiteLLMUserStatus_ty : ty := TStruct [
  ("Synced", TBasic KBool);
  ("LiteLLMUserID", TBasic KString);
  ("CurrentSpend", TPtr (TBasic KFloat));
  ("ResolvedTeams", TSlice ResolvedTeamMembership_ty);
  ("LastSyncTime", TPtr (ext "metav1.Time"));
  ("InitialPasswordDigest", TBasic KString);
  ("Conditions", TSlice (ext "metav1.Condition"))].

Definition LiteLLMUser_ty : ty := TStruct [
  ("TypeMeta", ext "metav1.TypeMeta");
  ("ObjectMeta", ext "metav1.ObjectMeta");
  ("Spec", LiteLLMUserSpec_ty);
  ("Status", LiteLLMUserStatus_ty)].

Definition LiteLLMUserList_ty : ty := TStruct [
  ("TypeMeta", ext "metav1.TypeMeta");
  ("ListMeta", ext "metav1.ListMeta");
  ("Items", TSlice LiteLLMUser_ty)].

Definition UserRef_ty : ty := TStruct [
  ("Name", TBasic KString)].

Definition LiteLLMVirtualKeySpec_ty : ty := TStruct [
  ("InstanceRef", InstanceRef_ty);
  ("KeyAlias", TBasic KString);
  ("TeamRef", TPtr TeamRef_ty);
  ("UserRef", TPtr UserRef_ty);
  ("Models", TSlice (TBasic KString));
  ("MaxBudget", TPtr (TBasic KString));
  ("BudgetDuration", TBasic KString);
  ("ExpiresAt", TPtr (ext "metav1.Time"));
  ("TPMLimit", TPtr (TBasic KInt));
  ("RPMLimit", TPtr (TBasic KInt));
  ("SoftBudget", TPtr (TBasic KFloat));
  ("ModelRPMLimit", TMap (TBasic KInt));
  ("ModelTPMLimit", TMap (TBasic KInt));
  ("Metadata", TMap (TBasic KString));
  ("Blocked", TPtr (TBasic KBool));
  ("ObjectPermission", TPtr ObjectPermission_ty);
  ("ModelMaxBudget", TMap (TBasic KString));
  ("MaxParallelRequests", TPtr (TBasic KInt));
  ("KeySecretName", TBasic KString);
  ("KeySecretTemplate", TPtr KeySecretTemplateSpec_ty);
  ("Guardrails", TSlice (TBasic KString))].

Definition LiteLLMVirtualKeyStatus_ty : ty := TStruct [
  ("Synced", TBasic KBool);
  ("KeySecretRef", TPtr SecretKeyRef_ty);
  ("LiteLLMKeyToken", TBasic KString);
  ("CurrentSpend", TPtr (TBasic KString));
  ("IsActive", TBasic KBool);
  ("ExpiresAt", TPtr (ext "metav1.Time"));
  ("LastSyncTime", TPtr (ext "metav1.Time"));
  ("Conditions", TSlice (ext "metav1.Condition"))].

Definition LiteLLMVirtualKey_ty : ty := TStruct [
  ("TypeMeta", ext "metav1.TypeMeta");
  ("ObjectMeta", ext "metav1.ObjectMeta");
  ("Spec", LiteLLMVirtualKeySpec_ty);
  ("Status", LiteLLMVirtualKeyStatus_ty)].

Definition LiteLLMVirtualKeyList_ty : ty := TStruct [
  ("TypeMeta", ext "metav1.TypeMeta");
  ("ListMeta", ext "metav1.ListMeta");
  ("Items", TSlice LiteLLMVirtualKey_ty)].

End Types.
