(* ===== verification/DeepCopy.v ===== *)
(** * The generated deep copies (src/api/v1alpha1/zz_generated.deepcopy.go)

    [DeepCopyInto], [DeepCopy] and [DeepCopyObject] of every type, statement by statement
    with the statements of [Memory]. *)

From S2P Require Import Prelude Memory CopyTypes.

Section DeepCopies.
Context `{External} `{RangeOrder}.

Definition AWSSecretManagerConfig_DeepCopyInto : copier := into [].

Definition AWSSecretManagerConfig_DeepCopy : copier := DeepCopy_of AWSSecretManagerConfig_ty AWSSecretManagerConfig_DeepCopyInto.

Definition ConfigMapRef_DeepCopyInto : copier := into [].

Definition ConfigMapRef_DeepCopy : copier := DeepCopy_of ConfigMapRef_ty ConfigMapRef_DeepCopyInto.

Definition AdminUISpec_DeepCopyInto : copier := into [
  if_set "Disabled" (new_assign (TBasic KBool));
  if_set "AdminOnly" (new_assign (TBasic KBool));
  if_set "StoreModelInDB" (new_assign (TBasic KBool));
  if_set "DefaultTeamDisabled" (new_assign (TBasic KBool));
  if_set "ColorThemeConfigMapRef" (new_assign ConfigMapRef_ty)].

Definition AdminUISpec_DeepCopy : copier := DeepCopy_of AdminUISpec_ty AdminUISpec_DeepCopyInto.

Definition AllowedNamespaces_DeepCopyInto : copier := into [
  if_set "Selector" (new_into (ext "metav1.LabelSelector") (ext_DeepCopyInto "metav1.LabelSelector"));
  if_set "Kinds" (make_slice_copy (TBasic KString))].

Definition AllowedNamespaces_DeepCopy : copier := DeepCopy_of AllowedNamespaces_ty AllowedNamespaces_DeepCopyInto.

Definition AuditLogSpec_DeepCopyInto : copier := into [
  if_set "RetentionDays" (new_assign (TBasic KInt))].

Definition AuditLogSpec_DeepCopy : copier := DeepCopy_of AuditLogSpec_ty AuditLogSpec_DeepCopyInto.

Definition AutoscalingSpec_DeepCopyInto : copier := into [
  if_set "TargetCPUUtilization" (new_assign (TBasic KInt));
  if_set "TargetMemoryUtilization" (new_assign (TBasic KInt))].

Definition AutoscalingSpec_DeepCopy : copier := DeepCopy_of AutoscalingSpec_ty AutoscalingSpec_DeepCopyInto.

Definition AzureKeyVaultConfig_DeepCopyInto : copier := into [].

Definition AzureKeyVaultConfig_DeepCopy : copier := DeepCopy_of AzureKeyVaultConfig_ty AzureKeyVaultConfig_DeepCopyInto.

Definition BackupStatus_DeepCopyInto : copier := into [
  if_set "LastBackupTime" (ext_DeepCopy "metav1.Time")].

Definition BackupStatus_DeepCopy : copier := DeepCopy_of BackupStatus_ty BackupStatus_DeepCopyInto.

Definition CASecretRef_DeepCopyInto : copier := into [].

Definition CASecretRef_DeepCopy : copier := DeepCopy_of CASecretRef_ty CASecretRef_DeepCopyInto.

Definition CNPGBackupSpec_DeepCopyInto : copier := into [].

Definition CNPGBackupSpec_DeepCopy : copier := DeepCopy_of CNPGBackupSpec_ty CNPGBackupSpec_DeepCopyInto.

Definition SecretKeyRef_DeepCopyInto : copier := into [].

Definition SecretKeyRef_DeepCopy : copier := DeepCopy_of SecretKeyRef_ty SecretKeyRef_DeepCopyInto.

Definition CacheGCSSpec_DeepCopyInto : copier := into [
  if_set "CredentialsSecretRef" (new_assign SecretKeyRef_ty)].

Definition CacheGCSSpec_DeepCopy : copier := DeepCopy_of CacheGCSSpec_ty CacheGCSSpec_DeepCopyInto.

Definition CacheQdrantSpec_DeepCopyInto : copier := into [
  if_set "APIKeySecretRef" (new_assign SecretKeyRef_ty)].

Definition CacheQdrantSpec_DeepCopy : copier := DeepCopy_of CacheQdrantSpec_ty CacheQdrantSpec_DeepCopyInto.

Definition CacheRedisSpec_DeepCopyInto : copier := into [
  if_set "Port" (new_assign (TBasic KInt));
  if_set "PasswordSecretRef" (new_assign SecretKeyRef_ty)].

Definition CacheRedisSpec_DeepCopy : copier := DeepCopy_of CacheRedisSpec_ty CacheRedisSpec_DeepCopyInto.

Definition CacheS3Spec_DeepCopyInto : copier := into [
  if_set "CredentialsSecretRef" (new_assign SecretKeyRef_ty)].

Definition CacheS3Spec_DeepCopy : copier := DeepCopy_of CacheS3Spec_ty CacheS3Spec_DeepCopyInto.

Definition CachingSpec_DeepCopyInto : copier := into [
  if_set "Redis" (new_into CacheRedisSpec_ty CacheRedisSpec_DeepCopyInto);
  if_set "S3" (new_into CacheS3Spec_ty CacheS3Spec_DeepCopyInto);
  if_set "GCS" (new_into CacheGCSSpec_ty CacheGCSSpec_DeepCopyInto);
  if_set "Qdrant" (new_into CacheQdrantSpec_ty CacheQdrantSpec_DeepCopyInto);
  if_set "TTL" (new_assign (TBasic KInt));
  if_set "SupportedCallTypes" (make_slice_copy (TBasic KString))].

Definition CachingSpec_DeepCopy : copier := DeepCopy_of CachingSpec_ty CachingSpec_DeepCopyInto.

Definition CallbacksSpec_DeepCopyInto : copier := into [
  if_set "Types" (make_slice_copy (TBasic KString));
  if_set "EnvVars" (make_slice_into (ext "corev1.EnvVar") (ext_DeepCopyInto "corev1.EnvVar"))].

Definition CallbacksSpec_DeepCopy : copier := DeepCopy_of CallbacksSpec_ty CallbacksSpec_DeepCopyInto.

Definition CloudNativePGSpec_DeepCopyInto : copier := into [
  if_set "Backup" (new_assign CNPGBackupSpec_ty)].

Definition CloudNativePGSpec_DeepCopy : copier := DeepCopy_of CloudNativePGSpec_ty CloudNativePGSpec_DeepCopyInto.

Definition ConfigSyncSpec_DeepCopyInto : copier := into [].

Definition ConfigSyncSpec_DeepCopy : copier := DeepCopy_of ConfigSyncSpec_ty ConfigSyncSpec_DeepCopyInto.

Definition ConfigSyncStatus_DeepCopyInto : copier := into [
  if_set "LastSyncTime" (ext_DeepCopy "metav1.Time");
  if_set "SyncErrors" (make_slice_copy (TBasic KString))].

Definition ConfigSyncStatus_DeepCopy : copier := DeepCopy_of ConfigSyncStatus_ty ConfigSyncStatus_DeepCopyInto.

Definition ConnectionPoolSpec_DeepCopyInto : copier := into [].

Definition ConnectionPoolSpec_DeepCopy : copier := DeepCopy_of ConnectionPoolSpec_ty ConnectionPoolSpec_DeepCopyInto.

Definition CredentialRef_DeepCopyInto : copier := into [].

Definition CredentialRef_DeepCopy : copier := DeepCopy_of CredentialRef_ty CredentialRef_DeepCopyInto.

Definition CustomSSOHandlerConfigMapRef_DeepCopyInto : copier := into [].

Definition CustomSSOHandlerConfigMapRef_DeepCopy : copier := DeepCopy_of CustomSSOHandlerConfigMapRef_ty CustomSSOHandlerConfigMapRef_DeepCopyInto.

Definition CustomSSOHandlerSpec_DeepCopyInto : copier := into [
  if_set "ConfigMapRef" (new_assign CustomSSOHandlerConfigMapRef_ty)].

Definition CustomSSOHandlerSpec_DeepCopy : copier := DeepCopy_of CustomSSOHandlerSpec_ty CustomSSOHandlerSpec_DeepCopyInto.

Definition DatabaseImageSpec_DeepCopyInto : copier := into [].

Definition DatabaseImageSpec_DeepCopy : copier := DeepCopy_of DatabaseImageSpec_ty DatabaseImageSpec_DeepCopyInto.

Definition SecretRef_DeepCopyInto : copier := into [].

Definition SecretRef_DeepCopy : copier := DeepCopy_of SecretRef_ty SecretRef_DeepCopyInto.

Definition DatabaseTLSSpec_DeepCopyInto : copier := into [
  if_set "CASecretRef" (new_assign CASecretRef_ty);
  if_set "ClientCertSecretRef" (new_assign SecretRef_ty)].

Definition DatabaseTLSSpec_DeepCopy : copier := DeepCopy_of DatabaseTLSSpec_ty DatabaseTLSSpec_DeepCopyInto.

Definition ExternalDBSpec_DeepCopyInto : copier := into [
  assign_field "ConnectionSecretRef"].

Definition ExternalDBSpec_DeepCopy : copier := DeepCopy_of ExternalDBSpec_ty ExternalDBSpec_DeepCopyInto.

Definition ManagedDBSpec_DeepCopyInto : copier := into [
  if_set "StorageClassName" (new_assign (TBasic KString))].

Definition ManagedDBSpec_DeepCopy : copier := DeepCopy_of ManagedDBSpec_ty ManagedDBSpec_DeepCopyInto.

Definition MigrationSpec_DeepCopyInto : copier := into [
  if_set "DatabaseImage" (new_assign DatabaseImageSpec_ty)].

Definition MigrationSpec_DeepCopy : copier := DeepCopy_of MigrationSpec_ty MigrationSpec_DeepCopyInto.

Definition DatabaseSpec_DeepCopyInto : copier := into [
  if_set "CloudNativePG" (new_into CloudNativePGSpec_ty CloudNativePGSpec_DeepCopyInto);
  if_set "External" (new_assign ExternalDBSpec_ty);
  if_set "Managed" (new_into ManagedDBSpec_ty ManagedDBSpec_DeepCopyInto);
  if_set "ConnectionPool" (new_assign ConnectionPoolSpec_ty);
  if_set "Migration" (new_into MigrationSpec_ty MigrationSpec_DeepCopyInto);
  if_set "TLS" (new_into DatabaseTLSSpec_ty DatabaseTLSSpec_DeepCopyInto)].

Definition DatabaseSpec_DeepCopy : copier := DeepCopy_of DatabaseSpec_ty DatabaseSpec_DeepCopyInto.

Definition DatabaseStatus_DeepCopyInto : copier := into [].

Definition DatabaseStatus_DeepCopy : copier := DeepCopy_of DatabaseStatus_ty DatabaseStatus_DeepCopyInto.

Definition DefaultCustomerBudgetSpec_DeepCopyInto : copier := into [
  if_set "MaxBudget" (new_assign (TBasic KFloat))].

Definition DefaultCustomerBudgetSpec_DeepCopy : copier := DeepCopy_of DefaultCustomerBudgetSpec_ty DefaultCustomerBudgetSpec_DeepCopyInto.

Definition DefaultTeamParams_DeepCopyInto : copier := into [
  if_set "MaxBudget" (new_assign (TBasic KFloat));
  if_set "Models" (make_slice_copy (TBasic KString));
  if_set "TPMLimit" (new_assign (TBasic KInt));
  if_set "RPMLimit" (new_assign (TBasic KInt))].

Definition DefaultTeamParams_DeepCopy : copier := DeepCopy_of DefaultTeamParams_ty DefaultTeamParams_DeepCopyInto.

Definition DefaultUserTeam_DeepCopyInto : copier := into [
  if_set "MaxBudgetInTeam" (new_assign (TBasic KFloat))].

Definition DefaultUserTeam_DeepCopy : copier := DeepCopy_of DefaultUserTeam_ty DefaultUserTeam_DeepCopyInto.

Definition DefaultUserParams_DeepCopyInto : copier := into [
  if_set "MaxBudget" (new_assign (TBasic KFloat));
  if_set "Models" (make_slice_copy (TBasic KString));
  if_set "Teams" (make_slice_into DefaultUserTeam_ty DefaultUserTeam_DeepCopyInto)].

Definition DefaultUserParams_DeepCopy : copier := DeepCopy_of DefaultUserParams_ty DefaultUserParams_DeepCopyInto.

Definition DeploymentSpec_DeepCopyInto : copier := into [
  if_set "Annotations" (make_map mret)].

Definition DeploymentSpec_DeepCopy : copier := DeepCopy_of DeploymentSpec_ty DeploymentSpec_DeepCopyInto.

Definition ModelFallbackEntry_DeepCopyInto : copier := into [
  if_set "Fallbacks" (make_slice_copy (TBasic KString))].

Definition ModelFallbackEntry_DeepCopy : copier := DeepCopy_of ModelFallbackEntry_ty ModelFallbackEntry_DeepCopyInto.

Definition FallbackSpec_DeepCopyInto : copier := into [
  if_set "DefaultFallbacks" (make_slice_copy (TBasic KString));
  if_set "ModelFallbacks" (make_slice_into ModelFallbackEntry_ty ModelFallbackEntry_DeepCopyInto);
  if_set "ContentPolicyFallbacks" (make_slice_into ModelFallbackEntry_ty ModelFallbackEntry_DeepCopyInto);
  if_set "ContextWindowFallbacks" (make_slice_into ModelFallbackEntry_ty ModelFallbackEntry_DeepCopyInto);
  if_set "MaxFallbacks" (new_assign (TBasic KInt))].

Definition FallbackSpec_DeepCopy : copier := DeepCopy_of FallbackSpec_ty FallbackSpec_DeepCopyInto.

Definition GatewayParentRef_DeepCopyInto : copier := into [].

Definition GatewayParentRef_DeepCopy : copier := DeepCopy_of GatewayParentRef_ty GatewayParentRef_DeepCopyInto.

Definition GatewayHTTPRouteSpec_DeepCopyInto : copier := into [
  if_set "ParentRefs" (make_slice_copy GatewayParentRef_ty);
  if_set "Annotations" (make_map mret)].

Definition GatewayHTTPRouteSpec_DeepCopy : copier := DeepCopy_of GatewayHTTPRouteSpec_ty GatewayHTTPRouteSpec_DeepCopyInto.

Definition GeneralSettingsSpec_DeepCopyInto : copier := into [
  if_set "Extra" (make_map (deref_copy (ext_DeepCopy "apiextensionsv1.JSON")));
  if_set "MasterKeyRequired" (new_assign (TBasic KBool));
  if_set "AlertTypes" (make_slice_copy (TBasic KString));
  if_set "Alerting" (make_slice_copy (TBasic KString));
  if_set "AlertingThreshold" (new_assign (TBasic KInt));
  if_set "AlertToWebhookURL" (make_map mret);
  if_set "BackgroundHealthChecks" (new_assign (TBasic KBool));
  if_set "HealthCheckInterval" (new_assign (TBasic KInt));
  if_set "HealthCheckDetails" (new_assign (TBasic KBool));
  if_set "HealthCheckSkipDisabledModels" (new_assign (TBasic KBool));
  if_set "AllowUserAuth" (new_assign (TBasic KBool));
  if_set "MaxBudget" (new_assign (TBasic KString));
  if_set "GlobalMaxParallelRequests" (new_assign (TBasic KInt));
  if_set "BudgetReschedulerMinTime" (new_assign (TBasic KInt));
  if_set "BudgetReschedulerMaxTime" (new_assign (TBasic KInt))].

Definition GeneralSettingsSpec_DeepCopy : copier := DeepCopy_of GeneralSettingsSpec_ty GeneralSettingsSpec_DeepCopyInto.

Definition GrafanaDashboardSpec_DeepCopyInto : copier := into [
  if_set "Labels" (make_map mret)].

Definition GrafanaDashboardSpec_DeepCopy : copier := DeepCopy_of GrafanaDashboardSpec_ty GrafanaDashboardSpec_DeepCopyInto.

Definition HeaderSecretRef_DeepCopyInto : copier := into [
  assign_field "SecretRef"].

Definition HeaderSecretRef_DeepCopy : copier := DeepCopy_of HeaderSecretRef_ty HeaderSecretRef_DeepCopyInto.

Definition HealthCheckSpec_DeepCopyInto : copier := into [].

Definition HealthCheckSpec_DeepCopy : copier := DeepCopy_of HealthCheckSpec_ty HealthCheckSpec_DeepCopyInto.

Definition IPAllowlistSpec_DeepCopyInto : copier := into [
  if_set "AllowedIPs" (make_slice_copy (TBasic KString));
  if_set "UseXForwardedFor" (new_assign (TBasic KBool));
  if_set "MaxRequestSizeMB" (new_assign (TBasic KInt));
  if_set "MaxResponseSizeMB" (new_assign (TBasic KInt))].

Definition IPAllowlistSpec_DeepCopy : copier := DeepCopy_of IPAllowlistSpec_ty IPAllowlistSpec_DeepCopyInto.

Definition ImageSpec_DeepCopyInto : copier := into [
  if_set "PullSecrets" (make_slice_copy SecretRef_ty)].

Definition ImageSpec_DeepCopy : copier := DeepCopy_of ImageSpec_ty ImageSpec_DeepCopyInto.

Definition IngressTLSSpec_DeepCopyInto : copier := into [].

Definition IngressTLSSpec_DeepCopy : copier := DeepCopy_of IngressTLSSpec_ty IngressTLSSpec_DeepCopyInto.

Definition IngressSpec_DeepCopyInto : copier := into [
  if_set "IngressClassName" (new_assign (TBasic KString));
  if_set "TLS" (new_assign IngressTLSSpec_ty);
  if_set "Annotations" (make_map mret)].

Definition IngressSpec_DeepCopy : copier := DeepCopy_of IngressSpec_ty IngressSpec_DeepCopyInto.

Definition SpendLogRetentionSpec_DeepCopyInto : copier := into [].

Definition SpendLogRetentionSpec_DeepCopy : copier := DeepCopy_of SpendLogRetentionSpec_ty SpendLogRetentionSpec_DeepCopyInto.

Definition InstanceLoggingSpec_DeepCopyInto : copier := into [
  if_set "AuditLogs" (new_into AuditLogSpec_ty AuditLogSpec_DeepCopyInto);
  if_set "TurnOffMessageLogging" (new_assign (TBasic KBool));
  if_set "RedactUserAPIKeyInfo" (new_assign (TBasic KBool));
  if_set "SpendLogRetention" (new_assign SpendLogRetentionSpec_ty)].

Definition InstanceLoggingSpec_DeepCopy : copier := DeepCopy_of InstanceLoggingSpec_ty InstanceLoggingSpec_DeepCopyInto.

Definition InstanceRef_DeepCopyInto : copier := into [].

Definition InstanceRef_DeepCopy : copier := DeepCopy_of InstanceRef_ty InstanceRef_DeepCopyInto.

Definition JWTLiteLLMRoleMapEntry_DeepCopyInto : copier := into [].

Definition JWTLiteLLMRoleMapEntry_DeepCopy : copier := DeepCopy_of JWTLiteLLMRoleMapEntry_ty JWTLiteLLMRoleMapEntry_DeepCopyInto.

Definition JWTRoleMapping_DeepCopyInto : copier := into [].

Definition JWTRoleMapping_DeepCopy : copier := DeepCopy_of JWTRoleMapping_ty JWTRoleMapping_DeepCopyInto.

Definition JWTRoutingOverride_DeepCopyInto : copier := into [].

Definition JWTRoutingOverride_DeepCopy : copier := DeepCopy_of JWTRoutingOverride_ty JWTRoutingOverride_DeepCopyInto.

Definition JWTScopeMapping_DeepCopyInto : copier := into [
  if_set "Models" (make_slice_copy (TBasic KString));
  if_set "Routes" (make_slice_copy (TBasic KString))].

Definition JWTScopeMapping_DeepCopy : copier := DeepCopy_of JWTScopeMapping_ty JWTScopeMapping_DeepCopyInto.

Definition JWTAuthSpec_DeepCopyInto : copier := into [
  if_set "AdminAllowedRoutes" (make_slice_copy (TBasic KString));
  if_set "UserIDUpsert" (new_assign (TBasic KBool));
  if_set "UserAllowedRoles" (make_slice_copy (TBasic KString));
  if_set "EnforceRBAC" (new_assign (TBasic KBool));
  if_set "PublicKeyTTL" (new_assign (TBasic KInt));
  if_set "ScopeModelMappings" (make_map (unless_nil (make_slice_copy (TBasic KString))));
  if_set "ScopeMappings" (make_slice_into JWTScopeMapping_ty JWTScopeMapping_DeepCopyInto);
  if_set "RoleMappings" (make_slice_copy JWTRoleMapping_ty);
  if_set "JWTLiteLLMRoleMap" (make_slice_copy JWTLiteLLMRoleMapEntry_ty);
  if_set "TeamAllowedRoutes" (make_slice_copy (TBasic KString));
  if_set "TeamIDUpsert" (new_assign (TBasic KBool));
  if_set "TeamClaimFallback" (new_assign (TBasic KBool));
  if_set "EnforceTeamBasedModelAccess" (new_assign (TBasic KBool));
  if_set "EnforceScopeBasedAccess" (new_assign (TBasic KBool));
  if_set "SyncUserRoleAndTeams" (new_assign (TBasic KBool));
  if_set "VirtualKeyMappingCacheTTL" (new_assign (TBasic KInt));
  if_set "RoutingOverrides" (make_slice_copy JWTRoutingOverride_ty);
  if_set "OIDCUserInfoEnabled" (new_assign (TBasic KBool));
  if_set "OIDCUserInfoCacheTTL" (new_assign (TBasic KInt))].

Definition JWTAuthSpec_DeepCopy : copier := DeepCopy_of JWTAuthSpec_ty JWTAuthSpec_DeepCopyInto.

Definition PersonalKeyGenerationSettings_DeepCopyInto : copier := into [
  if_set "AllowedUserRoles" (make_slice_copy (TBasic KString))].

Definition PersonalKeyGenerationSettings_DeepCopy : copier := DeepCopy_of PersonalKeyGenerationSettings_ty PersonalKeyGenerationSettings_DeepCopyInto.

Definition TeamKeyGenerationSettings_DeepCopyInto : copier := into [
  if_set "AllowedTeamMemberRoles" (make_slice_copy (TBasic KString))].

Definition TeamKeyGenerationSettings_DeepCopy : copier := DeepCopy_of TeamKeyGenerationSettings_ty TeamKeyGenerationSettings_DeepCopyInto.

Definition KeyGenerationSettings_DeepCopyInto : copier := into [
  if_set "TeamKeyGeneration" (new_into TeamKeyGenerationSettings_ty TeamKeyGenerationSettings_DeepCopyInto);
  if_set "PersonalKeyGeneration" (new_into PersonalKeyGenerationSettings_ty PersonalKeyGenerationSettings_DeepCopyInto)].

Definition KeyGenerationSettings_DeepCopy : copier := DeepCopy_of KeyGenerationSettings_ty KeyGenerationSettings_DeepCopyInto.

Definition KeySecretTemplateSpec_DeepCopyInto : copier := into [
  if_set "Annotations" (make_map mret);
  if_set "Labels" (make_map mret)].

Definition KeySecretTemplateSpec_DeepCopy : copier := DeepCopy_of KeySecretTemplateSpec_ty KeySecretTemplateSpec_DeepCopyInto.

Definition LicenseStatus_DeepCopyInto : copier := into [].

Definition LicenseStatus_DeepCopy : copier := DeepCopy_of LicenseStatus_ty LicenseStatus_DeepCopyInto.

Definition LiteLLMBudgetSpec_DeepCopyInto : copier := into [
  assign_field "InstanceRef";
  if_set "MaxBudget" (new_assign (TBasic KFloat));
  if_set "SoftBudget" (new_assign (TBasic KFloat));
  if_set "TPMLimit" (new_assign (TBasic KInt));
  if_set "RPMLimit" (new_assign (TBasic KInt));
  if_set "MaxParallelRequests" (new_assign (TBasic KInt));
  if_set "ModelMaxBudget" (make_map mret)].

Definition LiteLLMBudgetSpec_DeepCopy : copier := DeepCopy_of LiteLLMBudgetSpec_ty LiteLLMBudgetSpec_DeepCopyInto.

Definition LiteLLMBudgetStatus_DeepCopyInto : copier := into [
  if_set "CurrentSpend" (new_assign (TBasic KFloat));
  if_set "LastSyncTime" (ext_DeepCopy "metav1.Time");
  if_set "Conditions" (make_slice_into (ext "metav1.Condition") (ext_DeepCopyInto "metav1.Condition"))].

Definition LiteLLMBudgetStatus_DeepCopy : copier := DeepCopy_of LiteLLMBudgetStatus_ty LiteLLMBudgetStatus_DeepCopyInto.

Definition LiteLLMBudget_DeepCopyInto : copier := into [
  assign_field "TypeMeta";
  field_into "ObjectMeta" (ext_DeepCopyInto "metav1.ObjectMeta");
  field_into "Spec" LiteLLMBudgetSpec_DeepCopyInto;
  field_into "Status" LiteLLMBudgetStatus_DeepCopyInto].

Definition LiteLLMBudget_DeepCopy : copier := DeepCopy_of LiteLLMBudget_ty LiteLLMBudget_DeepCopyInto.

Definition LiteLLMBudget_DeepCopyObject : value → mem (option value) := DeepCopyObject_of LiteLLMBudget_DeepCopy.

Definition LiteLLMBudgetList_DeepCopyInto : copier := into [
  assign_field "TypeMeta";
  field_into "ListMeta" (ext_DeepCopyInto "metav1.ListMeta");
  if_set "Items" (make_slice_into LiteLLMBudget_ty LiteLLMBudget_DeepCopyInto)].

Definition LiteLLMBudgetList_DeepCopy : copier := DeepCopy_of LiteLLMBudgetList_ty LiteLLMBudgetList_DeepCopyInto.

Definition LiteLLMBudgetList_DeepCopyObject : value → mem (option value) := DeepCopyObject_of LiteLLMBudgetList_DeepCopy.

Definition LiteLLMCredentialSpec_DeepCopyInto : copier := into [
  assign_field "InstanceRef";
  assign_field "APIKeySecretRef";
  if_set "Params" (make_map (deref_copy (ext_DeepCopy "apiextensionsv1.JSON")))].

Definition LiteLLMCredentialSpec_DeepCopy : copier := DeepCopy_of LiteLLMCredentialSpec_ty LiteLLMCredentialSpec_DeepCopyInto.

Definition LiteLLMCredentialStatus_DeepCopyInto : copier := into [
  if_set "LastSyncTime" (ext_DeepCopy "metav1.Time");
  if_set "Conditions" (make_slice_into (ext "metav1.Condition") (ext_DeepCopyInto "metav1.Condition"))].

Definition LiteLLMCredentialStatus_DeepCopy : copier := DeepCopy_of LiteLLMCredentialStatus_ty LiteLLMCredentialStatus_DeepCopyInto.

Definition LiteLLMCredential_DeepCopyInto : copier := into [
  assign_field "TypeMeta";
  field_into "ObjectMeta" (ext_DeepCopyInto "metav1.ObjectMeta");
  field_into "Spec" LiteLLMCredentialSpec_DeepCopyInto;
  field_into "Status" LiteLLMCredentialStatus_DeepCopyInto].

Definition LiteLLMCredential_DeepCopy : copier := DeepCopy_of LiteLLMCredential_ty LiteLLMCredential_DeepCopyInto.

Definition LiteLLMCredential_DeepCopyObject : value → mem (option value) := DeepCopyObject_of LiteLLMCredential_DeepCopy.

Definition LiteLLMCredentialList_DeepCopyInto : copier := into [
  assign_field "TypeMeta";
  field_into "ListMeta" (ext_DeepCopyInto "metav1.ListMeta");
  if_set "Items" (make_slice_into LiteLLMCredential_ty LiteLLMCredential_DeepCopyInto)].

Definition LiteLLMCredentialList_DeepCopy : copier := DeepCopy_of LiteLLMCredentialList_ty LiteLLMCredentialList_DeepCopyInto.

Definition LiteLLMCredentialList_DeepCopyObject : value → mem (option value) := DeepCopyObject_of LiteLLMCredentialList_DeepCopy.

Definition ObjectPermission_DeepCopyInto : copier := into [
  if_set "MCPServers" (make_slice_copy (TBasic KString));
  if_set "AccessGroups" (make_slice_copy (TBasic KString));
  if_set "VectorStores" (make_slice_copy (TBasic KString));
  if_set "Agents" (make_slice_copy (TBasic KString))].

Definition ObjectPermission_DeepCopy : copier := DeepCopy_of ObjectPermission_ty ObjectPermission_DeepCopyInto.

Definition LiteLLMCustomerSpec_DeepCopyInto : copier := into [
  assign_field "InstanceRef";
  if_set "MaxBudget" (new_assign (TBasic KFloat));
  if_set "TpmLimit" (new_assign (TBasic KInt));
  if_set "RpmLimit" (new_assign (TBasic KInt));
  if_set "Models" (make_slice_copy (TBasic KString));
  if_set "Blocked" (new_assign (TBasic KBool));
  if_set "ObjectPermission" (new_into ObjectPermission_ty ObjectPermission_DeepCopyInto);
  if_set "Metadata" (make_map mret)].

Definition LiteLLMCustomerSpec_DeepCopy : copier := DeepCopy_of LiteLLMCustomerSpec_ty LiteLLMCustomerSpec_DeepCopyInto.

Definition LiteLLMCustomerStatus_DeepCopyInto : copier := into [
  if_set "CurrentSpend" (new_assign (TBasic KFloat));
  if_set "LastSyncTime" (ext_DeepCopy "metav1.Time");
  if_set "Conditions" (make_slice_into (ext "metav1.Condition") (ext_DeepCopyInto "metav1.Condition"))].

Definition LiteLLMCustomerStatus_DeepCopy : copier := DeepCopy_of LiteLLMCustomerStatus_ty LiteLLMCustomerStatus_DeepCopyInto.

Definition LiteLLMCustomer_DeepCopyInto : copier := into [
  assign_field "TypeMeta";
  field_into "ObjectMeta" (ext_DeepCopyInto "metav1.ObjectMeta");
  field_into "Spec" LiteLLMCustomerSpec_DeepCopyInto;
  field_into "Status" LiteLLMCustomerStatus_DeepCopyInto].

Definition LiteLLMCustomer_DeepCopy : copier := DeepCopy_of LiteLLMCustomer_ty LiteLLMCustomer_DeepCopyInto.

Definition LiteLLMCustomer_DeepCopyObject : value → mem (option value) := DeepCopyObject_of LiteLLMCustomer_DeepCopy.

Definition LiteLLMCustomerList_DeepCopyInto : copier := into [
  assign_field "TypeMeta";
  field_into "ListMeta" (ext_DeepCopyInto "metav1.ListMeta");
  if_set "Items" (make_slice_into LiteLLMCustomer_ty LiteLLMCustomer_DeepCopyInto)].

Definition LiteLLMCustomerList_DeepCopy : copier := DeepCopy_of LiteLLMCustomerList_ty LiteLLMCustomerList_DeepCopyInto.

Definition LiteLLMCustomerList_DeepCopyObject : value → mem (option value) := DeepCopyObject_of LiteLLMCustomerList_DeepCopy.

Definition LiteLLMGuardrailSpec_DeepCopyInto : copier := into [
  assign_field "InstanceRef";
  if_set "APIKeySecretRef" (new_assign SecretKeyRef_ty);
  if_set "DefaultOn" (new_assign (TBasic KBool));
  if_set "Params" (make_map (deref_copy (ext_DeepCopy "apiextensionsv1.JSON")));
  if_set "EnvVars" (make_slice_into (ext "corev1.EnvVar") (ext_DeepCopyInto "corev1.EnvVar"))].

Definition LiteLLMGuardrailSpec_DeepCopy : copier := DeepCopy_of LiteLLMGuardrailSpec_ty LiteLLMGuardrailSpec_DeepCopyInto.

Definition LiteLLMGuardrailStatus_DeepCopyInto : copier := into [
  if_set "LastSyncTime" (ext_DeepCopy "metav1.Time");
  if_set "Conditions" (make_slice_into (ext "metav1.Condition") (ext_DeepCopyInto "metav1.Condition"))].

Definition LiteLLMGuardrailStatus_DeepCopy : copier := DeepCopy_of LiteLLMGuardrailStatus_ty LiteLLMGuardrailStatus_DeepCopyInto.

Definition LiteLLMGuardrail_DeepCopyInto : copier := into [
  assign_field "TypeMeta";
  field_into "ObjectMeta" (ext_DeepCopyInto "metav1.ObjectMeta");
  field_into "Spec" LiteLLMGuardrailSpec_DeepCopyInto;
  field_into "Status" LiteLLMGuardrailStatus_DeepCopyInto].

Definition LiteLLMGuardrail_DeepCopy : copier := DeepCopy_of LiteLLMGuardrail_ty LiteLLMGuardrail_DeepCopyInto.

Definition LiteLLMGuardrail_DeepCopyObject : value → mem (option value) := DeepCopyObject_of LiteLLMGuardrail_DeepCopy.

Definition LiteLLMGuardrailList_DeepCopyInto : copier := into [
  assign_field "TypeMeta";
  field_into "ListMeta" (ext_DeepCopyInto "metav1.ListMeta");
  if_set "Items" (make_slice_into LiteLLMGuardrail_ty LiteLLMGuardrail_DeepCopyInto)].

Definition LiteLLMGuardrailList_DeepCopy : copier := DeepCopy_of LiteLLMGuardrailList_ty LiteLLMGuardrailList_DeepCopyInto.

Definition LiteLLMGuardrailList_DeepCopyObject : value → mem (option value) := DeepCopyObject_of LiteLLMGuardrailList_DeepCopy.

Definition LiteLLMSettingsSpec_DeepCopyInto : copier := into [
  if_set "JSONLogs" (new_assign (TBasic KBool));
  if_set "CheckProviderEndpoint" (new_assign (TBasic KBool));
  if_set "Extra" (make_map (deref_copy (ext_DeepCopy "apiextensionsv1.JSON")))].

Definition LiteLLMSettingsSpec_DeepCopy : copier := DeepCopy_of LiteLLMSettingsSpec_ty LiteLLMSettingsSpec_DeepCopyInto.

Definition MasterKeySpec_DeepCopyInto : copier := into [
  if_set "SecretRef" (new_assign SecretKeyRef_ty)].

Definition MasterKeySpec_DeepCopy : copier := DeepCopy_of MasterKeySpec_ty MasterKeySpec_DeepCopyInto.

Definition OAuth2Mapping_DeepCopyInto : copier := into [].

Definition OAuth2Mapping_DeepCopy : copier := DeepCopy_of OAuth2Mapping_ty OAuth2Mapping_DeepCopyInto.

Definition OAuth2AuthSpec_DeepCopyInto : copier := into [
  if_set "ConfigMappings" (make_slice_copy OAuth2Mapping_ty)].

Definition OAuth2AuthSpec_DeepCopy : copier := DeepCopy_of OAuth2AuthSpec_ty OAuth2AuthSpec_DeepCopyInto.

Definition PrometheusRuleSpec_DeepCopyInto : copier := into [
  if_set "Labels" (make_map mret);
  if_set "DisabledAlerts" (make_slice_copy (TBasic KString))].

Definition PrometheusRuleSpec_DeepCopy : copier := DeepCopy_of PrometheusRuleSpec_ty PrometheusRuleSpec_DeepCopyInto.

Definition ServiceMonitorAuthorization_DeepCopyInto : copier := into [
  if_set "Credentials" (new_assign SecretKeyRef_ty)].

Definition ServiceMonitorAuthorization_DeepCopy : copier := DeepCopy_of ServiceMonitorAuthorization_ty ServiceMonitorAuthorization_DeepCopyInto.

Definition ServiceMonitorSpec_DeepCopyInto : copier := into [
  if_set "Labels" (make_map mret);
  if_set "Authorization" (new_into ServiceMonitorAuthorization_ty ServiceMonitorAuthorization_DeepCopyInto)].

Definition ServiceMonitorSpec_DeepCopy : copier := DeepCopy_of ServiceMonitorSpec_ty ServiceMonitorSpec_DeepCopyInto.

Definition ObservabilitySpec_DeepCopyInto : copier := into [
  if_set "ServiceMonitor" (new_into ServiceMonitorSpec_ty ServiceMonitorSpec_DeepCopyInto);
  if_set "PrometheusRule" (new_into PrometheusRuleSpec_ty PrometheusRuleSpec_DeepCopyInto);
  if_set "GrafanaDashboard" (new_into GrafanaDashboardSpec_ty GrafanaDashboardSpec_DeepCopyInto)].

Definition ObservabilitySpec_DeepCopy : copier := DeepCopy_of ObservabilitySpec_ty ObservabilitySpec_DeepCopyInto.

Definition PDBSpec_DeepCopyInto : copier := into [
  if_set "MinAvailable" (new_assign (TBasic KInt));
  if_set "MaxUnavailable" (new_assign (TBasic KInt))].

Definition PDBSpec_DeepCopy : copier := DeepCopy_of PDBSpec_ty PDBSpec_DeepCopyInto.

Definition PassThroughEndpoint_DeepCopyInto : copier := into [
  if_set "Auth" (new_assign (TBasic KBool));
  if_set "ForwardHeaders" (new_assign (TBasic KBool));
  if_set "IncludeSubpath" (new_assign (TBasic KBool));
  if_set "Methods" (make_slice_copy (TBasic KString));
  if_set "Headers" (make_map mret);
  if_set "HeaderSecrets" (make_slice_copy HeaderSecretRef_ty);
  if_set "DefaultQueryParams" (make_map mret)].

Definition PassThroughEndpoint_DeepCopy : copier := DeepCopy_of PassThroughEndpoint_ty PassThroughEndpoint_DeepCopyInto.

Definition PodSchedulingSpec_DeepCopyInto : copier := into [
  if_set "NodeSelector" (make_map mret);
  if_set "Tolerations" (make_slice_into (ext "corev1.Toleration") (ext_DeepCopyInto "corev1.Toleration"));
  if_set "Affinity" (new_into (ext "corev1.Affinity") (ext_DeepCopyInto "corev1.Affinity"))].

Definition PodSchedulingSpec_DeepCopy : copier := DeepCopy_of PodSchedulingSpec_ty PodSchedulingSpec_DeepCopyInto.

Definition RolePermission_DeepCopyInto : copier := into [
  if_set "Routes" (make_slice_copy (TBasic KString));
  if_set "Models" (make_slice_copy (TBasic KString))].

Definition RolePermission_DeepCopy : copier := DeepCopy_of RolePermission_ty RolePermission_DeepCopyInto.

Definition RBACSpec_DeepCopyInto : copier := into [
  if_set "AdminOnlyRoutes" (make_slice_copy (TBasic KString));
  if_set "AllowedRoutes" (make_slice_copy (TBasic KString));
  if_set "KeyGeneration" (new_into KeyGenerationSettings_ty KeyGenerationSettings_DeepCopyInto);
  if_set "RolePermissions" (make_map (deref_copy RolePermission_DeepCopy));
  if_set "DefaultTeamDisabled" (new_assign (TBasic KBool))].

Definition RBACSpec_DeepCopy : copier := DeepCopy_of RBACSpec_ty RBACSpec_DeepCopyInto.

Definition RedisSpec_DeepCopyInto : copier := into [
  if_set "ConnectionSecretRef" (new_assign SecretKeyRef_ty);
  if_set "PasswordSecretRef" (new_assign SecretKeyRef_ty)].

Definition RedisSpec_DeepCopy : copier := DeepCopy_of RedisSpec_ty RedisSpec_DeepCopyInto.

Definition RouteSpec_DeepCopyInto : copier := into [].

Definition RouteSpec_DeepCopy : copier := DeepCopy_of RouteSpec_ty RouteSpec_DeepCopyInto.

Definition ProviderBudget_DeepCopyInto : copier := into [].

Definition ProviderBudget_DeepCopy : copier := DeepCopy_of ProviderBudget_ty ProviderBudget_DeepCopyInto.

Definition RouterSettingsSpec_DeepCopyInto : copier := into [
  if_set "NumRetries" (new_assign (TBasic KInt));
  if_set "Timeout" (new_assign (TBasic KInt));
  if_set "RetryAfter" (new_assign (TBasic KInt));
  if_set "AllowedFails" (new_assign (TBasic KInt));
  if_set "CooldownTime" (new_assign (TBasic KInt));
  if_set "RetryPolicy" (make_map mret);
  if_set "ModelGroupRetryPolicy" (make_map (unless_nil (make_map mret)));
  if_set "EnableTagFiltering" (new_assign (TBasic KBool));
  if_set "TagFilteringMatchAny" (new_assign (TBasic KBool));
  if_set "DefaultMaxParallelRequests" (new_assign (TBasic KInt));
  if_set "ProviderBudgetConfig" (make_map mret);
  if_set "StreamTimeout" (new_assign (TBasic KInt));
  if_set "EnablePreCallChecks" (new_assign (TBasic KBool));
  if_set "ModelGroupAlias" (make_map mret)].

Definition RouterSettingsSpec_DeepCopy : copier := DeepCopy_of RouterSettingsSpec_ty RouterSettingsSpec_DeepCopyInto.

Definition SCIMSpec_DeepCopyInto : copier := into [
  if_set "TokenSecretRef" (new_assign SecretKeyRef_ty)].

Definition SCIMSpec_DeepCopy : copier := DeepCopy_of SCIMSpec_ty SCIMSpec_DeepCopyInto.

Definition UserAttributeMappings_DeepCopyInto : copier := into [].

Definition UserAttributeMappings_DeepCopy : copier := DeepCopy_of UserAttributeMappings_ty UserAttributeMappings_DeepCopyInto.

Definition SSOSpec_DeepCopyInto : copier := into [
  assign_field "ClientID";
  assign_field "ClientSecret";
  if_set "Scopes" (make_slice_copy (TBasic KString));
  if_set "UserAttributeMappings" (new_assign UserAttributeMappings_ty);
  if_set "DefaultUserParams" (new_into DefaultUserParams_ty DefaultUserParams_DeepCopyInto);
  if_set "DefaultTeamParams" (new_into DefaultTeamParams_ty DefaultTeamParams_DeepCopyInto);
  if_set "CustomSSOHandler" (new_into CustomSSOHandlerSpec_ty CustomSSOHandlerSpec_DeepCopyInto)].

Definition SSOSpec_DeepCopy : copier := DeepCopy_of SSOSpec_ty SSOSpec_DeepCopyInto.

Definition SaltKeySpec_DeepCopyInto : copier := into [
  if_set "SecretRef" (new_assign SecretKeyRef_ty)].

Definition SaltKeySpec_DeepCopy : copier := DeepCopy_of SaltKeySpec_ty SaltKeySpec_DeepCopyInto.

Definition VaultConfig_DeepCopyInto : copier := into [
  if_set "RefreshInterval" (new_assign (TBasic KInt))].

Definition VaultConfig_DeepCopy : copier := DeepCopy_of VaultConfig_ty VaultConfig_DeepCopyInto.

Definition SecretManagerSpec_DeepCopyInto : copier := into [
  if_set "CredentialsSecretRef" (new_assign SecretRef_ty);
  if_set "HostedKeys" (make_slice_copy (TBasic KString));
  if_set "StoreVirtualKeys" (new_assign (TBasic KBool));
  if_set "AWS" (new_assign AWSSecretManagerConfig_ty);
  if_set "Azure" (new_assign AzureKeyVaultConfig_ty);
  if_set "Vault" (new_into VaultConfig_ty VaultConfig_DeepCopyInto)].

Definition SecretManagerSpec_DeepCopy : copier := DeepCopy_of SecretManagerSpec_ty SecretManagerSpec_DeepCopyInto.

Definition NetworkPolicySpec_DeepCopyInto : copier := into [
  if_set "AllowedNamespaces" (make_slice_copy (TBasic KString))].

Definition NetworkPolicySpec_DeepCopy : copier := DeepCopy_of NetworkPolicySpec_ty NetworkPolicySpec_DeepCopyInto.

Definition SecuritySpec_DeepCopyInto : copier := into [
  if_set "NetworkPolicy" (new_into NetworkPolicySpec_ty NetworkPolicySpec_DeepCopyInto);
  if_set "RunAsNonRoot" (new_assign (TBasic KBool));
  if_set "IPAllowlist" (new_into IPAllowlistSpec_ty IPAllowlistSpec_DeepCopyInto)].

Definition SecuritySpec_DeepCopy : copier := DeepCopy_of SecuritySpec_ty SecuritySpec_DeepCopyInto.

Definition ServiceAccountSpec_DeepCopyInto : copier := into [
  if_set "Annotations" (make_map mret);
  if_set "Labels" (make_map mret)].

Definition ServiceAccountSpec_DeepCopy : copier := DeepCopy_of ServiceAccountSpec_ty ServiceAccountSpec_DeepCopyInto.

Definition ServiceSpec_DeepCopyInto : copier := into [].

Definition ServiceSpec_DeepCopy : copier := DeepCopy_of ServiceSpec_ty ServiceSpec_DeepCopyInto.

Definition TLSSpec_DeepCopyInto : copier := into [
  if_set "ServerCertSecretRef" (new_assign SecretRef_ty);
  if_set "TrustedCASecretRef" (new_assign CASecretRef_ty);
  if_set "ClientCertSecretRef" (new_assign SecretRef_ty)].

Definition TLSSpec_DeepCopy : copier := DeepCopy_of TLSSpec_ty TLSSpec_DeepCopyInto.

Definition UpgradeSpec_DeepCopyInto : copier := into [
  if_set "MaxUnavailable" (new_assign (TBasic KInt));
  if_set "MaxSurge" (new_assign (TBasic KInt))].

Definition UpgradeSpec_DeepCopy : copier := DeepCopy_of UpgradeSpec_ty UpgradeSpec_DeepCopyInto.

Definition WorkloadSpec_DeepCopyInto : copier := into [
  if_set "Managed" (new_assign (TBasic KBool))].

Definition WorkloadSpec_DeepCopy : copier := DeepCopy_of WorkloadSpec_ty WorkloadSpec_DeepCopyInto.

Definition LiteLLMInstanceSpec_DeepCopyInto : copier := into [
  field_into "Image" ImageSpec_DeepCopyInto;
  if_set "Workload" (new_into WorkloadSpec_ty WorkloadSpec_DeepCopyInto);
  if_set "Autoscaling" (new_into AutoscalingSpec_ty AutoscalingSpec_DeepCopyInto);
  field_into "MasterKey" MasterKeySpec_DeepCopyInto;
  field_into "Database" DatabaseSpec_DeepCopyInto;
  if_set "Redis" (new_into RedisSpec_ty RedisSpec_DeepCopyInto);
  if_set "SaltKey" (new_into SaltKeySpec_ty SaltKeySpec_DeepCopyInto);
  if_set "GeneralSettings" (new_into GeneralSettingsSpec_ty GeneralSettingsSpec_DeepCopyInto);
  if_set "RouterSettings" (new_into RouterSettingsSpec_ty RouterSettingsSpec_DeepCopyInto);
  if_set "LiteLLMSettings" (new_into LiteLLMSettingsSpec_ty LiteLLMSettingsSpec_DeepCopyInto);
  if_set "Fallbacks" (new_into FallbackSpec_ty FallbackSpec_DeepCopyInto);
  if_set "ConfigSync" (new_assign ConfigSyncSpec_ty);
  assign_field "Service";
  if_set "ServiceAccount" (new_into ServiceAccountSpec_ty ServiceAccountSpec_DeepCopyInto);
  if_set "Deployment" (new_into DeploymentSpec_ty DeploymentSpec_DeepCopyInto);
  if_set "PodScheduling" (new_into PodSchedulingSpec_ty PodSchedulingSpec_DeepCopyInto);
  if_set "Ingress" (new_into IngressSpec_ty IngressSpec_DeepCopyInto);
  if_set "Route" (new_assign RouteSpec_ty);
  if_set "GatewayHTTPRoute" (new_into GatewayHTTPRouteSpec_ty GatewayHTTPRouteSpec_DeepCopyInto);
  if_set "Security" (new_into SecuritySpec_ty SecuritySpec_DeepCopyInto);
  if_set "HealthCheck" (new_assign HealthCheckSpec_ty);
  if_set "Resources" (new_into (ext "corev1.ResourceRequirements") (ext_DeepCopyInto "corev1.ResourceRequirements"));
  if_set "PodDisruptionBudget" (new_into PDBSpec_ty PDBSpec_DeepCopyInto);
  if_set "TopologySpreadConstraints" (make_slice_into (ext "corev1.TopologySpreadConstraint") (ext_DeepCopyInto "corev1.TopologySpreadConstraint"));
  if_set "ExtraEnvVars" (make_slice_into (ext "corev1.EnvVar") (ext_DeepCopyInto "corev1.EnvVar"));
  if_set "ExtraEnvFrom" (make_slice_into (ext "corev1.EnvFromSource") (ext_DeepCopyInto "corev1.EnvFromSource"));
  if_set "Callbacks" (new_into CallbacksSpec_ty CallbacksSpec_DeepCopyInto);
  if_set "Observability" (new_into ObservabilitySpec_ty ObservabilitySpec_DeepCopyInto);
  if_set "Upgrade" (new_into UpgradeSpec_ty UpgradeSpec_DeepCopyInto);
  if_set "SSO" (new_into SSOSpec_ty SSOSpec_DeepCopyInto);
  if_set "SCIM" (new_into SCIMSpec_ty SCIMSpec_DeepCopyInto);
  if_set "JWTAuth" (new_into JWTAuthSpec_ty JWTAuthSpec_DeepCopyInto);
  if_set "OAuth2Auth" (new_into OAuth2AuthSpec_ty OAuth2AuthSpec_DeepCopyInto);
  if_set "Caching" (new_into CachingSpec_ty CachingSpec_DeepCopyInto);
  if_set "PassThroughEndpoints" (make_slice_into PassThroughEndpoint_ty PassThroughEndpoint_DeepCopyInto);
  if_set "DefaultCustomerBudget" (new_into DefaultCustomerBudgetSpec_ty DefaultCustomerBudgetSpec_DeepCopyInto);
  if_set "SecretManager" (new_into SecretManagerSpec_ty SecretManagerSpec_DeepCopyInto);
  if_set "RBAC" (new_into RBACSpec_ty RBACSpec_DeepCopyInto);
  if_set "Logging" (new_into InstanceLoggingSpec_ty InstanceLoggingSpec_DeepCopyInto);
  if_set "AdminUI" (new_into AdminUISpec_ty AdminUISpec_DeepCopyInto);
  if_set "TLS" (new_into TLSSpec_ty TLSSpec_DeepCopyInto);
  if_set "ExtraVolumes" (make_slice_into (ext "corev1.Volume") (ext_DeepCopyInto "corev1.Volume"));
  if_set "ExtraVolumeMounts" (make_slice_into (ext "corev1.VolumeMount") (ext_DeepCopyInto "corev1.VolumeMount"));
  if_set "AllowedNamespaces" (new_into AllowedNamespaces_ty AllowedNamespaces_DeepCopyInto)].

Definition LiteLLMInstanceSpec_DeepCopy : copier := DeepCopy_of LiteLLMInstanceSpec_ty LiteLLMInstanceSpec_DeepCopyInto.

Definition RedisStatus_DeepCopyInto : copier := into [].

Definition RedisStatus_DeepCopy : copier := DeepCopy_of RedisStatus_ty RedisStatus_DeepCopyInto.

Definition SCIMStatus_DeepCopyInto : copier := into [].

Definition SCIMStatus_DeepCopy : copier := DeepCopy_of SCIMStatus_ty SCIMStatus_DeepCopyInto.

Definition SSOStatus_DeepCopyInto : copier := into [].

Definition SSOStatus_DeepCopy : copier := DeepCopy_of SSOStatus_ty SSOStatus_DeepCopyInto.

Definition SecretManagerStatus_DeepCopyInto : copier := into [].

Definition SecretManagerStatus_DeepCopy : copier := DeepCopy_of SecretManagerStatus_ty SecretManagerStatus_DeepCopyInto.

Definition UnhealthyPod_DeepCopyInto : copier := into [].

Definition UnhealthyPod_DeepCopy : copier := DeepCopy_of UnhealthyPod_ty UnhealthyPod_DeepCopyInto.

Definition LiteLLMInstanceStatus_DeepCopyInto : copier := into [
  assign_field "Database";
  if_set "Redis" (new_assign RedisStatus_ty);
  if_set "ConfigSync" (new_into ConfigSyncStatus_ty ConfigSyncStatus_DeepCopyInto);
  if_set "SSO" (new_assign SSOStatus_ty);
  if_set "SCIM" (new_assign SCIMStatus_ty);
  if_set "SecretManager" (new_assign SecretManagerStatus_ty);
  if_set "License" (new_assign LicenseStatus_ty);
  if_set "Backup" (new_into BackupStatus_ty BackupStatus_DeepCopyInto);
  if_set "UnhealthyPods" (make_slice_copy UnhealthyPod_ty);
  if_set "Conditions" (make_slice_into (ext "metav1.Condition") (ext_DeepCopyInto "metav1.Condition"))].

Definition LiteLLMInstanceStatus_DeepCopy : copier := DeepCopy_of LiteLLMInstanceStatus_ty LiteLLMInstanceStatus_DeepCopyInto.

Definition LiteLLMInstance_DeepCopyInto : copier := into [
  assign_field "TypeMeta";
  field_into "ObjectMeta" (ext_DeepCopyInto "metav1.ObjectMeta");
  field_into "Spec" LiteLLMInstanceSpec_DeepCopyInto;
  field_into "Status" LiteLLMInstanceStatus_DeepCopyInto].

Definition LiteLLMInstance_DeepCopy : copier := DeepCopy_of LiteLLMInstance_ty LiteLLMInstance_DeepCopyInto.

Definition LiteLLMInstance_DeepCopyObject : value → mem (option value) := DeepCopyObject_of LiteLLMInstance_DeepCopy.

Definition LiteLLMInstanceList_DeepCopyInto : copier := into [
  assign_field "TypeMeta";
  field_into "ListMeta" (ext_DeepCopyInto "metav1.ListMeta");
  if_set "Items" (make_slice_into LiteLLMInstance_ty LiteLLMInstance_DeepCopyInto)].

Definition LiteLLMInstanceList_DeepCopy : copier := DeepCopy_of LiteLLMInstanceList_ty LiteLLMInstanceList_DeepCopyInto.

Definition LiteLLMInstanceList_DeepCopyObject : value → mem (option value) := DeepCopyObject_of LiteLLMInstanceList_DeepCopy.

Definition LiteLLMModelParams_DeepCopyInto : copier := into [
  if_set "APIKeySecretRef" (new_assign SecretKeyRef_ty);
  if_set "CredentialRef" (new_assign CredentialRef_ty);
  if_set "RPM" (new_assign (TBasic KInt));
  if_set "TPM" (new_assign (TBasic KInt));
  if_set "Timeout" (new_assign (TBasic KInt));
  if_set "StreamTimeout" (new_assign (TBasic KInt));
  if_set "MaxRetries" (new_assign (TBasic KInt));
  if_set "Weight" (new_assign (TBasic KInt));
  if_set "Order" (new_assign (TBasic KInt));
  if_set "MaxInputTokens" (new_assign (TBasic KInt));
  if_set "Temperature" (new_assign (TBasic KFloat));
  if_set "TopP" (new_assign (TBasic KFloat));
  if_set "MaxTokens" (new_assign (TBasic KInt));
  if_set "Seed" (new_assign (TBasic KInt));
  if_set "ExtraHeaders" (make_map mret);
  if_set "DropParams" (new_assign (TBasic KBool));
  if_set "VertexCredentialsSecretRef" (new_assign SecretKeyRef_ty)].

Definition LiteLLMModelParams_DeepCopy : copier := DeepCopy_of LiteLLMModelParams_ty LiteLLMModelParams_DeepCopyInto.

Definition ModelHealthCheck_DeepCopyInto : copier := into [
  if_set "DisableBackgroundHealthCheck" (new_assign (TBasic KBool));
  if_set "TimeoutSeconds" (new_assign (TBasic KInt));
  if_set "MaxTokens" (new_assign (TBasic KInt));
  if_set "MaxTokensReasoning" (new_assign (TBasic KInt));
  if_set "MaxTokensNonReasoning" (new_assign (TBasic KInt));
  if_set "SupportsMaxTokens" (new_assign (TBasic KBool))].

Definition ModelHealthCheck_DeepCopy : copier := DeepCopy_of ModelHealthCheck_ty ModelHealthCheck_DeepCopyInto.

Definition ModelInfo_DeepCopyInto : copier := into [
  if_set "MaxTokens" (new_assign (TBasic KInt));
  if_set "InputCostPerToken" (new_assign (TBasic KFloat));
  if_set "OutputCostPerToken" (new_assign (TBasic KFloat));
  if_set "AccessGroups" (make_slice_copy (TBasic KString));
  if_set "SupportedEnvironments" (make_slice_copy (TBasic KString));
  if_set "UseInPassThrough" (new_assign (TBasic KBool));
  if_set "InputCostPerPixel" (new_assign (TBasic KFloat));
  if_set "InputCostPerSecond" (new_assign (TBasic KFloat));
  if_set "CacheReadInputTokenCost" (new_assign (TBasic KFloat));
  if_set "CacheCreationInputTokenCost" (new_assign (TBasic KFloat));
  if_set "HealthCheck" (new_into ModelHealthCheck_ty ModelHealthCheck_DeepCopyInto)].

Definition ModelInfo_DeepCopy : copier := DeepCopy_of ModelInfo_ty ModelInfo_DeepCopyInto.

Definition LiteLLMModelSpec_DeepCopyInto : copier := into [
  assign_field "InstanceRef";
  field_into "LiteLLMParams" LiteLLMModelParams_DeepCopyInto;
  if_set "ModelInfo" (new_into ModelInfo_ty ModelInfo_DeepCopyInto);
  if_set "Tags" (make_slice_copy (TBasic KString))].

Definition LiteLLMModelSpec_DeepCopy : copier := DeepCopy_of LiteLLMModelSpec_ty LiteLLMModelSpec_DeepCopyInto.

Definition LiteLLMModelStatus_DeepCopyInto : copier := into [
  if_set "LastSyncTime" (ext_DeepCopy "metav1.Time");
  if_set "LatencyP50Ms" (new_assign (TBasic KInt));
  if_set "LatencyP95Ms" (new_assign (TBasic KInt));
  if_set "RequestsLast24h" (new_assign (TBasic KInt));
  if_set "Conditions" (make_slice_into (ext "metav1.Condition") (ext_DeepCopyInto "metav1.Condition"))].

Definition LiteLLMModelStatus_DeepCopy : copier := DeepCopy_of LiteLLMModelStatus_ty LiteLLMModelStatus_DeepCopyInto.

Definition LiteLLMModel_DeepCopyInto : copier := into [
  assign_field "TypeMeta";
  field_into "ObjectMeta" (ext_DeepCopyInto "metav1.ObjectMeta");
  field_into "Spec" LiteLLMModelSpec_DeepCopyInto;
  field_into "Status" LiteLLMModelStatus_DeepCopyInto].

Definition LiteLLMModel_DeepCopy : copier := DeepCopy_of LiteLLMModel_ty LiteLLMModel_DeepCopyInto.

Definition LiteLLMModel_DeepCopyObject : value → mem (option value) := DeepCopyObject_of LiteLLMModel_DeepCopy.

Definition LiteLLMModelList_DeepCopyInto : copier := into [
  assign_field "TypeMeta";
  field_into "ListMeta" (ext_DeepCopyInto "metav1.ListMeta");
  if_set "Items" (make_slice_into LiteLLMModel_ty LiteLLMModel_DeepCopyInto)].

Definition LiteLLMModelList_DeepCopy : copier := DeepCopy_of LiteLLMModelList_ty LiteLLMModelList_DeepCopyInto.

Definition LiteLLMModelList_DeepCopyObject : value → mem (option value) := DeepCopyObject_of LiteLLMModelList_DeepCopy.

Definition OrganizationMember_DeepCopyInto : copier := into [].

Definition OrganizationMember_DeepCopy : copier := DeepCopy_of OrganizationMember_ty OrganizationMember_DeepCopyInto.

Definition LiteLLMOrganizationSpec_DeepCopyInto : copier := into [
  assign_field "InstanceRef";
  if_set "Models" (make_slice_copy (TBasic KString));
  if_set "MaxBudget" (new_assign (TBasic KFloat));
  if_set "TpmLimit" (new_assign (TBasic KInt));
  if_set "RpmLimit" (new_assign (TBasic KInt));
  if_set "SoftBudget" (new_assign (TBasic KFloat));
  if_set "ModelRPMLimit" (make_map mret);
  if_set "ModelTPMLimit" (make_map mret);
  if_set "Members" (make_slice_copy OrganizationMember_ty);
  if_set "ObjectPermission" (new_into ObjectPermission_ty ObjectPermission_DeepCopyInto);
  if_set "Metadata" (make_map mret)].

Definition LiteLLMOrganizationSpec_DeepCopy : copier := DeepCopy_of LiteLLMOrganizationSpec_ty LiteLLMOrganizationSpec_DeepCopyInto.

Definition LiteLLMOrganizationStatus_DeepCopyInto : copier := into [
  if_set "CurrentSpend" (new_assign (TBasic KFloat));
  if_set "LastSyncTime" (ext_DeepCopy "metav1.Time");
  if_set "Conditions" (make_slice_into (ext "metav1.Condition") (ext_DeepCopyInto "metav1.Condition"))].

Definition LiteLLMOrganizationStatus_DeepCopy : copier := DeepCopy_of LiteLLMOrganizationStatus_ty LiteLLMOrganizationStatus_DeepCopyInto.

Definition LiteLLMOrganization_DeepCopyInto : copier := into [
  assign_field "TypeMeta";
  field_into "ObjectMeta" (ext_DeepCopyInto "metav1.ObjectMeta");
  field_into "Spec" LiteLLMOrganizationSpec_DeepCopyInto;
  field_into "Status" LiteLLMOrganizationStatus_DeepCopyInto].

Definition LiteLLMOrganization_DeepCopy : copier := DeepCopy_of LiteLLMOrganization_ty LiteLLMOrganization_DeepCopyInto.

Definition LiteLLMOrganization_DeepCopyObject : value → mem (option value) := DeepCopyObject_of LiteLLMOrganization_DeepCopy.

Definition LiteLLMOrganizationList_DeepCopyInto : copier := into [
  assign_field "TypeMeta";
  field_into "ListMeta" (ext_DeepCopyInto "metav1.ListMeta");
  if_set "Items" (make_slice_into LiteLLMOrganization_ty LiteLLMOrganization_DeepCopyInto)].

Definition LiteLLMOrganizationList_DeepCopy : copier := DeepCopy_of LiteLLMOrganizationList_ty LiteLLMOrganizationList_DeepCopyInto.

Definition LiteLLMOrganizationList_DeepCopyObject : value → mem (option value) := DeepCopyObject_of LiteLLMOrganizationList_DeepCopy.

Definition OrganizationRef_DeepCopyInto : copier := into [].

Definition OrganizationRef_DeepCopy : copier := DeepCopy_of OrganizationRef_ty OrganizationRef_DeepCopyInto.

Definition TeamCallback_DeepCopyInto : copier := into [
  assign_field "CredentialsSecretRef";
  if_set "Config" (make_map mret)].

Definition TeamCallback_DeepCopy : copier := DeepCopy_of TeamCallback_ty TeamCallback_DeepCopyInto.

Definition TeamLoggingSpec_DeepCopyInto : copier := into [
  if_set "Callbacks" (make_slice_into TeamCallback_ty TeamCallback_DeepCopyInto)].

Definition TeamLoggingSpec_DeepCopy : copier := DeepCopy_of TeamLoggingSpec_ty TeamLoggingSpec_DeepCopyInto.

Definition TeamMember_DeepCopyInto : copier := into [].

Definition TeamMember_DeepCopy : copier := DeepCopy_of TeamMember_ty TeamMember_DeepCopyInto.

Definition LiteLLMTeamSpec_DeepCopyInto : copier := into [
  assign_field "InstanceRef";
  if_set "OrganizationRef" (new_assign OrganizationRef_ty);
  if_set "Models" (make_slice_copy (TBasic KString));
  if_set "MaxBudgetMonthly" (new_assign (TBasic KFloat));
  if_set "TPMLimit" (new_assign (TBasic KInt));
  if_set "RPMLimit" (new_assign (TBasic KInt));
  if_set "SoftBudget" (new_assign (TBasic KFloat));
  if_set "ModelRPMLimit" (make_map mret);
  if_set "ModelTPMLimit" (make_map mret);
  if_set "TeamMemberRPMLimit" (new_assign (TBasic KInt));
  if_set "TeamMemberTPMLimit" (new_assign (TBasic KInt));
  if_set "TeamMemberBudget" (new_assign (TBasic KFloat));
  if_set "Metadata" (make_map mret);
  if_set "Blocked" (new_assign (TBasic KBool));
  if_set "ObjectPermission" (new_into ObjectPermission_ty ObjectPermission_DeepCopyInto);
  if_set "Tags" (make_slice_copy (TBasic KString));
  if_set "MaxParallelRequests" (new_assign (TBasic KInt));
  if_set "Members" (make_slice_copy TeamMember_ty);
  if_set "Guardrails" (make_slice_copy (TBasic KString));
  if_set "Logging" (new_into TeamLoggingSpec_ty TeamLoggingSpec_DeepCopyInto)].

Definition LiteLLMTeamSpec_DeepCopy : copier := DeepCopy_of LiteLLMTeamSpec_ty LiteLLMTeamSpec_DeepCopyInto.

Definition TeamMemberStatus_DeepCopyInto : copier := into [].

Definition TeamMemberStatus_DeepCopy : copier := DeepCopy_of TeamMemberStatus_ty TeamMemberStatus_DeepCopyInto.

Definition LiteLLMTeamStatus_DeepCopyInto : copier := into [
  if_set "CurrentSpend" (new_assign (TBasic KFloat));
  if_set "CRDMembers" (make_slice_copy TeamMemberStatus_ty);
  if_set "SSOMembers" (make_slice_copy TeamMemberStatus_ty);
  if_set "LastSyncTime" (ext_DeepCopy "metav1.Time");
  if_set "Conditions" (make_slice_into (ext "metav1.Condition") (ext_DeepCopyInto "metav1.Condition"))].

Definition LiteLLMTeamStatus_DeepCopy : copier := DeepCopy_of LiteLLMTeamStatus_ty LiteLLMTeamStatus_DeepCopyInto.

Definition LiteLLMTeam_DeepCopyInto : copier := into [
  assign_field "TypeMeta";
  field_into "ObjectMeta" (ext_DeepCopyInto "metav1.ObjectMeta");
  field_into "Spec" LiteLLMTeamSpec_DeepCopyInto;
  field_into "Status" LiteLLMTeamStatus_DeepCopyInto].

Definition LiteLLMTeam_DeepCopy : copier := DeepCopy_of LiteLLMTeam_ty LiteLLMTeam_DeepCopyInto.

Definition LiteLLMTeam_DeepCopyObject : value → mem (option value) := DeepCopyObject_of LiteLLMTeam_DeepCopy.

Definition LiteLLMTeamList_DeepCopyInto : copier := into [
  assign_field "TypeMeta";
  field_into "ListMeta" (ext_DeepCopyInto "metav1.ListMeta");
  if_set "Items" (make_slice_into LiteLLMTeam_ty LiteLLMTeam_DeepCopyInto)].

Definition LiteLLMTeamList_DeepCopy : copier := DeepCopy_of LiteLLMTeamList_ty LiteLLMTeamList_DeepCopyInto.

Definition LiteLLMTeamList_DeepCopyObject : value → mem (option value) := DeepCopyObject_of LiteLLMTeamList_DeepCopy.

Definition TeamRef_DeepCopyInto : copier := into [].

Definition TeamRef_DeepCopy : copier := DeepCopy_of TeamRef_ty TeamRef_DeepCopyInto.

Definition UserTeamMembership_DeepCopyInto : copier := into [
  if_set "TeamRef" (new_assign TeamRef_ty);
  if_set "MaxBudgetInTeam" (new_assign (TBasic KFloat))].

Definition UserTeamMembership_DeepCopy : copier := DeepCopy_of UserTeamMembership_ty UserTeamMembership_DeepCopyInto.

Definition LiteLLMUserSpec_DeepCopyInto : copier := into [
  assign_field "InstanceRef";
  if_set "MaxBudget" (new_assign (TBasic KFloat));
  if_set "Models" (make_slice_copy (TBasic KString));
  if_set "Teams" (make_slice_into UserTeamMembership_ty UserTeamMembership_DeepCopyInto);
  if_set "TPMLimit" (new_assign (TBasic KInt));
  if_set "RPMLimit" (new_assign (TBasic KInt));
  if_set "SoftBudget" (new_assign (TBasic KFloat));
  if_set "ModelRPMLimit" (make_map mret);
  if_set "ModelTPMLimit" (make_map mret);
  if_set "Metadata" (make_map mret);
  if_set "Blocked" (new_assign (TBasic KBool));
  if_set "ObjectPermission" (new_into ObjectPermission_ty ObjectPermission_DeepCopyInto);
  if_set "InitialPasswordSecretRef" (new_assign SecretKeyRef_ty);
  if_set "AutoCreateKey" (new_assign (TBasic KBool))].

Definition LiteLLMUserSpec_DeepCopy : copier := DeepCopy_of LiteLLMUserSpec_ty LiteLLMUserSpec_DeepCopyInto.

Definition ResolvedTeamMembership_DeepCopyInto : copier := into [].

Definition ResolvedTeamMembership_DeepCopy : copier := DeepCopy_of ResolvedTeamMembership_ty ResolvedTeamMembership_DeepCopyInto.

Definition LiteLLMUserStatus_DeepCopyInto : copier := into [
  if_set "CurrentSpend" (new_assign (TBasic KFloat));
  if_set "ResolvedTeams" (make_slice_copy ResolvedTeamMembership_ty);
  if_set "LastSyncTime" (ext_DeepCopy "metav1.Time");
  if_set "Conditions" (make_slice_into (ext "metav1.Condition") (ext_DeepCopyInto "metav1.Condition"))].

Definition LiteLLMUserStatus_DeepCopy : copier := DeepCopy_of LiteLLMUserStatus_ty LiteLLMUserStatus_DeepCopyInto.

Definition LiteLLMUser_DeepCopyInto : copier := into [
  assign_field "TypeMeta";
  field_into "ObjectMeta" (ext_DeepCopyInto "metav1.ObjectMeta");
  field_into "Spec" LiteLLMUserSpec_DeepCopyInto;
  field_into "Status" LiteLLMUserStatus_DeepCopyInto].

Definition LiteLLMUser_DeepCopy : copier := DeepCopy_of LiteLLMUser_ty LiteLLMUser_DeepCopyInto.

Definition LiteLLMUser_DeepCopyObject : value → mem (option value) := DeepCopyObject_of LiteLLMUser_DeepCopy.

Definition LiteLLMUserList_DeepCopyInto : copier := into [
  assign_field "TypeMeta";
  field_into "ListMeta" (ext_DeepCopyInto "metav1.ListMeta");
  if_set "Items" (make_slice_into LiteLLMUser_ty LiteLLMUser_DeepCopyInto)].

Definition LiteLLMUserList_DeepCopy : copier := DeepCopy_of LiteLLMUserList_ty LiteLLMUserList_DeepCopyInto.

Definition LiteLLMUserList_DeepCopyObject : value → mem (option value) := DeepCopyObject_of LiteLLMUserList_DeepCopy.

Definition UserRef_DeepCopyInto : copier := into [].

Definition UserRef_DeepCopy : copier := DeepCopy_of UserRef_ty UserRef_DeepCopyInto.

Definition LiteLLMVirtualKeySpec_DeepCopyInto : copier := into [
  assign_field "InstanceRef";
  if_set "TeamRef" (new_assign TeamRef_ty);
  if_set "UserRef" (new_assign UserRef_ty);
  if_set "Models" (make_slice_copy (TBasic KString));
  if_set "MaxBudget" (new_assign (TBasic KString));
  if_set "ExpiresAt" (ext_DeepCopy "metav1.Time");
  if_set "TPMLimit" (new_assign (TBasic KInt));
  if_set "RPMLimit" (new_assign (TBasic KInt));
  if_set "SoftBudget" (new_assign (TBasic KFloat));
  if_set "ModelRPMLimit" (make_map mret);
  if_set "ModelTPMLimit" (make_map mret);
  if_set "Metadata" (make_map mret);
  if_set "Blocked" (new_assign (TBasic KBool));
  if_set "ObjectPermission" (new_into ObjectPermission_ty ObjectPermission_DeepCopyInto);
  if_set "ModelMaxBudget" (make_map mret);
  if_set "MaxParallelRequests" (new_assign (TBasic KInt));
  if_set "KeySecretTemplate" (new_into KeySecretTemplateSpec_ty KeySecretTemplateSpec_DeepCopyInto);
  if_set "Guardrails" (make_slice_copy (TBasic KString))].

Definition LiteLLMVirtualKeySpec_DeepCopy : copier := DeepCopy_of LiteLLMVirtualKeySpec_ty LiteLLMVirtualKeySpec_DeepCopyInto.

Definition LiteLLMVirtualKeyStatus_DeepCopyInto : copier := into [
  if_set "KeySecretRef" (new_assign SecretKeyRef_ty);
  if_set "CurrentSpend" (new_assign (TBasic KString));
  if_set "ExpiresAt" (ext_DeepCopy "metav1.Time");
  if_set "LastSyncTime" (ext_DeepCopy "metav1.Time");
  if_set "Conditions" (make_slice_into (ext "metav1.Condition") (ext_DeepCopyInto "metav1.Condition"))].

Definition LiteLLMVirtualKeyStatus_DeepCopy : copier := DeepCopy_of LiteLLMVirtualKeyStatus_ty LiteLLMVirtualKeyStatus_DeepCopyInto.

Definition LiteLLMVirtualKey_DeepCopyInto : copier := into [
  assign_field "TypeMeta";
  field_into "ObjectMeta" (ext_DeepCopyInto "metav1.ObjectMeta");
  field_into "Spec" LiteLLMVirtualKeySpec_DeepCopyInto;
  field_into "Status" LiteLLMVirtualKeyStatus_DeepCopyInto].

Definition LiteLLMVirtualKey_DeepCopy : copier := DeepCopy_of LiteLLMVirtualKey_ty LiteLLMVirtualKey_DeepCopyInto.

Definition LiteLLMVirtualKey_DeepCopyObject : value → mem (option value) := DeepCopyObject_of LiteLLMVirtualKey_DeepCopy.

Definition LiteLLMVirtualKeyList_DeepCopyInto : copier := into [
  assign_field "TypeMeta";
  field_into "ListMeta" (ext_DeepCopyInto "metav1.ListMeta");
  if_set "Items" (make_slice_into LiteLLMVirtualKey_ty LiteLLMVirtualKey_DeepCopyInto)].

Definition LiteLLMVirtualKeyList_DeepCopy : copier := DeepCopy_of LiteLLMVirtualKeyList_ty LiteLLMVirtualKeyList_DeepCopyInto.

Definition LiteLLMVirtualKeyList_DeepCopyObject : value → mem (option value) := DeepCopyObject_of LiteLLMVirtualKeyList_DeepCopy.

(** ** All of them *)
Record generated_type := Generated {
  gt_name : string;
  gt_type : ty;
  gt_DeepCopyInto : copier;
  gt_DeepCopy : copier;
  gt_DeepCopyObject : option (value → mem (option value));
}.

Definition generated : list generated_type := [
  Generated "AWSSecretManagerConfig" AWSSecretManagerConfig_ty AWSSecretManagerConfig_DeepCopyInto AWSSecretManagerConfig_DeepCopy None;
  Generated "ConfigMapRef" ConfigMapRef_ty ConfigMapRef_DeepCopyInto ConfigMapRef_DeepCopy None;
  Generated "AdminUISpec" AdminUISpec_ty AdminUISpec_DeepCopyInto AdminUISpec_DeepCopy None;
  Generated "AllowedNamespaces" AllowedNamespaces_ty AllowedNamespaces_DeepCopyInto AllowedNamespaces_DeepCopy None;
  Generated "AuditLogSpec" AuditLogSpec_ty AuditLogSpec_DeepCopyInto AuditLogSpec_DeepCopy None;
  Generated "AutoscalingSpec" AutoscalingSpec_ty AutoscalingSpec_DeepCopyInto AutoscalingSpec_DeepCopy None;
  Generated "AzureKeyVaultConfig" AzureKeyVaultConfig_ty AzureKeyVaultConfig_DeepCopyInto AzureKeyVaultConfig_DeepCopy None;
  Generated "BackupStatus" BackupStatus_ty BackupStatus_DeepCopyInto BackupStatus_DeepCopy None;
  Generated "CASecretRef" CASecretRef_ty CASecretRef_DeepCopyInto CASecretRef_DeepCopy None;
  Generated "CNPGBackupSpec" CNPGBackupSpec_ty CNPGBackupSpec_DeepCopyInto CNPGBackupSpec_DeepCopy None;
  Generated "SecretKeyRef" SecretKeyRef_ty SecretKeyRef_DeepCopyInto SecretKeyRef_DeepCopy None;
  Generated "CacheGCSSpec" CacheGCSSpec_ty CacheGCSSpec_DeepCopyInto CacheGCSSpec_DeepCopy None;
  Generated "CacheQdrantSpec" CacheQdrantSpec_ty CacheQdrantSpec_DeepCopyInto CacheQdrantSpec_DeepCopy None;
  Generated "CacheRedisSpec" CacheRedisSpec_ty CacheRedisSpec_DeepCopyInto CacheRedisSpec_DeepCopy None;
  Generated "CacheS3Spec" CacheS3Spec_ty CacheS3Spec_DeepCopyInto CacheS3Spec_DeepCopy None;
  Generated "CachingSpec" CachingSpec_ty CachingSpec_DeepCopyInto CachingSpec_DeepCopy None;
  Generated "CallbacksSpec" CallbacksSpec_ty CallbacksSpec_DeepCopyInto CallbacksSpec_DeepCopy None;
  Generated "CloudNativePGSpec" CloudNativePGSpec_ty CloudNativePGSpec_DeepCopyInto CloudNativePGSpec_DeepCopy None;
  Generated "ConfigSyncSpec" ConfigSyncSpec_ty ConfigSyncSpec_DeepCopyInto ConfigSyncSpec_DeepCopy None;
  Generated "ConfigSyncStatus" ConfigSyncStatus_ty ConfigSyncStatus_DeepCopyInto ConfigSyncStatus_DeepCopy None;
  Generated "ConnectionPoolSpec" ConnectionPoolSpec_ty ConnectionPoolSpec_DeepCopyInto ConnectionPoolSpec_DeepCopy None;
  Generated "CredentialRef" CredentialRef_ty CredentialRef_DeepCopyInto CredentialRef_DeepCopy None;
  Generated "CustomSSOHandlerConfigMapRef" CustomSSOHandlerConfigMapRef_ty CustomSSOHandlerConfigMapRef_DeepCopyInto CustomSSOHandlerConfigMapRef_DeepCopy None;
  Generated "CustomSSOHandlerSpec" CustomSSOHandlerSpec_ty CustomSSOHandlerSpec_DeepCopyInto CustomSSOHandlerSpec_DeepCopy None;
  Generated "DatabaseImageSpec" DatabaseImageSpec_ty DatabaseImageSpec_DeepCopyInto DatabaseImageSpec_DeepCopy None;
  Generated "SecretRef" SecretRef_ty SecretRef_DeepCopyInto SecretRef_DeepCopy None;
  Generated "DatabaseTLSSpec" DatabaseTLSSpec_ty DatabaseTLSSpec_DeepCopyInto DatabaseTLSSpec_DeepCopy None;
  Generated "ExternalDBSpec" ExternalDBSpec_ty ExternalDBSpec_DeepCopyInto ExternalDBSpec_DeepCopy None;
  Generated "ManagedDBSpec" ManagedDBSpec_ty ManagedDBSpec_DeepCopyInto ManagedDBSpec_DeepCopy None;
  Generated "MigrationSpec" MigrationSpec_ty MigrationSpec_DeepCopyInto MigrationSpec_DeepCopy None;
  Generated "DatabaseSpec" DatabaseSpec_ty DatabaseSpec_DeepCopyInto DatabaseSpec_DeepCopy None;
  Generated "DatabaseStatus" DatabaseStatus_ty DatabaseStatus_DeepCopyInto DatabaseStatus_DeepCopy None;
  Generated "DefaultCustomerBudgetSpec" DefaultCustomerBudgetSpec_ty DefaultCustomerBudgetSpec_DeepCopyInto DefaultCustomerBudgetSpec_DeepCopy None;
  Generated "DefaultTeamParams" DefaultTeamParams_ty DefaultTeamParams_DeepCopyInto DefaultTeamParams_DeepCopy None;
  Generated "DefaultUserTeam" DefaultUserTeam_ty DefaultUserTeam_DeepCopyInto DefaultUserTeam_DeepCopy None;
  Generated "DefaultUserParams" DefaultUserParams_ty DefaultUserParams_DeepCopyInto DefaultUserParams_DeepCopy None;
  Generated "DeploymentSpec" DeploymentSpec_ty DeploymentSpec_DeepCopyInto DeploymentSpec_DeepCopy None;
  Generated "ModelFallbackEntry" ModelFallbackEntry_ty ModelFallbackEntry_DeepCopyInto ModelFallbackEntry_DeepCopy None;
  Generated "FallbackSpec" FallbackSpec_ty FallbackSpec_DeepCopyInto FallbackSpec_DeepCopy None;
  Generated "GatewayParentRef" GatewayParentRef_ty GatewayParentRef_DeepCopyInto GatewayParentRef_DeepCopy None;
  Generated "GatewayHTTPRouteSpec" GatewayHTTPRouteSpec_ty GatewayHTTPRouteSpec_DeepCopyInto GatewayHTTPRouteSpec_DeepCopy None;
  Generated "GeneralSettingsSpec" GeneralSettingsSpec_ty GeneralSettingsSpec_DeepCopyInto GeneralSettingsSpec_DeepCopy None;
  Generated "GrafanaDashboardSpec" GrafanaDashboardSpec_ty GrafanaDashboardSpec_DeepCopyInto GrafanaDashboardSpec_DeepCopy None;
  Generated "HeaderSecretRef" HeaderSecretRef_ty HeaderSecretRef_DeepCopyInto HeaderSecretRef_DeepCopy None;
  Generated "HealthCheckSpec" HealthCheckSpec_ty HealthCheckSpec_DeepCopyInto HealthCheckSpec_DeepCopy None;
  Generated "IPAllowlistSpec" IPAllowlistSpec_ty IPAllowlistSpec_DeepCopyInto IPAllowlistSpec_DeepCopy None;
  Generated "ImageSpec" ImageSpec_ty ImageSpec_DeepCopyInto ImageSpec_DeepCopy None;
  Generated "IngressTLSSpec" IngressTLSSpec_ty IngressTLSSpec_DeepCopyInto IngressTLSSpec_DeepCopy None;
  Generated "IngressSpec" IngressSpec_ty IngressSpec_DeepCopyInto IngressSpec_DeepCopy None;
  Generated "SpendLogRetentionSpec" SpendLogRetentionSpec_ty SpendLogRetentionSpec_DeepCopyInto SpendLogRetentionSpec_DeepCopy None;
  Generated "InstanceLoggingSpec" InstanceLoggingSpec_ty InstanceLoggingSpec_DeepCopyInto InstanceLoggingSpec_DeepCopy None;
  Generated "InstanceRef" InstanceRef_ty InstanceRef_DeepCopyInto InstanceRef_DeepCopy None;
  Generated "JWTLiteLLMRoleMapEntry" JWTLiteLLMRoleMapEntry_ty JWTLiteLLMRoleMapEntry_DeepCopyInto JWTLiteLLMRoleMapEntry_DeepCopy None;
  Generated "JWTRoleMapping" JWTRoleMapping_ty JWTRoleMapping_DeepCopyInto JWTRoleMapping_DeepCopy None;
  Generated "JWTRoutingOverride" JWTRoutingOverride_ty JWTRoutingOverride_DeepCopyInto JWTRoutingOverride_DeepCopy None;
  Generated "JWTScopeMapping" JWTScopeMapping_ty JWTScopeMapping_DeepCopyInto JWTScopeMapping_DeepCopy None;
  Generated "JWTAuthSpec" JWTAuthSpec_ty JWTAuthSpec_DeepCopyInto JWTAuthSpec_DeepCopy None;
  Generated "PersonalKeyGenerationSettings" PersonalKeyGenerationSettings_ty PersonalKeyGenerationSettings_DeepCopyInto PersonalKeyGenerationSettings_DeepCopy None;
  Generated "TeamKeyGenerationSettings" TeamKeyGenerationSettings_ty TeamKeyGenerationSettings_DeepCopyInto TeamKeyGenerationSettings_DeepCopy None;
  Generated "KeyGenerationSettings" KeyGenerationSettings_ty KeyGenerationSettings_DeepCopyInto KeyGenerationSettings_DeepCopy None;
  Generated "KeySecretTemplateSpec" KeySecretTemplateSpec_ty KeySecretTemplateSpec_DeepCopyInto KeySecretTemplateSpec_DeepCopy None;
  Generated "LicenseStatus" LicenseStatus_ty LicenseStatus_DeepCopyInto LicenseStatus_DeepCopy None;
  Generated "LiteLLMBudgetSpec" LiteLLMBudgetSpec_ty LiteLLMBudgetSpec_DeepCopyInto LiteLLMBudgetSpec_DeepCopy None;
  Generated "LiteLLMBudgetStatus" LiteLLMBudgetStatus_ty LiteLLMBudgetStatus_DeepCopyInto LiteLLMBudgetStatus_DeepCopy None;
  Generated "LiteLLMBudget" LiteLLMBudget_ty LiteLLMBudget_DeepCopyInto LiteLLMBudget_DeepCopy (Some LiteLLMBudget_DeepCopyObject);
  Generated "LiteLLMBudgetList" LiteLLMBudgetList_ty LiteLLMBudgetList_DeepCopyInto LiteLLMBudgetList_DeepCopy (Some LiteLLMBudgetList_DeepCopyObject);
  Generated "LiteLLMCredentialSpec" LiteLLMCredentialSpec_ty LiteLLMCredentialSpec_DeepCopyInto LiteLLMCredentialSpec_DeepCopy None;
  Generated "LiteLLMCredentialStatus" LiteLLMCredentialStatus_ty LiteLLMCredentialStatus_DeepCopyInto LiteLLMCredentialStatus_DeepCopy None;
  Generated "LiteLLMCredential" LiteLLMCredential_ty LiteLLMCredential_DeepCopyInto LiteLLMCredential_DeepCopy (Some LiteLLMCredential_DeepCopyObject);
  Generated "LiteLLMCredentialList" LiteLLMCredentialList_ty LiteLLMCredentialList_DeepCopyInto LiteLLMCredentialList_DeepCopy (Some LiteLLMCredentialList_DeepCopyObject);
  Generated "ObjectPermission" ObjectPermission_ty ObjectPermission_DeepCopyInto ObjectPermission_DeepCopy None;
  Generated "LiteLLMCustomerSpec" LiteLLMCustomerSpec_ty LiteLLMCustomerSpec_DeepCopyInto LiteLLMCustomerSpec_DeepCopy None;
  Generated "LiteLLMCustomerStatus" LiteLLMCustomerStatus_ty LiteLLMCustomerStatus_DeepCopyInto LiteLLMCustomerStatus_DeepCopy None;
  Generated "LiteLLMCustomer" LiteLLMCustomer_ty LiteLLMCustomer_DeepCopyInto LiteLLMCustomer_DeepCopy (Some LiteLLMCustomer_DeepCopyObject);
  Generated "LiteLLMCustomerList" LiteLLMCustomerList_ty LiteLLMCustomerList_DeepCopyInto LiteLLMCustomerList_DeepCopy (Some LiteLLMCustomerList_DeepCopyObject);
  Generated "LiteLLMGuardrailSpec" LiteLLMGuardrailSpec_ty LiteLLMGuardrailSpec_DeepCopyInto LiteLLMGuardrailSpec_DeepCopy None;
  Generated "LiteLLMGuardrailStatus" LiteLLMGuardrailStatus_ty LiteLLMGuardrailStatus_DeepCopyInto LiteLLMGuardrailStatus_DeepCopy None;
  Generated "LiteLLMGuardrail" LiteLLMGuardrail_ty LiteLLMGuardrail_DeepCopyInto LiteLLMGuardrail_DeepCopy (Some LiteLLMGuardrail_DeepCopyObject);
  Generated "LiteLLMGuardrailList" LiteLLMGuardrailList_ty LiteLLMGuardrailList_DeepCopyInto LiteLLMGuardrailList_DeepCopy (Some LiteLLMGuardrailList_DeepCopyObject);
  Generated "LiteLLMSettingsSpec" LiteLLMSettingsSpec_ty LiteLLMSettingsSpec_DeepCopyInto LiteLLMSettingsSpec_DeepCopy None;
  Generated "MasterKeySpec" MasterKeySpec_ty MasterKeySpec_DeepCopyInto MasterKeySpec_DeepCopy None;
  Generated "OAuth2Mapping" OAuth2Mapping_ty OAuth2Mapping_DeepCopyInto OAuth2Mapping_DeepCopy None;
  Generated "OAuth2AuthSpec" OAuth2AuthSpec_ty OAuth2AuthSpec_DeepCopyInto OAuth2AuthSpec_DeepCopy None;
  Generated "PrometheusRuleSpec" PrometheusRuleSpec_ty PrometheusRuleSpec_DeepCopyInto PrometheusRuleSpec_DeepCopy None;
  Generated "ServiceMonitorAuthorization" ServiceMonitorAuthorization_ty ServiceMonitorAuthorization_DeepCopyInto ServiceMonitorAuthorization_DeepCopy None;
  Generated "ServiceMonitorSpec" ServiceMonitorSpec_ty ServiceMonitorSpec_DeepCopyInto ServiceMonitorSpec_DeepCopy None;
  Generated "ObservabilitySpec" ObservabilitySpec_ty ObservabilitySpec_DeepCopyInto ObservabilitySpec_DeepCopy None;
  Generated "PDBSpec" PDBSpec_ty PDBSpec_DeepCopyInto PDBSpec_DeepCopy None;
  Generated "PassThroughEndpoint" PassThroughEndpoint_ty PassThroughEndpoint_DeepCopyInto PassThroughEndpoint_DeepCopy None;
  Generated "PodSchedulingSpec" PodSchedulingSpec_ty PodSchedulingSpec_DeepCopyInto PodSchedulingSpec_DeepCopy None;
  Generated "RolePermission" RolePermission_ty RolePermission_DeepCopyInto RolePermission_DeepCopy None;
  Generated "RBACSpec" RBACSpec_ty RBACSpec_DeepCopyInto RBACSpec_DeepCopy None;
  Generated "RedisSpec" RedisSpec_ty RedisSpec_DeepCopyInto RedisSpec_DeepCopy None;
  Generated "RouteSpec" RouteSpec_ty RouteSpec_DeepCopyInto RouteSpec_DeepCopy None;
  Generated "ProviderBudget" ProviderBudget_ty ProviderBudget_DeepCopyInto ProviderBudget_DeepCopy None;
  Generated "RouterSettingsSpec" RouterSettingsSpec_ty RouterSettingsSpec_DeepCopyInto RouterSettingsSpec_DeepCopy None;
  Generated "SCIMSpec" SCIMSpec_ty SCIMSpec_DeepCopyInto SCIMSpec_DeepCopy None;
  Generated "UserAttributeMappings" UserAttributeMappings_ty UserAttributeMappings_DeepCopyInto UserAttributeMappings_DeepCopy None;
  Generated "SSOSpec" SSOSpec_ty SSOSpec_DeepCopyInto SSOSpec_DeepCopy None;
  Generated "SaltKeySpec" SaltKeySpec_ty SaltKeySpec_DeepCopyInto SaltKeySpec_DeepCopy None;
  Generated "VaultConfig" VaultConfig_ty VaultConfig_DeepCopyInto VaultConfig_DeepCopy None;
  Generated "SecretManagerSpec" SecretManagerSpec_ty SecretManagerSpec_DeepCopyInto SecretManagerSpec_DeepCopy None;
  Generated "NetworkPolicySpec" NetworkPolicySpec_ty NetworkPolicySpec_DeepCopyInto NetworkPolicySpec_DeepCopy None;
  Generated "SecuritySpec" SecuritySpec_ty SecuritySpec_DeepCopyInto SecuritySpec_DeepCopy None;
  Generated "ServiceAccountSpec" ServiceAccountSpec_ty ServiceAccountSpec_DeepCopyInto ServiceAccountSpec_DeepCopy None;
  Generated "ServiceSpec" ServiceSpec_ty ServiceSpec_DeepCopyInto ServiceSpec_DeepCopy None;
  Generated "TLSSpec" TLSSpec_ty TLSSpec_DeepCopyInto TLSSpec_DeepCopy None;
  Generated "UpgradeSpec" UpgradeSpec_ty UpgradeSpec_DeepCopyInto UpgradeSpec_DeepCopy None;
  Generated "WorkloadSpec" WorkloadSpec_ty WorkloadSpec_DeepCopyInto WorkloadSpec_DeepCopy None;
  Generated "LiteLLMInstanceSpec" LiteLLMInstanceSpec_ty LiteLLMInstanceSpec_DeepCopyInto LiteLLMInstanceSpec_DeepCopy None;
  Generated "RedisStatus" RedisStatus_ty RedisStatus_DeepCopyInto RedisStatus_DeepCopy None;
  Generated "SCIMStatus" SCIMStatus_ty SCIMStatus_DeepCopyInto SCIMStatus_DeepCopy None;
  Generated "SSOStatus" SSOStatus_ty SSOStatus_DeepCopyInto SSOStatus_DeepCopy None;
  Generated "SecretManagerStatus" SecretManagerStatus_ty SecretManagerStatus_DeepCopyInto SecretManagerStatus_DeepCopy None;
  Generated "UnhealthyPod" UnhealthyPod_ty UnhealthyPod_DeepCopyInto UnhealthyPod_DeepCopy None;
  Generated "LiteLLMInstanceStatus" LiteLLMInstanceStatus_ty LiteLLMInstanceStatus_DeepCopyInto LiteLLMInstanceStatus_DeepCopy None;
  Generated "LiteLLMInstance" LiteLLMInstance_ty LiteLLMInstance_DeepCopyInto LiteLLMInstance_DeepCopy (Some LiteLLMInstance_DeepCopyObject);
  Generated "LiteLLMInstanceList" LiteLLMInstanceList_ty LiteLLMInstanceList_DeepCopyInto LiteLLMInstanceList_DeepCopy (Some LiteLLMInstanceList_DeepCopyObject);
  Generated "LiteLLMModelParams" LiteLLMModelParams_ty LiteLLMModelParams_DeepCopyInto LiteLLMModelParams_DeepCopy None;
  Generated "ModelHealthCheck" ModelHealthCheck_ty ModelHealthCheck_DeepCopyInto ModelHealthCheck_DeepCopy None;
  Generated "ModelInfo" ModelInfo_ty ModelInfo_DeepCopyInto ModelInfo_DeepCopy None;
  Generated "LiteLLMModelSpec" LiteLLMModelSpec_ty LiteLLMModelSpec_DeepCopyInto LiteLLMModelSpec_DeepCopy None;
  Generated "LiteLLMModelStatus" LiteLLMModelStatus_ty LiteLLMModelStatus_DeepCopyInto LiteLLMModelStatus_DeepCopy None;
  Generated "LiteLLMModel" LiteLLMModel_ty LiteLLMModel_DeepCopyInto LiteLLMModel_DeepCopy (Some LiteLLMModel_DeepCopyObject);
  Generated "LiteLLMModelList" LiteLLMModelList_ty LiteLLMModelList_DeepCopyInto LiteLLMModelList_DeepCopy (Some LiteLLMModelList_DeepCopyObject);
  Generated "OrganizationMember" OrganizationMember_ty OrganizationMember_DeepCopyInto OrganizationMember_DeepCopy None;
  Generated "LiteLLMOrganizationSpec" LiteLLMOrganizationSpec_ty LiteLLMOrganizationSpec_DeepCopyInto LiteLLMOrganizationSpec_DeepCopy None;
  Generated "LiteLLMOrganizationStatus" LiteLLMOrganizationStatus_ty LiteLLMOrganizationStatus_DeepCopyInto LiteLLMOrganizationStatus_DeepCopy None;
  Generated "LiteLLMOrganization" LiteLLMOrganization_ty LiteLLMOrganization_DeepCopyInto LiteLLMOrganization_DeepCopy (Some LiteLLMOrganization_DeepCopyObject);
  Generated "LiteLLMOrganizationList" LiteLLMOrganizationList_ty LiteLLMOrganizationList_DeepCopyInto LiteLLMOrganizationList_DeepCopy (Some LiteLLMOrganizationList_DeepCopyObject);
  Generated "OrganizationRef" OrganizationRef_ty OrganizationRef_DeepCopyInto OrganizationRef_DeepCopy None;
  Generated "TeamCallback" TeamCallback_ty TeamCallback_DeepCopyInto TeamCallback_DeepCopy None;
  Generated "TeamLoggingSpec" TeamLoggingSpec_ty TeamLoggingSpec_DeepCopyInto TeamLoggingSpec_DeepCopy None;
  Generated "TeamMember" TeamMember_ty TeamMember_DeepCopyInto TeamMember_DeepCopy None;
  Generated "LiteLLMTeamSpec" LiteLLMTeamSpec_ty LiteLLMTeamSpec_DeepCopyInto LiteLLMTeamSpec_DeepCopy None;
  Generated "TeamMemberStatus" TeamMemberStatus_ty TeamMemberStatus_DeepCopyInto TeamMemberStatus_DeepCopy None;
  Generated "LiteLLMTeamStatus" LiteLLMTeamStatus_ty LiteLLMTeamStatus_DeepCopyInto LiteLLMTeamStatus_DeepCopy None;
  Generated "LiteLLMTeam" LiteLLMTeam_ty LiteLLMTeam_DeepCopyInto LiteLLMTeam_DeepCopy (Some LiteLLMTeam_DeepCopyObject);
  Generated "LiteLLMTeamList" LiteLLMTeamList_ty LiteLLMTeamList_DeepCopyInto LiteLLMTeamList_DeepCopy (Some LiteLLMTeamList_DeepCopyObject);
  Generated "TeamRef" TeamRef_ty TeamRef_DeepCopyInto TeamRef_DeepCopy None;
  Generated "UserTeamMembership" UserTeamMembership_ty UserTeamMembership_DeepCopyInto UserTeamMembership_DeepCopy None;
  Generated "LiteLLMUserSpec" LiteLLMUserSpec_ty LiteLLMUserSpec_DeepCopyInto LiteLLMUserSpec_DeepCopy None;
  Generated "ResolvedTeamMembership" ResolvedTeamMembership_ty ResolvedTeamMembership_DeepCopyInto ResolvedTeamMembership_DeepCopy None;
  Generated "LiteLLMUserStatus" LiteLLMUserStatus_ty LiteLLMUserStatus_DeepCopyInto LiteLLMUserStatus_DeepCopy None;
  Generated "LiteLLMUser" LiteLLMUser_ty LiteLLMUser_DeepCopyInto LiteLLMUser_DeepCopy (Some LiteLLMUser_DeepCopyObject);
  Generated "LiteLLMUserList" LiteLLMUserList_ty LiteLLMUserList_DeepCopyInto LiteLLMUserList_DeepCopy (Some LiteLLMUserList_DeepCopyObject);
  Generated "UserRef" UserRef_ty UserRef_DeepCopyInto UserRef_DeepCopy None;
  Generated "LiteLLMVirtualKeySpec" LiteLLMVirtualKeySpec_ty LiteLLMVirtualKeySpec_DeepCopyInto LiteLLMVirtualKeySpec_DeepCopy None;
  Generated "LiteLLMVirtualKeyStatus" LiteLLMVirtualKeyStatus_ty LiteLLMVirtualKeyStatus_DeepCopyInto LiteLLMVirtualKeyStatus_DeepCopy None;
  Generated "LiteLLMVirtualKey" LiteLLMVirtualKey_ty LiteLLMVirtualKey_DeepCopyInto LiteLLMVirtualKey_DeepCopy (Some LiteLLMVirtualKey_DeepCopyObject);
  Generated "LiteLLMVirtualKeyList" LiteLLMVirtualKeyList_ty LiteLLMVirtualKeyList_DeepCopyInto LiteLLMVirtualKeyList_DeepCopy (Some LiteLLMVirtualKeyList_DeepCopyObject)].

End DeepCopies.

(** ** Registration (groupversion_info.go, and the [init] of each file of types)

    [SchemeBuilder.Register(&T{}, &TList{})]: the types the scheme learns, by name. *)
Definition GroupVersion : string * string := ("litellm.palena.ai", "v1alpha1").

Definition init_LiteLLMBudget : list string := ["LiteLLMBudget"; "LiteLLMBudgetList"].
Definition init_LiteLLMCredential : list string := ["LiteLLMCredential"; "LiteLLMCredentialList"].
Definition init_LiteLLMCustomer : list string := ["LiteLLMCustomer"; "LiteLLMCustomerList"].
Definition init_LiteLLMGuardrail : list string := ["LiteLLMGuardrail"; "LiteLLMGuardrailList"].
Definition init_LiteLLMInstance : list string := ["LiteLLMInstance"; "LiteLLMInstanceList"].
Definition init_LiteLLMModel : list string := ["LiteLLMModel"; "LiteLLMModelList"].
Definition init_LiteLLMOrganization : list string := ["LiteLLMOrganization"; "LiteLLMOrganizationList"].
Definition init_LiteLLMTeam : list string := ["LiteLLMTeam"; "LiteLLMTeamList"].
Definition init_LiteLLMUser : list string := ["LiteLLMUser"; "LiteLLMUserList"].
Definition init_LiteLLMVirtualKey : list string := ["LiteLLMVirtualKey"; "LiteLLMVirtualKeyList"].

Definition SchemeBuilder : list string :=
  init_LiteLLMBudget ++
  init_LiteLLMCredential ++
  init_LiteLLMCustomer ++
  init_LiteLLMGuardrail ++
  init_LiteLLMInstance ++
  init_LiteLLMModel ++
  init_LiteLLMOrganization ++
  init_LiteLLMTeam ++
  init_LiteLLMUser ++
  init_LiteLLMVirtualKey.
