(* ===== verification/DeepCopyFacts.v ===== *)
(** * The generated deep copies are deep

    For every type, [DeepCopyInto] satisfies the contract [copies]; from it, the methods
    [DeepCopy] and [DeepCopyObject] yield a snapshot: the same data, in cells of its own. *)

From S2P Require Import Prelude Memory CopyTypes DeepCopy.

Create HintDb copies discriminated.
#[local] Hint Constants Opaque : copies.

Lemma covers_if_set F t f fs ss :
  nilable t = true → copies_set t f → covers fs ss → covers ((F, t) :: fs) (if_set F f :: ss).
Proof. intros. by apply covers_stmt; [apply (copies_if_set t F)|]. Qed.

Lemma covers_field_into F t f fs ss : copies t f → covers fs ss → covers ((F, t) :: fs) (field_into F f :: ss).
Proof. intros. by apply covers_stmt; [apply (copies_field_into t F)|]. Qed.

Lemma covers_assign F t fs ss : plain t = true → covers fs ss → covers ((F, t) :: fs) (assign_field F :: ss).
Proof. intros. by apply covers_stmt; [apply (copies_assign_field t F)|]. Qed.

Lemma ext_copies_set `{ExternalLaws} n : copies_set (TPtr (ext n)) (ext_DeepCopy n).
Proof. apply copies_copies_set, ext_DeepCopy_copies. Qed.

Lemma elem_of_bool (x : string) (l : list string) : bool_decide (x ∈ l) = true → x ∈ l.
Proof. apply bool_decide_eq_true_1. Qed.

(** [plain t = true] by computation, down to the types of other packages. *)
Ltac is_plain :=
  first
    [ reflexivity
    | cbn -[ext]; progress repeat (rewrite ext_plain; [|apply elem_of_bool; reflexivity]); reflexivity ].

(** [copies t f] and [copies_set t f] along the statement that makes the copy. *)
Ltac copy_step :=
  first
    [ assumption
    | solve [auto with copies nocore]
    | apply copies_new_assign; is_plain
    | apply copies_new_into; copy_step
    | apply copies_make_slice_copy; is_plain
    | apply copies_make_slice_into; copy_step
    | apply copies_make_map; copy_step
    | apply copies_deref_copy; copy_step
    | apply copies_unless_nil; [reflexivity|copy_step]
    | apply ext_DeepCopy_copies
    | apply copies_DeepCopy; copy_step
    | apply ext_copies_set
    | apply ext_DeepCopyInto_copies
    | apply copies_mret; is_plain ].

(** The fields one by one, each with its statement if it has one. *)
Ltac copy_fields :=
  apply copies_into; [vm_compute; reflexivity|];
  repeat first
    [ apply covers_nil
    | apply covers_if_set; [reflexivity|copy_step|]
    | apply covers_field_into; [copy_step|]
    | apply covers_assign; [is_plain|]
    | apply covers_plain; [is_plain|] ].

Section Facts.
Context `{ExternalLaws} `{RangeOrder}.

Lemma AWSSecretManagerConfig_copies : copies AWSSecretManagerConfig_ty AWSSecretManagerConfig_DeepCopyInto.
Proof. copy_fields. Qed.
#[local] Hint Resolve AWSSecretManagerConfig_copies : copies.

Lemma ConfigMapRef_copies : copies ConfigMapRef_ty ConfigMapRef_DeepCopyInto.
Proof. copy_fields. Qed.
#[local] Hint Resolve ConfigMapRef_copies : copies.

Lemma AdminUISpec_copies : copies AdminUISpec_ty AdminUISpec_DeepCopyInto.
Proof. copy_fields. Qed.
#[local] Hint Resolve AdminUISpec_copies : copies.

Lemma AllowedNamespaces_copies : copies AllowedNamespaces_ty AllowedNamespaces_DeepCopyInto.
Proof. copy_fields. Qed.
#[local] Hint Resolve AllowedNamespaces_copies : copies.

Lemma AuditLogSpec_copies : copies AuditLogSpec_ty AuditLogSpec_DeepCopyInto.
Proof. copy_fields. Qed.
#[local] Hint Resolve AuditLogSpec_copies : copies.

Lemma AutoscalingSpec_copies : copies AutoscalingSpec_ty AutoscalingSpec_DeepCopyInto.
Proof. copy_fields. Qed.
#[local] Hint Resolve AutoscalingSpec_copies : copies.

Lemma AzureKeyVaultConfig_copies : copies AzureKeyVaultConfig_ty AzureKeyVaultConfig_DeepCopyInto.
Proof. copy_fields. Qed.
#[local] Hint Resolve AzureKeyVaultConfig_copies : copies.

Lemma BackupStatus_copies : copies BackupStatus_ty BackupStatus_DeepCopyInto.
Proof. copy_fields. Qed.
#[local] Hint Resolve BackupStatus_copies : copies.

Lemma CASecretRef_copies : copies CASecretRef_ty CASecretRef_DeepCopyInto.
Proof. copy_fields. Qed.
#[local] Hint Resolve CASecretRef_copies : copies.

Lemma CNPGBackupSpec_copies : copies CNPGBackupSpec_ty CNPGBackupSpec_DeepCopyInto.
Proof. copy_fields. Qed.
#[local] Hint Resolve CNPGBackupSpec_copies : copies.

Lemma SecretKeyRef_copies : copies SecretKeyRef_ty SecretKeyRef_DeepCopyInto.
Proof. copy_fields. Qed.
#[local] Hint Resolve SecretKeyRef_copies : copies.

Lemma CacheGCSSpec_copies : copies CacheGCSSpec_ty CacheGCSSpec_DeepCopyInto.
Proof. copy_fields. Qed.
#[local] Hint Resolve CacheGCSSpec_copies : copies.

Lemma CacheQdrantSpec_copies : copies CacheQdrantSpec_ty CacheQdrantSpec_DeepCopyInto.
Proof. copy_fields. Qed.
#[local] Hint Resolve CacheQdrantSpec_copies : copies.

Lemma CacheRedisSpec_copies : copies CacheRedisSpec_ty CacheRedisSpec_DeepCopyInto.
Proof. copy_fields. Qed.
#[local] Hint Resolve CacheRedisSpec_copies : copies.

Lemma CacheS3Spec_copies : copies CacheS3Spec_ty CacheS3Spec_DeepCopyInto.
Proof. copy_fields. Qed.
#[local] Hint Resolve CacheS3Spec_copies : copies.

Lemma CachingSpec_copies : copies CachingSpec_ty CachingSpec_DeepCopyInto.
Proof. copy_fields. Qed.
#[local] Hint Resolve CachingSpec_copies : copies.

Lemma CallbacksSpec_copies : copies CallbacksSpec_ty CallbacksSpec_DeepCopyInto.
Proof. copy_fields. Qed.
#[local] Hint Resolve CallbacksSpec_copies : copies.

Lemma CloudNativePGSpec_copies : copies CloudNativePGSpec_ty CloudNativePGSpec_DeepCopyInto.
Proof. copy_fields. Qed.
#[local] Hint Resolve CloudNativePGSpec_copies : copies.

Lemma ConfigSyncSpec_copies : copies ConfigSyncSpec_ty ConfigSyncSpec_DeepCopyInto.
Proof. copy_fields. Qed.
#[local] Hint Resolve ConfigSyncSpec_copies : copies.

Lemma ConfigSyncStatus_copies : copies ConfigSyncStatus_ty ConfigSyncStatus_DeepCopyInto.
Proof. copy_fields. Qed.
#[local] Hint Resolve ConfigSyncStatus_copies : copies.

Lemma ConnectionPoolSpec_copies : copies ConnectionPoolSpec_ty ConnectionPoolSpec_DeepCopyInto.
Proof. copy_fields. Qed.
#[local] Hint Resolve ConnectionPoolSpec_copies : copies.

Lemma CredentialRef_copies : copies CredentialRef_ty CredentialRef_DeepCopyInto.
Proof. copy_fields. Qed.
#[local] Hint Resolve CredentialRef_copies : copies.

Lemma CustomSSOHandlerConfigMapRef_copies : copies CustomSSOHandlerConfigMapRef_ty CustomSSOHandlerConfigMapRef_DeepCopyInto.
Proof. copy_fields. Qed.
#[local] Hint Resolve CustomSSOHandlerConfigMapRef_copies : copies.

Lemma CustomSSOHandlerSpec_copies : copies CustomSSOHandlerSpec_ty CustomSSOHandlerSpec_DeepCopyInto.
Proof. copy_fields. Qed.
#[local] Hint Resolve CustomSSOHandlerSpec_copies : copies.

Lemma DatabaseImageSpec_copies : copies DatabaseImageSpec_ty DatabaseImageSpec_DeepCopyInto.
Proof. copy_fields. Qed.
#[local] Hint Resolve DatabaseImageSpec_copies : copies.

Lemma SecretRef_copies : copies SecretRef_ty SecretRef_DeepCopyInto.
Proof. copy_fields. Qed.
#[local] Hint Resolve SecretRef_copies : copies.

Lemma DatabaseTLSSpec_copies : copies DatabaseTLSSpec_ty DatabaseTLSSpec_DeepCopyInto.
Proof. copy_fields. Qed.
#[local] Hint Resolve DatabaseTLSSpec_copies : copies.

Lemma ExternalDBSpec_copies : copies ExternalDBSpec_ty ExternalDBSpec_DeepCopyInto.
Proof. copy_fields. Qed.
#[local] Hint Resolve ExternalDBSpec_copies : copies.

Lemma ManagedDBSpec_copies : copies ManagedDBSpec_ty ManagedDBSpec_DeepCopyInto.
Proof. copy_fields. Qed.
#[local] Hint Resolve ManagedDBSpec_copies : copies.

Lemma MigrationSpec_copies : copies MigrationSpec_ty MigrationSpec_DeepCopyInto.
Proof. copy_fields. Qed.
#[local] Hint Resolve MigrationSpec_copies : copies.

Lemma DatabaseSpec_copies : copies DatabaseSpec_ty DatabaseSpec_DeepCopyInto.
Proof. copy_fields. Qed.
#[local] Hint Resolve DatabaseSpec_copies : copies.

Lemma DatabaseStatus_copies : copies DatabaseStatus_ty DatabaseStatus_DeepCopyInto.
Proof. copy_fields. Qed.
#[local] Hint Resolve DatabaseStatus_copies : copies.

Lemma DefaultCustomerBudgetSpec_copies : copies DefaultCustomerBudgetSpec_ty DefaultCustomerBudgetSpec_DeepCopyInto.
Proof. copy_fields. Qed.
#[local] Hint Resolve DefaultCustomerBudgetSpec_copies : copies.

Lemma DefaultTeamParams_copies : copies DefaultTeamParams_ty DefaultTeamParams_DeepCopyInto.
Proof. copy_fields. Qed.
#[local] Hint Resolve DefaultTeamParams_copies : copies.

Lemma DefaultUserTeam_copies : copies DefaultUserTeam_ty DefaultUserTeam_DeepCopyInto.
Proof. copy_fields. Qed.
#[local] Hint Resolve DefaultUserTeam_copies : copies.

Lemma DefaultUserParams_copies : copies DefaultUserParams_ty DefaultUserParams_DeepCopyInto.
Proof. copy_fields. Qed.
#[local] Hint Resolve DefaultUserParams_copies : copies.

Lemma DeploymentSpec_copies : copies DeploymentSpec_ty DeploymentSpec_DeepCopyInto.
Proof. copy_fields. Qed.
#[local] Hint Resolve DeploymentSpec_copies : copies.

Lemma ModelFallbackEntry_copies : copies ModelFallbackEntry_ty ModelFallbackEntry_DeepCopyInto.
Proof. copy_fields. Qed.
#[local] Hint Resolve ModelFallbackEntry_copies : copies.

Lemma FallbackSpec_copies : copies FallbackSpec_ty FallbackSpec_DeepCopyInto.
Proof. copy_fields. Qed.
#[local] Hint Resolve FallbackSpec_copies : copies.

Lemma GatewayParentRef_copies : copies GatewayParentRef_ty GatewayParentRef_DeepCopyInto.
Proof. copy_fields. Qed.
#[local] Hint Resolve GatewayParentRef_copies : copies.

Lemma GatewayHTTPRouteSpec_copies : copies GatewayHTTPRouteSpec_ty GatewayHTTPRouteSpec_DeepCopyInto.
Proof. copy_fields. Qed.
#[local] Hint Resolve GatewayHTTPRouteSpec_copies : copies.

Lemma GeneralSettingsSpec_copies : copies GeneralSettingsSpec_ty GeneralSettingsSpec_DeepCopyInto.
Proof. copy_fields. Qed.
#[local] Hint Resolve GeneralSettingsSpec_copies : copies.

Lemma GrafanaDashboardSpec_copies : copies GrafanaDashboardSpec_ty GrafanaDashboardSpec_DeepCopyInto.
Proof. copy_fields. Qed.
#[local] Hint Resolve GrafanaDashboardSpec_copies : copies.

Lemma HeaderSecretRef_copies : copies HeaderSecretRef_ty HeaderSecretRef_DeepCopyInto.
Proof. copy_fields. Qed.
#[local] Hint Resolve HeaderSecretRef_copies : copies.

Lemma HealthCheckSpec_copies : copies HealthCheckSpec_ty HealthCheckSpec_DeepCopyInto.
Proof. copy_fields. Qed.
#[local] Hint Resolve HealthCheckSpec_copies : copies.

Lemma IPAllowlistSpec_copies : copies IPAllowlistSpec_ty IPAllowlistSpec_DeepCopyInto.
Proof. copy_fields. Qed.
#[local] Hint Resolve IPAllowlistSpec_copies : copies.

Lemma ImageSpec_copies : copies ImageSpec_ty ImageSpec_DeepCopyInto.
Proof. copy_fields. Qed.
#[local] Hint Resolve ImageSpec_copies : copies.

Lemma IngressTLSSpec_copies : copies IngressTLSSpec_ty IngressTLSSpec_DeepCopyInto.
Proof. copy_fields. Qed.
#[local] Hint Resolve IngressTLSSpec_copies : copies.

Lemma IngressSpec_copies : copies IngressSpec_ty IngressSpec_DeepCopyInto.
Proof. copy_fields. Qed.
#[local] Hint Resolve IngressSpec_copies : copies.

Lemma SpendLogRetentionSpec_copies : copies SpendLogRetentionSpec_ty SpendLogRetentionSpec_DeepCopyInto.
Proof. copy_fields. Qed.
#[local] Hint Resolve SpendLogRetentionSpec_copies : copies.

Lemma InstanceLoggingSpec_copies : copies InstanceLoggingSpec_ty InstanceLoggingSpec_DeepCopyInto.
Proof. copy_fields. Qed.
#[local] Hint Resolve InstanceLoggingSpec_copies : copies.

Lemma InstanceRef_copies : copies InstanceRef_ty InstanceRef_DeepCopyInto.
Proof. copy_fields. Qed.
#[local] Hint Resolve InstanceRef_copies : copies.

Lemma JWTLiteLLMRoleMapEntry_copies : copies JWTLiteLLMRoleMapEntry_ty JWTLiteLLMRoleMapEntry_DeepCopyInto.
Proof. copy_fields. Qed.
#[local] Hint Resolve JWTLiteLLMRoleMapEntry_copies : copies.

Lemma JWTRoleMapping_copies : copies JWTRoleMapping_ty JWTRoleMapping_DeepCopyInto.
Proof. copy_fields. Qed.
#[local] Hint Resolve JWTRoleMapping_copies : copies.

Lemma JWTRoutingOverride_copies : copies JWTRoutingOverride_ty JWTRoutingOverride_DeepCopyInto.
Proof. copy_fields. Qed.
#[local] Hint Resolve JWTRoutingOverride_copies : copies.

Lemma JWTScopeMapping_copies : copies JWTScopeMapping_ty JWTScopeMapping_DeepCopyInto.
Proof. copy_fields. Qed.
#[local] Hint Resolve JWTScopeMapping_copies : copies.

Lemma JWTAuthSpec_copies : copies JWTAuthSpec_ty JWTAuthSpec_DeepCopyInto.
Proof. copy_fields. Qed.
#[local] Hint Resolve JWTAuthSpec_copies : copies.

Lemma PersonalKeyGenerationSettings_copies : copies PersonalKeyGenerationSettings_ty PersonalKeyGenerationSettings_DeepCopyInto.
Proof. copy_fields. Qed.
#[local] Hint Resolve PersonalKeyGenerationSettings_copies : copies.

Lemma TeamKeyGenerationSettings_copies : copies TeamKeyGenerationSettings_ty TeamKeyGenerationSettings_DeepCopyInto.
Proof. copy_fields. Qed.
#[local] Hint Resolve TeamKeyGenerationSettings_copies : copies.

Lemma KeyGenerationSettings_copies : copies KeyGenerationSettings_ty KeyGenerationSettings_DeepCopyInto.
Proof. copy_fields. Qed.
#[local] Hint Resolve KeyGenerationSettings_copies : copies.

Lemma KeySecretTemplateSpec_copies : copies KeySecretTemplateSpec_ty KeySecretTemplateSpec_DeepCopyInto.
Proof. copy_fields. Qed.
#[local] Hint Resolve KeySecretTemplateSpec_copies : copies.

Lemma LicenseStatus_copies : copies LicenseStatus_ty LicenseStatus_DeepCopyInto.
Proof. copy_fields. Qed.
#[local] Hint Resolve LicenseStatus_copies : copies.

Lemma LiteLLMBudgetSpec_copies : copies LiteLLMBudgetSpec_ty LiteLLMBudgetSpec_DeepCopyInto.
Proof. copy_fields. Qed.
#[local] Hint Resolve LiteLLMBudgetSpec_copies : copies.

Lemma LiteLLMBudgetStatus_copies : copies LiteLLMBudgetStatus_ty LiteLLMBudgetStatus_DeepCopyInto.
Proof. copy_fields. Qed.
#[local] Hint Resolve LiteLLMBudgetStatus_copies : copies.

Lemma LiteLLMBudget_copies : copies LiteLLMBudget_ty LiteLLMBudget_DeepCopyInto.
Proof. copy_fields. Qed.
#[local] Hint Resolve LiteLLMBudget_copies : copies.

Lemma LiteLLMBudgetList_copies : copies LiteLLMBudgetList_ty LiteLLMBudgetList_DeepCopyInto.
Proof. copy_fields. Qed.
#[local] Hint Resolve LiteLLMBudgetList_copies : copies.

Lemma LiteLLMCredentialSpec_copies : copies LiteLLMCredentialSpec_ty LiteLLMCredentialSpec_DeepCopyInto.
Proof. copy_fields. Qed.
#[local] Hint Resolve LiteLLMCredentialSpec_copies : copies.

Lemma LiteLLMCredentialStatus_copies : copies LiteLLMCredentialStatus_ty LiteLLMCredentialStatus_DeepCopyInto.
Proof. copy_fields. Qed.
#[local] Hint Resolve LiteLLMCredentialStatus_copies : copies.

Lemma LiteLLMCredential_copies : copies LiteLLMCredential_ty LiteLLMCredential_DeepCopyInto.
Proof. copy_fields. Qed.
#[local] Hint Resolve LiteLLMCredential_copies : copies.

Lemma LiteLLMCredentialList_copies : copies LiteLLMCredentialList_ty LiteLLMCredentialList_DeepCopyInto.
Proof. copy_fields. Qed.
#[local] Hint Resolve LiteLLMCredentialList_copies : copies.

Lemma ObjectPermission_copies : copies ObjectPermission_ty ObjectPermission_DeepCopyInto.
Proof. copy_fields. Qed.
#[local] Hint Resolve ObjectPermission_copies : copies.

Lemma LiteLLMCustomerSpec_copies : copies LiteLLMCustomerSpec_ty LiteLLMCustomerSpec_DeepCopyInto.
Proof. copy_fields. Qed.
#[local] Hint Resolve LiteLLMCustomerSpec_copies : copies.

Lemma LiteLLMCustomerStatus_copies : copies LiteLLMCustomerStatus_ty LiteLLMCustomerStatus_DeepCopyInto.
Proof. copy_fields. Qed.
#[local] Hint Resolve LiteLLMCustomerStatus_copies : copies.

Lemma LiteLLMCustomer_copies : copies LiteLLMCustomer_ty LiteLLMCustomer_DeepCopyInto.
Proof. copy_fields. Qed.
#[local] Hint Resolve LiteLLMCustomer_copies : copies.

Lemma LiteLLMCustomerList_copies : copies LiteLLMCustomerList_ty LiteLLMCustomerList_DeepCopyInto.
Proof. copy_fields. Qed.
#[local] Hint Resolve LiteLLMCustomerList_copies : copies.

Lemma LiteLLMGuardrailSpec_copies : copies LiteLLMGuardrailSpec_ty LiteLLMGuardrailSpec_DeepCopyInto.
Proof. copy_fields. Qed.
#[local] Hint Resolve LiteLLMGuardrailSpec_copies : copies.

Lemma LiteLLMGuardrailStatus_copies : copies LiteLLMGuardrailStatus_ty LiteLLMGuardrailStatus_DeepCopyInto.
Proof. copy_fields. Qed.
#[local] Hint Resolve LiteLLMGuardrailStatus_copies : copies.

Lemma LiteLLMGuardrail_copies : copies LiteLLMGuardrail_ty LiteLLMGuardrail_DeepCopyInto.
Proof. copy_fields. Qed.
#[local] Hint Resolve LiteLLMGuardrail_copies : copies.

Lemma LiteLLMGuardrailList_copies : copies LiteLLMGuardrailList_ty LiteLLMGuardrailList_DeepCopyInto.
Proof. copy_fields. Qed.
#[local] Hint Resolve LiteLLMGuardrailList_copies : copies.

Lemma LiteLLMSettingsSpec_copies : copies LiteLLMSettingsSpec_ty LiteLLMSettingsSpec_DeepCopyInto.
Proof. copy_fields. Qed.
#[local] Hint Resolve LiteLLMSettingsSpec_copies : copies.

Lemma MasterKeySpec_copies : copies MasterKeySpec_ty MasterKeySpec_DeepCopyInto.
Proof. copy_fields. Qed.
#[local] Hint Resolve MasterKeySpec_copies : copies.

Lemma OAuth2Mapping_copies : copies OAuth2Mapping_ty OAuth2Mapping_DeepCopyInto.
Proof. copy_fields. Qed.
#[local] Hint Resolve OAuth2Mapping_copies : copies.

Lemma OAuth2AuthSpec_copies : copies OAuth2AuthSpec_ty OAuth2AuthSpec_DeepCopyInto.
Proof. copy_fields. Qed.
#[local] Hint Resolve OAuth2AuthSpec_copies : copies.

Lemma PrometheusRuleSpec_copies : copies PrometheusRuleSpec_ty PrometheusRuleSpec_DeepCopyInto.
Proof. copy_fields. Qed.
#[local] Hint Resolve PrometheusRuleSpec_copies : copies.

Lemma ServiceMonitorAuthorization_copies : copies ServiceMonitorAuthorization_ty ServiceMonitorAuthorization_DeepCopyInto.
Proof. copy_fields. Qed.
#[local] Hint Resolve ServiceMonitorAuthorization_copies : copies.

Lemma ServiceMonitorSpec_copies : copies ServiceMonitorSpec_ty ServiceMonitorSpec_DeepCopyInto.
Proof. copy_fields. Qed.
#[local] Hint Resolve ServiceMonitorSpec_copies : copies.

Lemma ObservabilitySpec_copies : copies ObservabilitySpec_ty ObservabilitySpec_DeepCopyInto.
Proof. copy_fields. Qed.
#[local] Hint Resolve ObservabilitySpec_copies : copies.

Lemma PDBSpec_copies : copies PDBSpec_ty PDBSpec_DeepCopyInto.
Proof. copy_fields. Qed.
#[local] Hint Resolve PDBSpec_copies : copies.

Lemma PassThroughEndpoint_copies : copies PassThroughEndpoint_ty PassThroughEndpoint_DeepCopyInto.
Proof. copy_fields. Qed.
#[local] Hint Resolve PassThroughEndpoint_copies : copies.

Lemma PodSchedulingSpec_copies : copies PodSchedulingSpec_ty PodSchedulingSpec_DeepCopyInto.
Proof. copy_fields. Qed.
#[local] Hint Resolve PodSchedulingSpec_copies : copies.

Lemma RolePermission_copies : copies RolePermission_ty RolePermission_DeepCopyInto.
Proof. copy_fields. Qed.
#[local] Hint Resolve RolePermission_copies : copies.

Lemma RBACSpec_copies : copies RBACSpec_ty RBACSpec_DeepCopyInto.
Proof. copy_fields. Qed.
#[local] Hint Resolve RBACSpec_copies : copies.

Lemma RedisSpec_copies : copies RedisSpec_ty RedisSpec_DeepCopyInto.
Proof. copy_fields. Qed.
#[local] Hint Resolve RedisSpec_copies : copies.

Lemma RouteSpec_copies : copies RouteSpec_ty RouteSpec_DeepCopyInto.
Proof. copy_fields. Qed.
#[local] Hint Resolve RouteSpec_copies : copies.

Lemma ProviderBudget_copies : copies ProviderBudget_ty ProviderBudget_DeepCopyInto.
Proof. copy_fields. Qed.
#[local] Hint Resolve ProviderBudget_copies : copies.

Lemma RouterSettingsSpec_copies : copies RouterSettingsSpec_ty RouterSettingsSpec_DeepCopyInto.
Proof. copy_fields. Qed.
#[local] Hint Resolve RouterSettingsSpec_copies : copies.

Lemma SCIMSpec_copies : copies SCIMSpec_ty SCIMSpec_DeepCopyInto.
Proof. copy_fields. Qed.
#[local] Hint Resolve SCIMSpec_copies : copies.

Lemma UserAttributeMappings_copies : copies UserAttributeMappings_ty UserAttributeMappings_DeepCopyInto.
Proof. copy_fields. Qed.
#[local] Hint Resolve UserAttributeMappings_copies : copies.

Lemma SSOSpec_copies : copies SSOSpec_ty SSOSpec_DeepCopyInto.
Proof. copy_fields. Qed.
#[local] Hint Resolve SSOSpec_copies : copies.

Lemma SaltKeySpec_copies : copies SaltKeySpec_ty SaltKeySpec_DeepCopyInto.
Proof. copy_fields. Qed.
#[local] Hint Resolve SaltKeySpec_copies : copies.

Lemma VaultConfig_copies : copies VaultConfig_ty VaultConfig_DeepCopyInto.
Proof. copy_fields. Qed.
#[local] Hint Resolve VaultConfig_copies : copies.

Lemma SecretManagerSpec_copies : copies SecretManagerSpec_ty SecretManagerSpec_DeepCopyInto.
Proof. copy_fields. Qed.
#[local] Hint Resolve SecretManagerSpec_copies : copies.

Lemma NetworkPolicySpec_copies : copies NetworkPolicySpec_ty NetworkPolicySpec_DeepCopyInto.
Proof. copy_fields. Qed.
#[local] Hint Resolve NetworkPolicySpec_copies : copies.

Lemma SecuritySpec_copies : copies SecuritySpec_ty SecuritySpec_DeepCopyInto.
Proof. copy_fields. Qed.
#[local] Hint Resolve SecuritySpec_copies : copies.

Lemma ServiceAccountSpec_copies : copies ServiceAccountSpec_ty ServiceAccountSpec_DeepCopyInto.
Proof. copy_fields. Qed.
#[local] Hint Resolve ServiceAccountSpec_copies : copies.

Lemma ServiceSpec_copies : copies ServiceSpec_ty ServiceSpec_DeepCopyInto.
Proof. copy_fields. Qed.
#[local] Hint Resolve ServiceSpec_copies : copies.

Lemma TLSSpec_copies : copies TLSSpec_ty TLSSpec_DeepCopyInto.
Proof. copy_fields. Qed.
#[local] Hint Resolve TLSSpec_copies : copies.

Lemma UpgradeSpec_copies : copies UpgradeSpec_ty UpgradeSpec_DeepCopyInto.
Proof. copy_fields. Qed.
#[local] Hint Resolve UpgradeSpec_copies : copies.

Lemma WorkloadSpec_copies : copies WorkloadSpec_ty WorkloadSpec_DeepCopyInto.
Proof. copy_fields. Qed.
#[local] Hint Resolve WorkloadSpec_copies : copies.

Lemma LiteLLMInstanceSpec_copies : copies LiteLLMInstanceSpec_ty LiteLLMInstanceSpec_DeepCopyInto.
Proof. copy_fields. Qed.
#[local] Hint Resolve LiteLLMInstanceSpec_copies : copies.

Lemma RedisStatus_copies : copies RedisStatus_ty RedisStatus_DeepCopyInto.
Proof. copy_fields. Qed.
#[local] Hint Resolve RedisStatus_copies : copies.

Lemma SCIMStatus_copies : copies SCIMStatus_ty SCIMStatus_DeepCopyInto.
Proof. copy_fields. Qed.
#[local] Hint Resolve SCIMStatus_copies : copies.

Lemma SSOStatus_copies : copies SSOStatus_ty SSOStatus_DeepCopyInto.
Proof. copy_fields. Qed.
#[local] Hint Resolve SSOStatus_copies : copies.

Lemma SecretManagerStatus_copies : copies SecretManagerStatus_ty SecretManagerStatus_DeepCopyInto.
Proof. copy_fields. Qed.
#[local] Hint Resolve SecretManagerStatus_copies : copies.

Lemma UnhealthyPod_copies : copies UnhealthyPod_ty UnhealthyPod_DeepCopyInto.
Proof. copy_fields. Qed.
#[local] Hint Resolve UnhealthyPod_copies : copies.

Lemma LiteLLMInstanceStatus_copies : copies LiteLLMInstanceStatus_ty LiteLLMInstanceStatus_DeepCopyInto.
Proof. copy_fields. Qed.
#[local] Hint Resolve LiteLLMInstanceStatus_copies : copies.

Lemma LiteLLMInstance_copies : copies LiteLLMInstance_ty LiteLLMInstance_DeepCopyInto.
Proof. copy_fields. Qed.
#[local] Hint Resolve LiteLLMInstance_copies : copies.

Lemma LiteLLMInstanceList_copies : copies LiteLLMInstanceList_ty LiteLLMInstanceList_DeepCopyInto.
Proof. copy_fields. Qed.
#[local] Hint Resolve LiteLLMInstanceList_copies : copies.

Lemma LiteLLMModelParams_copies : copies LiteLLMModelParams_ty LiteLLMModelParams_DeepCopyInto.
Proof. copy_fields. Qed.
#[local] Hint Resolve LiteLLMModelParams_copies : copies.

Lemma ModelHealthCheck_copies : copies ModelHealthCheck_ty ModelHealthCheck_DeepCopyInto.
Proof. copy_fields. Qed.
#[local] Hint Resolve ModelHealthCheck_copies : copies.

Lemma ModelInfo_copies : copies ModelInfo_ty ModelInfo_DeepCopyInto.
Proof. copy_fields. Qed.
#[local] Hint Resolve ModelInfo_copies : copies.

Lemma LiteLLMModelSpec_copies : copies LiteLLMModelSpec_ty LiteLLMModelSpec_DeepCopyInto.
Proof. copy_fields. Qed.
#[local] Hint Resolve LiteLLMModelSpec_copies : copies.

Lemma LiteLLMModelStatus_copies : copies LiteLLMModelStatus_ty LiteLLMModelStatus_DeepCopyInto.
Proof. copy_fields. Qed.
#[local] Hint Resolve LiteLLMModelStatus_copies : copies.

Lemma LiteLLMModel_copies : copies LiteLLMModel_ty LiteLLMModel_DeepCopyInto.
Proof. copy_fields. Qed.
#[local] Hint Resolve LiteLLMModel_copies : copies.

Lemma LiteLLMModelList_copies : copies LiteLLMModelList_ty LiteLLMModelList_DeepCopyInto.
Proof. copy_fields. Qed.
#[local] Hint Resolve LiteLLMModelList_copies : copies.

Lemma OrganizationMember_copies : copies OrganizationMember_ty OrganizationMember_DeepCopyInto.
Proof. copy_fields. Qed.
#[local] Hint Resolve OrganizationMember_copies : copies.

Lemma LiteLLMOrganizationSpec_copies : copies LiteLLMOrganizationSpec_ty LiteLLMOrganizationSpec_DeepCopyInto.
Proof. copy_fields. Qed.
#[local] Hint Resolve LiteLLMOrganizationSpec_copies : copies.

Lemma LiteLLMOrganizationStatus_copies : copies LiteLLMOrganizationStatus_ty LiteLLMOrganizationStatus_DeepCopyInto.
Proof. copy_fields. Qed.
#[local] Hint Resolve LiteLLMOrganizationStatus_copies : copies.

Lemma LiteLLMOrganization_copies : copies LiteLLMOrganization_ty LiteLLMOrganization_DeepCopyInto.
Proof. copy_fields. Qed.
#[local] Hint Resolve LiteLLMOrganization_copies : copies.

Lemma LiteLLMOrganizationList_copies : copies LiteLLMOrganizationList_ty LiteLLMOrganizationList_DeepCopyInto.
Proof. copy_fields. Qed.
#[local] Hint Resolve LiteLLMOrganizationList_copies : copies.

Lemma OrganizationRef_copies : copies OrganizationRef_ty OrganizationRef_DeepCopyInto.
Proof. copy_fields. Qed.
#[local] Hint Resolve OrganizationRef_copies : copies.

Lemma TeamCallback_copies : copies TeamCallback_ty TeamCallback_DeepCopyInto.
Proof. copy_fields. Qed.
#[local] Hint Resolve TeamCallback_copies : copies.

Lemma TeamLoggingSpec_copies : copies TeamLoggingSpec_ty TeamLoggingSpec_DeepCopyInto.
Proof. copy_fields. Qed.
#[local] Hint Resolve TeamLoggingSpec_copies : copies.

Lemma TeamMember_copies : copies TeamMember_ty TeamMember_DeepCopyInto.
Proof. copy_fields. Qed.
#[local] Hint Resolve TeamMember_copies : copies.

Lemma LiteLLMTeamSpec_copies : copies LiteLLMTeamSpec_ty LiteLLMTeamSpec_DeepCopyInto.
Proof. copy_fields. Qed.
#[local] Hint Resolve LiteLLMTeamSpec_copies : copies.

Lemma TeamMemberStatus_copies : copies TeamMemberStatus_ty TeamMemberStatus_DeepCopyInto.
Proof. copy_fields. Qed.
#[local] Hint Resolve TeamMemberStatus_copies : copies.

Lemma LiteLLMTeamStatus_copies : copies LiteLLMTeamStatus_ty LiteLLMTeamStatus_DeepCopyInto.
Proof. copy_fields. Qed.
#[local] Hint Resolve LiteLLMTeamStatus_copies : copies.

Lemma LiteLLMTeam_copies : copies LiteLLMTeam_ty LiteLLMTeam_DeepCopyInto.
Proof. copy_fields. Qed.
#[local] Hint Resolve LiteLLMTeam_copies : copies.

Lemma LiteLLMTeamList_copies : copies LiteLLMTeamList_ty LiteLLMTeamList_DeepCopyInto.
Proof. copy_fields. Qed.
#[local] Hint Resolve LiteLLMTeamList_copies : copies.

Lemma TeamRef_copies : copies TeamRef_ty TeamRef_DeepCopyInto.
Proof. copy_fields. Qed.
#[local] Hint Resolve TeamRef_copies : copies.

Lemma UserTeamMembership_copies : copies UserTeamMembership_ty UserTeamMembership_DeepCopyInto.
Proof. copy_fields. Qed.
#[local] Hint Resolve UserTeamMembership_copies : copies.

Lemma LiteLLMUserSpec_copies : copies LiteLLMUserSpec_ty LiteLLMUserSpec_DeepCopyInto.
Proof. copy_fields. Qed.
#[local] Hint Resolve LiteLLMUserSpec_copies : copies.

Lemma ResolvedTeamMembership_copies : copies ResolvedTeamMembership_ty ResolvedTeamMembership_DeepCopyInto.
Proof. copy_fields. Qed.
#[local] Hint Resolve ResolvedTeamMembership_copies : copies.

Lemma LiteLLMUserStatus_copies : copies LiteLLMUserStatus_ty LiteLLMUserStatus_DeepCopyInto.
Proof. copy_fields. Qed.
#[local] Hint Resolve LiteLLMUserStatus_copies : copies.

Lemma LiteLLMUser_copies : copies LiteLLMUser_ty LiteLLMUser_DeepCopyInto.
Proof. copy_fields. Qed.
#[local] Hint Resolve LiteLLMUser_copies : copies.

Lemma LiteLLMUserList_copies : copies LiteLLMUserList_ty LiteLLMUserList_DeepCopyInto.
Proof. copy_fields. Qed.
#[local] Hint Resolve LiteLLMUserList_copies : copies.

Lemma UserRef_copies : copies UserRef_ty UserRef_DeepCopyInto.
Proof. copy_fields. Qed.
#[local] Hint Resolve UserRef_copies : copies.

Lemma LiteLLMVirtualKeySpec_copies : copies LiteLLMVirtualKeySpec_ty LiteLLMVirtualKeySpec_DeepCopyInto.
Proof. copy_fields. Qed.
#[local] Hint Resolve LiteLLMVirtualKeySpec_copies : copies.

Lemma LiteLLMVirtualKeyStatus_copies : copies LiteLLMVirtualKeyStatus_ty LiteLLMVirtualKeyStatus_DeepCopyInto.
Proof. copy_fields. Qed.
#[local] Hint Resolve LiteLLMVirtualKeyStatus_copies : copies.

Lemma LiteLLMVirtualKey_copies : copies LiteLLMVirtualKey_ty LiteLLMVirtualKey_DeepCopyInto.
Proof. copy_fields. Qed.
#[local] Hint Resolve LiteLLMVirtualKey_copies : copies.

Lemma LiteLLMVirtualKeyList_copies : copies LiteLLMVirtualKeyList_ty LiteLLMVirtualKeyList_DeepCopyInto.
Proof. copy_fields. Qed.
#[local] Hint Resolve LiteLLMVirtualKeyList_copies : copies.

(** ** The table of the types *)
Lemma agree_subseteq (h h2 : heap) : (∀ l, l ∈ dom h → h2 !! l = h !! l) → h ⊆ h2.
Proof. intros Hl. apply map_subseteq_spec. intros l c Hc. rewrite Hl; [done|]. by eapply elem_of_dom_2. Qed.

Lemma generated_copies : Forall (λ g, copies (gt_type g) (gt_DeepCopyInto g)) generated.
Proof.
  unfold generated.
  repeat (apply Forall_cons; split; [cbn [gt_type gt_DeepCopyInto]; solve [auto with copies nocore]|]). constructor.
Qed.

Lemma generated_methods :
  Forall (λ g, gt_DeepCopy g = DeepCopy_of (gt_type g) (gt_DeepCopyInto g) ∧
    (gt_DeepCopyObject g = None ∨ gt_DeepCopyObject g = Some (DeepCopyObject_of (gt_DeepCopy g)))) generated.
Proof.
  unfold generated.
  repeat (apply Forall_cons; split;
    [cbn [gt_type gt_DeepCopyInto gt_DeepCopy gt_DeepCopyObject]; split;
       [reflexivity|first [exact (or_introl eq_refl)|exact (or_intror eq_refl)]]|]).
  constructor.
Qed.

(** The types registered with the scheme are those that are objects. *)
Lemma registered_objects :
  list_to_set (gt_name <$> filter (λ g, is_Some (gt_DeepCopyObject g)) generated) =@{gset string}
  list_to_set SchemeBuilder.
Proof. vm_compute. reflexivity. Qed.

(** C34: the deep copy of every generated type is a snapshot.  Given a pointer to a value that
    stands for some data, [DeepCopy] does not panic, leaves every cell as it is, and returns a
    pointer to the same data held by new cells only, no two references of it to the same cell.
    Hence no write to cells that existed before changes the copy, no write to the cells of the
    copy changes the original, and [DeepCopyObject] returns the same pointer, or the nil
    interface for nil. *)
Theorem DeepCopy_isolates g :
  g ∈ generated → ∀ h p d, reps (TPtr (gt_type g)) p d h →
  ∃ q hx, gt_DeepCopy g p h = Some (q, h ∪ hx) ∧ h ##ₘ hx ∧ owns (TPtr (gt_type g)) q d hx ∧
    (∀ h2 : heap, (∀ l, l ∉ dom h → h2 !! l = (h ∪ hx) !! l) → reps (TPtr (gt_type g)) q d h2) ∧
    (∀ h2 : heap, (∀ l, l ∈ dom h → h2 !! l = h !! l) → reps (TPtr (gt_type g)) p d h2) ∧
    (∀ o, gt_DeepCopyObject g = Some o →
      o p h = Some (if is_nil p then None else Some q, h ∪ hx)).
Proof.
  intros Hg h p d Hr. pose proof (proj1 (Forall_forall _ _) generated_copies g Hg) as Hc.
  destruct (proj1 (Forall_forall _ _) generated_methods g Hg) as [Hm Ho].
  destruct (copies_DeepCopy _ (gt_type g) _ Hc h p d Hr) as (q & hx & Hrun & Hd & Hq). rewrite <-Hm in Hrun.
  exists q, hx. split_and!; [done..| | |].
  - intros h2 H2. apply owns_reps. eapply owns_mono, Hq. apply agree_subseteq. intros l Hl.
    assert (l ∉ dom h) as Hlh by (apply map_disjoint_dom in Hd; intros ?; by eapply Hd).
    rewrite H2 by done. by apply lookup_union_r, not_elem_of_dom.
  - intros h2 H2. eapply reps_mono, Hr. by apply agree_subseteq.
  - intros o Hoo. destruct Ho as [Ho|Ho]; [congruence|]. rewrite Ho in Hoo. injection Hoo as <-.
    unfold DeepCopyObject_of. rewrite (bind_some _ _ _ _ _ Hrun).
    assert (is_nil q = is_nil p) as Hnil.
    { destruct Hr as [[-> ->]|(? & ? & ? & -> & -> & _)]; destruct Hq as [[-> Hq]|(? & ? & ? & -> & Hq & _)]; done. }
    rewrite Hnil. by destruct (is_nil p).
Qed.

End Facts.
