(* ===== verification/KubeTypes.v ===== *)
(** * Data of Kubernetes

    The structures of the Kubernetes API that the operator reads and writes, and
    the references shared by the custom resources (api/v1alpha1/common_types.go).
    A pointer is an [option]; an [int] of any width is a [Z], since the operator
    only passes these integers on; a [map] is a [gmap] (a nil and an empty map are
    told apart only for annotations, see [ObjectMeta]). *)

From S2P Require Import Prelude.
From Stdlib Require Import SpecFloat.

(** [float64] values, as IEEE 754 data. *)
Definition float64 : Type := spec_float.

(** Instants of [metav1.Time]. *)
Definition Time : Type := Z.

(** Values of [interface{}] decoded from JSON. *)
Inductive JSONValue :=
| JNull
| JBool (b : bool)
| JNumber (f : float64)
| JString (s : string)
| JArray (l : list JSONValue)
| JObject (l : list (string * JSONValue)).

(** An integer, decoded as a [float64]. *)
Definition JInt (z : Z) : JSONValue := JNumber (binary_normalize 53 1024 z 0 false).
Definition JStrings (m : gmap string string) : JSONValue := JObject (prod_map id JString <$> map_to_list m).

(** ** Kubernetes data *)

(** [metav1.Condition], without [LastTransitionTime], which the operator leaves
    to the condition helpers and never reads. *)
Record Condition := MkCondition {
  cond_Type : string;
  cond_Status : string;
  cond_Reason : string;
  cond_Message : text;
  cond_ObservedGeneration : Z
}.

Definition ConditionTrue : string := "True".
Definition ConditionFalse : string := "False".

Record LabelSelectorRequirement := MkLabelSelectorRequirement {
  lsr_Key : string;
  lsr_Operator : string;
  lsr_Values : list string
}.

Record LabelSelector := MkLabelSelector {
  ls_MatchLabels : gmap string string;
  ls_MatchExpressions : list LabelSelectorRequirement
}.

Record OwnerReference := MkOwnerReference {
  or_APIVersion : string;
  or_Kind : string;
  or_OwnerName : string;
  or_UID : string;
  or_Controller : bool
}.

(** The part of [metav1.ObjectMeta] the operator reads or writes.
    [Annotations] is [None] when the Go map is nil. *)
Record ObjectMeta := MkObjectMeta {
  Name : string;
  Namespace : string;
  UID : string;
  Generation : Z;
  Labels : gmap string string;
  Annotations : option (gmap string string);
  Finalizers : list string;
  OwnerReferences : list OwnerReference;
  DeletionTimestamp : option Time;
  ResourceVersion : string
}.

(** [corev1.Secret]. *)
Record Secret := MkSecret {
  sec_meta : ObjectMeta;
  sec_Type : string;
  sec_Data : gmap string string;
  sec_StringData : gmap string string
}.

(** [corev1.ConfigMap]. *)
Record ConfigMap := MkConfigMap {
  cm_meta : ObjectMeta;
  cm_Data : gmap string string;
  cm_BinaryData : gmap string string
}.

(** ** Pods and workloads

    The fields of the Kubernetes structures that the operator looks at; a field
    [..._Rest] holds the other ones, which the operator only passes on.  Selectors of
    Secrets and of ConfigMaps have the same shape. *)

Record KeySelector := MkKeySelector { ksel_Name : string; ksel_Key : string }.

Record EnvVarSource := MkEnvVarSource {
  evs_SecretKeyRef : option KeySelector;
  evs_ConfigMapKeyRef : option KeySelector;
  evs_Rest : JSONValue
}.

Record EnvVar := MkEnvVar {
  env_Name : string;
  env_Value : string;
  env_ValueFrom : option EnvVarSource
}.

Record EnvFromSource := MkEnvFromSource {
  efs_SecretRef : option string;
  efs_ConfigMapRef : option string;
  efs_Rest : JSONValue
}.

Record VolumeMount := MkVolumeMount {
  vm_Name : string;
  vm_MountPath : string;
  vm_SubPath : string;
  vm_ReadOnly : bool;
  vm_Rest : JSONValue
}.

(** A probe by an HTTP request. *)
Record HTTPProbe := MkHTTPProbe {
  prb_Path : string;
  prb_Port : Z;
  prb_Scheme : string;
  prb_InitialDelaySeconds : Z;
  prb_PeriodSeconds : Z;
  prb_TimeoutSeconds : Z;
  prb_FailureThreshold : Z
}.

Record Container := MkContainer {
  ctr_Name : string;
  ctr_Image : string;
  ctr_ImagePullPolicy : string;
  ctr_Command : list string;
  ctr_Ports : list (string * Z * string);
  ctr_Env : list EnvVar;
  ctr_EnvFrom : list EnvFromSource;
  ctr_VolumeMounts : list VolumeMount;
  ctr_LivenessProbe : option HTTPProbe;
  ctr_ReadinessProbe : option HTTPProbe;
  ctr_StartupProbe : option HTTPProbe;
  ctr_AllowPrivilegeEscalation : option bool;
  ctr_Resources : JSONValue;
  ctr_Rest : JSONValue
}.

(** The object a volume projects and the keys of its items. *)
Record VolumeObject := MkVolumeObject {
  vo_Name : string;
  vo_Items : list string;
  vo_Rest : JSONValue
}.

Record VolumeProjection := MkVolumeProjection {
  vp_Secret : option VolumeObject;
  vp_ConfigMap : option VolumeObject;
  vp_Rest : JSONValue
}.

Record Volume := MkVolume {
  vol_Name : string;
  vol_Secret : option VolumeObject;
  vol_ConfigMap : option VolumeObject;
  vol_Projected : option (list VolumeProjection);
  vol_Rest : JSONValue
}.

Record PodSecurityContext := MkPodSecurityContext {
  psc_RunAsNonRoot : option bool;
  psc_RunAsUser : option Z;
  psc_FSGroup : option Z
}.

Record PodSpec := MkPodSpec {
  pod_ServiceAccountName : string;
  pod_RestartPolicy : string;
  pod_ImagePullSecrets : list string;
  pod_Containers : list Container;
  pod_InitContainers : list Container;
  pod_Volumes : list Volume;
  pod_SecurityContext : option PodSecurityContext;
  pod_NodeSelector : gmap string string;
  pod_Tolerations : list JSONValue;
  pod_Affinity : option JSONValue;
  pod_TopologySpreadConstraints : list JSONValue;
  pod_Rest : JSONValue
}.

(** A container with an environment and nothing else, and a pod of containers. *)
Definition bareContainer (name : string) (env : list EnvVar) (envFrom : list EnvFromSource) : Container :=
  MkContainer name "" "" [] [] env envFrom [] None None None None JNull JNull.
Definition barePod (containers : list Container) : PodSpec :=
  MkPodSpec "" "" [] containers [] [] None ∅ [] None [] JNull.

(** What the operator reads of a running pod. *)
Record ContainerStateWaiting := MkContainerStateWaiting {
  csw_Reason : string;
  csw_Message : string
}.

Record ContainerStateTerminated := MkContainerStateTerminated {
  term_ExitCode : Z;
  term_Reason : string;
  term_Message : string
}.

(** [State] and [LastTerminationState.Terminated] of a container. *)
Record ContainerStatus := MkContainerStatus {
  ctst_RestartCount : Z;
  ctst_Waiting : option ContainerStateWaiting;
  ctst_Terminated : option ContainerStateTerminated;
  ctst_LastTerminated : option ContainerStateTerminated
}.

Record PodCondition := MkPodCondition {
  pc_Type : string;
  pc_Status : string;
  pc_Reason : string;
  pc_Message : string
}.

Record Pod := MkPod {
  pod_meta : ObjectMeta;
  pod_Phase : string;
  pod_Reason : string;
  pod_Message : string;
  pod_Conditions : list PodCondition;
  pod_ContainerStatuses : list ContainerStatus
}.

(** [corev1.PodTemplateSpec] and [appsv1.Deployment]. *)
Record PodTemplate := MkPodTemplate {
  pt_Labels : gmap string string;
  pt_Annotations : option (gmap string string);
  pt_Spec : PodSpec
}.

(** [RollingUpdate] holds [MaxUnavailable] and [MaxSurge]. *)
Record DeploymentStrategy := MkDeploymentStrategy {
  dstr_Type : string;
  dstr_RollingUpdate : option (option Z * option Z)
}.

(** [ds_Selector] is [Selector.MatchLabels]. *)
Record DeploymentSpec := MkDeploymentSpec {
  ds_Replicas : option Z;
  ds_Selector : gmap string string;
  ds_Template : PodTemplate;
  ds_Strategy : DeploymentStrategy;
  ds_Rest : JSONValue
}.

Record DeploymentCondition := MkDeploymentCondition {
  dc_Type : string;
  dc_Status : string;
  dc_Reason : string
}.

Record DeploymentStatus := MkDeploymentStatus {
  dst_Replicas : Z;
  dst_ReadyReplicas : Z;
  dst_AvailableReplicas : Z;
  dst_Conditions : list DeploymentCondition
}.

Record Deployment := MkDeployment {
  dep_meta : ObjectMeta;
  dep_Spec : DeploymentSpec;
  dep_Status : DeploymentStatus
}.

(** [corev1.Service]. *)
Record ServicePort := MkServicePort {
  sp_Name : string;
  sp_Protocol : string;
  sp_Port : Z;
  sp_TargetPort : Z;
  sp_NodePort : Z;
  sp_Rest : JSONValue
}.

Record KServiceSpec := MkKServiceSpec {
  kss_Type : string;
  kss_Selector : gmap string string;
  kss_Ports : list ServicePort;
  kss_Rest : JSONValue
}.

Record KService := MkKService {
  ksvc_meta : ObjectMeta;
  ksvc_Spec : KServiceSpec
}.

(** [batchv1.Job]. *)
Record Job := MkJob {
  job_meta : ObjectMeta;
  job_BackoffLimit : option Z;
  job_TTLSecondsAfterFinished : option Z;
  job_Template : PodTemplate;
  job_Rest : JSONValue;
  job_Succeeded : Z;
  job_Failed : Z
}.

(** An object the operator builds and writes whole (a ServiceAccount, an Ingress, an
    unstructured Route, ...): its metadata and its other fields. *)
Record KObject := MkKObject {
  ko_meta : ObjectMeta;
  ko_Rest : JSONValue
}.

(** The kinds of objects an instance owns; [ROther gk] is a kind by its group and name. *)
Inductive Res := RDeployment | RService | RJob | RConfigMap | RServiceAccount | ROther (gk : string).

Definition res_ty (r : Res) : Type :=
  match r with
  | RDeployment => Deployment
  | RService => KService
  | RJob => Job
  | RConfigMap => ConfigMap
  | RServiceAccount | ROther _ => KObject
  end.

Definition res_meta {r} : res_ty r → ObjectMeta :=
  match r with
  | RDeployment => dep_meta
  | RService => ksvc_meta
  | RJob => job_meta
  | RConfigMap => cm_meta
  | RServiceAccount | ROther _ => ko_meta
  end.

Definition set_res_meta {r} (m : ObjectMeta) : res_ty r → res_ty r :=
  match r with
  | RDeployment => λ d, MkDeployment m (dep_Spec d) (dep_Status d)
  | RService => λ s, MkKService m (ksvc_Spec s)
  | RJob => λ j, MkJob m (job_BackoffLimit j) (job_TTLSecondsAfterFinished j) (job_Template j) (job_Rest j) (job_Succeeded j) (job_Failed j)
  | RConfigMap => λ c, MkConfigMap m (cm_Data c) (cm_BinaryData c)
  | RServiceAccount | ROther _ => λ o, MkKObject m (ko_Rest o)
  end.

(** ** References between custom resources *)

Record ObjectPermission := MkObjectPermission {
  op_MCPServers : list string;
  op_AccessGroups : list string;
  op_VectorStores : list string;
  op_Agents : list string
}.

Record SecretKeyRef := MkSecretKeyRef {
  skr_Name : string;
  skr_Key : string
}.

Record SecretRef := MkSecretRef {
  sr_Name : string
}.

Record InstanceRef := MkInstanceRef {
  ir_Name : string;
  ir_Namespace : string
}.

Record TeamRef := MkTeamRef {
  tr_Name : string
}.

Record UserRef := MkUserRef {
  ur_Name : string
}.

Record OrganizationRef := MkOrganizationRef {
  or_Name : string
}.

Record CredentialRef := MkCredentialRef {
  cr_Name : string
}.
