(* ===== verification/InstanceTypes.v ===== *)
(** * LiteLLMInstance (api/v1alpha1/litellminstance_types.go)

    The specification and status of an instance, field by field.  A free-form JSON
    value ([apiextensionsv1.JSON]) is its raw bytes; structures of Kubernetes that
    the operator only passes on are a [JSONValue]. *)

From S2P Require Import Prelude KubeTypes.

Record AllowedNamespaces := MkAllowedNamespaces {
  an_From : string;
  an_Selector : option LabelSelector;
  an_Kinds : list string
}.

Record CASecretRef := MkCASecretRef {
  ca_Name : string;
  ca_Key : string
}.

Record TLSSpec := MkTLSSpec {
  tls_ServerCertSecretRef : option SecretRef;
  tls_TrustedCASecretRef : option CASecretRef;
  tls_ClientCertSecretRef : option SecretRef
}.

Record DefaultCustomerBudgetSpec := MkDefaultCustomerBudgetSpec {
  dcbs_MaxBudget : option float64;
  dcbs_BudgetID : string
}.

Record AWSSecretManagerConfig := MkAWSSecretManagerConfig {
  asmc_Region : string;
  asmc_RoleARN : string;
  asmc_SessionName : string;
  asmc_WebIdentityTokenPath : string;
  asmc_STSEndpoint : string
}.

Record AzureKeyVaultConfig := MkAzureKeyVaultConfig {
  akvc_VaultURI : string;
  akvc_TenantID : string
}.

Record VaultConfig := MkVaultConfig {
  vc_Address : string;
  vc_Namespace : string;
  vc_AuthMethod : string;
  vc_AppRoleMountPath : string;
  vc_MountName : string;
  vc_PathPrefix : string;
  vc_RefreshInterval : option Z
}.

Record SecretManagerSpec := MkSecretManagerSpec {
  sm_Provider : string;
  sm_CredentialsSecretRef : option SecretRef;
  sm_HostedKeys : list string;
  sm_StoreVirtualKeys : option bool;
  sm_PrefixForStoredVirtualKeys : string;
  sm_AccessMode : string;
  sm_PrimarySecretName : string;
  sm_AWS : option AWSSecretManagerConfig;
  sm_Azure : option AzureKeyVaultConfig;
  sm_Vault : option VaultConfig
}.

Record TeamKeyGenerationSettings := MkTeamKeyGenerationSettings {
  tkgs_AllowedTeamMemberRoles : list string
}.

Record PersonalKeyGenerationSettings := MkPersonalKeyGenerationSettings {
  pkgs_AllowedUserRoles : list string
}.

Record KeyGenerationSettings := MkKeyGenerationSettings {
  kgs_TeamKeyGeneration : option TeamKeyGenerationSettings;
  kgs_PersonalKeyGeneration : option PersonalKeyGenerationSettings
}.

Record RolePermission := MkRolePermission {
  rp_Routes : list string;
  rp_Models : list string
}.

Record RBACSpec := MkRBACSpec {
  rbac_Enabled : bool;
  rbac_AdminOnlyRoutes : list string;
  rbac_AllowedRoutes : list string;
  rbac_KeyGeneration : option KeyGenerationSettings;
  rbac_RolePermissions : gmap string RolePermission;
  rbac_DefaultTeamDisabled : option bool
}.

Record AuditLogSpec := MkAuditLogSpec {
  als_Enabled : bool;
  als_RetentionDays : option Z
}.

Record SpendLogRetentionSpec := MkSpendLogRetentionSpec {
  slrs_MaxRetentionPeriod : string;
  slrs_CleanupInterval : string
}.

Record InstanceLoggingSpec := MkInstanceLoggingSpec {
  ilog_AuditLogs : option AuditLogSpec;
  ilog_TurnOffMessageLogging : option bool;
  ilog_RedactUserAPIKeyInfo : option bool;
  ilog_SpendLogRetention : option SpendLogRetentionSpec
}.

Record ConfigMapRef := MkConfigMapRef {
  cmr_Name : string
}.

Record AdminUISpec := MkAdminUISpec {
  aui_Disabled : option bool;
  aui_AdminOnly : option bool;
  aui_StoreModelInDB : option bool;
  aui_DefaultTeamDisabled : option bool;
  aui_APIDocBaseURL : string;
  aui_DocsURL : string;
  aui_RootRedirectURL : string;
  aui_LogoURL : string;
  aui_EmailLogoURL : string;
  aui_EmailSupportContact : string;
  aui_ColorThemeConfigMapRef : option ConfigMapRef
}.

Record ImageSpec := MkImageSpec {
  img_Repository : string;
  img_Tag : string;
  img_PullPolicy : string;
  img_PullSecrets : list SecretRef
}.

Record WorkloadSpec := MkWorkloadSpec {
  wl_Managed : option bool;
  wl_Endpoint : string
}.

Record AutoscalingSpec := MkAutoscalingSpec {
  as_Enabled : bool;
  as_MinReplicas : Z;
  as_MaxReplicas : Z;
  as_TargetCPUUtilization : option Z;
  as_TargetMemoryUtilization : option Z
}.

Record MasterKeySpec := MkMasterKeySpec {
  mk_SecretRef : option SecretKeyRef;
  mk_AutoGenerate : bool
}.

Record DatabaseTLSSpec := MkDatabaseTLSSpec {
  dbtls_CASecretRef : option CASecretRef;
  dbtls_ClientCertSecretRef : option SecretRef
}.

Record CNPGBackupSpec := MkCNPGBackupSpec {
  cnpgb_Enabled : bool;
  cnpgb_Schedule : string;
  cnpgb_Retention : Z;
  cnpgb_Suspend : bool;
  cnpgb_Method : string
}.

Record CloudNativePGSpec := MkCloudNativePGSpec {
  cnpg_ClusterName : string;
  cnpg_Backup : option CNPGBackupSpec
}.

Record ExternalDBSpec := MkExternalDBSpec {
  es_ConnectionSecretRef : SecretKeyRef
}.

Record ManagedDBSpec := MkManagedDBSpec {
  ms2_Enabled : bool;
  ms2_StorageSize : string;
  ms2_StorageClassName : option string
}.

Record ConnectionPoolSpec := MkConnectionPoolSpec {
  cps_MaxConnections : Z
}.

Record DatabaseImageSpec := MkDatabaseImageSpec {
  dis_Repository : string;
  dis_Tag : string;
  dis_PullPolicy : string
}.

Record MigrationSpec := MkMigrationSpec {
  mig_Enabled : bool;
  mig_Timeout : string;
  mig_UseDatabaseImage : bool;
  mig_DatabaseImage : option DatabaseImageSpec
}.

Record DatabaseSpec := MkDatabaseSpec {
  db_CloudNativePG : option CloudNativePGSpec;
  db_External : option ExternalDBSpec;
  db_Managed : option ManagedDBSpec;
  db_ConnectionPool : option ConnectionPoolSpec;
  db_Migration : option MigrationSpec;
  db_TLS : option DatabaseTLSSpec
}.

Record RedisSpec := MkRedisSpec {
  rd_Enabled : bool;
  rd_ConnectionSecretRef : option SecretKeyRef;
  rd_Host : string;
  rd_Port : Z;
  rd_PasswordSecretRef : option SecretKeyRef
}.

Record SaltKeySpec := MkSaltKeySpec {
  salt_SecretRef : option SecretKeyRef;
  salt_AutoGenerate : bool
}.

Record GeneralSettingsSpec := MkGeneralSettingsSpec {
  gs_Extra : gmap string string;
  gs_ProxyBatchWriteAt : Z;
  gs_MasterKeyRequired : option bool;
  gs_AlertTypes : list string;
  gs_Alerting : list string;
  gs_AlertingThreshold : option Z;
  gs_AlertToWebhookURL : gmap string string;
  gs_BackgroundHealthChecks : option bool;
  gs_HealthCheckInterval : option Z;
  gs_HealthCheckDetails : option bool;
  gs_HealthCheckSkipDisabledModels : option bool;
  gs_CustomKeyGenerate : string;
  gs_AllowUserAuth : option bool;
  gs_MaxBudget : option string;
  gs_BudgetDuration : string;
  gs_GlobalMaxParallelRequests : option Z;
  gs_BudgetReschedulerMinTime : option Z;
  gs_BudgetReschedulerMaxTime : option Z
}.

Record ModelFallbackEntry := MkModelFallbackEntry {
  mfe_Model : string;
  mfe_Fallbacks : list string
}.

Record FallbackSpec := MkFallbackSpec {
  fb_DefaultFallbacks : list string;
  fb_ModelFallbacks : list ModelFallbackEntry;
  fb_ContentPolicyFallbacks : list ModelFallbackEntry;
  fb_ContextWindowFallbacks : list ModelFallbackEntry;
  fb_MaxFallbacks : option Z
}.

Record ProviderBudget := MkProviderBudget {
  pb_BudgetLimit : string;
  pb_TimePeriod : string
}.

Record RouterSettingsSpec := MkRouterSettingsSpec {
  rs_RoutingStrategy : string;
  rs_NumRetries : option Z;
  rs_Timeout : option Z;
  rs_RetryAfter : option Z;
  rs_AllowedFails : option Z;
  rs_CooldownTime : option Z;
  rs_RetryPolicy : gmap string Z;
  rs_ModelGroupRetryPolicy : gmap string (gmap string Z);
  rs_EnableTagFiltering : option bool;
  rs_TagFilteringMatchAny : option bool;
  rs_DefaultMaxParallelRequests : option Z;
  rs_ProviderBudgetConfig : gmap string ProviderBudget;
  rs_StreamTimeout : option Z;
  rs_EnablePreCallChecks : option bool;
  rs_ModelGroupAlias : gmap string string
}.

Record LiteLLMSettingsSpec := MkLiteLLMSettingsSpec {
  lls_JSONLogs : option bool;
  lls_CheckProviderEndpoint : option bool;
  lls_Extra : gmap string string
}.

Record ConfigSyncSpec := MkConfigSyncSpec {
  css_Enabled : bool;
  css_Interval : string;
  css_UnmanagedResourcePolicy : string;
  css_ConflictResolution : string;
  css_AuditChanges : bool
}.

Record ServiceSpec := MkServiceSpec {
  svc_Type : string;
  svc_Port : Z
}.

Record ServiceAccountSpec := MkServiceAccountSpec {
  sa_Annotations : gmap string string;
  sa_Labels : gmap string string
}.

Record InstanceDeploymentSpec := MkInstanceDeploymentSpec {
  dps_Annotations : gmap string string
}.

Record PodSchedulingSpec := MkPodSchedulingSpec {
  psch_NodeSelector : gmap string string;
  psch_Tolerations : list JSONValue;
  psch_Affinity : option JSONValue
}.

Record IngressTLSSpec := MkIngressTLSSpec {
  is2_Enabled : bool;
  is2_SecretName : string
}.

Record IngressSpec := MkIngressSpec {
  ing_Enabled : bool;
  ing_IngressClassName : option string;
  ing_Host : string;
  ing_TLS : option IngressTLSSpec;
  ing_Annotations : gmap string string
}.

Record RouteSpec := MkRouteSpec {
  route_Enabled : bool;
  route_Host : string;
  route_TLSTermination : string
}.

Record GatewayParentRef := MkGatewayParentRef {
  gpr_Name : string;
  gpr_Namespace : string;
  gpr_SectionName : string
}.

Record GatewayHTTPRouteSpec := MkGatewayHTTPRouteSpec {
  ghr_Enabled : bool;
  ghr_Host : string;
  ghr_ParentRefs : list GatewayParentRef;
  ghr_Annotations : gmap string string
}.

Record IPAllowlistSpec := MkIPAllowlistSpec {
  ias_Enabled : bool;
  ias_AllowedIPs : list string;
  ias_UseXForwardedFor : option bool;
  ias_MaxRequestSizeMB : option Z;
  ias_MaxResponseSizeMB : option Z
}.

Record NetworkPolicySpec := MkNetworkPolicySpec {
  np_Enabled : bool;
  np_AllowedNamespaces : list string
}.

Record SecuritySpec := MkSecuritySpec {
  secu_NetworkPolicy : option NetworkPolicySpec;
  secu_RunAsNonRoot : option bool;
  secu_IPAllowlist : option IPAllowlistSpec
}.

Record HealthCheckSpec := MkHealthCheckSpec {
  hcs_LivenessInitialDelay : Z;
  hcs_ReadinessInitialDelay : Z;
  hcs_StartupFailureThreshold : Z
}.

Record PDBSpec := MkPDBSpec {
  pdb_Enabled : bool;
  pdb_MinAvailable : option Z;
  pdb_MaxUnavailable : option Z
}.

Record CallbacksSpec := MkCallbacksSpec {
  cs2_Types : list string;
  cs2_EnvVars : list EnvVar
}.

Record ServiceMonitorAuthorization := MkServiceMonitorAuthorization {
  sma_Type : string;
  sma_Credentials : option SecretKeyRef
}.

Record ServiceMonitorSpec := MkServiceMonitorSpec {
  smon_Enabled : bool;
  smon_Interval : string;
  smon_Labels : gmap string string;
  smon_Path : string;
  smon_Authorization : option ServiceMonitorAuthorization
}.

Record PrometheusRuleSpec := MkPrometheusRuleSpec {
  prule_Enabled : bool;
  prule_Labels : gmap string string;
  prule_DisabledAlerts : list string
}.

Record GrafanaDashboardSpec := MkGrafanaDashboardSpec {
  gd_Enabled : bool;
  gd_Labels : gmap string string;
  gd_Folder : string
}.

Record ObservabilitySpec := MkObservabilitySpec {
  obs_ServiceMonitor : option ServiceMonitorSpec;
  obs_PrometheusRule : option PrometheusRuleSpec;
  obs_GrafanaDashboard : option GrafanaDashboardSpec
}.

Record UpgradeSpec := MkUpgradeSpec {
  upg_Strategy : string;
  upg_MaxUnavailable : option Z;
  upg_MaxSurge : option Z;
  upg_HealthCheckTimeout : string;
  upg_AutoRollback : bool
}.

Record CustomSSOHandlerConfigMapRef := MkCustomSSOHandlerConfigMapRef {
  chcmr_Name : string;
  chcmr_FileName : string;
  chcmr_FunctionName : string
}.

Record CustomSSOHandlerSpec := MkCustomSSOHandlerSpec {
  chs_Module : string;
  chs_ConfigMapRef : option CustomSSOHandlerConfigMapRef
}.

Record UserAttributeMappings := MkUserAttributeMappings {
  uam_UserID : string;
  uam_Email : string;
  uam_DisplayName : string;
  uam_FirstName : string;
  uam_LastName : string;
  uam_Role : string
}.

Record DefaultUserTeam := MkDefaultUserTeam {
  dut_TeamID : string;
  dut_MaxBudgetInTeam : option float64;
  dut_Role : string
}.

Record DefaultUserParams := MkDefaultUserParams {
  dup_MaxBudget : option float64;
  dup_BudgetDuration : string;
  dup_Models : list string;
  dup_UserRole : string;
  dup_Teams : list DefaultUserTeam
}.

Record DefaultTeamParams := MkDefaultTeamParams {
  dtp_MaxBudget : option float64;
  dtp_BudgetDuration : string;
  dtp_Models : list string;
  dtp_TPMLimit : option Z;
  dtp_RPMLimit : option Z
}.

Record SSOSpec := MkSSOSpec {
  sso_Enabled : bool;
  sso_Provider : string;
  sso_ClientID : SecretKeyRef;
  sso_ClientSecret : SecretKeyRef;
  sso_TenantID : string;
  sso_AuthorizationEndpoint : string;
  sso_TokenEndpoint : string;
  sso_UserinfoEndpoint : string;
  sso_Scopes : list string;
  sso_TeamIDsJWTField : string;
  sso_UserAttributeMappings : option UserAttributeMappings;
  sso_DefaultUserParams : option DefaultUserParams;
  sso_DefaultTeamParams : option DefaultTeamParams;
  sso_CustomSSOHandler : option CustomSSOHandlerSpec;
  sso_LogoutURL : string
}.

Record CacheRedisSpec := MkCacheRedisSpec {
  crs2_Host : string;
  crs2_Port : option Z;
  crs2_PasswordSecretRef : option SecretKeyRef;
  crs2_SSL : bool
}.

Record CacheS3Spec := MkCacheS3Spec {
  css2_BucketName : string;
  css2_Region : string;
  css2_CredentialsSecretRef : option SecretKeyRef
}.

Record CacheGCSSpec := MkCacheGCSSpec {
  cs3_BucketName : string;
  cs3_CredentialsSecretRef : option SecretKeyRef
}.

Record CacheQdrantSpec := MkCacheQdrantSpec {
  cqs_URL : string;
  cqs_APIKeySecretRef : option SecretKeyRef;
  cqs_CollectionName : string
}.

Record CachingSpec := MkCachingSpec {
  cch_Enabled : bool;
  cch_Type : string;
  cch_Redis : option CacheRedisSpec;
  cch_S3 : option CacheS3Spec;
  cch_GCS : option CacheGCSSpec;
  cch_Qdrant : option CacheQdrantSpec;
  cch_TTL : option Z;
  cch_Namespace : string;
  cch_SupportedCallTypes : list string;
  cch_Mode : string
}.

Record HeaderSecretRef := MkHeaderSecretRef {
  hsr_HeaderName : string;
  hsr_Prefix : string;
  hsr_SecretRef : SecretKeyRef
}.

Record PassThroughEndpoint := MkPassThroughEndpoint {
  pte_Path : string;
  pte_Target : string;
  pte_Auth : option bool;
  pte_ForwardHeaders : option bool;
  pte_IncludeSubpath : option bool;
  pte_Methods : list string;
  pte_Headers : gmap string string;
  pte_HeaderSecrets : list HeaderSecretRef;
  pte_DefaultQueryParams : gmap string string
}.

Record SCIMSpec := MkSCIMSpec {
  scim_Enabled : bool;
  scim_TokenSecretRef : option SecretKeyRef;
  scim_GeneratedTokenSecretName : string
}.

Record JWTScopeMapping := MkJWTScopeMapping {
  jsm_Scope : string;
  jsm_Models : list string;
  jsm_Routes : list string
}.

Record JWTRoleMapping := MkJWTRoleMapping {
  jrm_Role : string;
  jrm_InternalRole : string
}.

Record JWTLiteLLMRoleMapEntry := MkJWTLiteLLMRoleMapEntry {
  jlrme_JWTRole : string;
  jlrme_LiteLLMRole : string
}.

Record JWTRoutingOverride := MkJWTRoutingOverride {
  jro_Iss : string;
  jro_ClientID : string;
  jro_Scope : string;
  jro_Aud : string;
  jro_Path : string
}.

Record JWTAuthSpec := MkJWTAuthSpec {
  jwt_Enabled : bool;
  jwt_PublicKeyURL : string;
  jwt_Issuer : string;
  jwt_Audience : string;
  jwt_AdminJWTScope : string;
  jwt_AdminAllowedRoutes : list string;
  jwt_TeamIDJWTField : string;
  jwt_TeamIDsJWTField : string;
  jwt_OrgIDJWTField : string;
  jwt_UserIDJWTField : string;
  jwt_UserIDUpsert : option bool;
  jwt_UserEmailJWTField : string;
  jwt_UserRoleJWTField : string;
  jwt_UserRolesJWTField : string;
  jwt_UserAllowedRoles : list string;
  jwt_EnforceRBAC : option bool;
  jwt_ObjectIDJWTField : string;
  jwt_EndUserIDJWTField : string;
  jwt_PublicKeyTTL : option Z;
  jwt_ScopeModelMappings : gmap string (list string);
  jwt_ScopeMappings : list JWTScopeMapping;
  jwt_RolesJWTField : string;
  jwt_RoleMappings : list JWTRoleMapping;
  jwt_JWTLiteLLMRoleMap : list JWTLiteLLMRoleMapEntry;
  jwt_TeamAliasJWTField : string;
  jwt_OrgAliasJWTField : string;
  jwt_TeamIDDefault : string;
  jwt_TeamAllowedRoutes : list string;
  jwt_TeamIDUpsert : option bool;
  jwt_TeamClaimFallback : option bool;
  jwt_UserAllowedEmailDomain : string;
  jwt_EnforceTeamBasedModelAccess : option bool;
  jwt_EnforceScopeBasedAccess : option bool;
  jwt_SyncUserRoleAndTeams : option bool;
  jwt_CustomValidate : string;
  jwt_VirtualKeyClaimField : string;
  jwt_VirtualKeyMappingCacheTTL : option Z;
  jwt_RoutingOverrides : list JWTRoutingOverride;
  jwt_OIDCUserInfoEnabled : option bool;
  jwt_OIDCUserInfoEndpoint : string;
  jwt_OIDCUserInfoCacheTTL : option Z
}.

Record OAuth2Mapping := MkOAuth2Mapping {
  oam_Name : string;
  oam_JWTField : string;
  oam_LiteLLMAttribute : string
}.

Record OAuth2AuthSpec := MkOAuth2AuthSpec {
  oa_Enabled : bool;
  oa_ConfigMappings : list OAuth2Mapping
}.

Record LiteLLMInstanceSpec := MkLiteLLMInstanceSpec {
  is_Image : ImageSpec;
  is_Workload : option WorkloadSpec;
  is_Replicas : Z;
  is_Autoscaling : option AutoscalingSpec;
  is_MasterKey : MasterKeySpec;
  is_Database : DatabaseSpec;
  is_Redis : option RedisSpec;
  is_SaltKey : option SaltKeySpec;
  is_GeneralSettings : option GeneralSettingsSpec;
  is_RouterSettings : option RouterSettingsSpec;
  is_LiteLLMSettings : option LiteLLMSettingsSpec;
  is_Fallbacks : option FallbackSpec;
  is_ConfigSync : option ConfigSyncSpec;
  is_Service : ServiceSpec;
  is_ServiceAccount : option ServiceAccountSpec;
  is_Deployment : option InstanceDeploymentSpec;
  is_PodScheduling : option PodSchedulingSpec;
  is_Ingress : option IngressSpec;
  is_Route : option RouteSpec;
  is_GatewayHTTPRoute : option GatewayHTTPRouteSpec;
  is_Security : option SecuritySpec;
  is_HealthCheck : option HealthCheckSpec;
  is_Resources : option JSONValue;
  is_PodDisruptionBudget : option PDBSpec;
  is_TopologySpreadConstraints : list JSONValue;
  is_ExtraEnvVars : list EnvVar;
  is_ExtraEnvFrom : list EnvFromSource;
  is_Callbacks : option CallbacksSpec;
  is_Observability : option ObservabilitySpec;
  is_Upgrade : option UpgradeSpec;
  is_SSO : option SSOSpec;
  is_SCIM : option SCIMSpec;
  is_JWTAuth : option JWTAuthSpec;
  is_OAuth2Auth : option OAuth2AuthSpec;
  is_Caching : option CachingSpec;
  is_PassThroughEndpoints : list PassThroughEndpoint;
  is_DefaultCustomerBudget : option DefaultCustomerBudgetSpec;
  is_SecretManager : option SecretManagerSpec;
  is_RBAC : option RBACSpec;
  is_Logging : option InstanceLoggingSpec;
  is_AdminUI : option AdminUISpec;
  is_TLS : option TLSSpec;
  is_ExtraVolumes : list Volume;
  is_ExtraVolumeMounts : list VolumeMount;
  is_AllowedNamespaces : option AllowedNamespaces
}.

Record UnhealthyPod := MkUnhealthyPod {
  up_Name : string;
  up_Phase : string;
  up_Reason : string;
  up_Message : string;
  up_RestartCount : Z
}.

Record SecretManagerStatus := MkSecretManagerStatus {
  smst_Configured : bool;
  smst_Provider : string
}.

Record LicenseStatus := MkLicenseStatus {
  lic_Active : bool;
  lic_SecretName : string
}.

Record BackupStatus := MkBackupStatus {
  bkst_Configured : bool;
  bkst_LastBackupTime : option Time;
  bkst_LastBackupStatus : string
}.

Record DatabaseStatus := MkDatabaseStatus {
  dbst_Connected : bool;
  dbst_MigrationVersion : string
}.

Record RedisStatus := MkRedisStatus {
  rdst_Connected : bool
}.

Record ConfigSyncStatus := MkConfigSyncStatus {
  csst_LastSyncTime : option Time;
  csst_SyncedModels : Z;
  csst_SyncedTeams : Z;
  csst_SyncedUsers : Z;
  csst_SyncedKeys : Z;
  csst_SyncedOrganizations : Z;
  csst_SyncedCustomers : Z;
  csst_UnmanagedModels : Z;
  csst_UnmanagedTeams : Z;
  csst_UnmanagedUsers : Z;
  csst_UnmanagedKeys : Z;
  csst_UnmanagedOrganizations : Z;
  csst_UnmanagedCustomers : Z;
  csst_SyncErrors : list text
}.

Record SSOStatus := MkSSOStatus {
  ssost_Configured : bool;
  ssost_Provider : string
}.

Record SCIMStatus := MkSCIMStatus {
  scimst_Configured : bool;
  scimst_TokenSecretName : string
}.

Record LiteLLMInstanceStatus := MkLiteLLMInstanceStatus {
  ist_Ready : bool;
  ist_Replicas : Z;
  ist_ReadyReplicas : Z;
  ist_Endpoint : string;
  ist_Version : string;
  ist_Database : DatabaseStatus;
  ist_Redis : option RedisStatus;
  ist_ConfigSync : option ConfigSyncStatus;
  ist_SSO : option SSOStatus;
  ist_SCIM : option SCIMStatus;
  ist_SecretManager : option SecretManagerStatus;
  ist_License : option LicenseStatus;
  ist_Backup : option BackupStatus;
  ist_LastSuccessfulRevision : string;
  ist_UnhealthyPods : list UnhealthyPod;
  ist_Conditions : list Condition
}.
