(* ===== verification/Types.v ===== *)
(** * Data of the operator

    The custom resources other than the instance (api/v1alpha1) and the request and
    response bodies of the LiteLLM API (internal/litellm), field by field, with the
    conventions of [KubeTypes]. *)

From S2P Require Import Prelude KubeTypes InstanceTypes.

(** ** Custom resources *)

Record ModelHealthCheck := MkModelHealthCheck {
  mhc_DisableBackgroundHealthCheck : option bool;
  mhc_TimeoutSeconds : option Z;
  mhc_MaxTokens : option Z;
  mhc_MaxTokensReasoning : option Z;
  mhc_MaxTokensNonReasoning : option Z;
  mhc_SupportsMaxTokens : option bool;
  mhc_ReasoningEffort : string;
  mhc_Voice : string;
  mhc_Model : string
}.

Record ModelInfo := MkModelInfo {
  mi_MaxTokens : option Z;
  mi_InputCostPerToken : option float64;
  mi_OutputCostPerToken : option float64;
  mi_Mode : string;
  mi_BaseModel : string;
  mi_Tier : string;
  mi_RegionName : string;
  mi_AccessGroups : list string;
  mi_SupportedEnvironments : list string;
  mi_UseInPassThrough : option bool;
  mi_InputCostPerPixel : option float64;
  mi_InputCostPerSecond : option float64;
  mi_CacheReadInputTokenCost : option float64;
  mi_CacheCreationInputTokenCost : option float64;
  mi_HealthCheck : option ModelHealthCheck
}.

Record LiteLLMModelParams := MkLiteLLMModelParams {
  lmp_Model : string;
  lmp_APIBase : string;
  lmp_APIVersion : string;
  lmp_APIKeySecretRef : option SecretKeyRef;
  lmp_CredentialRef : option CredentialRef;
  lmp_RPM : option Z;
  lmp_TPM : option Z;
  lmp_Timeout : option Z;
  lmp_StreamTimeout : option Z;
  lmp_MaxRetries : option Z;
  lmp_Weight : option Z;
  lmp_Order : option Z;
  lmp_MaxInputTokens : option Z;
  lmp_Temperature : option float64;
  lmp_TopP : option float64;
  lmp_MaxTokens : option Z;
  lmp_Seed : option Z;
  lmp_Organization : string;
  lmp_AWSRegionName : string;
  lmp_ExtraHeaders : gmap string string;
  lmp_DropParams : option bool;
  lmp_VertexProject : string;
  lmp_VertexLocation : string;
  lmp_VertexCredentialsSecretRef : option SecretKeyRef
}.

Record LiteLLMModelSpec := MkLiteLLMModelSpec {
  ms_InstanceRef : InstanceRef;
  ms_ModelName : string;
  ms_LiteLLMParams : LiteLLMModelParams;
  ms_ModelInfo : option ModelInfo;
  ms_Tags : list string
}.

Record LiteLLMModelStatus := MkLiteLLMModelStatus {
  mst_Synced : bool;
  mst_LiteLLMModelID : string;
  mst_LastSyncTime : option Time;
  mst_Health : string;
  mst_LatencyP50Ms : option Z;
  mst_LatencyP95Ms : option Z;
  mst_RequestsLast24h : option Z;
  mst_Conditions : list Condition
}.

Record TeamCallback := MkTeamCallback {
  tcb_Name : string;
  tcb_Type : string;
  tcb_CredentialsSecretRef : SecretRef;
  tcb_Config : gmap string string
}.

Record TeamLoggingSpec := MkTeamLoggingSpec {
  tl_Disabled : bool;
  tl_Callbacks : list TeamCallback
}.

Record TeamMember := MkTeamMember {
  tm_Email : string;
  tm_Role : string
}.

Record LiteLLMTeamSpec := MkLiteLLMTeamSpec {
  ts_InstanceRef : InstanceRef;
  ts_OrganizationRef : option OrganizationRef;
  ts_TeamID : string;
  ts_TeamAlias : string;
  ts_Models : list string;
  ts_MaxBudgetMonthly : option float64;
  ts_BudgetDuration : string;
  ts_TPMLimit : option Z;
  ts_RPMLimit : option Z;
  ts_SoftBudget : option float64;
  ts_ModelRPMLimit : gmap string Z;
  ts_ModelTPMLimit : gmap string Z;
  ts_TeamMemberRPMLimit : option Z;
  ts_TeamMemberTPMLimit : option Z;
  ts_TeamMemberBudget : option float64;
  ts_Metadata : gmap string string;
  ts_Blocked : option bool;
  ts_ObjectPermission : option ObjectPermission;
  ts_Tags : list string;
  ts_MaxParallelRequests : option Z;
  ts_MemberManagement : string;
  ts_Members : list TeamMember;
  ts_Guardrails : list string;
  ts_Logging : option TeamLoggingSpec
}.

Record TeamMemberStatus := MkTeamMemberStatus {
  tms_Email : string;
  tms_Role : string;
  tms_Source : string;
  tms_Synced : bool
}.

Record LiteLLMTeamStatus := MkLiteLLMTeamStatus {
  tst_Synced : bool;
  tst_LiteLLMTeamID : string;
  tst_CurrentSpend : option float64;
  tst_TotalMemberCount : Z;
  tst_CRDMembers : list TeamMemberStatus;
  tst_SSOMembers : list TeamMemberStatus;
  tst_LoggingSynced : bool;
  tst_LoggingDisabled : bool;
  tst_LastSyncTime : option Time;
  tst_Conditions : list Condition
}.

Record UserTeamMembership := MkUserTeamMembership {
  utm_TeamRef : option TeamRef;
  utm_TeamID : string;
  utm_Role : string;
  utm_MaxBudgetInTeam : option float64
}.

Record LiteLLMUserSpec := MkLiteLLMUserSpec {
  us_InstanceRef : InstanceRef;
  us_UserID : string;
  us_UserEmail : string;
  us_UserRole : string;
  us_MaxBudget : option float64;
  us_BudgetDuration : string;
  us_Models : list string;
  us_Teams : list UserTeamMembership;
  us_TPMLimit : option Z;
  us_RPMLimit : option Z;
  us_SoftBudget : option float64;
  us_ModelRPMLimit : gmap string Z;
  us_ModelTPMLimit : gmap string Z;
  us_Metadata : gmap string string;
  us_Blocked : option bool;
  us_ObjectPermission : option ObjectPermission;
  us_InitialPasswordSecretRef : option SecretKeyRef;
  us_AutoCreateKey : option bool
}.

Record ResolvedTeamMembership := MkResolvedTeamMembership {
  rtm_TeamID : string;
  rtm_TeamAlias : string;
  rtm_Role : string;
  rtm_Synced : bool
}.

Record LiteLLMUserStatus := MkLiteLLMUserStatus {
  ust_Synced : bool;
  ust_LiteLLMUserID : string;
  ust_CurrentSpend : option float64;
  ust_ResolvedTeams : list ResolvedTeamMembership;
  ust_LastSyncTime : option Time;
  ust_InitialPasswordDigest : string;
  ust_Conditions : list Condition
}.

Record KeySecretTemplateSpec := MkKeySecretTemplateSpec {
  kst_Annotations : gmap string string;
  kst_Labels : gmap string string
}.

Record LiteLLMVirtualKeySpec := MkLiteLLMVirtualKeySpec {
  ks_InstanceRef : InstanceRef;
  ks_KeyAlias : string;
  ks_TeamRef : option TeamRef;
  ks_UserRef : option UserRef;
  ks_Models : list string;
  ks_MaxBudget : option string;
  ks_BudgetDuration : string;
  ks_ExpiresAt : option Time;
  ks_TPMLimit : option Z;
  ks_RPMLimit : option Z;
  ks_SoftBudget : option float64;
  ks_ModelRPMLimit : gmap string Z;
  ks_ModelTPMLimit : gmap string Z;
  ks_Metadata : gmap string string;
  ks_Blocked : option bool;
  ks_ObjectPermission : option ObjectPermission;
  ks_ModelMaxBudget : gmap string string;
  ks_MaxParallelRequests : option Z;
  ks_KeySecretName : string;
  ks_KeySecretTemplate : option KeySecretTemplateSpec;
  ks_Guardrails : list string
}.

Record LiteLLMVirtualKeyStatus := MkLiteLLMVirtualKeyStatus {
  kys_Synced : bool;
  kys_KeySecretRef : option SecretKeyRef;
  kys_LiteLLMKeyToken : string;
  kys_CurrentSpend : option string;
  kys_IsActive : bool;
  kys_ExpiresAt : option Time;
  kys_LastSyncTime : option Time;
  kys_Conditions : list Condition
}.

Record OrganizationMember := MkOrganizationMember {
  om_Email : string;
  om_Role : string
}.

Record LiteLLMOrganizationSpec := MkLiteLLMOrganizationSpec {
  os_InstanceRef : InstanceRef;
  os_OrganizationAlias : string;
  os_Models : list string;
  os_MaxBudget : option float64;
  os_BudgetDuration : string;
  os_TpmLimit : option Z;
  os_RpmLimit : option Z;
  os_SoftBudget : option float64;
  os_ModelRPMLimit : gmap string Z;
  os_ModelTPMLimit : gmap string Z;
  os_Members : list OrganizationMember;
  os_ObjectPermission : option ObjectPermission;
  os_Metadata : gmap string string
}.

Record LiteLLMOrganizationStatus := MkLiteLLMOrganizationStatus {
  ost_Synced : bool;
  ost_LiteLLMOrganizationID : string;
  ost_CurrentSpend : option float64;
  ost_MemberCount : Z;
  ost_LastSyncTime : option Time;
  ost_Conditions : list Condition
}.

Record LiteLLMCustomerSpec := MkLiteLLMCustomerSpec {
  cs_InstanceRef : InstanceRef;
  cs_CustomerID : string;
  cs_Alias : string;
  cs_MaxBudget : option float64;
  cs_BudgetDuration : string;
  cs_BudgetID : string;
  cs_TpmLimit : option Z;
  cs_RpmLimit : option Z;
  cs_AllowedModelRegion : string;
  cs_DefaultModel : string;
  cs_Models : list string;
  cs_Blocked : option bool;
  cs_ObjectPermission : option ObjectPermission;
  cs_Metadata : gmap string string
}.

Record LiteLLMCustomerStatus := MkLiteLLMCustomerStatus {
  cst_Synced : bool;
  cst_CurrentSpend : option float64;
  cst_Blocked : bool;
  cst_LastSyncTime : option Time;
  cst_Conditions : list Condition
}.

Record LiteLLMBudgetSpec := MkLiteLLMBudgetSpec {
  bs_InstanceRef : InstanceRef;
  bs_BudgetID : string;
  bs_MaxBudget : option float64;
  bs_SoftBudget : option float64;
  bs_BudgetDuration : string;
  bs_TPMLimit : option Z;
  bs_RPMLimit : option Z;
  bs_MaxParallelRequests : option Z;
  bs_ModelMaxBudget : gmap string float64
}.

Record LiteLLMBudgetStatus := MkLiteLLMBudgetStatus {
  bst_Synced : bool;
  bst_LiteLLMBudgetID : string;
  bst_CurrentSpend : option float64;
  bst_LastSyncTime : option Time;
  bst_Conditions : list Condition
}.

Record LiteLLMCredentialSpec := MkLiteLLMCredentialSpec {
  crs_InstanceRef : InstanceRef;
  crs_CredentialName : string;
  crs_APIKeySecretRef : SecretKeyRef;
  crs_APIBase : string;
  crs_APIVersion : string;
  crs_Params : gmap string string
}.

Record LiteLLMCredentialStatus := MkLiteLLMCredentialStatus {
  crst_Configured : bool;
  crst_ReferencedByModels : Z;
  crst_LastSyncTime : option Time;
  crst_Conditions : list Condition
}.

Record LiteLLMGuardrailSpec := MkLiteLLMGuardrailSpec {
  grs_InstanceRef : InstanceRef;
  grs_GuardrailName : string;
  grs_Provider : string;
  grs_GuardrailClass : string;
  grs_UnreachableFallback : string;
  grs_Mode : string;
  grs_APIKeySecretRef : option SecretKeyRef;
  grs_APIBase : string;
  grs_DefaultOn : option bool;
  grs_Params : gmap string string;
  grs_EnvVars : list EnvVar
}.

Record LiteLLMGuardrailStatus := MkLiteLLMGuardrailStatus {
  grst_Configured : bool;
  grst_LastSyncTime : option Time;
  grst_Conditions : list Condition
}.

(** Every custom resource is a metadata, a specification and a status. *)
Record Obj (Sp St : Type) := MkObj { Meta : ObjectMeta; Spec : Sp; Status : St }.
Arguments MkObj {Sp St}.
Arguments Meta {Sp St}.
Arguments Spec {Sp St}.
Arguments Status {Sp St}.

Inductive Kind :=
| KInstance | KModel | KTeam | KUser | KVirtualKey | KOrganization | KCustomer
| KBudget | KCredential | KGuardrail.

#[export] Instance Kind_eq_dec : EqDecision Kind.
Proof. solve_decision. Defined.

Definition SpecOf (k : Kind) : Type :=
  match k with
  | KInstance => LiteLLMInstanceSpec
  | KModel => LiteLLMModelSpec
  | KTeam => LiteLLMTeamSpec
  | KUser => LiteLLMUserSpec
  | KVirtualKey => LiteLLMVirtualKeySpec
  | KOrganization => LiteLLMOrganizationSpec
  | KCustomer => LiteLLMCustomerSpec
  | KBudget => LiteLLMBudgetSpec
  | KCredential => LiteLLMCredentialSpec
  | KGuardrail => LiteLLMGuardrailSpec
  end.

Definition StatusOf (k : Kind) : Type :=
  match k with
  | KInstance => LiteLLMInstanceStatus
  | KModel => LiteLLMModelStatus
  | KTeam => LiteLLMTeamStatus
  | KUser => LiteLLMUserStatus
  | KVirtualKey => LiteLLMVirtualKeyStatus
  | KOrganization => LiteLLMOrganizationStatus
  | KCustomer => LiteLLMCustomerStatus
  | KBudget => LiteLLMBudgetStatus
  | KCredential => LiteLLMCredentialStatus
  | KGuardrail => LiteLLMGuardrailStatus
  end.

#[global] Arguments SpecOf : simpl never.
#[global] Arguments StatusOf : simpl never.

Definition obj (k : Kind) : Type := Obj (SpecOf k) (StatusOf k).

Definition LiteLLMInstance := obj KInstance.
Definition LiteLLMModel := obj KModel.
Definition LiteLLMTeam := obj KTeam.
Definition LiteLLMUser := obj KUser.
Definition LiteLLMVirtualKey := obj KVirtualKey.
Definition LiteLLMOrganization := obj KOrganization.
Definition LiteLLMCustomer := obj KCustomer.
Definition LiteLLMBudget := obj KBudget.
Definition LiteLLMCredential := obj KCredential.
Definition LiteLLMGuardrail := obj KGuardrail.

(** ** Updates of an object in memory *)

Section Updates.
Context {Sp St : Type}.
Implicit Types (o : Obj Sp St).

Definition set_meta (m : ObjectMeta) o : Obj Sp St := MkObj m (Spec o) (Status o).
Definition set_status (st : St) o : Obj Sp St := MkObj (Meta o) (Spec o) st.
Definition map_status (f : St → St) o : Obj Sp St := set_status (f (Status o)) o.

Definition set_annotations (a : option (gmap string string)) (m : ObjectMeta) : ObjectMeta :=
  MkObjectMeta (Name m) (Namespace m) (UID m) (Generation m) (Labels m) a
    (Finalizers m) (OwnerReferences m) (DeletionTimestamp m) (ResourceVersion m).

(** [o.Annotations[k]], the zero value when absent or nil. *)
Definition annotation (k : string) o : string :=
  map_get_str (default ∅ (Annotations (Meta o))) k.

(** [if o.Annotations == nil { o.Annotations = map... }; o.Annotations[k] = v] *)
Definition annotate (k v : string) o : Obj Sp St :=
  set_meta (set_annotations (Some (<[k := v]> (default ∅ (Annotations (Meta o))))) (Meta o)) o.

Lemma annotation_annotate k v o : annotation k (annotate k v o) = v.
Proof. unfold annotation, map_get_str. simpl. by rewrite lookup_insert_eq. Qed.

Lemma annotation_annotate_ne k k' v o :
  k ≠ k' → annotation k (annotate k' v o) = annotation k o.
Proof. intros Hne. unfold annotation, map_get_str. simpl. by rewrite lookup_insert_ne. Qed.

Lemma annotation_set_status k st o : annotation k (set_status st o) = annotation k o.
Proof. done. Qed.
End Updates.

#[export] Hint Rewrite @annotation_annotate @annotation_set_status : go.

(** ** Bodies of the LiteLLM API *)

Record ApiObjectPermission := MkApiObjectPermission {
  aop_MCPServers : list string;
  aop_AccessGroups : list string;
  aop_VectorStores : list string;
  aop_Agents : list string
}.

Record ModelParams := MkModelParams {
  mp_Model : string;
  mp_LiteLLMCredentialName : string;
  mp_APIBase : string;
  mp_APIKey : string;
  mp_APIVersion : string;
  mp_RPM : option Z;
  mp_TPM : option Z;
  mp_Timeout : option Z;
  mp_StreamTimeout : option Z;
  mp_MaxRetries : option Z;
  mp_Tags : list string;
  mp_Weight : option Z;
  mp_Order : option Z;
  mp_MaxInputTokens : option Z;
  mp_Temperature : option float64;
  mp_TopP : option float64;
  mp_MaxTokens : option Z;
  mp_Seed : option Z;
  mp_Organization : string;
  mp_AWSRegionName : string;
  mp_ExtraHeaders : gmap string string;
  mp_DropParams : option bool;
  mp_VertexProject : string;
  mp_VertexLocation : string;
  mp_VertexCredentials : string
}.

Record ModelInfoReq := MkModelInfoReq {
  mir_ID : string;
  mir_MaxTokens : option Z;
  mir_InputCostPerToken : option float64;
  mir_OutputCostPerToken : option float64;
  mir_Mode : string;
  mir_BaseModel : string;
  mir_Tier : string;
  mir_RegionName : string;
  mir_AccessGroups : list string;
  mir_SupportedEnvironments : list string;
  mir_UseInPassThrough : option bool;
  mir_InputCostPerPixel : option float64;
  mir_InputCostPerSecond : option float64;
  mir_CacheReadInputTokenCost : option float64;
  mir_CacheCreationInputTokenCost : option float64;
  mir_DisableBackgroundHealthCheck : option bool;
  mir_HealthCheckTimeout : option Z;
  mir_HealthCheckMaxTokens : option Z;
  mir_HealthCheckMaxTokensReasoning : option Z;
  mir_HealthCheckMaxTokensNonReasoning : option Z;
  mir_HealthCheckSupportsMaxTokens : option bool;
  mir_HealthCheckReasoningEffort : string;
  mir_HealthCheckVoice : string;
  mir_HealthCheckModel : string
}.

Record ModelCreateRequest := MkModelCreateRequest {
  mcr_ModelName : string;
  mcr_LiteLLMParams : ModelParams;
  mcr_ModelInfo : option ModelInfoReq;
  mcr_ModelID : string
}.

Record ModelCreateResponse := MkModelCreateResponse {
  mcresp_ModelID : string
}.

Record ModelInfoResponse := MkModelInfoResponse {
  mires_ModelID : string;
  mires_ModelName : string;
  mires_Params : ModelParams
}.

Record MemberRequest := MkMemberRequest {
  mr_UserEmail : string;
  mr_Role : string
}.

Record TeamCreateRequest := MkTeamCreateRequest {
  tcr_TeamID : string;
  tcr_TeamAlias : string;
  tcr_OrganizationID : string;
  tcr_Models : list string;
  tcr_MaxBudget : option float64;
  tcr_BudgetDuration : string;
  tcr_TPMLimit : option Z;
  tcr_RPMLimit : option Z;
  tcr_TeamMemberRPMLimit : option Z;
  tcr_TeamMemberTPMLimit : option Z;
  tcr_TeamMemberBudget : option float64;
  tcr_MaxParallelRequests : option Z;
  tcr_SoftBudget : option float64;
  tcr_ModelRPMLimit : gmap string Z;
  tcr_ModelTPMLimit : gmap string Z;
  tcr_ObjectPermission : option ApiObjectPermission;
  tcr_Metadata : gmap string string;
  tcr_Members : list MemberRequest;
  tcr_Tags : list string;
  tcr_Guardrails : list string;
  tcr_Blocked : option bool
}.

Record TeamCreateResponse := MkTeamCreateResponse {
  tcresp_TeamID : string;
  tcresp_TeamAlias : string
}.

Record TeamUpdateRequest := MkTeamUpdateRequest {
  tur_TeamID : string;
  tur_TeamAlias : string;
  tur_OrganizationID : string;
  tur_Models : list string;
  tur_MaxBudget : option float64;
  tur_BudgetDuration : string;
  tur_TPMLimit : option Z;
  tur_RPMLimit : option Z;
  tur_TeamMemberBudget : option float64;
  tur_MaxParallelRequests : option Z;
  tur_SoftBudget : option float64;
  tur_ModelRPMLimit : gmap string Z;
  tur_ModelTPMLimit : gmap string Z;
  tur_ObjectPermission : option ApiObjectPermission;
  tur_Metadata : gmap string string;
  tur_Tags : list string;
  tur_Guardrails : list string;
  tur_Blocked : option bool
}.

Record TeamInfo := MkTeamInfo {
  ti_TeamID : string;
  ti_TeamAlias : string;
  ti_Models : list string;
  ti_Spend : option float64
}.

Record TeamMemberInfo := MkTeamMemberInfo {
  tmi_Email : string;
  tmi_Role : string
}.

Record TeamCallbackRequest := MkTeamCallbackRequest {
  tcbr_CallbackName : string;
  tcbr_CallbackType : string;
  tcbr_CallbackVars : gmap string string
}.

Record UserTeam := MkUserTeam {
  ut_TeamID : string;
  ut_Role : string;
  ut_MaxBudgetInTeam : option float64
}.

Record UserCreateRequest := MkUserCreateRequest {
  ucr_UserID : string;
  ucr_UserEmail : string;
  ucr_UserRole : string;
  ucr_MaxBudget : option float64;
  ucr_BudgetDuration : string;
  ucr_Models : list string;
  ucr_Teams : list UserTeam;
  ucr_TPMLimit : option Z;
  ucr_RPMLimit : option Z;
  ucr_SoftBudget : option float64;
  ucr_ModelRPMLimit : gmap string Z;
  ucr_ModelTPMLimit : gmap string Z;
  ucr_ObjectPermission : option ApiObjectPermission;
  ucr_Metadata : gmap string string;
  ucr_Blocked : option bool;
  ucr_AutoCreateKey : option bool
}.

Record UserCreateResponse := MkUserCreateResponse {
  ucresp_UserID : string
}.

Record UserInfo := MkUserInfo {
  ui_UserID : string;
  ui_UserEmail : string;
  ui_UserRole : string;
  ui_Spend : option float64;
  ui_Teams : list string
}.

Record KeyGenerateRequest := MkKeyGenerateRequest {
  kgr_KeyAlias : string;
  kgr_TeamID : string;
  kgr_UserID : string;
  kgr_Models : list string;
  kgr_MaxBudget : option string;
  kgr_BudgetDuration : string;
  kgr_ExpiresAt : option Time;
  kgr_TPMLimit : option Z;
  kgr_RPMLimit : option Z;
  kgr_Metadata : gmap string string;
  kgr_ModelMaxBudget : gmap string float64;
  kgr_MaxParallelRequests : option Z;
  kgr_Guardrails : list string;
  kgr_Blocked : option bool;
  kgr_SoftBudget : option float64;
  kgr_ModelRPMLimit : gmap string Z;
  kgr_ModelTPMLimit : gmap string Z;
  kgr_ObjectPermission : option ApiObjectPermission
}.

Record KeyGenerateResponse := MkKeyGenerateResponse {
  kgresp_Key : string;
  kgresp_Token : string
}.

Record KeyUpdateRequest := MkKeyUpdateRequest {
  kur_Token : string;
  kur_Models : list string;
  kur_MaxBudget : option string;
  kur_BudgetDuration : string;
  kur_TPMLimit : option Z;
  kur_RPMLimit : option Z;
  kur_Metadata : gmap string string;
  kur_ModelMaxBudget : gmap string float64;
  kur_MaxParallelRequests : option Z;
  kur_Guardrails : list string;
  kur_Blocked : option bool;
  kur_SoftBudget : option float64;
  kur_ModelRPMLimit : gmap string Z;
  kur_ModelTPMLimit : gmap string Z;
  kur_ObjectPermission : option ApiObjectPermission
}.

Record KeyInfo := MkKeyInfo {
  ki_Token : string;
  ki_KeyAlias : string;
  ki_Spend : option string;
  ki_IsActive : bool;
  ki_Models : list string
}.

Record OrganizationCreateRequest := MkOrganizationCreateRequest {
  ocr_OrganizationAlias : string;
  ocr_Models : list string;
  ocr_MaxBudget : option float64;
  ocr_BudgetDuration : string;
  ocr_TpmLimit : option Z;
  ocr_RpmLimit : option Z;
  ocr_SoftBudget : option float64;
  ocr_ModelRPMLimit : gmap string Z;
  ocr_ModelTPMLimit : gmap string Z;
  ocr_ObjectPermission : option ApiObjectPermission;
  ocr_Metadata : gmap string string
}.

Record OrganizationCreateResponse := MkOrganizationCreateResponse {
  ocresp_OrganizationID : string;
  ocresp_OrganizationAlias : string
}.

Record OrganizationUpdateRequest := MkOrganizationUpdateRequest {
  our_OrganizationID : string;
  our_OrganizationAlias : string;
  our_Models : list string;
  our_MaxBudget : option float64;
  our_BudgetDuration : string;
  our_TpmLimit : option Z;
  our_RpmLimit : option Z;
  our_SoftBudget : option float64;
  our_ModelRPMLimit : gmap string Z;
  our_ModelTPMLimit : gmap string Z;
  our_ObjectPermission : option ApiObjectPermission;
  our_Metadata : gmap string string
}.

Record OrgMemberInfo := MkOrgMemberInfo {
  omi_UserID : string;
  omi_Email : string;
  omi_Role : string
}.

Record OrganizationInfo := MkOrganizationInfo {
  oi_OrganizationID : string;
  oi_OrganizationAlias : string;
  oi_Models : list string;
  oi_Spend : option float64;
  oi_Members : list OrgMemberInfo
}.

Record OrgMemberRequest := MkOrgMemberRequest {
  omr_UserEmail : string;
  omr_Role : string
}.

Record OrgMemberAddRequest := MkOrgMemberAddRequest {
  omar_OrganizationID : string;
  omar_Member : OrgMemberRequest
}.

Record CustomerCreateRequest := MkCustomerCreateRequest {
  ccr_UserID : string;
  ccr_Alias : string;
  ccr_MaxBudget : option float64;
  ccr_BudgetDuration : string;
  ccr_BudgetID : string;
  ccr_TpmLimit : option Z;
  ccr_RpmLimit : option Z;
  ccr_AllowedModelRegion : string;
  ccr_DefaultModel : string;
  ccr_Models : list string;
  ccr_Blocked : option bool;
  ccr_ObjectPermission : option ApiObjectPermission;
  ccr_Metadata : gmap string string
}.

Record CustomerUpdateRequest := MkCustomerUpdateRequest {
  cur_UserID : string;
  cur_Alias : string;
  cur_MaxBudget : option float64;
  cur_BudgetDuration : string;
  cur_BudgetID : string;
  cur_TpmLimit : option Z;
  cur_RpmLimit : option Z;
  cur_AllowedModelRegion : string;
  cur_DefaultModel : string;
  cur_Models : list string;
  cur_Blocked : option bool;
  cur_ObjectPermission : option ApiObjectPermission;
  cur_Metadata : gmap string string
}.

Record CustomerInfo := MkCustomerInfo {
  ci_UserID : string;
  ci_Alias : string;
  ci_Spend : option float64;
  ci_MaxBudget : option float64;
  ci_BudgetDuration : string;
  ci_BudgetID : string;
  ci_TpmLimit : option Z;
  ci_RpmLimit : option Z;
  ci_Models : list string;
  ci_Blocked : bool
}.

Record BudgetRequest := MkBudgetRequest {
  br_BudgetID : string;
  br_MaxBudget : option float64;
  br_SoftBudget : option float64;
  br_BudgetDuration : string;
  br_TPMLimit : option Z;
  br_RPMLimit : option Z;
  br_MaxParallelRequests : option Z;
  br_ModelMaxBudget : gmap string float64
}.

Record BudgetResponse := MkBudgetResponse {
  bresp_BudgetID : string
}.

Record BudgetInfo := MkBudgetInfo {
  bi_BudgetID : string;
  bi_MaxBudget : option float64;
  bi_Spend : option float64
}.

Record ReadinessResponse := MkReadinessResponse {
  rr_Status : string;
  rr_DBHealth : string;
  rr_LiteLLMVersion : string
}.

Record CachePingResponse := MkCachePingResponse {
  cpr_Status : string;
  cpr_CacheType : string;
  cpr_PingResponse : bool;
  cpr_SetCacheResponse : string
}.

Record HealthEndpoint := MkHealthEndpoint {
  he_Model : string;
  he_ModelID : string;
  he_APIBase : string;
  he_Error : string;
  he_Response : string
}.

Record HealthCheckResponse := MkHealthCheckResponse {
  hcr_HealthyEndpoints : list HealthEndpoint;
  hcr_UnhealthyEndpoints : list HealthEndpoint;
  hcr_HealthyCount : Z;
  hcr_UnhealthyCount : Z
}.

Record CredentialPayload := MkCredentialPayload {
  cp_CredentialName : string;
  cp_CredentialValues : gmap string JSONValue;
  cp_CredentialInfo : gmap string JSONValue
}.

Record CredentialInfoResponse := MkCredentialInfoResponse {
  cir_CredentialName : string;
  cir_CredentialValues : gmap string JSONValue;
  cir_CredentialInfo : gmap string JSONValue
}.
