(* ===== verification/Updates.v ===== *)
(** * Field updates

    [with_f v r] is the record [r] with the field [f] set to [v], for the fields
    the controllers assign. *)

From S2P Require Import Prelude KubeTypes InstanceTypes Types.

Section LiteLLMModelStatus_updates.
Implicit Type r : LiteLLMModelStatus.
Definition with_mst_Synced (v : bool) r : LiteLLMModelStatus :=
  MkLiteLLMModelStatus v (mst_LiteLLMModelID r) (mst_LastSyncTime r) (mst_Health r)
    (mst_LatencyP50Ms r) (mst_LatencyP95Ms r) (mst_RequestsLast24h r) (mst_Conditions r).
Definition with_mst_LiteLLMModelID (v : string) r : LiteLLMModelStatus :=
  MkLiteLLMModelStatus (mst_Synced r) v (mst_LastSyncTime r) (mst_Health r) (mst_LatencyP50Ms r)
    (mst_LatencyP95Ms r) (mst_RequestsLast24h r) (mst_Conditions r).
Definition with_mst_LastSyncTime (v : option Time) r : LiteLLMModelStatus :=
  MkLiteLLMModelStatus (mst_Synced r) (mst_LiteLLMModelID r) v (mst_Health r) (mst_LatencyP50Ms r)
    (mst_LatencyP95Ms r) (mst_RequestsLast24h r) (mst_Conditions r).
Definition with_mst_Health (v : string) r : LiteLLMModelStatus :=
  MkLiteLLMModelStatus (mst_Synced r) (mst_LiteLLMModelID r) (mst_LastSyncTime r) v
    (mst_LatencyP50Ms r) (mst_LatencyP95Ms r) (mst_RequestsLast24h r) (mst_Conditions r).
Definition with_mst_LatencyP50Ms (v : option Z) r : LiteLLMModelStatus :=
  MkLiteLLMModelStatus (mst_Synced r) (mst_LiteLLMModelID r) (mst_LastSyncTime r) (mst_Health r) v
    (mst_LatencyP95Ms r) (mst_RequestsLast24h r) (mst_Conditions r).
Definition with_mst_LatencyP95Ms (v : option Z) r : LiteLLMModelStatus :=
  MkLiteLLMModelStatus (mst_Synced r) (mst_LiteLLMModelID r) (mst_LastSyncTime r) (mst_Health r)
    (mst_LatencyP50Ms r) v (mst_RequestsLast24h r) (mst_Conditions r).
Definition with_mst_RequestsLast24h (v : option Z) r : LiteLLMModelStatus :=
  MkLiteLLMModelStatus (mst_Synced r) (mst_LiteLLMModelID r) (mst_LastSyncTime r) (mst_Health r)
    (mst_LatencyP50Ms r) (mst_LatencyP95Ms r) v (mst_Conditions r).
Definition with_mst_Conditions (v : list Condition) r : LiteLLMModelStatus :=
  MkLiteLLMModelStatus (mst_Synced r) (mst_LiteLLMModelID r) (mst_LastSyncTime r) (mst_Health r)
    (mst_LatencyP50Ms r) (mst_LatencyP95Ms r) (mst_RequestsLast24h r) v.
End LiteLLMModelStatus_updates.

Section LiteLLMTeamStatus_updates.
Implicit Type r : LiteLLMTeamStatus.
Definition with_tst_Synced (v : bool) r : LiteLLMTeamStatus :=
  MkLiteLLMTeamStatus v (tst_LiteLLMTeamID r) (tst_CurrentSpend r) (tst_TotalMemberCount r)
    (tst_CRDMembers r) (tst_SSOMembers r) (tst_LoggingSynced r) (tst_LoggingDisabled r)
    (tst_LastSyncTime r) (tst_Conditions r).
Definition with_tst_LiteLLMTeamID (v : string) r : LiteLLMTeamStatus :=
  MkLiteLLMTeamStatus (tst_Synced r) v (tst_CurrentSpend r) (tst_TotalMemberCount r)
    (tst_CRDMembers r) (tst_SSOMembers r) (tst_LoggingSynced r) (tst_LoggingDisabled r)
    (tst_LastSyncTime r) (tst_Conditions r).
Definition with_tst_CurrentSpend (v : option float64) r : LiteLLMTeamStatus :=
  MkLiteLLMTeamStatus (tst_Synced r) (tst_LiteLLMTeamID r) v (tst_TotalMemberCount r)
    (tst_CRDMembers r) (tst_SSOMembers r) (tst_LoggingSynced r) (tst_LoggingDisabled r)
    (tst_LastSyncTime r) (tst_Conditions r).
Definition with_tst_TotalMemberCount (v : Z) r : LiteLLMTeamStatus :=
  MkLiteLLMTeamStatus (tst_Synced r) (tst_LiteLLMTeamID r) (tst_CurrentSpend r) v
    (tst_CRDMembers r) (tst_SSOMembers r) (tst_LoggingSynced r) (tst_LoggingDisabled r)
    (tst_LastSyncTime r) (tst_Conditions r).
Definition with_tst_CRDMembers (v : list TeamMemberStatus) r : LiteLLMTeamStatus :=
  MkLiteLLMTeamStatus (tst_Synced r) (tst_LiteLLMTeamID r) (tst_CurrentSpend r)
    (tst_TotalMemberCount r) v (tst_SSOMembers r) (tst_LoggingSynced r) (tst_LoggingDisabled r)
    (tst_LastSyncTime r) (tst_Conditions r).
Definition with_tst_SSOMembers (v : list TeamMemberStatus) r : LiteLLMTeamStatus :=
  MkLiteLLMTeamStatus (tst_Synced r) (tst_LiteLLMTeamID r) (tst_CurrentSpend r)
    (tst_TotalMemberCount r) (tst_CRDMembers r) v (tst_LoggingSynced r) (tst_LoggingDisabled r)
    (tst_LastSyncTime r) (tst_Conditions r).
Definition with_tst_LoggingSynced (v : bool) r : LiteLLMTeamStatus :=
  MkLiteLLMTeamStatus (tst_Synced r) (tst_LiteLLMTeamID r) (tst_CurrentSpend r)
    (tst_TotalMemberCount r) (tst_CRDMembers r) (tst_SSOMembers r) v (tst_LoggingDisabled r)
    (tst_LastSyncTime r) (tst_Conditions r).
Definition with_tst_LoggingDisabled (v : bool) r : LiteLLMTeamStatus :=
  MkLiteLLMTeamStatus (tst_Synced r) (tst_LiteLLMTeamID r) (tst_CurrentSpend r)
    (tst_TotalMemberCount r) (tst_CRDMembers r) (tst_SSOMembers r) (tst_LoggingSynced r) v
    (tst_LastSyncTime r) (tst_Conditions r).
Definition with_tst_LastSyncTime (v : option Time) r : LiteLLMTeamStatus :=
  MkLiteLLMTeamStatus (tst_Synced r) (tst_LiteLLMTeamID r) (tst_CurrentSpend r)
    (tst_TotalMemberCount r) (tst_CRDMembers r) (tst_SSOMembers r) (tst_LoggingSynced r)
    (tst_LoggingDisabled r) v (tst_Conditions r).
Definition with_tst_Conditions (v : list Condition) r : LiteLLMTeamStatus :=
  MkLiteLLMTeamStatus (tst_Synced r) (tst_LiteLLMTeamID r) (tst_CurrentSpend r)
    (tst_TotalMemberCount r) (tst_CRDMembers r) (tst_SSOMembers r) (tst_LoggingSynced r)
    (tst_LoggingDisabled r) (tst_LastSyncTime r) v.
End LiteLLMTeamStatus_updates.

Section LiteLLMUserStatus_updates.
Implicit Type r : LiteLLMUserStatus.
Definition with_ust_Synced (v : bool) r : LiteLLMUserStatus :=
  MkLiteLLMUserStatus v (ust_LiteLLMUserID r) (ust_CurrentSpend r) (ust_ResolvedTeams r)
    (ust_LastSyncTime r) (ust_InitialPasswordDigest r) (ust_Conditions r).
Definition with_ust_LiteLLMUserID (v : string) r : LiteLLMUserStatus :=
  MkLiteLLMUserStatus (ust_Synced r) v (ust_CurrentSpend r) (ust_ResolvedTeams r)
    (ust_LastSyncTime r) (ust_InitialPasswordDigest r) (ust_Conditions r).
Definition with_ust_CurrentSpend (v : option float64) r : LiteLLMUserStatus :=
  MkLiteLLMUserStatus (ust_Synced r) (ust_LiteLLMUserID r) v (ust_ResolvedTeams r)
    (ust_LastSyncTime r) (ust_InitialPasswordDigest r) (ust_Conditions r).
Definition with_ust_ResolvedTeams (v : list ResolvedTeamMembership) r : LiteLLMUserStatus :=
  MkLiteLLMUserStatus (ust_Synced r) (ust_LiteLLMUserID r) (ust_CurrentSpend r) v
    (ust_LastSyncTime r) (ust_InitialPasswordDigest r) (ust_Conditions r).
Definition with_ust_LastSyncTime (v : option Time) r : LiteLLMUserStatus :=
  MkLiteLLMUserStatus (ust_Synced r) (ust_LiteLLMUserID r) (ust_CurrentSpend r)
    (ust_ResolvedTeams r) v (ust_InitialPasswordDigest r) (ust_Conditions r).
Definition with_ust_InitialPasswordDigest (v : string) r : LiteLLMUserStatus :=
  MkLiteLLMUserStatus (ust_Synced r) (ust_LiteLLMUserID r) (ust_CurrentSpend r)
    (ust_ResolvedTeams r) (ust_LastSyncTime r) v (ust_Conditions r).
Definition with_ust_Conditions (v : list Condition) r : LiteLLMUserStatus :=
  MkLiteLLMUserStatus (ust_Synced r) (ust_LiteLLMUserID r) (ust_CurrentSpend r)
    (ust_ResolvedTeams r) (ust_LastSyncTime r) (ust_InitialPasswordDigest r) v.
End LiteLLMUserStatus_updates.

Section LiteLLMVirtualKeyStatus_updates.
Implicit Type r : LiteLLMVirtualKeyStatus.
Definition with_kys_Synced (v : bool) r : LiteLLMVirtualKeyStatus :=
  MkLiteLLMVirtualKeyStatus v (kys_KeySecretRef r) (kys_LiteLLMKeyToken r) (kys_CurrentSpend r)
    (kys_IsActive r) (kys_ExpiresAt r) (kys_LastSyncTime r) (kys_Conditions r).
Definition with_kys_KeySecretRef (v : option SecretKeyRef) r : LiteLLMVirtualKeyStatus :=
  MkLiteLLMVirtualKeyStatus (kys_Synced r) v (kys_LiteLLMKeyToken r) (kys_CurrentSpend r)
    (kys_IsActive r) (kys_ExpiresAt r) (kys_LastSyncTime r) (kys_Conditions r).
Definition with_kys_LiteLLMKeyToken (v : string) r : LiteLLMVirtualKeyStatus :=
  MkLiteLLMVirtualKeyStatus (kys_Synced r) (kys_KeySecretRef r) v (kys_CurrentSpend r)
    (kys_IsActive r) (kys_ExpiresAt r) (kys_LastSyncTime r) (kys_Conditions r).
Definition with_kys_CurrentSpend (v : option string) r : LiteLLMVirtualKeyStatus :=
  MkLiteLLMVirtualKeyStatus (kys_Synced r) (kys_KeySecretRef r) (kys_LiteLLMKeyToken r) v
    (kys_IsActive r) (kys_ExpiresAt r) (kys_LastSyncTime r) (kys_Conditions r).
Definition with_kys_IsActive (v : bool) r : LiteLLMVirtualKeyStatus :=
  MkLiteLLMVirtualKeyStatus (kys_Synced r) (kys_KeySecretRef r) (kys_LiteLLMKeyToken r)
    (kys_CurrentSpend r) v (kys_ExpiresAt r) (kys_LastSyncTime r) (kys_Conditions r).
Definition with_kys_ExpiresAt (v : option Time) r : LiteLLMVirtualKeyStatus :=
  MkLiteLLMVirtualKeyStatus (kys_Synced r) (kys_KeySecretRef r) (kys_LiteLLMKeyToken r)
    (kys_CurrentSpend r) (kys_IsActive r) v (kys_LastSyncTime r) (kys_Conditions r).
Definition with_kys_LastSyncTime (v : option Time) r : LiteLLMVirtualKeyStatus :=
  MkLiteLLMVirtualKeyStatus (kys_Synced r) (kys_KeySecretRef r) (kys_LiteLLMKeyToken r)
    (kys_CurrentSpend r) (kys_IsActive r) (kys_ExpiresAt r) v (kys_Conditions r).
Definition with_kys_Conditions (v : list Condition) r : LiteLLMVirtualKeyStatus :=
  MkLiteLLMVirtualKeyStatus (kys_Synced r) (kys_KeySecretRef r) (kys_LiteLLMKeyToken r)
    (kys_CurrentSpend r) (kys_IsActive r) (kys_ExpiresAt r) (kys_LastSyncTime r) v.
End LiteLLMVirtualKeyStatus_updates.

Section LiteLLMOrganizationStatus_updates.
Implicit Type r : LiteLLMOrganizationStatus.
Definition with_ost_Synced (v : bool) r : LiteLLMOrganizationStatus :=
  MkLiteLLMOrganizationStatus v (ost_LiteLLMOrganizationID r) (ost_CurrentSpend r)
    (ost_MemberCount r) (ost_LastSyncTime r) (ost_Conditions r).
Definition with_ost_LiteLLMOrganizationID (v : string) r : LiteLLMOrganizationStatus :=
  MkLiteLLMOrganizationStatus (ost_Synced r) v (ost_CurrentSpend r) (ost_MemberCount r)
    (ost_LastSyncTime r) (ost_Conditions r).
Definition with_ost_CurrentSpend (v : option float64) r : LiteLLMOrganizationStatus :=
  MkLiteLLMOrganizationStatus (ost_Synced r) (ost_LiteLLMOrganizationID r) v (ost_MemberCount r)
    (ost_LastSyncTime r) (ost_Conditions r).
Definition with_ost_MemberCount (v : Z) r : LiteLLMOrganizationStatus :=
  MkLiteLLMOrganizationStatus (ost_Synced r) (ost_LiteLLMOrganizationID r) (ost_CurrentSpend r) v
    (ost_LastSyncTime r) (ost_Conditions r).
Definition with_ost_LastSyncTime (v : option Time) r : LiteLLMOrganizationStatus :=
  MkLiteLLMOrganizationStatus (ost_Synced r) (ost_LiteLLMOrganizationID r) (ost_CurrentSpend r)
    (ost_MemberCount r) v (ost_Conditions r).
Definition with_ost_Conditions (v : list Condition) r : LiteLLMOrganizationStatus :=
  MkLiteLLMOrganizationStatus (ost_Synced r) (ost_LiteLLMOrganizationID r) (ost_CurrentSpend r)
    (ost_MemberCount r) (ost_LastSyncTime r) v.
End LiteLLMOrganizationStatus_updates.

Section LiteLLMCustomerStatus_updates.
Implicit Type r : LiteLLMCustomerStatus.
Definition with_cst_Synced (v : bool) r : LiteLLMCustomerStatus :=
  MkLiteLLMCustomerStatus v (cst_CurrentSpend r) (cst_Blocked r) (cst_LastSyncTime r)
    (cst_Conditions r).
Definition with_cst_CurrentSpend (v : option float64) r : LiteLLMCustomerStatus :=
  MkLiteLLMCustomerStatus (cst_Synced r) v (cst_Blocked r) (cst_LastSyncTime r) (cst_Conditions r).
Definition with_cst_Blocked (v : bool) r : LiteLLMCustomerStatus :=
  MkLiteLLMCustomerStatus (cst_Synced r) (cst_CurrentSpend r) v (cst_LastSyncTime r)
    (cst_Conditions r).
Definition with_cst_LastSyncTime (v : option Time) r : LiteLLMCustomerStatus :=
  MkLiteLLMCustomerStatus (cst_Synced r) (cst_CurrentSpend r) (cst_Blocked r) v (cst_Conditions r).
Definition with_cst_Conditions (v : list Condition) r : LiteLLMCustomerStatus :=
  MkLiteLLMCustomerStatus (cst_Synced r) (cst_CurrentSpend r) (cst_Blocked r) (cst_LastSyncTime r)
    v.
End LiteLLMCustomerStatus_updates.

Section LiteLLMBudgetStatus_updates.
Implicit Type r : LiteLLMBudgetStatus.
Definition with_bst_Synced (v : bool) r : LiteLLMBudgetStatus :=
  MkLiteLLMBudgetStatus v (bst_LiteLLMBudgetID r) (bst_CurrentSpend r) (bst_LastSyncTime r)
    (bst_Conditions r).
Definition with_bst_LiteLLMBudgetID (v : string) r : LiteLLMBudgetStatus :=
  MkLiteLLMBudgetStatus (bst_Synced r) v (bst_CurrentSpend r) (bst_LastSyncTime r)
    (bst_Conditions r).
Definition with_bst_CurrentSpend (v : option float64) r : LiteLLMBudgetStatus :=
  MkLiteLLMBudgetStatus (bst_Synced r) (bst_LiteLLMBudgetID r) v (bst_LastSyncTime r)
    (bst_Conditions r).
Definition with_bst_LastSyncTime (v : option Time) r : LiteLLMBudgetStatus :=
  MkLiteLLMBudgetStatus (bst_Synced r) (bst_LiteLLMBudgetID r) (bst_CurrentSpend r) v
    (bst_Conditions r).
Definition with_bst_Conditions (v : list Condition) r : LiteLLMBudgetStatus :=
  MkLiteLLMBudgetStatus (bst_Synced r) (bst_LiteLLMBudgetID r) (bst_CurrentSpend r)
    (bst_LastSyncTime r) v.
End LiteLLMBudgetStatus_updates.

Section LiteLLMCredentialStatus_updates.
Implicit Type r : LiteLLMCredentialStatus.
Definition with_crst_Configured (v : bool) r : LiteLLMCredentialStatus :=
  MkLiteLLMCredentialStatus v (crst_ReferencedByModels r) (crst_LastSyncTime r)
    (crst_Conditions r).
Definition with_crst_ReferencedByModels (v : Z) r : LiteLLMCredentialStatus :=
  MkLiteLLMCredentialStatus (crst_Configured r) v (crst_LastSyncTime r) (crst_Conditions r).
Definition with_crst_LastSyncTime (v : option Time) r : LiteLLMCredentialStatus :=
  MkLiteLLMCredentialStatus (crst_Configured r) (crst_ReferencedByModels r) v (crst_Conditions r).
Definition with_crst_Conditions (v : list Condition) r : LiteLLMCredentialStatus :=
  MkLiteLLMCredentialStatus (crst_Configured r) (crst_ReferencedByModels r) (crst_LastSyncTime r)
    v.
End LiteLLMCredentialStatus_updates.

Section LiteLLMInstanceStatus_updates.
Implicit Type r : LiteLLMInstanceStatus.
Definition with_ist_Ready (v : bool) r : LiteLLMInstanceStatus :=
  MkLiteLLMInstanceStatus v (ist_Replicas r) (ist_ReadyReplicas r) (ist_Endpoint r)
    (ist_Version r) (ist_Database r) (ist_Redis r) (ist_ConfigSync r) (ist_SSO r) (ist_SCIM r)
    (ist_SecretManager r) (ist_License r) (ist_Backup r) (ist_LastSuccessfulRevision r)
    (ist_UnhealthyPods r) (ist_Conditions r).
Definition with_ist_Replicas (v : Z) r : LiteLLMInstanceStatus :=
  MkLiteLLMInstanceStatus (ist_Ready r) v (ist_ReadyReplicas r) (ist_Endpoint r) (ist_Version r)
    (ist_Database r) (ist_Redis r) (ist_ConfigSync r) (ist_SSO r) (ist_SCIM r)
    (ist_SecretManager r) (ist_License r) (ist_Backup r) (ist_LastSuccessfulRevision r)
    (ist_UnhealthyPods r) (ist_Conditions r).
Definition with_ist_ReadyReplicas (v : Z) r : LiteLLMInstanceStatus :=
  MkLiteLLMInstanceStatus (ist_Ready r) (ist_Replicas r) v (ist_Endpoint r) (ist_Version r)
    (ist_Database r) (ist_Redis r) (ist_ConfigSync r) (ist_SSO r) (ist_SCIM r)
    (ist_SecretManager r) (ist_License r) (ist_Backup r) (ist_LastSuccessfulRevision r)
    (ist_UnhealthyPods r) (ist_Conditions r).
Definition with_ist_Endpoint (v : string) r : LiteLLMInstanceStatus :=
  MkLiteLLMInstanceStatus (ist_Ready r) (ist_Replicas r) (ist_ReadyReplicas r) v (ist_Version r)
    (ist_Database r) (ist_Redis r) (ist_ConfigSync r) (ist_SSO r) (ist_SCIM r)
    (ist_SecretManager r) (ist_License r) (ist_Backup r) (ist_LastSuccessfulRevision r)
    (ist_UnhealthyPods r) (ist_Conditions r).
Definition with_ist_Version (v : string) r : LiteLLMInstanceStatus :=
  MkLiteLLMInstanceStatus (ist_Ready r) (ist_Replicas r) (ist_ReadyReplicas r) (ist_Endpoint r) v
    (ist_Database r) (ist_Redis r) (ist_ConfigSync r) (ist_SSO r) (ist_SCIM r)
    (ist_SecretManager r) (ist_License r) (ist_Backup r) (ist_LastSuccessfulRevision r)
    (ist_UnhealthyPods r) (ist_Conditions r).
Definition with_ist_Database (v : DatabaseStatus) r : LiteLLMInstanceStatus :=
  MkLiteLLMInstanceStatus (ist_Ready r) (ist_Replicas r) (ist_ReadyReplicas r) (ist_Endpoint r)
    (ist_Version r) v (ist_Redis r) (ist_ConfigSync r) (ist_SSO r) (ist_SCIM r)
    (ist_SecretManager r) (ist_License r) (ist_Backup r) (ist_LastSuccessfulRevision r)
    (ist_UnhealthyPods r) (ist_Conditions r).
Definition with_ist_Redis (v : option RedisStatus) r : LiteLLMInstanceStatus :=
  MkLiteLLMInstanceStatus (ist_Ready r) (ist_Replicas r) (ist_ReadyReplicas r) (ist_Endpoint r)
    (ist_Version r) (ist_Database r) v (ist_ConfigSync r) (ist_SSO r) (ist_SCIM r)
    (ist_SecretManager r) (ist_License r) (ist_Backup r) (ist_LastSuccessfulRevision r)
    (ist_UnhealthyPods r) (ist_Conditions r).
Definition with_ist_ConfigSync (v : option ConfigSyncStatus) r : LiteLLMInstanceStatus :=
  MkLiteLLMInstanceStatus (ist_Ready r) (ist_Replicas r) (ist_ReadyReplicas r) (ist_Endpoint r)
    (ist_Version r) (ist_Database r) (ist_Redis r) v (ist_SSO r) (ist_SCIM r)
    (ist_SecretManager r) (ist_License r) (ist_Backup r) (ist_LastSuccessfulRevision r)
    (ist_UnhealthyPods r) (ist_Conditions r).
Definition with_ist_SSO (v : option SSOStatus) r : LiteLLMInstanceStatus :=
  MkLiteLLMInstanceStatus (ist_Ready r) (ist_Replicas r) (ist_ReadyReplicas r) (ist_Endpoint r)
    (ist_Version r) (ist_Database r) (ist_Redis r) (ist_ConfigSync r) v (ist_SCIM r)
    (ist_SecretManager r) (ist_License r) (ist_Backup r) (ist_LastSuccessfulRevision r)
    (ist_UnhealthyPods r) (ist_Conditions r).
Definition with_ist_SCIM (v : option SCIMStatus) r : LiteLLMInstanceStatus :=
  MkLiteLLMInstanceStatus (ist_Ready r) (ist_Replicas r) (ist_ReadyReplicas r) (ist_Endpoint r)
    (ist_Version r) (ist_Database r) (ist_Redis r) (ist_ConfigSync r) (ist_SSO r) v
    (ist_SecretManager r) (ist_License r) (ist_Backup r) (ist_LastSuccessfulRevision r)
    (ist_UnhealthyPods r) (ist_Conditions r).
Definition with_ist_SecretManager (v : option SecretManagerStatus) r : LiteLLMInstanceStatus :=
  MkLiteLLMInstanceStatus (ist_Ready r) (ist_Replicas r) (ist_ReadyReplicas r) (ist_Endpoint r)
    (ist_Version r) (ist_Database r) (ist_Redis r) (ist_ConfigSync r) (ist_SSO r) (ist_SCIM r) v
    (ist_License r) (ist_Backup r) (ist_LastSuccessfulRevision r) (ist_UnhealthyPods r)
    (ist_Conditions r).
Definition with_ist_License (v : option LicenseStatus) r : LiteLLMInstanceStatus :=
  MkLiteLLMInstanceStatus (ist_Ready r) (ist_Replicas r) (ist_ReadyReplicas r) (ist_Endpoint r)
    (ist_Version r) (ist_Database r) (ist_Redis r) (ist_ConfigSync r) (ist_SSO r) (ist_SCIM r)
    (ist_SecretManager r) v (ist_Backup r) (ist_LastSuccessfulRevision r) (ist_UnhealthyPods r)
    (ist_Conditions r).
Definition with_ist_Backup (v : option BackupStatus) r : LiteLLMInstanceStatus :=
  MkLiteLLMInstanceStatus (ist_Ready r) (ist_Replicas r) (ist_ReadyReplicas r) (ist_Endpoint r)
    (ist_Version r) (ist_Database r) (ist_Redis r) (ist_ConfigSync r) (ist_SSO r) (ist_SCIM r)
    (ist_SecretManager r) (ist_License r) v (ist_LastSuccessfulRevision r) (ist_UnhealthyPods r)
    (ist_Conditions r).
Definition with_ist_LastSuccessfulRevision (v : string) r : LiteLLMInstanceStatus :=
  MkLiteLLMInstanceStatus (ist_Ready r) (ist_Replicas r) (ist_ReadyReplicas r) (ist_Endpoint r)
    (ist_Version r) (ist_Database r) (ist_Redis r) (ist_ConfigSync r) (ist_SSO r) (ist_SCIM r)
    (ist_SecretManager r) (ist_License r) (ist_Backup r) v (ist_UnhealthyPods r)
    (ist_Conditions r).
Definition with_ist_UnhealthyPods (v : list UnhealthyPod) r : LiteLLMInstanceStatus :=
  MkLiteLLMInstanceStatus (ist_Ready r) (ist_Replicas r) (ist_ReadyReplicas r) (ist_Endpoint r)
    (ist_Version r) (ist_Database r) (ist_Redis r) (ist_ConfigSync r) (ist_SSO r) (ist_SCIM r)
    (ist_SecretManager r) (ist_License r) (ist_Backup r) (ist_LastSuccessfulRevision r) v
    (ist_Conditions r).
Definition with_ist_Conditions (v : list Condition) r : LiteLLMInstanceStatus :=
  MkLiteLLMInstanceStatus (ist_Ready r) (ist_Replicas r) (ist_ReadyReplicas r) (ist_Endpoint r)
    (ist_Version r) (ist_Database r) (ist_Redis r) (ist_ConfigSync r) (ist_SSO r) (ist_SCIM r)
    (ist_SecretManager r) (ist_License r) (ist_Backup r) (ist_LastSuccessfulRevision r)
    (ist_UnhealthyPods r) v.
End LiteLLMInstanceStatus_updates.

Section LiteLLMGuardrailStatus_updates.
Implicit Type r : LiteLLMGuardrailStatus.
Definition with_grst_Configured (v : bool) r : LiteLLMGuardrailStatus :=
  MkLiteLLMGuardrailStatus v (grst_LastSyncTime r) (grst_Conditions r).
Definition with_grst_LastSyncTime (v : option Time) r : LiteLLMGuardrailStatus :=
  MkLiteLLMGuardrailStatus (grst_Configured r) v (grst_Conditions r).
Definition with_grst_Conditions (v : list Condition) r : LiteLLMGuardrailStatus :=
  MkLiteLLMGuardrailStatus (grst_Configured r) (grst_LastSyncTime r) v.
End LiteLLMGuardrailStatus_updates.

Section SecretManagerStatus_updates.
Implicit Type r : SecretManagerStatus.
Definition with_smst_Configured (v : bool) r : SecretManagerStatus :=
  MkSecretManagerStatus v (smst_Provider r).
End SecretManagerStatus_updates.

Section LiteLLMInstanceSpec_updates.
Implicit Type r : LiteLLMInstanceSpec.
Definition with_is_Workload (v : option WorkloadSpec) r : LiteLLMInstanceSpec :=
  MkLiteLLMInstanceSpec (is_Image r) v (is_Replicas r) (is_Autoscaling r) (is_MasterKey r)
    (is_Database r) (is_Redis r) (is_SaltKey r) (is_GeneralSettings r) (is_RouterSettings r)
    (is_LiteLLMSettings r) (is_Fallbacks r) (is_ConfigSync r) (is_Service r) (is_ServiceAccount r)
    (is_Deployment r) (is_PodScheduling r) (is_Ingress r) (is_Route r) (is_GatewayHTTPRoute r)
    (is_Security r) (is_HealthCheck r) (is_Resources r) (is_PodDisruptionBudget r)
    (is_TopologySpreadConstraints r) (is_ExtraEnvVars r) (is_ExtraEnvFrom r) (is_Callbacks r)
    (is_Observability r) (is_Upgrade r) (is_SSO r) (is_SCIM r) (is_JWTAuth r) (is_OAuth2Auth r)
    (is_Caching r) (is_PassThroughEndpoints r) (is_DefaultCustomerBudget r) (is_SecretManager r)
    (is_RBAC r) (is_Logging r) (is_AdminUI r) (is_TLS r) (is_ExtraVolumes r)
    (is_ExtraVolumeMounts r) (is_AllowedNamespaces r).
Definition with_is_MasterKey (v : MasterKeySpec) r : LiteLLMInstanceSpec :=
  MkLiteLLMInstanceSpec (is_Image r) (is_Workload r) (is_Replicas r) (is_Autoscaling r) v
    (is_Database r) (is_Redis r) (is_SaltKey r) (is_GeneralSettings r) (is_RouterSettings r)
    (is_LiteLLMSettings r) (is_Fallbacks r) (is_ConfigSync r) (is_Service r) (is_ServiceAccount r)
    (is_Deployment r) (is_PodScheduling r) (is_Ingress r) (is_Route r) (is_GatewayHTTPRoute r)
    (is_Security r) (is_HealthCheck r) (is_Resources r) (is_PodDisruptionBudget r)
    (is_TopologySpreadConstraints r) (is_ExtraEnvVars r) (is_ExtraEnvFrom r) (is_Callbacks r)
    (is_Observability r) (is_Upgrade r) (is_SSO r) (is_SCIM r) (is_JWTAuth r) (is_OAuth2Auth r)
    (is_Caching r) (is_PassThroughEndpoints r) (is_DefaultCustomerBudget r) (is_SecretManager r)
    (is_RBAC r) (is_Logging r) (is_AdminUI r) (is_TLS r) (is_ExtraVolumes r)
    (is_ExtraVolumeMounts r) (is_AllowedNamespaces r).
Definition with_is_Redis (v : option RedisSpec) r : LiteLLMInstanceSpec :=
  MkLiteLLMInstanceSpec (is_Image r) (is_Workload r) (is_Replicas r) (is_Autoscaling r)
    (is_MasterKey r) (is_Database r) v (is_SaltKey r) (is_GeneralSettings r) (is_RouterSettings r)
    (is_LiteLLMSettings r) (is_Fallbacks r) (is_ConfigSync r) (is_Service r) (is_ServiceAccount r)
    (is_Deployment r) (is_PodScheduling r) (is_Ingress r) (is_Route r) (is_GatewayHTTPRoute r)
    (is_Security r) (is_HealthCheck r) (is_Resources r) (is_PodDisruptionBudget r)
    (is_TopologySpreadConstraints r) (is_ExtraEnvVars r) (is_ExtraEnvFrom r) (is_Callbacks r)
    (is_Observability r) (is_Upgrade r) (is_SSO r) (is_SCIM r) (is_JWTAuth r) (is_OAuth2Auth r)
    (is_Caching r) (is_PassThroughEndpoints r) (is_DefaultCustomerBudget r) (is_SecretManager r)
    (is_RBAC r) (is_Logging r) (is_AdminUI r) (is_TLS r) (is_ExtraVolumes r)
    (is_ExtraVolumeMounts r) (is_AllowedNamespaces r).
Definition with_is_Caching (v : option CachingSpec) r : LiteLLMInstanceSpec :=
  MkLiteLLMInstanceSpec (is_Image r) (is_Workload r) (is_Replicas r) (is_Autoscaling r)
    (is_MasterKey r) (is_Database r) (is_Redis r) (is_SaltKey r) (is_GeneralSettings r) (is_RouterSettings r)
    (is_LiteLLMSettings r) (is_Fallbacks r) (is_ConfigSync r) (is_Service r) (is_ServiceAccount r)
    (is_Deployment r) (is_PodScheduling r) (is_Ingress r) (is_Route r) (is_GatewayHTTPRoute r)
    (is_Security r) (is_HealthCheck r) (is_Resources r) (is_PodDisruptionBudget r)
    (is_TopologySpreadConstraints r) (is_ExtraEnvVars r) (is_ExtraEnvFrom r) (is_Callbacks r)
    (is_Observability r) (is_Upgrade r) (is_SSO r) (is_SCIM r) (is_JWTAuth r) (is_OAuth2Auth r)
    v (is_PassThroughEndpoints r) (is_DefaultCustomerBudget r) (is_SecretManager r)
    (is_RBAC r) (is_Logging r) (is_AdminUI r) (is_TLS r) (is_ExtraVolumes r)
    (is_ExtraVolumeMounts r) (is_AllowedNamespaces r).
Definition with_is_ExtraEnvVars (v : list EnvVar) r : LiteLLMInstanceSpec :=
  MkLiteLLMInstanceSpec (is_Image r) (is_Workload r) (is_Replicas r) (is_Autoscaling r)
    (is_MasterKey r) (is_Database r) (is_Redis r) (is_SaltKey r) (is_GeneralSettings r) (is_RouterSettings r)
    (is_LiteLLMSettings r) (is_Fallbacks r) (is_ConfigSync r) (is_Service r) (is_ServiceAccount r)
    (is_Deployment r) (is_PodScheduling r) (is_Ingress r) (is_Route r) (is_GatewayHTTPRoute r)
    (is_Security r) (is_HealthCheck r) (is_Resources r) (is_PodDisruptionBudget r)
    (is_TopologySpreadConstraints r) v (is_ExtraEnvFrom r) (is_Callbacks r)
    (is_Observability r) (is_Upgrade r) (is_SSO r) (is_SCIM r) (is_JWTAuth r) (is_OAuth2Auth r)
    (is_Caching r) (is_PassThroughEndpoints r) (is_DefaultCustomerBudget r) (is_SecretManager r)
    (is_RBAC r) (is_Logging r) (is_AdminUI r) (is_TLS r) (is_ExtraVolumes r)
    (is_ExtraVolumeMounts r) (is_AllowedNamespaces r).
Definition with_is_SaltKey (v : option SaltKeySpec) r : LiteLLMInstanceSpec :=
  MkLiteLLMInstanceSpec (is_Image r) (is_Workload r) (is_Replicas r) (is_Autoscaling r)
    (is_MasterKey r) (is_Database r) (is_Redis r) v (is_GeneralSettings r) (is_RouterSettings r)
    (is_LiteLLMSettings r) (is_Fallbacks r) (is_ConfigSync r) (is_Service r) (is_ServiceAccount r)
    (is_Deployment r) (is_PodScheduling r) (is_Ingress r) (is_Route r) (is_GatewayHTTPRoute r)
    (is_Security r) (is_HealthCheck r) (is_Resources r) (is_PodDisruptionBudget r)
    (is_TopologySpreadConstraints r) (is_ExtraEnvVars r) (is_ExtraEnvFrom r) (is_Callbacks r)
    (is_Observability r) (is_Upgrade r) (is_SSO r) (is_SCIM r) (is_JWTAuth r) (is_OAuth2Auth r)
    (is_Caching r) (is_PassThroughEndpoints r) (is_DefaultCustomerBudget r) (is_SecretManager r)
    (is_RBAC r) (is_Logging r) (is_AdminUI r) (is_TLS r) (is_ExtraVolumes r)
    (is_ExtraVolumeMounts r) (is_AllowedNamespaces r).
Definition with_is_ConfigSync (v : option ConfigSyncSpec) r : LiteLLMInstanceSpec :=
  MkLiteLLMInstanceSpec (is_Image r) (is_Workload r) (is_Replicas r) (is_Autoscaling r)
    (is_MasterKey r) (is_Database r) (is_Redis r) (is_SaltKey r) (is_GeneralSettings r)
    (is_RouterSettings r) (is_LiteLLMSettings r) (is_Fallbacks r) v (is_Service r)
    (is_ServiceAccount r) (is_Deployment r) (is_PodScheduling r) (is_Ingress r) (is_Route r)
    (is_GatewayHTTPRoute r) (is_Security r) (is_HealthCheck r) (is_Resources r)
    (is_PodDisruptionBudget r) (is_TopologySpreadConstraints r) (is_ExtraEnvVars r)
    (is_ExtraEnvFrom r) (is_Callbacks r) (is_Observability r) (is_Upgrade r) (is_SSO r)
    (is_SCIM r) (is_JWTAuth r) (is_OAuth2Auth r) (is_Caching r) (is_PassThroughEndpoints r)
    (is_DefaultCustomerBudget r) (is_SecretManager r) (is_RBAC r) (is_Logging r) (is_AdminUI r)
    (is_TLS r) (is_ExtraVolumes r) (is_ExtraVolumeMounts r) (is_AllowedNamespaces r).
Definition with_is_Service (v : ServiceSpec) r : LiteLLMInstanceSpec :=
  MkLiteLLMInstanceSpec (is_Image r) (is_Workload r) (is_Replicas r) (is_Autoscaling r)
    (is_MasterKey r) (is_Database r) (is_Redis r) (is_SaltKey r) (is_GeneralSettings r)
    (is_RouterSettings r) (is_LiteLLMSettings r) (is_Fallbacks r) (is_ConfigSync r) v
    (is_ServiceAccount r) (is_Deployment r) (is_PodScheduling r) (is_Ingress r) (is_Route r)
    (is_GatewayHTTPRoute r) (is_Security r) (is_HealthCheck r) (is_Resources r)
    (is_PodDisruptionBudget r) (is_TopologySpreadConstraints r) (is_ExtraEnvVars r)
    (is_ExtraEnvFrom r) (is_Callbacks r) (is_Observability r) (is_Upgrade r) (is_SSO r)
    (is_SCIM r) (is_JWTAuth r) (is_OAuth2Auth r) (is_Caching r) (is_PassThroughEndpoints r)
    (is_DefaultCustomerBudget r) (is_SecretManager r) (is_RBAC r) (is_Logging r) (is_AdminUI r)
    (is_TLS r) (is_ExtraVolumes r) (is_ExtraVolumeMounts r) (is_AllowedNamespaces r).
Definition with_is_Upgrade (v : option UpgradeSpec) r : LiteLLMInstanceSpec :=
  MkLiteLLMInstanceSpec (is_Image r) (is_Workload r) (is_Replicas r) (is_Autoscaling r)
    (is_MasterKey r) (is_Database r) (is_Redis r) (is_SaltKey r) (is_GeneralSettings r)
    (is_RouterSettings r) (is_LiteLLMSettings r) (is_Fallbacks r) (is_ConfigSync r) (is_Service r)
    (is_ServiceAccount r) (is_Deployment r) (is_PodScheduling r) (is_Ingress r) (is_Route r)
    (is_GatewayHTTPRoute r) (is_Security r) (is_HealthCheck r) (is_Resources r)
    (is_PodDisruptionBudget r) (is_TopologySpreadConstraints r) (is_ExtraEnvVars r)
    (is_ExtraEnvFrom r) (is_Callbacks r) (is_Observability r) v (is_SSO r) (is_SCIM r)
    (is_JWTAuth r) (is_OAuth2Auth r) (is_Caching r) (is_PassThroughEndpoints r)
    (is_DefaultCustomerBudget r) (is_SecretManager r) (is_RBAC r) (is_Logging r) (is_AdminUI r)
    (is_TLS r) (is_ExtraVolumes r) (is_ExtraVolumeMounts r) (is_AllowedNamespaces r).
Definition with_is_SCIM (v : option SCIMSpec) r : LiteLLMInstanceSpec :=
  MkLiteLLMInstanceSpec (is_Image r) (is_Workload r) (is_Replicas r) (is_Autoscaling r)
    (is_MasterKey r) (is_Database r) (is_Redis r) (is_SaltKey r) (is_GeneralSettings r)
    (is_RouterSettings r) (is_LiteLLMSettings r) (is_Fallbacks r) (is_ConfigSync r) (is_Service r)
    (is_ServiceAccount r) (is_Deployment r) (is_PodScheduling r) (is_Ingress r) (is_Route r)
    (is_GatewayHTTPRoute r) (is_Security r) (is_HealthCheck r) (is_Resources r)
    (is_PodDisruptionBudget r) (is_TopologySpreadConstraints r) (is_ExtraEnvVars r)
    (is_ExtraEnvFrom r) (is_Callbacks r) (is_Observability r) (is_Upgrade r) (is_SSO r) v
    (is_JWTAuth r) (is_OAuth2Auth r) (is_Caching r) (is_PassThroughEndpoints r)
    (is_DefaultCustomerBudget r) (is_SecretManager r) (is_RBAC r) (is_Logging r) (is_AdminUI r)
    (is_TLS r) (is_ExtraVolumes r) (is_ExtraVolumeMounts r) (is_AllowedNamespaces r).
Definition with_is_AllowedNamespaces (v : option AllowedNamespaces) r : LiteLLMInstanceSpec :=
  MkLiteLLMInstanceSpec (is_Image r) (is_Workload r) (is_Replicas r) (is_Autoscaling r)
    (is_MasterKey r) (is_Database r) (is_Redis r) (is_SaltKey r) (is_GeneralSettings r)
    (is_RouterSettings r) (is_LiteLLMSettings r) (is_Fallbacks r) (is_ConfigSync r) (is_Service r)
    (is_ServiceAccount r) (is_Deployment r) (is_PodScheduling r) (is_Ingress r) (is_Route r)
    (is_GatewayHTTPRoute r) (is_Security r) (is_HealthCheck r) (is_Resources r)
    (is_PodDisruptionBudget r) (is_TopologySpreadConstraints r) (is_ExtraEnvVars r)
    (is_ExtraEnvFrom r) (is_Callbacks r) (is_Observability r) (is_Upgrade r) (is_SSO r)
    (is_SCIM r) (is_JWTAuth r) (is_OAuth2Auth r) (is_Caching r) (is_PassThroughEndpoints r)
    (is_DefaultCustomerBudget r) (is_SecretManager r) (is_RBAC r) (is_Logging r) (is_AdminUI r)
    (is_TLS r) (is_ExtraVolumes r) (is_ExtraVolumeMounts r) v.
End LiteLLMInstanceSpec_updates.

Section LiteLLMVirtualKeySpec_updates.
Implicit Type r : LiteLLMVirtualKeySpec.
Definition with_ks_KeySecretName (v : string) r : LiteLLMVirtualKeySpec :=
  MkLiteLLMVirtualKeySpec (ks_InstanceRef r) (ks_KeyAlias r) (ks_TeamRef r) (ks_UserRef r)
    (ks_Models r) (ks_MaxBudget r) (ks_BudgetDuration r) (ks_ExpiresAt r) (ks_TPMLimit r)
    (ks_RPMLimit r) (ks_SoftBudget r) (ks_ModelRPMLimit r) (ks_ModelTPMLimit r) (ks_Metadata r)
    (ks_Blocked r) (ks_ObjectPermission r) (ks_ModelMaxBudget r) (ks_MaxParallelRequests r) v
    (ks_KeySecretTemplate r) (ks_Guardrails r).
Definition with_ks_KeySecretTemplate (v : option KeySecretTemplateSpec) r : LiteLLMVirtualKeySpec :=
  MkLiteLLMVirtualKeySpec (ks_InstanceRef r) (ks_KeyAlias r) (ks_TeamRef r) (ks_UserRef r)
    (ks_Models r) (ks_MaxBudget r) (ks_BudgetDuration r) (ks_ExpiresAt r) (ks_TPMLimit r)
    (ks_RPMLimit r) (ks_SoftBudget r) (ks_ModelRPMLimit r) (ks_ModelTPMLimit r) (ks_Metadata r)
    (ks_Blocked r) (ks_ObjectPermission r) (ks_ModelMaxBudget r) (ks_MaxParallelRequests r)
    (ks_KeySecretName r) v (ks_Guardrails r).
End LiteLLMVirtualKeySpec_updates.

Section ModelParams_updates.
Implicit Type r : ModelParams.
Definition with_mp_LiteLLMCredentialName (v : string) r : ModelParams :=
  MkModelParams (mp_Model r) v (mp_APIBase r) (mp_APIKey r) (mp_APIVersion r) (mp_RPM r)
    (mp_TPM r) (mp_Timeout r) (mp_StreamTimeout r) (mp_MaxRetries r) (mp_Tags r) (mp_Weight r)
    (mp_Order r) (mp_MaxInputTokens r) (mp_Temperature r) (mp_TopP r) (mp_MaxTokens r) (mp_Seed r)
    (mp_Organization r) (mp_AWSRegionName r) (mp_ExtraHeaders r) (mp_DropParams r)
    (mp_VertexProject r) (mp_VertexLocation r) (mp_VertexCredentials r).
Definition with_mp_APIBase (v : string) r : ModelParams :=
  MkModelParams (mp_Model r) (mp_LiteLLMCredentialName r) v (mp_APIKey r) (mp_APIVersion r)
    (mp_RPM r) (mp_TPM r) (mp_Timeout r) (mp_StreamTimeout r) (mp_MaxRetries r) (mp_Tags r)
    (mp_Weight r) (mp_Order r) (mp_MaxInputTokens r) (mp_Temperature r) (mp_TopP r)
    (mp_MaxTokens r) (mp_Seed r) (mp_Organization r) (mp_AWSRegionName r) (mp_ExtraHeaders r)
    (mp_DropParams r) (mp_VertexProject r) (mp_VertexLocation r) (mp_VertexCredentials r).
Definition with_mp_APIKey (v : string) r : ModelParams :=
  MkModelParams (mp_Model r) (mp_LiteLLMCredentialName r) (mp_APIBase r) v (mp_APIVersion r)
    (mp_RPM r) (mp_TPM r) (mp_Timeout r) (mp_StreamTimeout r) (mp_MaxRetries r) (mp_Tags r)
    (mp_Weight r) (mp_Order r) (mp_MaxInputTokens r) (mp_Temperature r) (mp_TopP r)
    (mp_MaxTokens r) (mp_Seed r) (mp_Organization r) (mp_AWSRegionName r) (mp_ExtraHeaders r)
    (mp_DropParams r) (mp_VertexProject r) (mp_VertexLocation r) (mp_VertexCredentials r).
Definition with_mp_APIVersion (v : string) r : ModelParams :=
  MkModelParams (mp_Model r) (mp_LiteLLMCredentialName r) (mp_APIBase r) (mp_APIKey r) v
    (mp_RPM r) (mp_TPM r) (mp_Timeout r) (mp_StreamTimeout r) (mp_MaxRetries r) (mp_Tags r)
    (mp_Weight r) (mp_Order r) (mp_MaxInputTokens r) (mp_Temperature r) (mp_TopP r)
    (mp_MaxTokens r) (mp_Seed r) (mp_Organization r) (mp_AWSRegionName r) (mp_ExtraHeaders r)
    (mp_DropParams r) (mp_VertexProject r) (mp_VertexLocation r) (mp_VertexCredentials r).
Definition with_mp_VertexCredentials (v : string) r : ModelParams :=
  MkModelParams (mp_Model r) (mp_LiteLLMCredentialName r) (mp_APIBase r) (mp_APIKey r)
    (mp_APIVersion r) (mp_RPM r) (mp_TPM r) (mp_Timeout r) (mp_StreamTimeout r) (mp_MaxRetries r)
    (mp_Tags r) (mp_Weight r) (mp_Order r) (mp_MaxInputTokens r) (mp_Temperature r) (mp_TopP r)
    (mp_MaxTokens r) (mp_Seed r) (mp_Organization r) (mp_AWSRegionName r) (mp_ExtraHeaders r)
    (mp_DropParams r) (mp_VertexProject r) (mp_VertexLocation r) v.
End ModelParams_updates.

Section ModelInfoReq_updates.
Implicit Type r : ModelInfoReq.
Definition with_mir_ID (v : string) r : ModelInfoReq :=
  MkModelInfoReq v (mir_MaxTokens r) (mir_InputCostPerToken r) (mir_OutputCostPerToken r)
    (mir_Mode r) (mir_BaseModel r) (mir_Tier r) (mir_RegionName r) (mir_AccessGroups r)
    (mir_SupportedEnvironments r) (mir_UseInPassThrough r) (mir_InputCostPerPixel r)
    (mir_InputCostPerSecond r) (mir_CacheReadInputTokenCost r) (mir_CacheCreationInputTokenCost r)
    (mir_DisableBackgroundHealthCheck r) (mir_HealthCheckTimeout r) (mir_HealthCheckMaxTokens r)
    (mir_HealthCheckMaxTokensReasoning r) (mir_HealthCheckMaxTokensNonReasoning r)
    (mir_HealthCheckSupportsMaxTokens r) (mir_HealthCheckReasoningEffort r)
    (mir_HealthCheckVoice r) (mir_HealthCheckModel r).
End ModelInfoReq_updates.

Section ModelCreateRequest_updates.
Implicit Type r : ModelCreateRequest.
Definition with_mcr_ModelInfo (v : option ModelInfoReq) r : ModelCreateRequest :=
  MkModelCreateRequest (mcr_ModelName r) (mcr_LiteLLMParams r) v (mcr_ModelID r).
Definition with_mcr_ModelID (v : string) r : ModelCreateRequest :=
  MkModelCreateRequest (mcr_ModelName r) (mcr_LiteLLMParams r) (mcr_ModelInfo r) v.
End ModelCreateRequest_updates.

Section BudgetRequest_updates.
Implicit Type r : BudgetRequest.
Definition with_br_BudgetID (v : string) r : BudgetRequest :=
  MkBudgetRequest v (br_MaxBudget r) (br_SoftBudget r) (br_BudgetDuration r) (br_TPMLimit r)
    (br_RPMLimit r) (br_MaxParallelRequests r) (br_ModelMaxBudget r).
End BudgetRequest_updates.

Section UserCreateRequest_updates.
Implicit Type r : UserCreateRequest.
Definition with_ucr_AutoCreateKey (v : option bool) r : UserCreateRequest :=
  MkUserCreateRequest (ucr_UserID r) (ucr_UserEmail r) (ucr_UserRole r) (ucr_MaxBudget r)
    (ucr_BudgetDuration r) (ucr_Models r) (ucr_Teams r) (ucr_TPMLimit r) (ucr_RPMLimit r)
    (ucr_SoftBudget r) (ucr_ModelRPMLimit r) (ucr_ModelTPMLimit r) (ucr_ObjectPermission r)
    (ucr_Metadata r) (ucr_Blocked r) v.
End UserCreateRequest_updates.
