(* ===== verification/World.v ===== *)
(** * The outside world of the operator

    - [KubeLib]: the helpers of the Kubernetes Go libraries the operator calls
      (apimachinery conditions, controller-runtime finalizers and owner
      references).  Their code is not part of this repository, so they are
      parameters, with their documented behaviour as the laws [KubeLibLaws].
    - [api_req]: one constructor per method of the services of
      internal/litellm that the controllers call through [litellm.Client].
    - [kcall]: the calls of a reconciler, with the type of their answers; every
      answer, failures included, is possible. *)

From S2P Require Import Prelude KubeTypes InstanceTypes Types.
From Stdlib Require Import Eqdep.

Class KubeLib := {
  ContainsFinalizer : ObjectMeta → string → bool;
  AddFinalizer : ObjectMeta → string → ObjectMeta;
  RemoveFinalizer : ObjectMeta → string → ObjectMeta;
  SetStatusCondition : list Condition → Condition → list Condition;
  RemoveStatusCondition : list Condition → string → list Condition;
  FindStatusCondition : list Condition → string → option Condition;
  LabelSelectorAsSelector : LabelSelector → res (gmap string string → bool) error;
  IsControlledBy : ObjectMeta → ObjectMeta → bool;
  SetControllerReference : ObjectMeta → ObjectMeta → res ObjectMeta error
}.

(** [o.Labels = l; o.Annotations = a]. *)
Definition set_labels_annotations (l : gmap string string) (a : option (gmap string string))
    (m : ObjectMeta) : ObjectMeta :=
  MkObjectMeta (Name m) (Namespace m) (UID m) (Generation m) l a (Finalizers m)
    (OwnerReferences m) (DeletionTimestamp m) (ResourceVersion m).

(** Documented behaviour of the helpers. *)
Class KubeLibLaws `{KubeLib} : Prop := {
  Contains_Add m f : ContainsFinalizer (AddFinalizer m f) f = true;
  Contains_Remove m f : ContainsFinalizer (RemoveFinalizer m f) f = false;
  Annotations_Add m f : Annotations (AddFinalizer m f) = Annotations m;
  Find_Set cs c : FindStatusCondition (SetStatusCondition cs c) (cond_Type c) = Some c;
  Find_Set_ne cs c t :
    t ≠ cond_Type c → FindStatusCondition (SetStatusCondition cs c) t = FindStatusCondition cs t;
  Find_Remove cs t : FindStatusCondition (RemoveStatusCondition cs t) t = None;
  Find_Remove_ne cs t t' :
    t' ≠ t → FindStatusCondition (RemoveStatusCondition cs t) t' = FindStatusCondition cs t';
  Controlled_Set owner m m' :
    SetControllerReference owner m = Ok m' → IsControlledBy m' owner = true;
  Labels_SetController owner m m' : SetControllerReference owner m = Ok m' → Labels m' = Labels m;
  Name_SetController owner m m' :
    SetControllerReference owner m = Ok m' → Name m' = Name m ∧ Namespace m' = Namespace m;
  Controlled_refs owner m m' :
    OwnerReferences m' = OwnerReferences m → IsControlledBy m' owner = IsControlledBy m owner
}.

Lemma Controlled_labels `{KubeLibLaws} owner m l a :
  IsControlledBy (set_labels_annotations l a m) owner = IsControlledBy m owner.
Proof. by apply Controlled_refs. Qed.

(** [encoding/json.Marshal] of the values that are hashed: Go derives the
    encoding from the struct tags by reflection. *)
Class JSONMarshal (A : Type) := json_Marshal : A → string.

(** [encoding/json.Unmarshal] into an [interface{}]. *)
Class JSONUnmarshal := json_Unmarshal : string → res JSONValue error.

(** [strconv.ParseFloat(s, 64)]. *)
Class ParseFloat := ParseFloat64 : string → res float64 error.

(** ** The LiteLLM API *)

(** A client made by [litellm.ClientFactory]: endpoint, master key and CA bundle
    ([""] when none). *)
Record ApiClient := MkApiClient {
  ac_endpoint : string;
  ac_masterKey : string;
  ac_CACert : string
}.

(** The services of a [litellm.Client] that delete an object by its identifier. *)
Inductive Service :=
| SModels | STeams | SUsers | SKeys | SOrganizations | SCustomers | SCredentials | SBudgets.

#[export] Instance Service_eq_dec : EqDecision Service.
Proof. solve_decision. Defined.

(** [ApiDelete s id] is the [Delete] method of each service, such as
    [Teams().Delete(ctx, id)]. *)
Inductive api_req :=
| ModelsCreate (r : ModelCreateRequest) | ModelsUpdate (r : ModelCreateRequest)
| ModelsList
| TeamsCreate (r : TeamCreateRequest) | TeamsUpdate (r : TeamUpdateRequest)
| TeamsGet (id : string) | TeamsList
| TeamsAddMember (id email role : string) | TeamsRemoveMember (id email : string)
| TeamsListMembers (id : string)
| TeamsSetCallback (id : string) (r : TeamCallbackRequest) | TeamsDisableLogging (id : string)
| UsersCreate (r : UserCreateRequest) | UsersUpdate (r : UserCreateRequest)
| UsersSetPassword (id password : string) 
| UsersGet (id : string) | UsersList
| KeysGenerate (r : KeyGenerateRequest) | KeysUpdate (r : KeyUpdateRequest)
| KeysGet (token : string) | KeysList
| OrganizationsCreate (r : OrganizationCreateRequest)
| OrganizationsUpdate (r : OrganizationUpdateRequest)
| OrganizationsGet (id : string) | OrganizationsList
| OrganizationsAddMember (r : OrgMemberAddRequest)
| OrganizationsDeleteMember (id userID : string)
| CustomersCreate (r : CustomerCreateRequest) | CustomersUpdate (r : CustomerUpdateRequest)
| CustomersGet (id : string) | CustomersList
| CredentialsCreate (p : CredentialPayload) | CredentialsUpdate (p : CredentialPayload)
| CredentialsGet (name : string)
| BudgetsCreate (r : BudgetRequest) | BudgetsUpdate (r : BudgetRequest)
| BudgetsGet (id : string)
| HealthCheck | HealthCheckLiveness | HealthReadiness | HealthCachePing
| ApiDelete (s : Service) (id : string).

(** Answers.  A method returning only an [error] answers an [option error].
    [Budgets().Get] is the only one that returns a nil pointer without an error
    (no matching row), hence the [option] in its answer. *)
Definition api_ans (r : api_req) : Type :=
  match r with
  | ModelsCreate _ => res ModelCreateResponse error
  | ModelsList => res (list ModelInfoResponse) error
  | TeamsCreate _ => res TeamCreateResponse error
  | TeamsGet _ => res TeamInfo error
  | TeamsList => res (list TeamInfo) error
  | TeamsListMembers _ => res (list TeamMemberInfo) error
  | UsersCreate _ => res UserCreateResponse error
  | UsersGet _ => res UserInfo error
  | UsersList => res (list UserInfo) error
  | KeysGenerate _ => res KeyGenerateResponse error
  | KeysGet _ => res KeyInfo error
  | KeysList => res (list KeyInfo) error
  | OrganizationsCreate _ => res OrganizationCreateResponse error
  | OrganizationsGet _ => res OrganizationInfo error
  | OrganizationsList => res (list OrganizationInfo) error
  | CustomersCreate _ | CustomersUpdate _ => res CustomerInfo error
  | CustomersGet _ => res CustomerInfo error
  | CustomersList => res (list CustomerInfo) error
  | CredentialsGet _ => res CredentialInfoResponse error
  | BudgetsCreate _ => res BudgetResponse error
  | BudgetsGet _ => res (option BudgetInfo) error
  | HealthCheck => res HealthCheckResponse error
  | HealthReadiness => res ReadinessResponse error
  | HealthCachePing => res CachePingResponse error
  | _ => option error
  end.

(** ** Calls of a reconciler *)

Inductive kcall :=
| KGet (k : Kind) (ns name : string)
| KList (k : Kind) (ns : option string)
| KUpdate (k : Kind) (o : obj k)
| KStatusUpdate (k : Kind) (o : obj k)
| KStatusPatch (k : Kind) (o base : obj k)
| KGetSecret (ns name : string)
| KReadSecret (ns name : string)
| KCreateSecret (s : Secret)
| KUpdateSecret (s : Secret)
| KGetConfigMap (ns name : string)
| KGetNamespace (name : string)
| KGetRes (r : Res) (ns name : string)
| KCreateRes (r : Res) (o : res_ty r)
| KUpdateRes (r : Res) (o : res_ty r)
| KListPods (ns : string) (labels : gmap string string)
| KEvent (k : Kind) (o : obj k) (etype reason : string) (msg : text)
| KNow
| KRandom (n : nat)
| KChoose (n : nat)
| KApi (c : ApiClient) (r : api_req).

(** The client of controller-runtime overwrites the object passed to [Update],
    [Status().Update] and [Status().Patch] with the server's version, hence an
    object in their answers.  [KGetNamespace] answers the labels, [KRandom n] is a
    read of [n] bytes from [crypto/rand]. *)
Definition kans (c : kcall) : Type :=
  match c with
  | KGet k _ _ => res (obj k) error
  | KList k _ => res (list (obj k)) error
  | KUpdate k _ => res (obj k) error
  | KStatusUpdate k _ => res (obj k) error
  | KStatusPatch k _ _ => res (obj k) error
  | KGetSecret _ _ | KReadSecret _ _ => res Secret error
  | KCreateSecret _ | KUpdateSecret _ => option error
  | KGetConfigMap _ _ => res ConfigMap error
  | KGetNamespace _ => res (gmap string string) error
  | KGetRes r _ _ => res (res_ty r) error
  | KCreateRes _ _ | KUpdateRes _ _ => option error
  | KListPods _ _ => res (list Pod) error
  | KEvent _ _ _ _ _ => unit
  | KNow => Time
  | KRandom _ => res (list Z) error
  | KChoose _ => nat
  | KApi _ r => api_ans r
  end.

Definition K : Sig := MkSig kcall kans.

Notation kprog := (prog K).
Notation khist := (hist K).
Abbreviation kalways G p := (@always K G _ p).
Notation KEv c x := (@Ev K c x).

Definition kcallp (c : kcall) : kprog (kans c) := @call K c.
Definition api (c : ApiClient) (r : api_req) : kprog (api_ans r) := kcallp (KApi c r).

Lemma wp_kcall G R (c : kcall) h (Q : khist → kans c → Prop) :
  G h c → (∀ x, R h c x → Q (h ++ [KEv c x]) x) → wp G R (kcallp c) h Q.
Proof. done. Qed.

(** Writes of the same kind carry the same object. *)
Lemma KUpdate_inj k (o o' : obj k) : KUpdate k o = KUpdate k o' → o = o'.
Proof. intros Heq. injection Heq as Heq. by apply inj_pair2 in Heq. Qed.
Lemma KStatusUpdate_inj k (o o' : obj k) : KStatusUpdate k o = KStatusUpdate k o' → o = o'.
Proof. intros Heq. injection Heq as Heq. by apply inj_pair2 in Heq. Qed.
Lemma KStatusPatch_inj k (o o' base base' : obj k) :
  KStatusPatch k o base = KStatusPatch k o' base' → o = o'.
Proof. intros Heq. injection Heq as Heq _. by apply inj_pair2 in Heq. Qed.

Lemma KCreateRes_inj r (o o' : res_ty r) : KCreateRes r o = KCreateRes r o' → o = o'.
Proof. intros Heq. injection Heq as Heq. by apply inj_pair2 in Heq. Qed.
Lemma KUpdateRes_inj r (o o' : res_ty r) : KUpdateRes r o = KUpdateRes r o' → o = o'.
Proof. intros Heq. injection Heq as Heq. by apply inj_pair2 in Heq. Qed.

Definition EventTypeNormal : string := "Normal".
Definition EventTypeWarning : string := "Warning".

(** [emitEvent] with a recorder set, as in a running manager. *)
Definition emitEvent {k} (o : obj k) (etype reason : string) (fmt : string) (args : list farg) :
    kprog unit :=
  kcallp (KEvent k o etype reason (Sprintf fmt args)).

Lemma wp_emitEvent (G : khist → kcall → Prop) R {k} (o : obj k) etype reason fmt args h
    (Q : khist → unit → Prop) :
  G h (KEvent k o etype reason (Sprintf fmt args)) →
  Q (h ++ [KEv (KEvent k o etype reason (Sprintf fmt args)) tt]) tt →
  wp G R (emitEvent o etype reason fmt args) h Q.
Proof. intros HG HQ. split; [done|]. by intros [] _. Qed.

(** Calls that change nothing outside: reads, events, the clock and the order
    of a map iteration. *)
Definition benign (c : kcall) : bool :=
  match c with
  | KGet _ _ _ | KList _ _ | KGetSecret _ _ | KReadSecret _ _ | KGetConfigMap _ _
  | KGetNamespace _ | KGetRes _ _ _ | KListPods _ _ | KEvent _ _ _ _ _ | KNow | KRandom _ | KChoose _ => true
  | _ => false
  end.

(** A guarantee that asks nothing of the benign calls. *)
Class benign_ok (G : khist → kcall → Prop) : Prop :=
  benign_holds : ∀ h c, benign c = true → G h c.

(** The guarantee of a program that changes nothing outside. *)
Definition benign_only : khist → kcall → Prop := λ _ c, benign c = true.

#[export] Instance benign_only_ok : benign_ok benign_only.
Proof. by intros h c. Qed.

(** [h'] extends [h] by events whose calls satisfy [P]. *)
Definition extends (P : kcall → Prop) (h h' : khist) : Prop :=
  ∃ t : khist, h' = h ++ t ∧ ∀ e : event K, e ∈ t → P (ev_op e).

Abbreviation benign_ext := (extends (λ c, benign c = true)).

Lemma extends_refl P h : extends P h h.
Proof. exists []. rewrite app_nil_r. split; [done|]. by intros e ?%not_elem_of_nil. Qed.

Lemma extends_trans P h1 h2 h3 : extends P h1 h2 → extends P h2 h3 → extends P h1 h3.
Proof.
  intros (t1 & -> & H1) (t2 & -> & H2). exists (t1 ++ t2). rewrite app_assoc.
  split; [done|]. intros e [?|?]%elem_of_app; eauto.
Qed.

Lemma extends_call (P : kcall → Prop) h c x : P c → extends P h (h ++ [KEv c x]).
Proof. intros HP. exists [KEv c x]. split; [done|]. by intros e ->%list_elem_of_singleton. Qed.

Lemma extends_ev (P : kcall → Prop) h (e : event K) : P (ev_op e) → extends P h (h ++ [e]).
Proof. intros HP. exists [e]. split; [done|]. by intros e' ->%list_elem_of_singleton. Qed.

Lemma extends_step (P : kcall → Prop) h c x h' :
  P c → extends P (h ++ [KEv c x]) h' → extends P h h'.
Proof. intros. eapply extends_trans; [by apply extends_call|done]. Qed.

Lemma extends_mono (P P' : kcall → Prop) h h' :
  (∀ c, P c → P' c) → extends P h h' → extends P' h h'.
Proof. intros HP (t & -> & Ht). exists t. eauto. Qed.

Lemma extends_elem P h h' e : extends P h h' → e ∈ h → e ∈ h'.
Proof. intros (t & -> & _) He. apply elem_of_app. by left. Qed.

(** After [h], and benign calls, the guarantee asks nothing of benign calls. *)
Definition benign_from (G : khist → kcall → Prop) (h : khist) : Prop :=
  ∀ h' c, benign_ext h h' → benign c = true → G h' c.

Lemma benign_from_ok G h : benign_ok G → benign_from G h.
Proof. intros HG h' c _. apply HG. Qed.

Lemma benign_from_ext G h h' : benign_from G h → benign_ext h h' → benign_from G h'.
Proof. intros HG Hext h2 c H2. apply HG. by eapply extends_trans. Qed.

Lemma benign_from_holds G h c : benign_from G h → benign c = true → G h c.
Proof. intros HG. apply HG, extends_refl. Qed.

#[export] Hint Resolve extends_refl extends_call benign_from_ok benign_from_ext : go.

(** Symbolic execution up to the next call of a reconciler. *)
Ltac kstep :=
  lazymatch goal with
  | |- wp _ _ (kcallp ?c) _ _ => apply (wp_kcall _ _ c); [|intros ? ?]
  | |- wp _ _ (api ?c ?r) _ _ => apply (wp_kcall _ _ (KApi c r)); [|intros ? ?]
  | |- wp _ _ (emitEvent ?o ?t ?r ?f ?a) _ _ =>
      apply (wp_emitEvent _ _ o t r f a)
  | _ => wp_step
  end.

(** ** Iteration order of Go maps

    [for k, v := range m] visits the entries in an arbitrary order, chosen anew
    at each loop: the outside picks, again and again, one of the remaining
    entries. *)

Definition take_nth {A} (n : nat) (l : list A) : option (A * list A) :=
  match l !! n with
  | Some x => Some (x, take n l ++ drop (S n) l)
  | None => None
  end.

Fixpoint any_order {A} (fuel : nat) (l : list A) : kprog (list A) :=
  match fuel, l with
  | S fuel, x :: l' =>
      n ← kcallp (KChoose (length l));
      match take_nth (n mod length l)%nat l with
      | Some (y, rest) => r ← any_order fuel rest; mret (y :: r)
      | None => mret (x :: l')
      end
  | _, _ => mret l
  end.

Definition range_map {V} (m : gmap string V) : kprog (list (string * V)) :=
  any_order (length (map_to_list m)) (map_to_list m).

Lemma take_nth_Permutation {A} n (l : list A) y rest :
  take_nth n l = Some (y, rest) → l ≡ₚ y :: rest.
Proof.
  unfold take_nth. destruct (l !! n) as [x|] eqn:Hx; [|done]. intros [= -> <-].
  rewrite <- (take_drop_middle l n y Hx) at 1. by rewrite Permutation_middle.
Qed.


Lemma wp_any_order {A} G R fuel (l : list A) h (Q : khist → list A → Prop) :
  benign_ok G →
  (∀ h' l', l' ≡ₚ l → benign_ext h h' → Q h' l') →
  wp G R (any_order fuel l) h Q.
Proof.
  intros HG. revert l h Q. induction fuel as [|fuel IH]; intros l h Q HQ; cbn [any_order].
  { apply HQ; eauto using extends_refl. }
  destruct l as [|x l']; [apply HQ; eauto using extends_refl|].
  apply wp_bind. kstep; [by apply benign_holds|].
  destruct (take_nth _ _) as [[y rest]|] eqn:Ht;
    [|apply wp_ret, HQ; [done|by apply extends_call]].
  apply wp_bind, IH. intros h' r Hr Hc. apply wp_ret, HQ; [|by eapply extends_step; [|exact Hc]].
  rewrite Hr. symmetry. by eapply take_nth_Permutation.
Qed.

Lemma wp_range_map {V} G R (m : gmap string V) h (Q : khist → list (string * V) → Prop) :
  benign_ok G →
  (∀ h' l, l ≡ₚ map_to_list m → benign_ext h h' → Q h' l) →
  wp G R (range_map m) h Q.
Proof. intros HG HQ. by apply wp_any_order. Qed.

(** ** A library with the documented behaviour

    Used to run the components on concrete inputs. *)

Module Documented.
Definition set_finalizers (m : ObjectMeta) (l : list string) : ObjectMeta :=
  MkObjectMeta (Name m) (Namespace m) (UID m) (Generation m) (Labels m)
    (Annotations m) l (OwnerReferences m) (DeletionTimestamp m) (ResourceVersion m).

Definition contains (m : ObjectMeta) (f : string) : bool := bool_decide (f ∈ Finalizers m).

Definition add (m : ObjectMeta) (f : string) : ObjectMeta :=
  if contains m f then m else set_finalizers m (Finalizers m ++ [f]).

Definition remove (m : ObjectMeta) (f : string) : ObjectMeta :=
  set_finalizers m (filter (λ g, g ≠ f) (Finalizers m)).

Fixpoint set_cond (cs : list Condition) (c : Condition) : list Condition :=
  match cs with
  | [] => [c]
  | d :: cs' => if decide (cond_Type d = cond_Type c) then c :: cs' else d :: set_cond cs' c
  end.

Definition remove_cond (cs : list Condition) (t : string) : list Condition :=
  filter (λ d, cond_Type d ≠ t) cs.

Fixpoint find_cond (cs : list Condition) (t : string) : option Condition :=
  match cs with
  | [] => None
  | d :: cs' => if decide (cond_Type d = t) then Some d else find_cond cs' t
  end.

Definition requirement_matches (r : LabelSelectorRequirement) (l : gmap string string) : bool :=
  if decide (lsr_Operator r = "In") then
    match l !! lsr_Key r with Some v => bool_decide (v ∈ lsr_Values r) | None => false end
  else if decide (lsr_Operator r = "NotIn") then
    match l !! lsr_Key r with Some v => negb (bool_decide (v ∈ lsr_Values r)) | None => true end
  else if decide (lsr_Operator r = "Exists") then bool_decide (is_Some (l !! lsr_Key r))
  else bool_decide (l !! lsr_Key r = None).

Definition selector_matches (s : LabelSelector) (l : gmap string string) : bool :=
  forallb (λ '(k, v), bool_decide (l !! k = Some v)) (map_to_list (ls_MatchLabels s)) &&
  forallb (λ r, requirement_matches r l) (ls_MatchExpressions s).

Definition controlled_by (m owner : ObjectMeta) : bool :=
  existsb (λ r, or_Controller r && bool_decide (or_UID r = UID owner)) (OwnerReferences m).

Definition set_controller (owner m : ObjectMeta) : res ObjectMeta error :=
  if existsb or_Controller (OwnerReferences m) && negb (controlled_by m owner)
  then Err (ErrLib "already owned by another controller")
  else Ok (MkObjectMeta (Name m) (Namespace m) (UID m) (Generation m) (Labels m) (Annotations m)
             (Finalizers m)
             (OwnerReferences m ++ [MkOwnerReference "" "" (Name owner) (UID owner) true])
             (DeletionTimestamp m) (ResourceVersion m)).

#[export] Instance lib : KubeLib := {|
  ContainsFinalizer := contains;
  AddFinalizer := add;
  RemoveFinalizer := remove;
  SetStatusCondition := set_cond;
  RemoveStatusCondition := remove_cond;
  FindStatusCondition := find_cond;
  LabelSelectorAsSelector s := Ok (selector_matches s);
  IsControlledBy := controlled_by;
  SetControllerReference := set_controller
|}.

Lemma find_set cs c : find_cond (set_cond cs c) (cond_Type c) = Some c.
Proof. induction cs as [|d cs IH]; simpl; repeat case_decide; simpl; repeat case_decide; done. Qed.

Lemma find_set_ne cs c t : t ≠ cond_Type c → find_cond (set_cond cs c) t = find_cond cs t.
Proof.
  intros Hne. induction cs as [|d cs IH]; simpl; repeat (case_decide; simpl); naive_solver congruence.
Qed.

Lemma find_remove cs t : find_cond (remove_cond cs t) t = None.
Proof.
  unfold remove_cond. induction cs as [|d cs IH]; [done|].
  rewrite filter_cons. case_decide; simpl; [by rewrite decide_False|done].
Qed.

Lemma find_remove_ne cs t t' : t' ≠ t → find_cond (remove_cond cs t) t' = find_cond cs t'.
Proof.
  intros Hne. unfold remove_cond. induction cs as [|d cs IH]; [done|].
  rewrite filter_cons. repeat (case_decide; simpl); congruence.
Qed.

#[export] Instance lib_laws : @KubeLibLaws lib.
Proof.
  split; simpl.
  - intros m f. unfold add. destruct (contains m f) eqn:Hc; [done|].
    unfold contains. simpl. apply bool_decide_eq_true. set_solver.
  - intros m f. unfold contains, remove. simpl. apply bool_decide_eq_false.
    rewrite list_elem_of_filter. naive_solver.
  - intros m f. unfold add. by destruct (contains m f).
  - apply find_set.
  - intros cs c t. apply find_set_ne.
  - apply find_remove.
  - intros cs t t'. apply find_remove_ne.
  - intros owner m m'. unfold set_controller. case_match; intros [= <-].
    unfold controlled_by. simpl. rewrite existsb_app. simpl.
    rewrite bool_decide_true by done. by rewrite orb_true_r.
  - intros owner m m'. unfold set_controller. case_match; by intros [= <-].
  - intros owner m m'. unfold set_controller. case_match; by intros [= <-].
  - intros owner m m' Hr. unfold controlled_by. by rewrite Hr.
Qed.
End Documented.

(** A guarantee that holds of any call once its evidence is in the history. *)
Lemma wp_evidence {A} (G : khist → kcall → Prop) R (p : kprog A) h :
  (∀ h' c, extends (λ _, True) h h' → G h' c) → wp G R p h (λ h' _, extends (λ _, True) h h').
Proof.
  revert h. induction p as [a|c k IH]; intros h HG; [apply extends_refl|].
  split; [apply HG, extends_refl|]. intros x _.
  assert (extends (λ _, True) h (h ++ [KEv c x])) as Hx by (by apply extends_call).
  eapply wp_mono; [apply IH|].
  - intros h' c' Hext. apply HG. by eapply extends_trans.
  - intros h' a Hext. by eapply extends_trans.
Qed.

(** A guarantee weakened by the evidence of the history. *)
Lemma wp_weaken_from {A} (G G' : khist → kcall → Prop) R (p : kprog A) h (Q : khist → A → Prop) :
  wp G R p h Q →
  (∀ h' c, extends (λ _, True) h h' → G h' c → G' h' c) →
  wp G' R p h Q.
Proof.
  revert h. induction p as [a|c k IH]; intros h; [done|]. intros [HG Hk] HG'.
  split; [by apply HG'; [apply extends_refl|]|]. intros x Hx. apply IH; [by apply Hk|].
  intros h' c' Hext. apply HG'. by eapply extends_step; [|exact Hext].
Qed.

(** The events of a program whose calls all satisfy [P]. *)
Lemma wp_extends {A} (P : kcall → Prop) R (p : kprog A) (h : khist) (Q : khist → A → Prop) :
  wp (λ (_ : khist) (c : kcall), P c) R p h Q →
  wp (λ (_ : khist) (c : kcall), P c) R p h (λ h' a, extends P h h' ∧ Q h' a).
Proof.
  revert h. induction p as [a|c k IH]; intros h; [split; [apply extends_refl|done]|].
  intros [HP Hk]. split; [done|]. intros x Hx. eapply wp_mono; [by apply IH, Hk|].
  intros h' a [Hext HQ]. split; [|done]. by eapply extends_step.
Qed.

Definition no_guarantee : khist → kcall → Prop := λ _ _, True.

#[export] Instance no_guarantee_ok : benign_ok no_guarantee.
Proof. by intros h c. Qed.

(** Properties of the complete executions, by weakest precondition. *)
Lemma kruns_post {A} (p : kprog A) t a (Q : khist → A → Prop) :
  wp no_guarantee any_answer p [] Q → runs p t a → Q t a.
Proof. apply wp_runs_any. Qed.

Ltac by_wp t out :=
  let Hr := fresh in
  intros Hr; pattern t, out; refine (kruns_post _ _ _ _ _ Hr); clear Hr t out.

(** Discharges the guarantee of a benign call. *)
Ltac benign_tac := first [by apply benign_holds | by apply benign_from_holds].

(** Runs through binds, benign calls and matches on data. *)
Ltac kgo :=
  repeat first
    [ kstep; [benign_tac|]
    | kstep
    | progress cbn beta iota
    | case_match; simplify_eq/= ].
