(* ===== verification/Sha256.v ===== *)
(** * SHA-256 and the spec hash

    [crypto/sha256] on byte strings (FIPS 180-4), hexadecimal encoding, and the
    two digests the operator computes: [computeSpecHash]
    (internal/controller/common.go) and [hashWriter]
    (internal/controller/secret_rollout.go).  Words are 32-bit integers in [Z]
    with the wrap-around written out; the digests are executable and checked on
    the standard test vectors. *)

From S2P Require Import Prelude KubeTypes InstanceTypes Types World.
From Stdlib Require Import Ascii.

Definition byte_of_ascii (a : ascii) : Z := Z.of_N (N_of_ascii a).
Definition ascii_of_byte (b : Z) : ascii := ascii_of_N (Z.to_N b).
Definition bytes_of (s : string) : list Z := byte_of_ascii <$> String.list_ascii_of_string s.
Definition string_of (l : list Z) : string := String.string_of_list_ascii (ascii_of_byte <$> l).

Module SHA.
Definition w32 (x : Z) : Z := Z.land x 0xffffffff.
Definition add32 (x y : Z) : Z := w32 (x + y).
Definition rotr (n x : Z) : Z := Z.lor (Z.shiftr x n) (w32 (Z.shiftl x (32 - n))).
Definition xor3 (x y z : Z) : Z := Z.lxor (Z.lxor x y) z.
Definition ch (x y z : Z) : Z := Z.lxor (Z.land x y) (Z.land (Z.lxor x 0xffffffff) z).
Definition maj (x y z : Z) : Z := xor3 (Z.land x y) (Z.land x z) (Z.land y z).
Definition big0 (x : Z) : Z := xor3 (rotr 2 x) (rotr 13 x) (rotr 22 x).
Definition big1 (x : Z) : Z := xor3 (rotr 6 x) (rotr 11 x) (rotr 25 x).
Definition small0 (x : Z) : Z := xor3 (rotr 7 x) (rotr 18 x) (Z.shiftr x 3).
Definition small1 (x : Z) : Z := xor3 (rotr 17 x) (rotr 19 x) (Z.shiftr x 10).

(** The first 32 bits of the fractional part of [p^(1/k)] are computed from
    the primes, as the standard defines the constants. *)
Definition primes : list Z :=
  [2; 3; 5; 7; 11; 13; 17; 19; 23; 29; 31; 37; 41; 43; 47; 53; 59; 61; 67; 71; 73; 79; 83; 89;
   97; 101; 103; 107; 109; 113; 127; 131; 137; 139; 149; 151; 157; 163; 167; 173; 179; 181; 191;
   193; 197; 199; 211; 223; 227; 229; 233; 239; 241; 251; 257; 263; 269; 271; 277; 281; 283; 293;
   307; 311].

(** Largest [x < 2^bits + base] with [x^3 <= n], bit by bit. *)
Fixpoint icbrt (bits : nat) (n acc : Z) : Z :=
  match bits with
  | O => acc
  | S b => let x := acc + Z.shiftl 1 (Z.of_nat b) in
           icbrt b n (if x * x * x <=? n then x else acc)
  end.

Definition round_constants : list Z :=
  Eval vm_compute in (λ p, w32 (icbrt 40 (Z.shiftl p 96) 0)) <$> primes.
Definition initial_state : list Z :=
  Eval vm_compute in (λ p, w32 (Z.sqrt (Z.shiftl p 64))) <$> take 8 primes.

Fixpoint be_bytes (n : nat) (x : Z) : list Z :=
  match n with
  | O => []
  | S n' => Z.land (Z.shiftr x (8 * Z.of_nat n')) 255 :: be_bytes n' x
  end.

Definition pad (m : list Z) : list Z :=
  let l := Z.of_nat (length m) in
  m ++ [128] ++ replicate (Z.to_nat ((55 - l) mod 64)) 0 ++ be_bytes 8 (8 * l).

Fixpoint words (n : nat) (l : list Z) : list Z :=
  match n, l with
  | S n', a :: b :: c :: d :: l' =>
      Z.lor (Z.shiftl a 24) (Z.lor (Z.shiftl b 16) (Z.lor (Z.shiftl c 8) d)) :: words n' l'
  | _, _ => []
  end.

(** The message schedule, kept in reverse. *)
Fixpoint extend (n : nat) (rev_w : list Z) : list Z :=
  match n with
  | O => rev_w
  | S n' =>
      let at_ i := nth i rev_w 0 in
      let x := add32 (add32 (small1 (at_ 1%nat)) (at_ 6%nat))
                     (add32 (small0 (at_ 14%nat)) (at_ 15%nat)) in
      extend n' (x :: rev_w)
  end.

Definition step (st : list Z) (kw : Z * Z) : list Z :=
  match st with
  | [a; b; c; d; e; f; g; h] =>
      let t1 := add32 (add32 h (big1 e)) (add32 (ch e f g) (add32 (fst kw) (snd kw))) in
      let t2 := add32 (big0 a) (maj a b c) in
      [add32 t1 t2; a; b; c; add32 d t1; e; f; g]
  | _ => st
  end.

Definition compress (st block : list Z) : list Z :=
  let w := rev (extend 48 (rev (words 16 block))) in
  zip_with add32 st (fold_left step (zip round_constants w) st).

Fixpoint blocks (n : nat) (st m : list Z) : list Z :=
  match n with
  | O => st
  | S n' => blocks n' (compress st (take 64 m)) (drop 64 m)
  end.

Definition sum256 (m : list Z) : list Z :=
  let p := pad m in
  mjoin (be_bytes 4 <$> blocks (length p / 64) initial_state p).
End SHA.

Definition hex_digit (d : Z) : Z := if d <? 10 then 48 + d else 87 + d.

(** [hex.EncodeToString]. *)
Definition hex_EncodeToString (l : list Z) : string :=
  string_of (l ≫= λ b, [hex_digit (Z.shiftr b 4); hex_digit (Z.land b 15)]).

Definition sha256_Sum256 (s : list Z) : list Z := SHA.sum256 s.

Example sha256_empty :
  hex_EncodeToString (sha256_Sum256 (bytes_of "")) =
  "e3b0c44298fc1c149afbf4c8996fb92427ae41e4649b934ca495991b7852b855".
Proof. vm_compute. reflexivity. Qed.

Example sha256_abc :
  hex_EncodeToString (sha256_Sum256 (bytes_of "abc")) =
  "ba7816bf8f01cfea414140de5dae2223b00361a396177a9cb410ff61f20015ad".
Proof. vm_compute. reflexivity. Qed.

Example sha256_two_blocks :
  hex_EncodeToString (sha256_Sum256
    (bytes_of "abcdbcdecdefdefgefghfghighijhijkijkljklmklmnlmnomnopnopq")) =
  "248d6a61d20638b8e5c026930c3e6039a33ce45964ff2167f6ecedd419db06c1".
Proof. vm_compute. reflexivity. Qed.

(** ** [computeSpecHash] *)

Definition computeSpecHash {A} `{JSONMarshal A} (spec : A) : string :=
  let data := json_Marshal spec in
  let hash := sha256_Sum256 (bytes_of data) in
  hex_EncodeToString (take 8 hash).

#[global] Arguments computeSpecHash : simpl never.

Lemma be_bytes_length n x : length (SHA.be_bytes n x) = n.
Proof. induction n; simpl; by f_equal. Qed.

Lemma words_length n l : (4 * n ≤ length l)%nat → length (SHA.words n l) = n.
Proof.
  revert l. induction n as [|n IH]; intros l Hl; [done|].
  destruct l as [|a [|b [|c [|d l]]]]; simpl in *; try lia. rewrite IH; lia.
Qed.

Lemma extend_length n l : length (SHA.extend n l) = (n + length l)%nat.
Proof. revert l. induction n as [|n IH]; intros l; simpl; [done|]. rewrite IH. simpl. lia. Qed.

Lemma step_length st kw : length (SHA.step st kw) = length st.
Proof. by destruct st as [|? [|? [|? [|? [|? [|? [|? [|? [|? ?]]]]]]]]]. Qed.

Lemma compress_length st b : length (SHA.compress st b) = length st.
Proof.
  unfold SHA.compress. generalize (zip SHA.round_constants (rev (SHA.extend 48 (rev (SHA.words 16 b))))).
  intros l. assert (length (fold_left SHA.step l st) = length st) as Hl.
  { revert st. induction l as [|kw l IH]; intros st; simpl; [done|]. by rewrite IH, step_length. }
  rewrite length_zip_with, Hl. lia.
Qed.

Lemma blocks_length n st m : length (SHA.blocks n st m) = length st.
Proof.
  revert st m. induction n as [|n IH]; intros st m; simpl; [done|].
  by rewrite IH, compress_length.
Qed.

Lemma sum256_length m : length (SHA.sum256 m) = 32%nat.
Proof.
  unfold SHA.sum256.
  assert (length (SHA.blocks (length (SHA.pad m) / 64) SHA.initial_state (SHA.pad m)) = 8%nat) as H.
  { by rewrite blocks_length. }
  revert H. generalize (SHA.blocks (length (SHA.pad m) / 64) SHA.initial_state (SHA.pad m)).
  intros l Hl. destruct l as [|? [|? [|? [|? [|? [|? [|? [|? [|? ?]]]]]]]]]; simplify_eq/=.
  reflexivity.
Qed.

Lemma string_of_length l : String.length (string_of l) = length l.
Proof. unfold string_of. induction l as [|b l IH]; simpl; [done|]. by f_equal. Qed.

Lemma hex_length l : String.length (hex_EncodeToString l) = (2 * length l)%nat.
Proof.
  unfold hex_EncodeToString. rewrite string_of_length. induction l as [|b l IH]; [done|].
  cbn [mbind list_bind]. rewrite length_app, IH. simpl. lia.
Qed.

Lemma computeSpecHash_length {A} `{JSONMarshal A} (x : A) :
  String.length (computeSpecHash x) = 16%nat.
Proof.
  unfold computeSpecHash, sha256_Sum256. rewrite hex_length, length_take, sum256_length. done.
Qed.

(** The hash is never the empty string, the value an absent annotation reads as. *)
Lemma computeSpecHash_nonempty {A} `{JSONMarshal A} (x : A) : computeSpecHash x ≠ "".
Proof. intros Hx. pose proof (computeSpecHash_length x) as Hl. by rewrite Hx in Hl. Qed.

#[export] Hint Resolve computeSpecHash_nonempty : go.
