(* ===== verification/Common.v ===== *)
(** * Shared helpers of the controllers (internal/controller/common.go)

    Constants, the reference from a resource to its instance and the checks that
    guard it ([resolveInstanceRef], [instanceAllowsNamespace],
    [instanceAllowsKind]), Secrets, endpoints, the classification of LiteLLM
    errors (internal/litellm/client.go) and [markAdopted]. *)

From S2P Require Import Prelude KubeTypes InstanceTypes Types World Sha256.
From stdpp Require Import pretty.
From Stdlib Require Import Ascii.
Open Scope Z_scope.

(** ** Constants *)

Definition FinalizerName : string := "litellm.palena.ai/finalizer".
Definition enterpriseLicenseRetryInterval : Z := 2 * time_Minute.
Definition caCrtKey : string := "ca.crt".
Definition AnnotationSyncHash : string := "litellm.palena.ai/sync-hash".
Definition AnnotationAdopted : string := "litellm.palena.ai/adopted".
Definition AnnotationAdoptedValue : string := "true".
Definition AnnotationSecretHash : string := "litellm.palena.ai/secret-hash".
Definition AnnotationConfigHash : string := "litellm.palena.ai/config-hash".
Definition AnnotationAuthMode : string := "litellm.palena.ai/auth-mode".
Definition LabelInstanceName : string := "litellm.palena.ai/instance".
Definition LabelResourceType : string := "litellm.palena.ai/resource-type".
Definition LabelApp : string := "app.kubernetes.io/name".
Definition LabelManagedBy : string := "app.kubernetes.io/managed-by".
Definition ConditionReady : string := "Ready".
Definition ConditionDatabaseReady : string := "DatabaseReady".
Definition ConditionRedisReady : string := "RedisReady".
Definition ConditionPodsHealthy : string := "PodsHealthy".
Definition ConditionWorkloadUnmanaged : string := "WorkloadUnmanaged".
Definition ConditionConfigSynced : string := "ConfigSynced".
Definition ConditionSynced : string := "Synced".
Definition ConditionInitialPasswordApplied : string := "InitialPasswordApplied".

Definition EventReasonCreated : string := "Created".
Definition EventReasonUpdated : string := "Updated".
Definition EventReasonDeleted : string := "Deleted".
Definition EventReasonAdopted : string := "Adopted".
Definition EventReasonSynced : string := "Synced".
Definition EventReasonValidationFailed : string := "ValidationFailed".
Definition EventReasonExtraSettingsIgnored : string := "ExtraSettingsIgnored".
Definition EventReasonHealthRestored : string := "HealthRestored".
Definition EventReasonRedisDisconnected : string := "RedisDisconnected".
Definition EventReasonRedisConnected : string := "RedisConnected".
Definition EventReasonReconcileFailed : string := "ReconcileFailed".
Definition EventReasonInstanceNotReady : string := "InstanceNotReady".
Definition EventReasonKeySecretMissing : string := "KeySecretMissing".
Definition EventReasonSecretNotFound : string := "SecretNotFound".
Definition EventReasonSecretKeyMissing : string := "SecretKeyMissing".
Definition EventReasonPasswordApplied : string := "PasswordApplied".
Definition EventReasonPasswordRejected : string := "PasswordRejected".
Definition EventReasonEnterpriseRequired : string := "EnterpriseLicenseRequired".
Definition EventReasonHealthDegraded : string := "HealthDegraded".
Definition EventReasonConfigSyncCompleted : string := "ConfigSyncCompleted".
Definition EventReasonConfigSyncFailed : string := "ConfigSyncFailed".
Definition EventReasonConfigSyncDriftDetected : string := "ConfigSyncDriftDetected".
Definition EventReasonConfigSyncDriftRemediated : string := "ConfigSyncDriftRemediated".
Definition EventReasonConfigSyncPruned : string := "ConfigSyncPruned".
Definition EventReasonConfigSyncRecreated : string := "ConfigSyncRecreated".
Definition EventReasonConfigSyncUnmanaged : string := "ConfigSyncUnmanaged".

Definition AllowedKindVirtualKey : string := "LiteLLMVirtualKey".
Definition kindVirtualKey : string := AllowedKindVirtualKey.
Definition kindTeam : string := "LiteLLMTeam".
Definition kindUser : string := "LiteLLMUser".
Definition kindOrganization : string := "LiteLLMOrganization".
Definition kindBudget : string := "LiteLLMBudget".
Definition kindCustomer : string := "LiteLLMCustomer".
Definition kindModel : string := "LiteLLMModel".
Definition kindCredential : string := "LiteLLMCredential".

Definition NamespacesFromAll : string := "All".
Definition NamespacesFromSelector : string := "Selector".

(** [errInstanceRefNotPermitted]: the text identifies the sentinel. *)
Definition errInstanceRefNotPermitted : string :=
  "instance does not allow references from this namespace".
Definition ReasonRefNotPermitted : string := "RefNotPermitted".

(** ** Strings *)

(** [strings.Contains]. *)
Fixpoint strings_Contains (s sub : string) : bool :=
  String.prefix sub s ||
  match s with
  | EmptyString => false
  | String _ s' => strings_Contains s' sub
  end.

(** [strings.ToLower], as far as an ASCII substring is then looked for: ASCII
    letters, and the two other characters whose lower case is an ASCII letter
    (U+0130, encoded C4 B0, and U+212A, encoded E2 84 AA).  Any other byte of a
    multi-byte character stays outside of ASCII. *)
Fixpoint to_lower (l : list Z) : list Z :=
  match l with
  | 0xE2%Z :: (0x84%Z :: 0xAA%Z :: l') => 107 :: to_lower l'
  | 0xC4%Z :: (0xB0%Z :: l') => 105 :: to_lower l'
  | b :: l' => (if (65 <=? b) && (b <=? 90) then b + 32 else b) :: to_lower l'
  | [] => []
  end.

Definition strings_ToLower (s : string) : string := string_of (to_lower (bytes_of s)).

Definition strings_HasSuffix (s suffix : string) : bool :=
  let n := (String.length s - String.length suffix)%nat in
  bool_decide (String.length suffix ≤ String.length s)%nat &&
  bool_decide (String.substring n (String.length suffix) s = suffix).

Definition strings_TrimSuffix (s suffix : string) : string :=
  if strings_HasSuffix s suffix then String.substring 0 (String.length s - String.length suffix) s else s.

(** ** Errors of the LiteLLM API *)

Record APIError := MkAPIError { StatusCode : Z; Message : string; Path : string }.

Definition IsAPIError (err : error) : option APIError :=
  errors_find (λ e, match e with
                    | ErrAPI code msg path => Some (MkAPIError code msg path)
                    | _ => None
                    end) err.

Definition IsNotFound (e : APIError) : bool := StatusCode e =? 404.
Definition IsTransient (e : APIError) : bool := 500 <=? StatusCode e.

Definition isEnterpriseLicenseError (err : error) : bool :=
  match IsAPIError err with
  | Some apiErr =>
      (StatusCode apiErr =? 403) &&
      strings_Contains (strings_ToLower (Message apiErr)) "enterprise"
  | None => false
  end.

Definition instanceRefFailureReason (err : error) : string :=
  if errors_Is err errInstanceRefNotPermitted then ReasonRefNotPermitted
  else "InstanceNotReady".

(** ** References to an instance *)

Definition NamespaceOr (r : InstanceRef) (defaultNamespace : string) : string :=
  if decide (ir_Namespace r ≠ "") then ir_Namespace r else defaultNamespace.

Definition AllowsKind (a : option AllowedNamespaces) (kind : string) : bool :=
  match a with
  | None => false
  | Some a =>
      if decide (length (an_Kinds a) = 0%nat) then bool_decide (kind = AllowedKindVirtualKey)
      else existsb (λ k, bool_decide (k = kind)) (an_Kinds a)
  end.

Definition referencesInstance (namespace : string) (ref : InstanceRef) (instance : LiteLLMInstance) : bool :=
  bool_decide (ir_Name ref = Name (Meta instance)) &&
  bool_decide (NamespaceOr ref namespace = Namespace (Meta instance)).

Definition masterKeyRef (instance : LiteLLMInstance) : option SecretKeyRef :=
  match mk_SecretRef (is_MasterKey (Spec instance)) with
  | Some ref => Some ref
  | None =>
      if mk_AutoGenerate (is_MasterKey (Spec instance))
      then Some (MkSecretKeyRef (Name (Meta instance) +:+ "-master-key") "master-key")
      else None
  end.

Definition workloadManaged (instance : LiteLLMInstance) : bool :=
  match is_Workload (Spec instance) with
  | None => true
  | Some w => match wl_Managed w with None => true | Some b => b end
  end.

Definition instanceServesTLS (instance : LiteLLMInstance) : bool :=
  match is_TLS (Spec instance) with
  | Some t => match tls_ServerCertSecretRef t with Some _ => true | None => false end
  | None => false
  end.

Definition instanceEndpoint (instance : LiteLLMInstance) : string :=
  let derived :=
    let port := svc_Port (is_Service (Spec instance)) in
    let port := if port =? 0 then 4000 else port in
    let scheme := if instanceServesTLS instance then "https" else "http" in
    scheme +:+ "://" +:+ Name (Meta instance) +:+ "." +:+ Namespace (Meta instance) +:+
      ".svc:" +:+ pretty port in
  match is_Workload (Spec instance) with
  | Some w => if decide (wl_Endpoint w ≠ "") then wl_Endpoint w else derived
  | None => derived
  end.

Definition ignoredConfigSections (instance : LiteLLMInstance) : list string :=
  let sp := Spec instance in
  let add {A} (set : option A) (path : string) := match set with Some _ => [path] | None => [] end in
  add (is_SSO sp) "spec.sso" ++ add (is_SCIM sp) "spec.scim" ++ add (is_JWTAuth sp) "spec.jwtAuth" ++
  add (is_OAuth2Auth sp) "spec.oauth2Auth" ++ add (is_RBAC sp) "spec.rbac" ++
  add (is_Security sp) "spec.security" ++ add (is_Logging sp) "spec.logging" ++
  add (is_AdminUI sp) "spec.adminUI" ++ add (is_Caching sp) "spec.caching" ++
  add (is_RouterSettings sp) "spec.routerSettings" ++ add (is_Callbacks sp) "spec.callbacks" ++
  add (head (is_PassThroughEndpoints sp)) "spec.passThroughEndpoints" ++
  add (is_SecretManager sp) "spec.secretManager" ++
  match ist_License (Status instance) with
  | Some license => if lic_Active license then ["license injection"] else []
  | None => []
  end.

Definition labelsForInstance (instanceName : string) : gmap string string :=
  {[ LabelApp := "litellm"; LabelManagedBy := "litellm-operator"; LabelInstanceName := instanceName ]}.

Definition instanceAllowsKind (instance : LiteLLMInstance) (namespace kind : string) : bool :=
  bool_decide (namespace = Namespace (Meta instance)) ||
  AllowsKind (is_AllowedNamespaces (Spec instance)) kind.

Record ResolvedInstance := MkResolvedInstance {
  ri_Endpoint : string;
  ri_MasterKey : string;
  ri_CACert : string;
  ri_Instance : LiteLLMInstance
}.

Section Common.
Context `{KubeLib}.

Definition instanceAllowsNamespace (instance : LiteLLMInstance) (namespace : string) :
    kprog (res bool error) :=
  if decide (namespace = Namespace (Meta instance)) then mret (Ok true)
  else
    match is_AllowedNamespaces (Spec instance) with
    | None => mret (Ok false)
    | Some allowed =>
        if decide (an_From allowed = NamespacesFromAll) then mret (Ok true)
        else if decide (an_From allowed = NamespacesFromSelector) then
          match an_Selector allowed with
          | None => mret (Ok false)
          | Some selector =>
              match LabelSelectorAsSelector selector with
              | Err err => mret (Err (Errorf "parse selector: %w" [] (Some err)))
              | Ok matches =>
                  ns ← kcallp (KGetNamespace namespace);
                  match ns with
                  | Err err => mret (Err (Errorf "fetch namespace %q: %w" [FStr namespace] (Some err)))
                  | Ok labels => mret (Ok (matches labels))
                  end
              end
          end
        else mret (Ok false)
    end.

Definition readSecretKey (namespace name key : string) : kprog string :=
  secret ← kcallp (KGetSecret namespace name);
  match secret with
  | Err _ => mret ""
  | Ok s => mret (map_get_str (sec_Data s) key)
  end.

Definition getSecretValue (namespace : string) (ref : option SecretKeyRef) : kprog (res string error) :=
  match ref with
  | None => mret (Err (Errorf "secret ref is nil" [] None))
  | Some ref =>
      secret ← kcallp (KGetSecret namespace (skr_Name ref));
      match secret with
      | Err err => mret (Err (Errorf "fetch secret %q: %w" [FStr (skr_Name ref)] (Some err)))
      | Ok s =>
          match sec_Data s !! skr_Key ref with
          | None => mret (Err (Errorf "key %q not found in secret %q"
                                 [FStr (skr_Key ref); FStr (skr_Name ref)] None))
          | Some val => mret (Ok val)
          end
      end
  end.

(** The CA bundle of the server certificate, else the trusted CA; [""] stands
    for no bundle. *)
Definition operatorProxyCACert (instance : LiteLLMInstance) : kprog string :=
  if instanceServesTLS instance then
    match is_TLS (Spec instance) with
    | None => mret ""
    | Some tls =>
        let ns := Namespace (Meta instance) in
        pem ← match tls_ServerCertSecretRef tls with
              | Some ref => readSecretKey ns (sr_Name ref) caCrtKey
              | None => mret ""
              end;
        if decide (pem ≠ "") then mret pem
        else
          match tls_TrustedCASecretRef tls with
          | None => mret ""
          | Some ref =>
              let key := if decide (ca_Key ref = "") then caCrtKey else ca_Key ref in
              readSecretKey ns (ca_Name ref) key
          end
    end
  else mret "".

(** The check of [spec.allowedNamespaces] by [resolveInstanceRef]. *)
Definition checkInstanceRef (instance : LiteLLMInstance) (namespace kind : string) :
    kprog (option error) :=
  let id := [FStr (Namespace (Meta instance)); FStr (Name (Meta instance))] in
  allowed ← instanceAllowsNamespace instance namespace;
  match allowed with
  | Err err => mret (Some (Errorf "check allowedNamespaces of instance %s/%s: %w" id (Some err)))
  | Ok false =>
      mret (Some (Errorf "instance %s/%s: %w %q" (id ++ [FStr namespace])
                    (Some (ErrSentinel errInstanceRefNotPermitted))))
  | Ok true =>
      if instanceAllowsKind instance namespace kind then mret None
      else mret (Some (Errorf
             "instance %s/%s: %w %q: kind %s is not admitted by spec.allowedNamespaces.kinds"
             (id ++ [FStr namespace; FStr kind])
             (Some (ErrSentinel errInstanceRefNotPermitted))))
  end.

(** The end of [resolveInstanceRef], once the reference is permitted. *)
Definition resolveReadyInstance (ref : InstanceRef) (instance : LiteLLMInstance) :
    kprog (res ResolvedInstance error) :=
  if ist_Ready (Status instance) then
    masterKey ← getSecretValue (Namespace (Meta instance)) (masterKeyRef instance);
    match masterKey with
    | Err err => mret (Err (Errorf "get master key: %w" [] (Some err)))
    | Ok masterKey =>
        caCert ← operatorProxyCACert instance;
        mret (Ok (MkResolvedInstance (ist_Endpoint (Status instance)) masterKey caCert instance))
    end
  else mret (Err (Errorf "instance %q is not ready" [FStr (ir_Name ref)] None)).

Definition resolveInstanceRef (namespace kind : string) (ref : InstanceRef) (checkAllowed : bool) :
    kprog (res ResolvedInstance error) :=
  r ← kcallp (KGet KInstance (NamespaceOr ref namespace) (ir_Name ref));
  match r with
  | Err err => mret (Err (Errorf "fetch instance %q: %w" [FStr (ir_Name ref)] (Some err)))
  | Ok instance =>
      refused ← (if checkAllowed then checkInstanceRef instance namespace kind else mret None);
      match refused with
      | Some err => mret (Err err)
      | None => resolveReadyInstance ref instance
      end
  end.

Definition resolveInstance (namespace kind : string) (ref : InstanceRef) :=
  resolveInstanceRef namespace kind ref true.

Definition resolveInstanceForCleanup (namespace : string) (ref : InstanceRef) :=
  resolveInstanceRef namespace "" ref false.

Definition client_of (resolved : ResolvedInstance) : ApiClient :=
  MkApiClient (ri_Endpoint resolved) (ri_MasterKey resolved) (ri_CACert resolved).
End Common.

(** ** Writes of the object in memory *)

Section Writes.
Context {k : Kind} {Rt : Type}.

(** [r.Update(ctx, o)]: on success the server's version replaces [o]. *)
Definition update_obj : M K (obj k) Rt (option error) :=
  o ← get;
  r ← lift (kcallp (KUpdate k o));
  match r with
  | Ok o' => put o' ;; mret None
  | Err e => mret (Some e)
  end.

(** [r.Status().Update(ctx, o)]. *)
Definition status_update_obj : M K (obj k) Rt (option error) :=
  o ← get;
  r ← lift (kcallp (KStatusUpdate k o));
  match r with
  | Ok o' => put o' ;; mret None
  | Err e => mret (Some e)
  end.

Definition markAdopted : M K (obj k) Rt (option error) :=
  modify (annotate AnnotationAdopted AnnotationAdoptedValue) ;;
  r ← update_obj;
  match r with
  | Some err => mret (Some (Errorf "mark adopted: %w" [] (Some err)))
  | None => mret None
  end.

(** [r.Status().Patch(ctx, o, client.MergeFrom(base))]. *)
Definition status_patch_obj (base : obj k) : M K (obj k) Rt (option error) :=
  o ← get;
  r ← lift (kcallp (KStatusPatch k o base));
  match r with
  | Ok o' => put o' ;; mret None
  | Err e => mret (Some e)
  end.

Definition m_api (c : ApiClient) (r : api_req) : M K (obj k) Rt (api_ans r) := lift (api c r).

Definition m_event (etype reason fmt : string) (args : list farg) : M K (obj k) Rt unit :=
  o ← get; lift (emitEvent o etype reason fmt args).
End Writes.

(** ** Correctness of the references *)

(** [a] admits the kind, and the namespace, by the label lookups of [h]. *)
Definition admits `{KubeLib} (h : khist) (instance : LiteLLMInstance) (namespace : string) : Prop :=
  namespace = Namespace (Meta instance) ∨
  ∃ a, is_AllowedNamespaces (Spec instance) = Some a ∧
    (an_From a = NamespacesFromAll ∨
     an_From a = NamespacesFromSelector ∧
     ∃ sel matches labels,
       an_Selector a = Some sel ∧ LabelSelectorAsSelector sel = Ok matches ∧
       matches labels = true ∧ KEv (KGetNamespace namespace) (Ok labels) ∈ h).

(** A definite refusal of the namespace, by the label lookups of [h]. *)
Definition refuses `{KubeLib} (h : khist) (instance : LiteLLMInstance) (namespace : string) : Prop :=
  namespace ≠ Namespace (Meta instance) ∧
  ∀ a, is_AllowedNamespaces (Spec instance) = Some a →
    an_From a ≠ NamespacesFromAll ∧
    (an_From a = NamespacesFromSelector →
     ∀ sel, an_Selector a = Some sel →
       ∃ matches labels, LabelSelectorAsSelector sel = Ok matches ∧
         matches labels = false ∧ KEv (KGetNamespace namespace) (Ok labels) ∈ h).

Lemma refuses_extends `{KubeLib} P h h' instance ns :
  extends P h h' → refuses h instance ns → refuses h' instance ns.
Proof.
  intros Hext [Hne Hr]. split; [done|]. intros a Ha. destruct (Hr a Ha) as [Hall Hsel].
  split; [done|]. intros Hs sel Hsome. destruct (Hsel Hs sel Hsome) as (m & l & ? & ? & ?).
  exists m, l. eauto using extends_elem.
Qed.

Section CommonLemmas.
Context `{KubeLib}.
Implicit Types (G : khist → kcall → Prop) (Q : khist → res bool error → Prop).

Lemma wp_instanceAllowsNamespace G R instance ns h Q :
  (∀ h' n, G h' (KGetNamespace n)) →
  (∀ h' r, benign_ext h h' → (r = Ok true → admits h' instance ns) →
     (r = Ok false → refuses h' instance ns) → Q h' r) →
  wp G R (instanceAllowsNamespace instance ns) h Q.
Proof.
  intros HG HQ. unfold instanceAllowsNamespace, admits, refuses in *. cbv zeta.
  case_decide; [apply wp_ret, HQ; by eauto with go|].
  destruct (is_AllowedNamespaces (Spec instance)) as [a|] eqn:Ha;
    [|apply wp_ret, HQ; by eauto with go].
  case_decide as Hall; [apply wp_ret, HQ; by eauto 10 with go|].
  case_decide as Hsel; [|apply wp_ret, HQ; naive_solver eauto with go].
  destruct (an_Selector a) as [sel|] eqn:Hs; [|apply wp_ret, HQ; naive_solver eauto with go].
  destruct (LabelSelectorAsSelector sel) as [matches|e] eqn:Hm;
    [|apply wp_ret, HQ; by eauto with go].
  do 2 kstep; [apply HG|].
  match goal with x : ar _ _ |- _ => destruct x as [labels|e] end; apply wp_ret, HQ;
    [by apply extends_call| | |by apply extends_call|done|done].
  - intros [= Hmatch]. right. exists a. split; [done|]. right. split; [done|].
    exists sel, matches, labels. repeat split; [done|done|done|]. set_solver.
  - intros [= Hmatch]. split; [done|]. intros a' [= <-]. split; [done|]. intros _ sel' Hsel'.
    assert (sel' = sel) as -> by congruence. exists matches, labels. repeat split; [done|done|]. set_solver.
Qed.

Lemma wp_readSecretKey G R ns name key h (Q : khist → string → Prop) :
  benign_from G h → (∀ h' r, benign_ext h h' → Q h' r) → wp G R (readSecretKey ns name key) h Q.
Proof.
  intros HG HQ. unfold readSecretKey. kstep. kstep; [benign_tac|].
  case_match; apply wp_ret, HQ; by apply extends_call.
Qed.

(** A value that was read from a Secret. *)
Definition secret_value (h : khist) (ns : string) (ref : SecretKeyRef) (v : string) : Prop :=
  ∃ s, KEv (KGetSecret ns (skr_Name ref)) (Ok s) ∈ h ∧ sec_Data s !! skr_Key ref = Some v.

Lemma secret_value_extends P h h' ns ref v :
  extends P h h' → secret_value h ns ref v → secret_value h' ns ref v.
Proof. intros Hext (s & Hin & Hv). exists s. eauto using extends_elem. Qed.

Lemma wp_getSecretValue G R ns ref h (Q : khist → res string error → Prop) :
  benign_from G h →
  (∀ h' r, benign_ext h h' →
     (∀ v, r = Ok v → ∃ ref0, ref = Some ref0 ∧ secret_value h' ns ref0 v) → Q h' r) →
  wp G R (getSecretValue ns ref) h Q.
Proof.
  intros HG HQ. unfold getSecretValue. destruct ref as [ref|]; [|apply wp_ret, HQ; [eauto with go|done]].
  kstep. kstep; [benign_tac|]. destruct x as [s|e]; [|apply wp_ret, HQ; [by apply extends_call|done]].
  destruct (sec_Data s !! skr_Key ref) as [v|] eqn:Hv; apply wp_ret, HQ; try (by apply extends_ev); [|done].
  intros v' [= <-]. exists ref. split; [done|]. exists s. split; [set_solver|done].
Qed.

Lemma wp_operatorProxyCACert G R instance h (Q : khist → string → Prop) :
  benign_from G h → (∀ h' r, benign_ext h h' → Q h' r) → wp G R (operatorProxyCACert instance) h Q.
Proof.
  intros HG HQ. unfold operatorProxyCACert. cbv zeta.
  case_match; [|apply wp_ret, HQ; eauto with go].
  destruct (is_TLS (Spec instance)) as [tls|]; [|apply wp_ret, HQ; eauto with go].
  apply wp_bind.
  assert (∀ h1 pem, benign_ext h h1 → wp G R
    (if decide (pem ≠ "") then mret pem
     else match tls_TrustedCASecretRef tls with
          | None => mret ""
          | Some ref => readSecretKey (Namespace (Meta instance)) (ca_Name ref)
                          (if decide (ca_Key ref = "") then caCrtKey else ca_Key ref)
          end) h1 Q) as Hrest.
  { intros h1 pem E1. case_decide; [by apply wp_ret, HQ|].
    case_match; [|by apply wp_ret, HQ].
    apply wp_readSecretKey; [by eapply benign_from_ext|]. intros h2 r E2. apply HQ. by eapply extends_trans. }
  destruct (tls_ServerCertSecretRef tls); [|apply wp_ret, Hrest; eauto with go].
  apply wp_readSecretKey; [done|]. intros h1 r E1. by apply Hrest.
Qed.

Lemma wp_checkInstanceRef G R instance ns kind h (Q : khist → option error → Prop) :
  (∀ h' n, G h' (KGetNamespace n)) →
  (∀ h' r, benign_ext h h' →
     (r = None → admits h' instance ns ∧ instanceAllowsKind instance ns kind = true) → Q h' r) →
  wp G R (checkInstanceRef instance ns kind) h Q.
Proof.
  intros HG HQ. unfold checkInstanceRef. cbv zeta. apply wp_bind.
  apply wp_instanceAllowsNamespace; [done|]. intros h1 r E1 Hr _.
  repeat case_match; apply wp_ret, HQ; try done. intros _. eauto.
Qed.

(** What a successful resolution has established. *)
Definition resolved_ok (h : khist) (ns kind : string) (ref : InstanceRef) (checked : bool)
    (ri : ResolvedInstance) : Prop :=
  KEv (KGet KInstance (NamespaceOr ref ns) (ir_Name ref)) (Ok (ri_Instance ri)) ∈ h ∧
  ist_Ready (Status (ri_Instance ri)) = true ∧
  ri_Endpoint ri = ist_Endpoint (Status (ri_Instance ri)) ∧
  (checked = true →
     admits h (ri_Instance ri) ns ∧ instanceAllowsKind (ri_Instance ri) ns kind = true).

Lemma admits_mono P h h' instance ns :
  extends P h h' → admits h instance ns → admits h' instance ns.
Proof.
  intros Hext [?|(a & Ha & Hor)]; [by left|]. right. exists a. split; [done|].
  destruct Hor as [?|(? & sel & m & l & ? & ? & ? & Hin)]; [by left|]. right. split; [done|].
  exists sel, m, l. eauto using extends_elem.
Qed.

Lemma wp_resolveReadyInstance G R ref instance h (Q : khist → res ResolvedInstance error → Prop) :
  benign_from G h →
  (∀ h' r, benign_ext h h' →
     (∀ ri, r = Ok ri → ri_Instance ri = instance ∧ ist_Ready (Status instance) = true ∧
                        ri_Endpoint ri = ist_Endpoint (Status instance)) → Q h' r) →
  wp G R (resolveReadyInstance ref instance) h Q.
Proof.
  intros HG HQ. unfold resolveReadyInstance.
  destruct (ist_Ready (Status instance)) eqn:Hready; [|apply wp_ret, HQ; [apply extends_refl|done]].
  apply wp_bind, wp_getSecretValue; [done|]. intros h1 mkey E1 _.
  destruct mkey as [mkey|e]; [|by apply wp_ret, HQ].
  apply wp_bind, wp_operatorProxyCACert; [by eapply benign_from_ext|]. intros h2 ca E2.
  apply wp_ret, HQ; [by eapply extends_trans|]. by intros ri [= <-].
Qed.

Lemma wp_resolveInstanceRef G R ns kind ref checked h (Q : khist → res ResolvedInstance error → Prop) :
  benign_ok G →
  (∀ h' r, benign_ext h h' →
     (∀ ri, r = Ok ri → resolved_ok h' ns kind ref checked ri) → Q h' r) →
  wp G R (resolveInstanceRef ns kind ref checked) h Q.
Proof.
  intros HG HQ. unfold resolveInstanceRef. kstep. kstep; [benign_tac|].
  match goal with |- context [KEv ?c ?x] => pose (h1 := h ++ [KEv c x]); rename x into r0 end.
  assert (benign_ext h h1) as E1 by (by apply extends_call).
  destruct r0 as [instance|e]; [|by apply wp_ret, HQ].
  apply wp_bind. fold h1.
  apply (wp_mono _ _ _ _ (λ h2 refused, benign_ext h1 h2 ∧
    (refused = None → checked = true →
      admits h2 instance ns ∧ instanceAllowsKind instance ns kind = true))).
  { destruct checked; [|by apply wp_ret; split; [apply extends_refl|]].
    apply wp_checkInstanceRef; [by intros; apply HG|]. eauto. }
  intros h2 refused [E2 Href].
  destruct refused as [err|]; [apply wp_ret, HQ; [by eapply extends_trans|done]|].
  apply wp_resolveReadyInstance; [by apply benign_from_ok|]. intros h3 r E3 Hr.
  apply HQ; [by eapply extends_trans, extends_trans; [exact E1|exact E2|exact E3]|]. intros ri ->.
  destruct (Hr ri eq_refl) as (Hi & Hready & Hend). unfold resolved_ok. rewrite Hi.
  repeat split; [|done|done|..].
  - eapply extends_elem; [exact E3|]. eapply extends_elem; [exact E2|]. unfold h1. set_solver.
  - eapply admits_mono; [exact E3|]. by apply Href.
  - by apply Href.
Qed.
End CommonLemmas.

(** C4: a reference to an instance is resolved only when the instance is ready and, from another
    namespace, when its [spec.allowedNamespaces] admits both the namespace
    (through All, or through a selector matching the labels just read) and the
    kind of the referencing resource. *)
Theorem resolveInstance_permitted `{KubeLib} ns kind ref t ri :
  runs (resolveInstance ns kind ref) t (Ok ri) →
  ist_Ready (Status (ri_Instance ri)) = true ∧
  (ns = Namespace (Meta (ri_Instance ri)) ∨
   admits t (ri_Instance ri) ns ∧
   AllowsKind (is_AllowedNamespaces (Spec (ri_Instance ri))) kind = true).
Proof.
  intros Hr.
  assert (∀ ri', (Ok ri : res _ error) = Ok ri' → resolved_ok t ns kind ref true ri') as Hq.
  { eapply (wp_runs_any benign_only (resolveInstance ns kind ref)
      (λ t r, ∀ ri', r = Ok ri' → resolved_ok t ns kind ref true ri')); [|exact Hr].
    apply wp_resolveInstanceRef; [apply _|]. eauto. }
  destruct (Hq ri eq_refl) as (_ & Hready & _ & Hchk). split; [done|].
  destruct (Hchk eq_refl) as [Had Hkind]. unfold instanceAllowsKind in Hkind.
  apply orb_true_iff in Hkind as [?%bool_decide_eq_true|?]; eauto.
Qed.

(** The Secrets of an instance (master key, CA bundles) are read for a referencing
    resource only once the instance has been fetched and found to permit the
    resource's namespace and kind: a refused reference reveals nothing. *)
Lemma resolveInstance_reads_secrets_permitted `{KubeLib} ns kind ref :
  kalways (λ h c, ∀ sns name, c = KGetSecret sns name →
    ∃ instance, KEv (KGet KInstance (NamespaceOr ref ns) (ir_Name ref)) (Ok instance) ∈ h ∧
      admits h instance ns ∧ instanceAllowsKind instance ns kind = true)
    (resolveInstance ns kind ref).
Proof.
  match goal with |- kalways ?G _ => apply (wp_always G _ (λ _ _, True)) end.
  unfold resolveInstance, resolveInstanceRef. kstep. kstep; [by intros ??|].
  rename x into r0. destruct r0 as [instance|e]; [|done].
  apply wp_bind. apply (wp_mono _ _ _ _ (λ h2 refused,
    KEv (KGet KInstance (NamespaceOr ref ns) (ir_Name ref)) (Ok instance) ∈ h2 ∧
    (refused = None → admits h2 instance ns ∧ instanceAllowsKind instance ns kind = true))).
  - apply wp_checkInstanceRef; [by intros ??|]. intros h' r Hext Hr.
    split; [|done]. eapply extends_elem; [exact Hext|]. set_solver.
  - intros h2 [err|] [Hin Href]; [done|]. destruct (Href eq_refl) as [Had Hk].
    apply wp_resolveReadyInstance; [|done].
    intros h' c Hext _ sns name _. exists instance.
    eauto using extends_elem, admits_mono.
Qed.

(** ** Rules for the writes *)

Section WriteLemmas.
Context {k : Kind} {Rt : Type}.
Implicit Types (G : khist → kcall → Prop) (R : khist → ∀ c : kcall, kans c → Prop) (s : obj k).

Lemma wpM_update_obj G R s h (Q : khist → obj k → Rt + option error → Prop) :
  G h (KUpdate k s) →
  (∀ o', R h (KUpdate k s) (Ok o') → Q (h ++ [KEv (KUpdate k s) (Ok o')]) o' (inr None)) →
  (∀ e, R h (KUpdate k s) (Err e) → Q (h ++ [KEv (KUpdate k s) (Err e)]) s (inr (Some e))) →
  wpM G R update_obj s h Q.
Proof. intros HG Hok Herr. split; [done|]. intros [o'|e] Hx; [by apply Hok|by apply Herr]. Qed.

Lemma wpM_status_update_obj G R s h (Q : khist → obj k → Rt + option error → Prop) :
  G h (KStatusUpdate k s) →
  (∀ o', R h (KStatusUpdate k s) (Ok o') → Q (h ++ [KEv (KStatusUpdate k s) (Ok o')]) o' (inr None)) →
  (∀ e, R h (KStatusUpdate k s) (Err e) → Q (h ++ [KEv (KStatusUpdate k s) (Err e)]) s (inr (Some e))) →
  wpM G R status_update_obj s h Q.
Proof. intros HG Hok Herr. split; [done|]. intros [o'|e] Hx; [by apply Hok|by apply Herr]. Qed.

Lemma wpM_status_patch_obj G R base s h (Q : khist → obj k → Rt + option error → Prop) :
  G h (KStatusPatch k s base) →
  (∀ o', R h (KStatusPatch k s base) (Ok o') → Q (h ++ [KEv (KStatusPatch k s base) (Ok o')]) o' (inr None)) →
  (∀ e, R h (KStatusPatch k s base) (Err e) → Q (h ++ [KEv (KStatusPatch k s base) (Err e)]) s (inr (Some e))) →
  wpM G R (status_patch_obj base) s h Q.
Proof. intros HG Hok Herr. split; [done|]. intros [o'|e] Hx; [by apply Hok|by apply Herr]. Qed.

Lemma wpM_m_api G R c r s h (Q : khist → obj k → Rt + api_ans r → Prop) :
  G h (KApi c r) →
  (∀ x, R h (KApi c r) x → Q (h ++ [KEv (KApi c r) x]) s (inr x)) →
  wpM G R (m_api c r) s h Q.
Proof. intros HG HQ. split; [done|]. exact HQ. Qed.

Lemma wpM_m_event G R etype reason fmt args s h (Q : khist → obj k → Rt + unit → Prop) :
  G h (KEvent k s etype reason (Sprintf fmt args)) →
  Q (h ++ [KEv (KEvent k s etype reason (Sprintf fmt args)) tt]) s (inr tt) →
  wpM G R (m_event etype reason fmt args) s h Q.
Proof. intros HG HQ. split; [done|]. by intros [] _. Qed.

Lemma wpM_markAdopted G R s h (Q : khist → obj k → Rt + option error → Prop) :
  let s' := annotate AnnotationAdopted AnnotationAdoptedValue s in
  G h (KUpdate k s') →
  (∀ o', R h (KUpdate k s') (Ok o') → Q (h ++ [KEv (KUpdate k s') (Ok o')]) o' (inr None)) →
  (∀ e, R h (KUpdate k s') (Err e) → Q (h ++ [KEv (KUpdate k s') (Err e)]) s'
                                       (inr (Some (Errorf "mark adopted: %w" [] (Some e))))) →
  wpM G R markAdopted s h Q.
Proof. intros s' HG Hok Herr. split; [done|]. intros [o'|e] Hx; [by apply Hok|by apply Herr]. Qed.
End WriteLemmas.

(** The API server has accepted an object carrying the mark of an adopted one. *)
Definition adoption_recorded (k : Kind) (h : khist) : Prop :=
  ∃ (o x : obj k), KEv (KUpdate k o) (Ok x) ∈ h ∧
    annotation AnnotationAdopted o = AnnotationAdoptedValue.

Lemma adoption_recorded_extends P k h h' :
  extends P h h' → adoption_recorded k h → adoption_recorded k h'.
Proof. intros Hext (o & x & Hin & Ho). exists o, x. eauto using extends_elem. Qed.

(** Any program satisfies the trivial postcondition. *)
Lemma wp_true {A} R (p : kprog A) h : wp no_guarantee R p h (λ _ _, True).
Proof. revert h. induction p as [a|c k IH]; intros h; [done|]. split; [done|]. intros x _. apply IH. Qed.

Lemma wpM_true {St Rt A} R (m : M K St Rt A) s h : wpM no_guarantee R m s h (λ _ _ _, True).
Proof. apply wp_true. Qed.

Lemma wpM_anything {St Rt A} R (m : M K St Rt A) s h (Q : khist → St → Rt + A → Prop) :
  (∀ h' s' r, Q h' s' r) → wpM no_guarantee R m s h Q.
Proof. intros HQ. eapply wpM_mono; [apply wpM_true|]. intros h' s' r _. apply HQ. Qed.

Lemma wp_anything {A} R (p : kprog A) h (Q : khist → A → Prop) :
  (∀ h' a, Q h' a) → wp no_guarantee R p h Q.
Proof. intros HQ. eapply wp_mono; [apply wp_true|]. intros h' a _. apply HQ. Qed.

(** Symbolic execution of a handler up to the next call or match. *)
Ltac mstep :=
  lazymatch goal with
  | |- wpM _ _ (@update_obj ?k ?Rt) _ _ _ => apply (@wpM_update_obj k Rt); [|intros ? ?|intros ? ?]
  | |- wpM _ _ (@status_update_obj ?k ?Rt) _ _ _ =>
      apply (@wpM_status_update_obj k Rt); [|intros ? ?|intros ? ?]
  | |- wpM _ _ (@status_patch_obj ?k ?Rt ?b) _ _ _ =>
      apply (@wpM_status_patch_obj k Rt _ _ b); [|intros ? ?|intros ? ?]
  | |- wpM _ _ (@m_api ?k ?Rt ?c ?r) _ _ _ => apply (@wpM_m_api k Rt _ _ c r); [|intros ? ?]
  | |- wpM _ _ (@m_event ?k ?Rt _ _ _ _) _ _ _ => apply (@wpM_m_event k Rt)
  | |- wpM _ _ (@markAdopted ?k ?Rt) _ _ _ => apply (@wpM_markAdopted k Rt); [|intros ? ?|intros ? ?]
  | _ => kstep
  end.

(** Steps to the next call, branch or loop. *)
Ltac mpure :=
  repeat lazymatch goal with
  | |- wpM _ _ (when _ _) _ _ _ => fail
  | |- wp _ _ (call _) _ _ => fail
  | |- _ => progress wp_step
  end.

(** Runs a handler whose remaining calls are all fine. *)
Ltac mrun := repeat first [mstep | done | case_match].
