(* ===== verification/Reconcile.v ===== *)
(** * The reconcile loop shared by the API-backed controllers

    The controllers of teams, users, virtual keys, models, organizations,
    customers and budgets have the same [Reconcile] and [handleDeletion], up to
    the resource's kind, texts and a few flags.  [Reconciler k] is the interface
    such a controller implements; [Reconcile] and [handleDeletion] are written
    once against it, and their theorems hold for every instance. *)

From S2P Require Import Prelude KubeTypes InstanceTypes Types World Sha256 Common.
Open Scope Z_scope.

(** What the body of a controller returns: [(ctrl.Result, error)]. *)
Notation Ret_t := (Result * option error)%type.

(** [return ctrl.Result{RequeueAfter: 30 * time.Second}, err] and
    [return ctrl.Result{}, err] *)
Definition retry30 (err : error) : Ret_t := (RequeueIn (30 * time_Second), Some err).
Definition fail0 (err : error) : Ret_t := (Result0, Some err).

Class Reconciler (k : Kind) := {
  (** the [kind...] constant checked against [spec.allowedNamespaces.kinds] *)
  rc_kind : string;
  rc_ref : SpecOf k → InstanceRef;
  rc_conditions : StatusOf k → list Condition;
  rc_set_conditions : list Condition → StatusOf k → StatusOf k;
  (** whether every Synced condition carries ObservedGeneration *)
  rc_observed_generation : bool;
  (** whether a missing enterprise license is handled apart *)
  rc_enterprise : bool;
  (** the name shown in events, and the event and condition texts *)
  rc_display : obj k → string;
  rc_delete_display : obj k → string;
  rc_msg_enterprise : string;
  rc_msg_failed : string;
  rc_msg_synced : string;
  rc_msg_delete_failed : string;
  rc_msg_deleted : string;
  (** [Some msg] when adopted objects are left in place on deletion *)
  rc_msg_adopted : option string;
  (** the LiteLLM object to delete with the resource, if any *)
  rc_service : Service;
  rc_delete_id : obj k → option string;
  (** [reconcileTeam], [reconcileKey], ...: the object after its mutations, and
      the returned result *)
  rc_body : ResolvedInstance → obj k → kprog (obj k * Ret_t)
}.

(** A result after which controller-runtime reconciles the object again by
    itself: an error (retried with backoff) or a requeue. *)
Definition retried (r : Ret_t) : bool :=
  match r.2 with
  | Some _ => true
  | None => (0 <? RequeueAfter r.1) || Requeue r.1
  end.

Class ReconcilerLaws (k : Kind) `{Reconciler k} : Prop := {
  rc_conditions_set cs st : rc_conditions (rc_set_conditions cs st) = cs;
  (** no path of the body gives up on the object *)
  rc_body_retried resolved o t o' r : runs (rc_body resolved o) t (o', r) → retried r = true
}.

Section Reconcile.
Context `{KubeLib} {k : Kind} `{Reconciler k}.

(** [meta.SetStatusCondition(&o.Status.Conditions, ...)] on the Synced type. *)
Definition set_synced (status reason : string) (msg : text) (with_generation : bool)
    (o : obj k) : obj k :=
  let c := MkCondition ConditionSynced status reason msg
             (if with_generation then Generation (Meta o) else 0) in
  map_status (λ st, rc_set_conditions (SetStatusCondition (rc_conditions st) c) st) o.

Definition adopted (o : obj k) : bool :=
  bool_decide (annotation AnnotationAdopted o = AnnotationAdoptedValue).

(** Removal of the LiteLLM object, best effort. *)
Definition cleanup (o : obj k) : kprog unit :=
  match rc_delete_id o with
  | None => mret tt
  | Some id =>
      resolved ← resolveInstanceForCleanup (Namespace (Meta o)) (rc_ref (Spec o));
      match resolved with
      | Err _ => mret tt
      | Ok resolved =>
          r ← api (client_of resolved) (ApiDelete rc_service id);
          match r with
          | Some err =>
              emitEvent o EventTypeWarning EventReasonReconcileFailed rc_msg_delete_failed
                [FStr (rc_delete_display o); FErr err]
          | None =>
              emitEvent o EventTypeNormal EventReasonDeleted rc_msg_deleted
                [FStr (rc_delete_display o)]
          end
      end
  end.

Definition handleDeletion (o : obj k) : kprog Ret_t :=
  if ContainsFinalizer (Meta o) FinalizerName then
    _ ← match rc_msg_adopted with
        | Some msg =>
            if adopted o
            then emitEvent o EventTypeNormal EventReasonDeleted msg [FStr (rc_delete_display o)]
            else cleanup o
        | None => cleanup o
        end;
    r ← kcallp (KUpdate k (set_meta (RemoveFinalizer (Meta o) FinalizerName) o));
    mret (Result0, match r with Ok _ => None | Err e => Some e end)
  else mret (Result0, None).

(** The end of [Reconcile], after the body returned [(result, err)]. *)
Definition finishReconcile (o : obj k) (result : Result) (err : option error) : kprog Ret_t :=
  match err with
  | Some e =>
      if rc_enterprise && isEnterpriseLicenseError e then
        _ ← emitEvent o EventTypeWarning EventReasonEnterpriseRequired rc_msg_enterprise
              [FStr (rc_display o)];
        _ ← kcallp (KStatusUpdate k (set_synced ConditionFalse "EnterpriseLicenseRequired"
              (lit "This feature requires a LiteLLM Enterprise license. Create a license Secret to activate.")
              true o));
        mret (RequeueIn enterpriseLicenseRetryInterval, None)
      else
        _ ← emitEvent o EventTypeWarning EventReasonReconcileFailed rc_msg_failed
              [FStr (rc_display o); FErr e];
        _ ← kcallp (KStatusUpdate k (set_synced ConditionFalse "SyncFailed" (err_text e)
              rc_observed_generation o));
        mret (result, Some e)
  | None =>
      _ ← kcallp (KStatusUpdate k (set_synced ConditionTrue "Synced" (lit rc_msg_synced)
            rc_observed_generation o));
      mret (result, None)
  end.

(** [Reconcile] once the object is fetched, alive and carries the finalizer. *)
Definition reconcileLive (o : obj k) : kprog Ret_t :=
  resolved ← resolveInstance (Namespace (Meta o)) rc_kind (rc_ref (Spec o));
  match resolved with
  | Err err =>
      _ ← emitEvent o EventTypeWarning EventReasonInstanceNotReady
            "Referenced LiteLLMInstance %q is not ready: %v"
            [FStr (ir_Name (rc_ref (Spec o))); FErr err];
      _ ← kcallp (KStatusUpdate k (set_synced ConditionFalse (instanceRefFailureReason err)
            (err_text err) rc_observed_generation o));
      mret (RequeueIn (30 * time_Second), None)
  | Ok resolved =>
      '(o', (result, err)) ← rc_body resolved o;
      finishReconcile o' result err
  end.

Definition Reconcile (ns name : string) : kprog Ret_t :=
  r ← kcallp (KGet k ns name);
  match r with
  | Err err => mret (Result0, IgnoreNotFound err)
  | Ok o =>
      match DeletionTimestamp (Meta o) with
      | Some _ => handleDeletion o
      | None =>
          if ContainsFinalizer (Meta o) FinalizerName then reconcileLive o
          else
            r ← kcallp (KUpdate k (set_meta (AddFinalizer (Meta o) FinalizerName) o));
            match r with
            | Err err => mret (Result0, Some err)
            | Ok o' => reconcileLive o'
            end
      end
  end.
End Reconcile.

(** ** Theorems of the loop, for any controller *)

Section ReconcileTheorems.
Context `{KubeLib} {k : Kind} `{Reconciler k}.

(** The finalizer was on the fetched object, or the API server accepted the
    update that adds it. *)
Definition finalizer_in_place (ns name : string) (h : khist) : Prop :=
  ∃ o : obj k,
    KEv (KGet k ns name) (Ok o) ∈ h ∧
    (ContainsFinalizer (Meta o) FinalizerName = true ∨
     ∃ o', KEv (KUpdate k (set_meta (AddFinalizer (Meta o) FinalizerName) o)) (Ok o') ∈ h).

Lemma finalizer_in_place_extends P ns name h h' :
  extends P h h' → finalizer_in_place ns name h → finalizer_in_place ns name h'.
Proof.
  intros Hext (o & Hget & Hor). exists o. split; [by eapply extends_elem|].
  destruct Hor as [?|(o' & ?)]; [by left|right]. exists o'. by eapply extends_elem.
Qed.

(** The left-in-place rule of adopted objects. *)
Definition kept (o : obj k) : bool :=
  match rc_msg_adopted with Some _ => adopted o | None => false end.

Definition delete_call (o : obj k) (c : kcall) : Prop :=
  ∃ cl id, c = KApi cl (ApiDelete rc_service id) ∧ rc_delete_id o = Some id ∧ kept o = false.

Lemma wp_cleanup (G : khist → kcall → Prop) R o h (Q : khist → unit → Prop) :
  benign_ok G →
  (∀ h' cl id, rc_delete_id o = Some id → G h' (KApi cl (ApiDelete rc_service id))) →
  (∀ h', extends (λ c, benign c = true ∨ ∃ cl id, c = KApi cl (ApiDelete rc_service id) ∧
                                            rc_delete_id o = Some id) h h' → Q h' tt) →
  wp G R (cleanup o) h Q.
Proof.
  intros HG Hdel HQ. unfold cleanup.
  destruct (rc_delete_id o) as [id|] eqn:Hid; [|apply wp_ret, HQ, extends_refl].
  apply wp_bind, wp_resolveInstanceRef; [done|]. intros h1 r E1 _.
  assert (extends (λ c, benign c = true ∨ ∃ cl id0, c = KApi cl (ApiDelete rc_service id0) ∧
                                             Some id = Some id0) h h1) as E1'.
  { eapply extends_mono; [|exact E1]. by left. }
  destruct r as [ri|e]; [|by apply wp_ret, HQ].
  kstep. kstep; [by apply Hdel|].
  match goal with x : ar _ _ |- _ => destruct x as [err|] end;
    (kstep; [benign_tac|]); apply HQ; (eapply extends_trans; [exact E1'|]);
    (eapply extends_trans; apply extends_ev; [right; by eauto|by left]).
Qed.

Lemma wp_handleDeletion (G : khist → kcall → Prop) R o h Q :
  ContainsFinalizer (Meta o) FinalizerName = true →
  benign_ok G →
  (∀ h' cl id, rc_delete_id o = Some id → G h' (KApi cl (ApiDelete rc_service id))) →
  (∀ h', extends (λ c, benign c = true ∨ delete_call o c) h h' →
     G h' (KUpdate k (set_meta (RemoveFinalizer (Meta o) FinalizerName) o)) ∧
     ∀ x, Q (h' ++ [KEv (KUpdate k (set_meta (RemoveFinalizer (Meta o) FinalizerName) o)) x])
            (Result0, match x with Ok _ => None | Err e => Some e end)) →
  wp G R (handleDeletion o) h Q.
Proof.
  intros Hfin HG Hdel HQ. unfold handleDeletion. rewrite Hfin. apply wp_bind.
  apply (wp_mono _ _ _ _ (λ h' _, extends (λ c, benign c = true ∨ delete_call o c) h h')).
  - assert (kept o = false → wp G R (cleanup o) h
              (λ h' _, extends (λ c, benign c = true ∨ delete_call o c) h h')) as Hcl.
    { intros Hk. apply wp_cleanup; [done|done|]. intros h' Hext.
      eapply extends_mono; [|exact Hext]. intros c [?|(cl & id & -> & Hid)]; [by left|right].
      exists cl, id. done. }
    unfold kept in Hcl. destruct rc_msg_adopted as [msg|]; [|by apply Hcl].
    destruct (adopted o); [|by apply Hcl].
    kstep; [benign_tac|]. apply extends_call. by left.
  - intros h' _ Hext. destruct (HQ h' Hext) as [HGu HQu].
    kstep. kstep; [done|]. apply wp_ret, HQu.
Qed.

Lemma wp_reconcileLive_finalized (G : khist → kcall → Prop) R o h :
  (∀ h' c, extends (λ _, True) h h' → G h' c) →
  wp G R (reconcileLive o) h (λ _ _, True).
Proof. intros HG. eapply wp_mono; [by apply wp_evidence|done]. Qed.

(** C1: a controller calls the LiteLLM API (create, update, delete, read) for a
    resource only when the finalizer is in place, on the object just fetched or
    by an update the API server accepted: nothing is created in LiteLLM that
    the deletion of the resource would not clean up. *)
Theorem Reconcile_finalizer_first ns name :
  kalways (λ h c, ∀ cl r, c = KApi cl r → finalizer_in_place ns name h) (Reconcile ns name).
Proof.
  match goal with |- kalways ?G _ => apply (wp_always G _ (λ _ _, True)) end.
  unfold Reconcile. kstep. kstep; [by intros ??|].
  match goal with |- context [KEv ?c ?x] => rename x into r0 end.
  destruct r0 as [o|e]; [|done].
  assert (∀ h, KEv (KGet k ns name) (Ok o) ∈ h →
    ContainsFinalizer (Meta o) FinalizerName = true → finalizer_in_place ns name h) as Hhas
    by (intros h Hin Hf; exists o; eauto).
  assert (KEv (KGet k ns name) (Ok o) ∈ ([] ++ [KEv (KGet k ns name) (Ok o)] : khist)) as Hin
    by set_solver.
  destruct (ContainsFinalizer (Meta o) FinalizerName) eqn:Hfin.
  - eapply wp_mono; [apply wp_evidence|done]. intros h' c Hext cl r _.
    apply Hhas; [by eapply extends_elem|done].
  - destruct (DeletionTimestamp (Meta o)).
    { unfold handleDeletion. by rewrite Hfin. }
    kstep. kstep; [by intros ??|].
    match goal with |- context [match ?x with _ => _ end] => destruct x as [o'|e] end; [|done].
    eapply wp_mono; [apply wp_evidence|done]. intros h' c Hext cl r _.
    exists o. split; [eapply extends_elem; [exact Hext|]; set_solver|].
    right. exists o'. eapply extends_elem; [exact Hext|]. set_solver.
Qed.

(** C25: deleting a resource always ends by removing the finalizer, whether or
    not the instance is reachable or LiteLLM accepts the delete; before it, the
    only effect is the deletion of the LiteLLM object the resource owns, and an
    adopted object (for the controllers that adopt) is left in place. *)
Theorem handleDeletion_spec (o : obj k) t out :
  ContainsFinalizer (Meta o) FinalizerName = true →
  runs (handleDeletion o) t out →
  ∃ t0 x,
    t = t0 ++ [KEv (KUpdate k (set_meta (RemoveFinalizer (Meta o) FinalizerName) o)) x] ∧
    (∀ e, e ∈ t0 → benign (ev_op e) = true ∨ delete_call o (ev_op e)) ∧
    out = (Result0, match x with Ok _ => None | Err e => Some e end).
Proof.
  intros Hfin. by_wp t out.
  apply wp_handleDeletion; [done|apply _|done|].
  intros h' (t & -> & Ht). split; [done|]. intros x. exists t, x. auto.
Qed.

Context `{!ReconcilerLaws k} `{!KubeLibLaws}.

Lemma finishReconcile_spec_out (o : obj k) result err t out :
  runs (finishReconcile o result err) t out →
  out = match err with
        | Some e => if rc_enterprise && isEnterpriseLicenseError e
                    then (RequeueIn enterpriseLicenseRetryInterval, None) else (result, Some e)
        | None => (result, None)
        end.
Proof.
  unfold finishReconcile. destruct err as [e|]; [destruct (rc_enterprise && _)|]; simpl; naive_solver.
Qed.

(** The outcome of the body decides the Synced condition that is written last:
    True exactly when the body succeeded, with reason Synced; a missing
    enterprise license (where the controller tells it apart) is not an error
    but a retry in two minutes with its own reason; any other error is
    returned, with reason SyncFailed. *)
Lemma finishReconcile_spec (o : obj k) result err t out :
  runs (finishReconcile o result err) t out →
  ∃ o' x c,
    last t = Some (KEv (KStatusUpdate k o') x) ∧
    FindStatusCondition (rc_conditions (Status o')) ConditionSynced = Some c ∧
    (cond_Status c = ConditionTrue ↔ err = None) ∧
    match err with
    | None => cond_Reason c = "Synced" ∧ out = (result, None)
    | Some e =>
        if rc_enterprise && isEnterpriseLicenseError e
        then cond_Reason c = "EnterpriseLicenseRequired" ∧
             out = (RequeueIn enterpriseLicenseRetryInterval, None)
        else cond_Reason c = "SyncFailed" ∧ out = (result, Some e)
    end.
Proof.
  unfold finishReconcile. destruct err as [e|]; [destruct (rc_enterprise && _)|]; simpl.
  1,2: intros (? & ? & -> & x & ? & -> & -> & ->).
  3: intros (x & ? & -> & -> & ->).
  all: eexists _, x, _; split; [reflexivity|]; simpl; rewrite rc_conditions_set, Find_Set;
    (split; [reflexivity|]); simpl; done.
Qed.

Lemma finishReconcile_retried (o : obj k) result err t out :
  retried (result, err) = true → runs (finishReconcile o result err) t out → retried out = true.
Proof.
  intros Hret Hr. apply finishReconcile_spec_out in Hr. rewrite Hr.
  destruct err as [e|]; [|done]. by destruct (_ && _).
Qed.

Lemma reconcileLive_retried (o : obj k) t out :
  runs (reconcileLive o) t out → retried out = true.
Proof.
  unfold reconcileLive. intros (t1 & t2 & r & -> & _ & Hr)%runs_bind_inv.
  destruct r as [ri|e].
  - apply runs_bind_inv in Hr as (t3 & t4 & [o' [result err]] & -> & Hbody & Hr).
    eapply finishReconcile_retried; [|exact Hr]. by eapply (rc_body_retried ri o).
  - destruct Hr as (? & ? & -> & x & ? & -> & -> & ->). done.
Qed.

(** C24: no live resource is ever given up: whenever the object exists and is not
    being deleted, [Reconcile] ends with an error (retried by
    controller-runtime) or with a requeue. *)
Theorem Reconcile_retries ns name (o : obj k) t out :
  DeletionTimestamp (Meta o) = None →
  runs (Reconcile ns name) (KEv (KGet k ns name) (Ok o) :: t) out →
  retried out = true.
Proof.
  intros Hlive (x & t' & Heq & Hr).
  assert (KEv (KGet k ns name) (Ok o) = KEv (KGet k ns name) x) as <-%Ev_inj by congruence.
  clear Heq. simpl in Hr. rewrite Hlive in Hr.
  destruct (ContainsFinalizer (Meta o) FinalizerName).
  - by eapply reconcileLive_retried.
  - destruct Hr as ([o'|e] & t'' & -> & Hr); [by eapply reconcileLive_retried|].
    by destruct Hr as [_ ->].
Qed.
End ReconcileTheorems.

(** ** The two writes every body shares

    The mark that a spec has been pushed is the annotation
    [AnnotationSyncHash].  [recordCreated] is the sequence that follows a
    successful create: the status (with the identifier) first, then the hash.
    [pushSpec] pushes a spec whose hash is not the recorded one. *)

Section Sync.
Context {k : Kind}.

Definition recordCreated (set : StatusOf k → StatusOf k) (msg : string) (hash : SpecOf k → string) :
    M K (obj k) Ret_t unit :=
  modify (map_status set) ;;
  check status_update_obj (λ err, fail0 (Errorf msg [] (Some err))) ;;
  modify (λ o, annotate AnnotationSyncHash (hash (Spec o)) o) ;;
  check update_obj fail0.

(** A call of LiteLLM of which only the error is looked at. *)
Definition m_send (c : ApiClient) (r : api_req) (answer : api_ans r → option error) :
    M K (obj k) Ret_t (option error) :=
  x ← m_api c r; mret (answer x).

Definition pushSpec (currentHash : string) (send : M K (obj k) Ret_t (option error)) (msg : string)
    (after : M K (obj k) Ret_t unit) : M K (obj k) Ret_t unit :=
  o ← get;
  when (bool_decide (annotation AnnotationSyncHash o ≠ currentHash)) (
    check send (λ err, retry30 (Errorf msg [] (Some err))) ;;
    modify (annotate AnnotationSyncHash currentHash) ;;
    check update_obj fail0 ;;
    after).
End Sync.

(** ** Early returns of the bodies

    [early P m]: every early return of [m] satisfies [P], such as [retried]. *)

Create HintDb retries discriminated.

Definition early {k : Kind} (P : Ret_t → bool) {A} (m : M K (obj k) Ret_t A) : Prop :=
  ∀ s h, wpM no_guarantee any_answer m s h
    (λ _ _ r, match r with inl e => P e = true | inr _ => True end).
Notation retries m := (early retried m).

(** A property of returns that holds of every error. *)
Class HoldsOnError (P : Ret_t → bool) : Prop := holds_on_error : ∀ r e, P (r, Some e) = true.
#[export] Instance retried_on_error : HoldsOnError retried.
Proof. done. Qed.

(** Another pass right away: [err != nil], or [Requeue]. *)
Definition repeated (r : Ret_t) : bool := match r.2 with Some _ => true | None => Requeue r.1 end.
#[export] Instance repeated_on_error : HoldsOnError repeated.
Proof. done. Qed.

Section Early.
Context {k : Kind} {P : Ret_t → bool}.
#[local] Notation early P m := (@early k P _ m) (only parsing).

Lemma early_ret {A} (a : A) : early P (mret a).
Proof. by intros s h. Qed.
Lemma early_exit {A} (r : Ret_t) : P r = true → early P (exit r : M K (obj k) Ret_t A).
Proof. by intros Hr s h. Qed.
Lemma early_get : early P get.
Proof. by intros s h. Qed.
Lemma early_modify f : early P (modify f).
Proof. by intros s h. Qed.
Lemma early_lift {A} (p : kprog A) : early P (lift p).
Proof. intros s h. mstep. by apply wp_anything. Qed.
Lemma early_call_fn {A} (m : M K (obj k) A A) : early P (call_fn m).
Proof. intros s h. mstep. by apply wpM_anything. Qed.

Lemma early_bind {A B} (m : M K (obj k) Ret_t A) (f : A → M K (obj k) Ret_t B) :
  early P m → (∀ a, early P (f a)) → early P (m ≫= f).
Proof.
  intros Hm Hf s h. mstep. eapply wpM_mono; [apply Hm|]. intros h' s' [e|a]; [done|]. intros _. apply Hf.
Qed.

Lemma early_try {A E} (m : M K (obj k) Ret_t (res A E)) f :
  early P m → (∀ e, P (f e) = true) → early P (try m f).
Proof. intros Hm Hf. apply early_bind; [done|]. intros [a|e]; [by apply early_ret|by apply early_exit]. Qed.

Lemma early_check {E} (m : M K (obj k) Ret_t (option E)) f :
  early P m → (∀ e, P (f e) = true) → early P (check m f).
Proof. intros Hm Hf. apply early_bind; [done|]. intros [e|]; [by apply early_exit|by apply early_ret]. Qed.

Lemma early_when b (m : M K (obj k) Ret_t unit) : early P m → early P (when b m).
Proof. intros Hm. destruct b; [done|apply early_ret]. Qed.

Lemma early_for_each {A} (l : list A) (body : A → M K (obj k) Ret_t unit) :
  (∀ x, early P (body x)) → early P (for_each l body).
Proof.
  intros Hb. induction l as [|x l IH]; [apply early_ret|]. by apply early_bind; [apply Hb|intros _].
Qed.

Lemma early_update_obj : early P update_obj.
Proof. intros s h. by mstep. Qed.
Lemma early_status_update_obj : early P status_update_obj.
Proof. intros s h. by mstep. Qed.
Lemma early_markAdopted : early P markAdopted.
Proof. intros s h. by mstep. Qed.
Lemma early_m_api c r : early P (m_api c r).
Proof. intros s h. by mstep. Qed.
Lemma early_m_event t r f a : early P (m_event t r f a).
Proof. intros s h. by mstep. Qed.

End Early.

Section Retries.
Context {k : Kind}.

(** Every return of [m] is retried. *)
Definition returns_retried (m : M K (obj k) Ret_t Ret_t) : Prop :=
  ∀ s h, wpM no_guarantee any_answer m s h
    (λ _ _ r, retried (match r with inl e => e | inr e => e end) = true).

Lemma returns_ret r : retried r = true → returns_retried (mret r).
Proof. by intros Hr s h. Qed.

Lemma returns_bind {A} (m : M K (obj k) Ret_t A) (f : A → M K (obj k) Ret_t Ret_t) :
  retries m → (∀ a, returns_retried (f a)) → returns_retried (m ≫= f).
Proof.
  intros Hm Hf s h. mstep. eapply wpM_mono; [apply Hm|]. intros h' s' [e|a]; [done|]. intros _. apply Hf.
Qed.

Lemma returns_runs (m : M K (obj k) Ret_t Ret_t) o t o' r :
  returns_retried m → runs (run_M m o) t (o', r) → retried r = true.
Proof.
  intros Hm. apply (kruns_post _ t (o', r) (λ _ p, retried p.2 = true)).
  apply wp_run_M, Hm.
Qed.
End Retries.

Section SyncRetries.
Context {k : Kind} {P : Ret_t → bool} `{!HoldsOnError P}.
#[local] Notation early P m := (@early k P _ m) (only parsing).

Lemma early_recordCreated (set : StatusOf k → StatusOf k) msg hash :
  early P (recordCreated set msg hash).
Proof.
  unfold recordCreated. apply early_bind; [apply early_modify|]. intros _.
  apply early_bind; [apply early_check; [apply early_status_update_obj|intros e; apply holds_on_error]|]. intros _.
  apply early_bind; [apply early_modify|]. intros _.
  apply early_check; [apply early_update_obj|intros e; apply holds_on_error].
Qed.

Lemma early_m_send c r answer : early P (m_send (k := k) c r answer).
Proof. apply early_bind; [apply early_m_api|]. intros x. apply early_ret. Qed.

Lemma early_pushSpec hash (send : M K (obj k) Ret_t (option error)) msg after :
  early P send → early P after → early P (pushSpec hash send msg after).
Proof.
  intros Hsend Hafter. unfold pushSpec. apply early_bind; [apply early_get|]. intros o.
  apply early_when, early_bind; [apply early_check; [done|intros e; apply holds_on_error]|]. intros _.
  apply early_bind; [apply early_modify|]. intros _.
  apply early_bind; [apply early_check; [apply early_update_obj|intros e; apply holds_on_error]|]. by intros _.
Qed.

(** A spec is pushed to LiteLLM exactly when its hash is not the recorded one,
    and its hash is recorded only after LiteLLM has accepted it: a refused update
    leaves the recorded hash alone and is retried.  (Teams, users, virtual keys,
    organizations, customers and budgets all push through [pushSpec].) *)
Lemma pushSpec_spec hash (cl : ApiClient) (req : api_req) (answer : api_ans req → option error) msg
    after (o o' : obj k) t r :
  runs (pushSpec hash (m_send cl req answer) msg after o) t (o', r) →
  if decide (annotation AnnotationSyncHash o = hash)
  then t = [] ∧ o' = o ∧ r = inr tt
  else ∃ (x : api_ans req) t1, t = KEv (KApi cl req) x :: t1 ∧
    match answer x with
    | Some err => t1 = [] ∧ o' = o ∧ r = inl (retry30 (Errorf msg [] (Some err)))
    | None => ∃ (y : res (obj k) error) t2,
        t1 = KEv (KUpdate k (annotate AnnotationSyncHash hash o)) y :: t2 ∧
        match y with
        | Err err => t2 = [] ∧ r = inl (fail0 err)
        | Ok server => runs (after server) t2 (o', r)
        end
    end.
Proof.
  unfold pushSpec. rewrite get_bind. case_decide as Hd.
  - rewrite bool_decide_false by tauto. by intros [-> [= -> ->]].
  - rewrite bool_decide_true by done. cbn -[annotation].
    intros (x & t' & -> & Hr). exists x, t'. split; [done|]. revert Hr.
    change (ar K (KApi cl req)) with (api_ans req) in x. simpl. destruct (answer x) as [err|]; simpl; intros Hr.
    { by destruct Hr as [-> [= -> ->]]. }
    destruct Hr as (y & t'' & -> & Hr). exists y, t''. split; [done|].
    destruct y as [server|err]; simpl in Hr; [|by destruct Hr as [-> [= -> ->]]].
    exact Hr.
Qed.
End SyncRetries.

(** Structural proof that every return is retried. *)
Ltac retries_step :=
  lazymatch goal with
  | |- ∀ _, _ => intros
  | |- returns_retried (_ ≫= _) => apply returns_bind
  | |- returns_retried (mret _) => apply returns_ret
  | |- retried _ = true => first [done | case_match]
  | |- repeated _ = true => first [done | case_match]
  | |- early ?P (_ ≫= _) => apply (early_bind (P := P))
  | |- early ?P (mret _) => apply (early_ret (P := P))
  | |- early ?P (exit _) => apply (early_exit (P := P))
  | |- early ?P get => apply (early_get (P := P))
  | |- early ?P (modify _) => apply (early_modify (P := P))
  | |- early ?P (lift _) => exact (early_lift (P := P) _)
  | |- early ?P (call_fn _) => exact (early_call_fn (P := P) _)
  | |- early ?P (try _ _) => apply (early_try (P := P))
  | |- early ?P (check _ _) => apply (early_check (P := P))
  | |- early ?P (when _ _) => apply (early_when (P := P))
  | |- early ?P (for_each _ _) => apply (early_for_each (P := P))
  | |- early ?P update_obj => apply (early_update_obj (P := P))
  | |- early ?P markAdopted => apply (early_markAdopted (P := P))
  | |- early ?P status_update_obj => apply (early_status_update_obj (P := P))
  | |- early ?P (m_api _ _) => exact (early_m_api (P := P) _ _)
  | |- early ?P (m_event _ _ _ _) => exact (early_m_event (P := P) _ _ _ _)
  | |- early ?P (m_send _ _ _) => exact (early_m_send (P := P) _ _ _)
  | |- early ?P (recordCreated _ _ _) => apply (early_recordCreated (P := P))
  | |- early ?P (pushSpec _ _ _ _) => apply (early_pushSpec (P := P))
  | |- _ => first [solve [eauto with retries] | case_match]
  end.

Ltac retries_tac := repeat retries_step.
