(* ===== verification/Team.v ===== *)
(** * Teams (internal/controller/litellmteam_controller.go)

    [reconcileTeam] binds the resource to a LiteLLM team (adopting an existing
    one named by [spec.teamId], else creating it), pushes spec changes, then
    reconciles members and logging callbacks. *)

From S2P Require Import Prelude KubeTypes InstanceTypes Types Updates World Sha256 Common Reconcile.
Open Scope Z_scope.

Definition mapObjectPermission (p : option ObjectPermission) : option ApiObjectPermission :=
  match p with
  | None => None
  | Some p => Some (MkApiObjectPermission (op_MCPServers p) (op_AccessGroups p)
                      (op_VectorStores p) (op_Agents p))
  end.

(** ** Member lists *)

Definition memberSet (members : list TeamMember) : gmap string bool :=
  foldl (λ s m, <[tm_Email m := true]> s) ∅ members.

Definition memberEmailSet (members : list TeamMemberInfo) : gmap string bool :=
  foldl (λ s m, <[tmi_Email m := true]> s) ∅ members.

Definition crdMemberSet (members : list TeamMemberStatus) : gmap string bool :=
  foldl (λ s m, <[tms_Email m := true]> s) ∅ members.

(** Read of a [map[string]bool]. *)
Definition in_set (s : gmap string bool) (k : string) : bool := default false (s !! k).

Definition toMemberStatusList (members : list TeamMemberInfo) (source : string) : list TeamMemberStatus :=
  (λ m, MkTeamMemberStatus (tmi_Email m) (tmi_Role m) source true) <$> members.

Definition toMemberStatusListFromSpec (members : list TeamMember) (source : string) : list TeamMemberStatus :=
  (λ m, let role := if decide (tm_Role m = "") then "user" else tm_Role m in
        MkTeamMemberStatus (tm_Email m) role source true) <$> members.

Section Team.
Context `{KubeLib} `{JSONMarshal LiteLLMTeamSpec}.

#[local] Notation TeamM := (M K LiteLLMTeam).
#[local] Notation get := (@get K LiteLLMTeam _).
#[local] Notation modify := (@modify K LiteLLMTeam _).
#[local] Notation markAdopted := (@markAdopted KTeam _).
#[local] Notation recordCreated := (@recordCreated KTeam).
#[local] Notation pushSpec := (@pushSpec KTeam).
#[local] Notation m_send := (@m_send KTeam).
#[local] Notation status_update_obj := (@status_update_obj KTeam _).
#[local] Notation m_api := (@m_api KTeam _).
#[local] Notation m_event := (@m_event KTeam _).

(** ** References *)

Definition resolveOrganizationRef (team : LiteLLMTeam) : kprog (res string error) :=
  match ts_OrganizationRef (Spec team) with
  | None => mret (Ok "")
  | Some ref =>
      org ← kcallp (KGet KOrganization (Namespace (Meta team)) (or_Name ref));
      match org with
      | Err err => mret (Err (Errorf "resolve organization ref %q: %w" [FStr (or_Name ref)] (Some err)))
      | Ok org =>
          if decide (ost_LiteLLMOrganizationID (Status org) = "")
          then mret (Err (Errorf "organization %q not yet synced (no litellmOrganizationId)"
                            [FStr (or_Name ref)] None))
          else mret (Ok (ost_LiteLLMOrganizationID (Status org)))
      end
  end.

(** ** Adoption of the team named by [spec.teamId] *)

Definition adoptExistingTeam (apiClient : ApiClient) : TeamM (option error) (option error) :=
  team ← get;
  r ← m_api apiClient (TeamsGet (ts_TeamID (Spec team)));
  match r with
  | Err err =>
      match IsAPIError err with
      | Some apiErr =>
          if IsNotFound apiErr then mret None
          else mret (Some (Errorf "check for existing team %q: %w" [FStr (ts_TeamID (Spec team))] (Some err)))
      | None => mret (Some (Errorf "check for existing team %q: %w" [FStr (ts_TeamID (Spec team))] (Some err)))
      end
  | Ok _ =>
      check markAdopted Some ;;
      team ← get;
      modify (map_status (with_tst_LiteLLMTeamID (ts_TeamID (Spec team)))) ;;
      check status_update_obj (λ err, Some (Errorf "update status after adopt: %w" [] (Some err))) ;;
      team ← get;
      m_event EventTypeNormal EventReasonAdopted "Adopted existing LiteLLM team %q (id=%s)"
        [FStr (ts_TeamAlias (Spec team)); FStr (ts_TeamID (Spec team))] ;;
      mret None
  end.

(** ** Requests *)

Definition teamCreateRequest (team : LiteLLMTeam) (orgID : string) : TeamCreateRequest := {|
  tcr_TeamID := ts_TeamID (Spec team);
  tcr_TeamAlias := ts_TeamAlias (Spec team);
  tcr_OrganizationID := orgID;
  tcr_Models := ts_Models (Spec team);
  tcr_MaxBudget := ts_MaxBudgetMonthly (Spec team);
  tcr_BudgetDuration := ts_BudgetDuration (Spec team);
  tcr_TPMLimit := ts_TPMLimit (Spec team);
  tcr_RPMLimit := ts_RPMLimit (Spec team);
  tcr_TeamMemberRPMLimit := ts_TeamMemberRPMLimit (Spec team);
  tcr_TeamMemberTPMLimit := ts_TeamMemberTPMLimit (Spec team);
  tcr_TeamMemberBudget := ts_TeamMemberBudget (Spec team);
  tcr_MaxParallelRequests := ts_MaxParallelRequests (Spec team);
  tcr_SoftBudget := ts_SoftBudget (Spec team);
  tcr_ModelRPMLimit := ts_ModelRPMLimit (Spec team);
  tcr_ModelTPMLimit := ts_ModelTPMLimit (Spec team);
  tcr_ObjectPermission := mapObjectPermission (ts_ObjectPermission (Spec team));
  tcr_Metadata := ts_Metadata (Spec team);
  tcr_Members := [];
  tcr_Tags := ts_Tags (Spec team);
  tcr_Guardrails := ts_Guardrails (Spec team);
  tcr_Blocked := ts_Blocked (Spec team)
|}.

Definition teamUpdateRequest (team : LiteLLMTeam) (orgID : string) : TeamUpdateRequest := {|
  tur_TeamID := tst_LiteLLMTeamID (Status team);
  tur_TeamAlias := ts_TeamAlias (Spec team);
  tur_OrganizationID := orgID;
  tur_Models := ts_Models (Spec team);
  tur_MaxBudget := ts_MaxBudgetMonthly (Spec team);
  tur_BudgetDuration := ts_BudgetDuration (Spec team);
  tur_TPMLimit := ts_TPMLimit (Spec team);
  tur_RPMLimit := ts_RPMLimit (Spec team);
  tur_TeamMemberBudget := ts_TeamMemberBudget (Spec team);
  tur_MaxParallelRequests := ts_MaxParallelRequests (Spec team);
  tur_SoftBudget := ts_SoftBudget (Spec team);
  tur_ModelRPMLimit := ts_ModelRPMLimit (Spec team);
  tur_ModelTPMLimit := ts_ModelTPMLimit (Spec team);
  tur_ObjectPermission := mapObjectPermission (ts_ObjectPermission (Spec team));
  tur_Metadata := ts_Metadata (Spec team);
  tur_Tags := ts_Tags (Spec team);
  tur_Guardrails := ts_Guardrails (Spec team);
  tur_Blocked := ts_Blocked (Spec team)
|}.

(** ** Members *)

(** Adds the members of [spec.members] that LiteLLM does not list; a failure is
    logged and the loop goes on. *)
Definition addMissingMembers (apiClient : ApiClient) (id : string) (members : list TeamMember)
    (actual : gmap string bool) : TeamM (option error) unit :=
  for_each members (λ m,
    when (negb (in_set actual (tm_Email m)))
      (_ ← m_api apiClient (TeamsAddMember id (tm_Email m) (tm_Role m)); mret tt)).

Definition removeMember (apiClient : ApiClient) (id : string) (desired : gmap string bool)
    (email : string) : TeamM (option error) unit :=
  when (negb (in_set desired email))
    (_ ← m_api apiClient (TeamsRemoveMember id email); mret tt).

Definition listMembers (apiClient : ApiClient) (id : string) :
    TeamM (option error) (list TeamMemberInfo) :=
  try (m_api apiClient (TeamsListMembers id)) (λ err, Some (Errorf "list members: %w" [] (Some err))).

Definition setMembers (crd sso : list TeamMemberStatus) (total : Z) :
    TeamM (option error) unit :=
  modify (map_status (λ st,
    with_tst_TotalMemberCount total (with_tst_SSOMembers sso (with_tst_CRDMembers crd st)))).

(** The member management mode in force. *)
Definition member_mode (team : LiteLLMTeam) : string :=
  if decide (ts_MemberManagement (Spec team) = "") then "mixed" else ts_MemberManagement (Spec team).

Definition reconcileMembers (apiClient : ApiClient) : TeamM (option error) (option error) :=
  team ← get;
  let mgmt := member_mode team in
  let id := tst_LiteLLMTeamID (Status team) in
  let members := ts_Members (Spec team) in
  if decide (mgmt = "sso") then
    apiMembers ← listMembers apiClient id;
    setMembers [] (toMemberStatusList apiMembers "sso") (Z.of_nat (length apiMembers)) ;;
    mret None
  else if decide (mgmt = "crd") then
    apiMembers ← listMembers apiClient id;
    let desired := memberSet members in
    let actual := memberEmailSet apiMembers in
    addMissingMembers apiClient id members actual ;;
    for_each apiMembers (λ am, removeMember apiClient id desired (tmi_Email am)) ;;
    setMembers (toMemberStatusListFromSpec members "crd") [] (Z.of_nat (length members)) ;;
    mret None
  else if decide (mgmt = "mixed") then
    apiMembers ← listMembers apiClient id;
    let desired := memberSet members in
    let actual := memberEmailSet apiMembers in
    let previousCRD := crdMemberSet (tst_CRDMembers (Status team)) in
    addMissingMembers apiClient id members actual ;;
    emails ← lift (range_map previousCRD);
    for_each emails (λ e, removeMember apiClient id desired (fst e)) ;;
    let ssoMembers :=
      (λ am, MkTeamMemberStatus (tmi_Email am) (tmi_Role am) "sso" true) <$>
        filter (λ am, in_set desired (tmi_Email am) = false) apiMembers in
    setMembers (toMemberStatusListFromSpec members "crd") ssoMembers
      (Z.of_nat (length members) + Z.of_nat (length ssoMembers)) ;;
    mret None
  else mret (Some (Errorf "unknown memberManagement mode: %q" [FStr mgmt] None)).

(** ** Logging callbacks *)

Definition readCallbackCredentials (namespace : string) (cb : TeamCallback) :
    kprog (res (gmap string string) error) :=
  let name := sr_Name (tcb_CredentialsSecretRef cb) in
  secret ← kcallp (KGetSecret namespace name);
  match secret with
  | Err err => mret (Err (Errorf "fetch secret %q: %w" [FStr name] (Some err)))
  | Ok s => mret (Ok (tcb_Config cb ∪ sec_Data s))
  end.

Definition setLogging (disabled synced : bool) : TeamM (option error) unit :=
  modify (map_status (λ st, with_tst_LoggingSynced synced (with_tst_LoggingDisabled disabled st))).

Definition reconcileLogging (apiClient : ApiClient) : TeamM (option error) (option error) :=
  team ← get;
  let id := tst_LiteLLMTeamID (Status team) in
  match ts_Logging (Spec team) with
  | None => setLogging false false ;; mret None
  | Some logging =>
      if tl_Disabled logging then
        check (m_api apiClient (TeamsDisableLogging id))
          (λ err, Some (Errorf "disable logging for team %s: %w" [FStr id] (Some err))) ;;
        setLogging true true ;;
        m_event EventTypeNormal EventReasonUpdated "Logging disabled for team %q (GDPR)"
          [FStr (ts_TeamAlias (Spec team))] ;;
        mret None
      else if decide (length (tl_Callbacks logging) = 0%nat) then
        check (m_api apiClient (TeamsDisableLogging id))
          (λ err, Some (Errorf "disable logging (cleanup) for team %s: %w" [FStr id] (Some err))) ;;
        setLogging false true ;;
        mret None
      else
        for_each (tl_Callbacks logging) (λ cb,
          vars ← try (lift (readCallbackCredentials (Namespace (Meta team)) cb))
                   (λ err, Some (Errorf "read credentials for callback %q: %w" [FStr (tcb_Name cb)] (Some err)));
          let cbType := if decide (tcb_Type cb = "") then "success_and_failure" else tcb_Type cb in
          check (m_api apiClient (TeamsSetCallback id (MkTeamCallbackRequest (tcb_Name cb) cbType vars)))
            (λ err, Some (Errorf "set callback %q for team %s: %w" [FStr (tcb_Name cb); FStr id] (Some err)))) ;;
        setLogging false true ;;
        m_event EventTypeNormal EventReasonUpdated "Logging callbacks configured for team %q"
          [FStr (ts_TeamAlias (Spec team))] ;;
        mret None
  end.

(** ** The body *)

Definition createTeam (apiClient : ApiClient) (orgID : string) : TeamM Ret_t unit :=
  team ← get;
  resp ← try (m_api apiClient (TeamsCreate (teamCreateRequest team orgID)))
           (λ err, retry30 (Errorf "create team: %w" [] (Some err)));
  recordCreated (λ st, with_tst_Synced true (with_tst_LiteLLMTeamID (tcresp_TeamID resp) st))
    "update status after create: %w" computeSpecHash ;;
  team ← get;
  m_event EventTypeNormal EventReasonCreated "Team %q registered with LiteLLM (id=%s)"
    [FStr (ts_TeamAlias (Spec team)); FStr (tcresp_TeamID resp)].

Definition updateTeam (apiClient : ApiClient) (orgID : string) : TeamM Ret_t unit :=
  team ← get;
  pushSpec (computeSpecHash (Spec team))
    (m_send apiClient (TeamsUpdate (teamUpdateRequest team orgID)) id) "update team: %w" (
    modify (map_status (with_tst_Synced true)) ;;
    team ← get;
    m_event EventTypeNormal EventReasonUpdated "Team %q updated in LiteLLM"
      [FStr (ts_TeamAlias (Spec team))]).

(** Binding of the resource to its LiteLLM team, and push of its spec. *)
Definition bindTeam (apiClient : ApiClient) (orgID : string) : TeamM Ret_t unit :=
  team ← get;
  when (bool_decide (tst_LiteLLMTeamID (Status team) = "") && bool_decide (ts_TeamID (Spec team) ≠ ""))
    (check (call_fn (adoptExistingTeam apiClient)) retry30) ;;
  team ← get;
  if decide (tst_LiteLLMTeamID (Status team) = "")
  then createTeam apiClient orgID
  else updateTeam apiClient orgID.

Definition refreshTeam (apiClient : ApiClient) : TeamM Ret_t Ret_t :=
  team ← get;
  info ← m_api apiClient (TeamsGet (tst_LiteLLMTeamID (Status team)));
  match info with
  | Ok info => modify (map_status (with_tst_CurrentSpend (ti_Spend info)))
  | Err _ => mret tt
  end ;;
  now ← lift (kcallp KNow);
  modify (map_status (with_tst_LastSyncTime (Some now))) ;;
  mret (RequeueIn (5 * time_Minute), None).

Definition reconcileTeam (resolved : ResolvedInstance) : TeamM Ret_t Ret_t :=
  let apiClient := client_of resolved in
  team ← get;
  orgID ← try (lift (resolveOrganizationRef team))
            (λ err, retry30 (Errorf "resolve organization ref: %w" [] (Some err)));
  bindTeam apiClient orgID ;;
  check (call_fn (reconcileMembers apiClient))
    (λ err, retry30 (Errorf "reconcile members: %w" [] (Some err))) ;;
  check (call_fn (reconcileLogging apiClient))
    (λ err, if isEnterpriseLicenseError err then fail0 err
            else retry30 (Errorf "reconcile logging: %w" [] (Some err))) ;;
  refreshTeam apiClient.

#[export] Instance LiteLLMTeamReconciler : Reconciler KTeam := {
  rc_kind := kindTeam;
  rc_ref := ts_InstanceRef;
  rc_conditions := tst_Conditions;
  rc_set_conditions := with_tst_Conditions;
  rc_observed_generation := false;
  rc_enterprise := true;
  rc_display := λ team : LiteLLMTeam, ts_TeamAlias (Spec team);
  rc_delete_display := λ team : LiteLLMTeam, ts_TeamAlias (Spec team);
  rc_msg_enterprise := "Team %q requires a LiteLLM Enterprise license";
  rc_msg_failed := "Failed to reconcile team %q: %v";
  rc_msg_synced := "Team synced to LiteLLM";
  rc_msg_delete_failed := "Failed to delete team %q from LiteLLM: %v";
  rc_msg_deleted := "Team %q deleted from LiteLLM";
  rc_msg_adopted := Some "Team %q was adopted, not created, by the operator; left in place in LiteLLM";
  rc_service := STeams;
  rc_delete_id := λ team : LiteLLMTeam,
    if decide (tst_LiteLLMTeamID (Status team) = "") then None else Some (tst_LiteLLMTeamID (Status team));
  rc_body := λ resolved team, run_M (reconcileTeam resolved) team
}.

Definition LiteLLMTeam_handleDeletion : LiteLLMTeam → kprog Ret_t := handleDeletion (k := KTeam).
End Team.

(** ** Every pass of the controller retries *)

Section TeamLaws.
Context `{KubeLib} `{JSONMarshal LiteLLMTeamSpec}.

Lemma createTeam_retries cl org : retries (createTeam cl org).
Proof. unfold createTeam. retries_tac. Qed.

Lemma updateTeam_retries cl org : retries (updateTeam cl org).
Proof. unfold updateTeam. retries_tac. Qed.

#[local] Hint Resolve createTeam_retries updateTeam_retries : retries.

Lemma bindTeam_retries cl org : retries (bindTeam cl org).
Proof. unfold bindTeam. retries_tac. Qed.

#[local] Hint Resolve bindTeam_retries : retries.

Lemma reconcileTeam_retries ri : returns_retried (reconcileTeam ri).
Proof. unfold reconcileTeam, refreshTeam. retries_tac. Qed.

#[export] Instance LiteLLMTeamReconciler_laws : ReconcilerLaws KTeam.
Proof. split; [done|]. intros ri o t o' r. apply returns_runs, reconcileTeam_retries. Qed.
End TeamLaws.

(** ** Members *)

Section TeamMembers.
Context `{KubeLib} `{JSONMarshal LiteLLMTeamSpec}.

Lemma in_set_foldl {A} (f : A → string) (l : list A) (s : gmap string bool) e :
  in_set (foldl (λ s m, <[f m := true]> s) s l) e = true ↔ e ∈ f <$> l ∨ in_set s e = true.
Proof.
  revert s. induction l as [|x l IH]; intros s; simpl; [set_solver|].
  rewrite IH. unfold in_set. destruct (decide (f x = e)) as [<-|Hne].
  - rewrite lookup_insert_eq. set_solver.
  - rewrite lookup_insert_ne by done. set_solver.
Qed.

Lemma in_set_empty e : in_set ∅ e = true ↔ False.
Proof. unfold in_set. by rewrite lookup_empty. Qed.

Lemma in_memberSet l e : in_set (memberSet l) e = true ↔ e ∈ tm_Email <$> l.
Proof. unfold memberSet. rewrite in_set_foldl, in_set_empty. tauto. Qed.

Lemma in_memberEmailSet l e : in_set (memberEmailSet l) e = true ↔ e ∈ tmi_Email <$> l.
Proof. unfold memberEmailSet. rewrite in_set_foldl, in_set_empty. tauto. Qed.

Lemma in_crdMemberSet l e : in_set (crdMemberSet l) e = true ↔ e ∈ tms_Email <$> l.
Proof. unfold crdMemberSet. rewrite in_set_foldl, in_set_empty. tauto. Qed.

(** Every entry of a set built by insertions reads [true]. *)
Lemma foldl_all_true {A} (f : A → string) (l : list A) (s : gmap string bool) :
  (∀ e b, s !! e = Some b → b = true) →
  ∀ e b, foldl (λ s m, <[f m := true]> s) s l !! e = Some b → b = true.
Proof.
  revert s. induction l as [|x l IH]; intros s Hs; simpl; [done|]. apply IH.
  intros e b. rewrite lookup_insert. case_decide; [by intros [= <-]|]. apply Hs.
Qed.

Lemma crdMemberSet_entries l e :
  e ∈ tms_Email <$> l ↔ ∃ b, (e, b) ∈ map_to_list (crdMemberSet l).
Proof.
  rewrite <- in_crdMemberSet. unfold in_set. split.
  - destruct (crdMemberSet l !! e) as [b|] eqn:Hl; [|done]. intros _.
    exists b. by apply elem_of_map_to_list.
  - intros [b Hb%elem_of_map_to_list]. rewrite Hb. simpl.
    eapply (foldl_all_true _ l ∅); [|exact Hb]. intros ??. by rewrite lookup_empty.
Qed.

Definition spec_emails (team : LiteLLMTeam) : list string := tm_Email <$> ts_Members (Spec team).
Definition crd_emails (team : LiteLLMTeam) : list string := tms_Email <$> tst_CRDMembers (Status team).

(** What the membership calls of a pass may be. *)
Definition member_call_ok (cl : ApiClient) (team : LiteLLMTeam) (h : khist) (c : kcall) : Prop :=
  match c with
  | KApi _ (TeamsAddMember id email role) =>
      member_mode team ≠ "sso" ∧
      ∃ m l, m ∈ ts_Members (Spec team) ∧ email = tm_Email m ∧ role = tm_Role m ∧
        KEv (KApi cl (TeamsListMembers id)) (Ok l) ∈ h ∧ email ∉ tmi_Email <$> l
  | KApi _ (TeamsRemoveMember id email) =>
      email ∉ spec_emails team ∧
      (member_mode team = "crd" ∧
         (∃ l, KEv (KApi cl (TeamsListMembers id)) (Ok l) ∈ h ∧ email ∈ tmi_Email <$> l) ∨
       member_mode team = "mixed" ∧ email ∈ crd_emails team)
  | KApi _ r => r = TeamsListMembers (tst_LiteLLMTeamID (Status team))
  | c => benign c = true
  end.

#[export] Instance member_call_ok_benign cl team : benign_ok (member_call_ok cl team).
Proof. intros h c Hc. by destruct c. Qed.

Lemma wpM_addMissingMembers (G : khist → kcall → Prop) R cl id members actual s h
    (Q : khist → LiteLLMTeam → option error + unit → Prop) :
  (∀ m h', m ∈ members → in_set actual (tm_Email m) = false → extends (λ _, True) h h' →
     G h' (KApi cl (TeamsAddMember id (tm_Email m) (tm_Role m)))) →
  (∀ h', extends (λ _, True) h h' → Q h' s (inr tt)) →
  wpM G R (addMissingMembers cl id members actual) s h Q.
Proof.
  intros HG HQ. unfold addMissingMembers.
  apply (wpM_for_each _ _ (λ l h' s', extends (λ _, True) h h' ∧ s' = s ∧ l ⊆ members)).
  - split; [apply extends_refl|]. split; [done|set_solver].
  - intros m l h' ? (Hext & -> & Hl). mstep.
    + apply negb_true_iff in H1. do 2 mstep; [apply HG; [set_solver|done|done]|].
      mstep. split; [|set_solver]. eapply extends_trans; [exact Hext|]. by apply extends_ev.
    + split; [done|set_solver].
  - intros h' ? (Hext & -> & _). by apply HQ.
Qed.

Lemma wpM_removeMembers (G : khist → kcall → Prop) R {A} (f : A → string) cl id desired (l : list A) s h
    (Q : khist → LiteLLMTeam → option error + unit → Prop) :
  (∀ x h', x ∈ l → in_set desired (f x) = false → extends (λ _, True) h h' →
     G h' (KApi cl (TeamsRemoveMember id (f x)))) →
  (∀ h', extends (λ _, True) h h' → Q h' s (inr tt)) →
  wpM G R (for_each l (λ x, removeMember cl id desired (f x))) s h Q.
Proof.
  intros HG HQ.
  apply (wpM_for_each _ _ (λ l' h' s', extends (λ _, True) h h' ∧ s' = s ∧ l' ⊆ l)).
  - split; [apply extends_refl|]. split; [done|set_solver].
  - intros x l' h' ? (Hext & -> & Hl). unfold removeMember. mstep.
    + apply negb_true_iff in H1. do 2 mstep; [apply HG; [set_solver|done|done]|].
      mstep. split; [|set_solver]. eapply extends_trans; [exact Hext|]. by apply extends_ev.
    + split; [done|set_solver].
  - intros h' ? (Hext & -> & _). by apply HQ.
Qed.

(** The calls of [reconcileMembers] respect the management mode: under [sso]
    LiteLLM's members are never touched; a member is added only when
    [spec.members] asks for it and LiteLLM does not list it; a member is removed
    only when [spec.members] does not ask for it and, under [mixed], only when the
    operator itself had added it (so members who joined through SSO stay). *)
Lemma reconcileMembers_calls cl team :
  kalways (member_call_ok cl team) (run_M (reconcileMembers cl) team).
Proof.
  apply (wp_always _ _ (λ _ _, True)), wp_run_M.
  unfold reconcileMembers. do 2 mstep. cbv zeta.
  case_decide as Hsso; [|case_decide as Hcrd; [|case_decide as Hmixed]].
  - unfold listMembers. do 3 mstep; [done|]. destruct x as [l|]; [|done]. by (unfold setMembers; repeat mstep).
  - unfold listMembers. do 3 mstep; [done|]. destruct x as [l|]; [|done].
    mstep. apply wpM_addMissingMembers.
    { intros m h' Hm Hin Hext. split; [by rewrite Hcrd|]. exists m, l.
      apply not_true_iff_false in Hin. rewrite in_memberEmailSet in Hin.
      repeat split; [done| |done]. eapply extends_elem; [exact Hext|]. set_solver. }
    intros h' Hext. mstep. apply (wpM_removeMembers _ _ tmi_Email).
    { intros am h2 Ham Hin Hext2. apply not_true_iff_false in Hin. rewrite in_memberSet in Hin.
      split; [done|]. left. split; [done|]. exists l. split; [|set_solver].
      eapply extends_elem; [exact Hext2|]. eapply extends_elem; [exact Hext|]. set_solver. }
    intros h2 _. by (unfold setMembers; repeat mstep).
  - unfold listMembers. do 3 mstep; [done|]. destruct x as [l|]; [|done].
    mstep. apply wpM_addMissingMembers.
    { intros m h' Hm Hin Hext. split; [by rewrite Hmixed|]. exists m, l.
      apply not_true_iff_false in Hin. rewrite in_memberEmailSet in Hin.
      repeat split; [done| |done]. eapply extends_elem; [exact Hext|]. set_solver. }
    intros h' Hext. do 2 mstep. apply wp_range_map; [apply _|].
    intros h2 emails Hperm _. mstep. apply (wpM_removeMembers _ _ fst).
    { intros [e b] h3 Hx Hin _. apply not_true_iff_false in Hin. rewrite in_memberSet in Hin.
      split; [done|]. right. split; [done|]. rewrite Hperm in Hx. apply crdMemberSet_entries. by exists b. }
    intros h3 _. by (unfold setMembers; repeat mstep).
  - done.
Qed.
End TeamMembers.

(** ** Convergence of the members *)

(** The emails of the team [id] at LiteLLM after the accepted membership calls of a
    history, from [s]: a call changes the team it names. *)
Definition member_step (id : string) (s : gset string) (e : event K) : gset string :=
  match ev_op e as c return kans c → gset string with
  | KApi _ r =>
      match r as r0 return api_ans r0 → gset string with
      | TeamsAddMember tid email _ => λ x : option error,
          match x with None => if decide (tid = id) then {[email]} ∪ s else s | Some _ => s end
      | TeamsRemoveMember tid email => λ x : option error,
          match x with None => if decide (tid = id) then s ∖ {[email]} else s | Some _ => s end
      | _ => λ _, s
      end
  | _ => λ _, s
  end (ev_ans e).

Definition members_after (id : string) (s : gset string) (h : khist) : gset string := foldl (member_step id) s h.

Lemma members_after_snoc id s h e : members_after id s (h ++ [e]) = member_step id (members_after id s h) e.
Proof. unfold members_after. rewrite foldl_app. done. Qed.

Lemma member_step_benign id (s : gset string) (e : event K) : benign (ev_op e) = true → member_step id s e = s.
Proof. unfold member_step. destruct e as [c x]. by destruct c. Qed.

Lemma members_after_benign id s h h' : benign_ext h h' → members_after id s h' = members_after id s h.
Proof.
  intros (t & -> & Ht). unfold members_after. rewrite foldl_app.
  generalize (foldl (member_step id) s h). induction t as [|e t IH]; intros s'; [done|]. simpl.
  rewrite member_step_benign; [apply IH|]; intros; apply Ht; set_solver.
Qed.

(** LiteLLM lists [l id] for the team [id] and accepts the membership calls. *)
Definition members_cooperate (l : string → list TeamMemberInfo) (h : khist) (c : kcall) : kans c → Prop :=
  match c as c0 return kans c0 → Prop with
  | KApi _ r =>
      match r as r0 return api_ans r0 → Prop with
      | TeamsListMembers id => λ x, x = Ok (l id)
      | TeamsAddMember _ _ _ => λ x : option error, x = None
      | TeamsRemoveMember _ _ => λ x : option error, x = None
      | _ => λ _, True
      end
  | _ => λ _, True
  end.

(** The membership a mode asks for, from what LiteLLM listed ([L]), the spec ([D])
    and the members the operator had added before ([C]). *)
Definition intended_members (mode : string) (L D C : gset string) : gset string :=
  if decide (mode = "sso") then L else if decide (mode = "crd") then D else D ∪ (L ∖ C).

Section SetSteps.
Implicit Types (A L X R D : gset string).

Lemma add_one A L X R e :
  L ⊆ A → A ∪ ({[e]} ∪ R) = X → L ⊆ {[e]} ∪ A ∧ ({[e]} ∪ A) ∪ R = X.
Proof. set_solver. Qed.

Lemma add_none A L X R e :
  e ∈ L → L ⊆ A → A ∪ ({[e]} ∪ R) = X → A ∪ R = X.
Proof. set_solver. Qed.

Lemma remove_one A R D e : e ∉ D → (A ∖ {[e]}) ∖ (R ∖ D) = A ∖ (({[e]} ∪ R) ∖ D).
Proof. set_solver. Qed.

Lemma remove_none A R D e : e ∈ D → A ∖ (R ∖ D) = A ∖ (({[e]} ∪ R) ∖ D).
Proof.
  intros He. apply set_eq. intros x.
  rewrite !elem_of_difference, elem_of_union, elem_of_singleton.
  destruct (decide (x = e)) as [->|]; tauto.
Qed.

Lemma crd_outcome L D : (L ∪ D) ∖ (L ∖ D) = D.
Proof.
  apply set_eq. intros x. rewrite !elem_of_difference, elem_of_union.
  destruct (decide (x ∈ D)); tauto.
Qed.

Lemma mixed_outcome L D C : (L ∪ D) ∖ (C ∖ D) = D ∪ (L ∖ C).
Proof.
  apply set_eq. intros x. rewrite !elem_of_difference, !elem_of_union, elem_of_difference.
  destruct (decide (x ∈ D)), (decide (x ∈ C)); tauto.
Qed.
End SetSteps.

Section Convergence.
Context `{KubeLib} `{JSONMarshal LiteLLMTeamSpec}.
Variables (l : string → list TeamMemberInfo).

(** The members LiteLLM lists for a team. *)
Definition listed_members (id : string) : gset string := list_to_set (tmi_Email <$> l id).

#[local] Notation L := listed_members.
#[local] Notation after id h := (members_after id (L id) h).
#[local] Notation R := (members_cooperate l).

(** No other team than [id] changes between two histories. *)
Definition others_kept (id : string) (h h' : khist) : Prop := ∀ id', id' ≠ id → after id' h' = after id' h.

Lemma others_kept_refl id h : others_kept id h h.
Proof. done. Qed.
Lemma others_kept_trans id h1 h2 h3 : others_kept id h1 h2 → others_kept id h2 h3 → others_kept id h1 h3.
Proof. intros H12 H23 id' Hne. by rewrite H23, H12. Qed.
Lemma others_kept_step id h h' e :
  others_kept id h h' → (∀ id' s, id' ≠ id → member_step id' s e = s) → others_kept id h (h' ++ [e]).
Proof. intros Hk He id' Hne. rewrite members_after_snoc, He by done. by apply Hk. Qed.

Lemma addMissingMembers_converges cl id members s h
    (Q : khist → LiteLLMTeam → option error + unit → Prop) :
  after id h = L id →
  (∀ h', after id h' = L id ∪ list_to_set (tm_Email <$> members) → others_kept id h h' → Q h' s (inr tt)) →
  wpM no_guarantee R (addMissingMembers cl id members (memberEmailSet (l id))) s h Q.
Proof.
  intros HL HQ. unfold addMissingMembers.
  apply (wpM_for_each _ _ (λ rest h' s', s' = s ∧ others_kept id h h' ∧ L id ⊆ after id h' ∧
    after id h' ∪ list_to_set (tm_Email <$> rest) = L id ∪ list_to_set (tm_Email <$> members))).
  - rewrite HL. done.
  - intros m rest h' ? (-> & Hk & Hsub & Heq). rewrite fmap_cons, list_to_set_cons in Heq. mstep.
    + do 2 mstep; [done|]. mstep. assert (x = None) as -> by done. split_and!; [done| |..].
      { apply others_kept_step; [done|]. intros id' s0 Hne. unfold member_step. simpl. by case_decide. }
      all: rewrite members_after_snoc; unfold member_step; simpl; rewrite decide_True by done.
      * set_solver.
      * by eapply add_one.
    + apply negb_false_iff, in_memberEmailSet in H1. split_and!; [done..|].
      eapply add_none; [|exact Hsub|exact Heq]. by apply elem_of_list_to_set.
  - intros h' ? (-> & Hk & Hsub & Heq). apply HQ; [|done]. rewrite <- Heq.
    change (list_to_set (tm_Email <$> [])) with (∅ : gset string). by rewrite (right_id_L ∅ (∪)).
Qed.

Lemma removeMembers_converges cl id members {A} (f : A → string) (xs : list A) s h
    (Q : khist → LiteLLMTeam → option error + unit → Prop) :
  (∀ h', after id h' = after id h ∖ (list_to_set (f <$> xs) ∖ list_to_set (tm_Email <$> members)) →
         others_kept id h h' → Q h' s (inr tt)) →
  wpM no_guarantee R (for_each xs (λ x, removeMember cl id (memberSet members) (f x))) s h Q.
Proof.
  intros HQ.
  apply (wpM_for_each _ _ (λ rest h' s', s' = s ∧ others_kept id h h' ∧
    after id h' ∖ (list_to_set (f <$> rest) ∖ list_to_set (tm_Email <$> members)) =
    after id h ∖ (list_to_set (f <$> xs) ∖ list_to_set (tm_Email <$> members)))).
  - done.
  - intros x rest h' ? (-> & Hk & Heq). rewrite fmap_cons, list_to_set_cons in Heq.
    unfold removeMember. mstep.
    + apply negb_true_iff, not_true_iff_false in H1. rewrite in_memberSet in H1.
      do 2 mstep; [done|]. mstep. assert (x0 = None) as -> by done. split_and!; [done| |].
      { apply others_kept_step; [done|]. intros id' s0 Hne. unfold member_step. simpl. by case_decide. }
      rewrite members_after_snoc. unfold member_step. simpl. rewrite decide_True by done.
      rewrite <- Heq. apply remove_one. by rewrite elem_of_list_to_set.
    + apply negb_false_iff, in_memberSet in H1. split_and!; [done..|]. rewrite <- Heq.
      apply remove_none. by rewrite elem_of_list_to_set.
  - intros h' ? (-> & Hk & Heq). apply HQ; [|done]. rewrite <- Heq.
    change (list_to_set (f <$> [])) with (∅ : gset string).
    apply set_eq. intros e. rewrite !elem_of_difference. set_solver.
Qed.

(** C5: when LiteLLM accepts the membership calls, one pass brings the membership of the
    team whose identifier the status records to what the management mode asks for:
    unchanged under [sso], exactly [spec.members] under [crd], and under [mixed]
    [spec.members] plus the members listed for that team that the operator had not added
    itself.  The membership of every other team is left as it was. *)
Theorem reconcileMembers_converges cl team t team' err :
  member_mode team ∈ ["sso"; "crd"; "mixed"] →
  runs (run_M (reconcileMembers cl) team) t (team', err) →
  respects R [] t →
  err = None ∧
  ∀ id, after id t =
    if decide (id = tst_LiteLLMTeamID (Status team))
    then intended_members (member_mode team) (L id) (list_to_set (spec_emails team)) (list_to_set (crd_emails team))
    else L id.
Proof.
  intros Hmode Hr Hresp. set (id := tst_LiteLLMTeamID (Status team)).
  enough (err = None ∧ others_kept id [] t ∧ after id t =
    intended_members (member_mode team) (L id) (list_to_set (spec_emails team)) (list_to_set (crd_emails team)))
    as (-> & Hk & Ha).
  { split; [done|]. intros id'. case_decide as Hid; [by rewrite Hid|]. by rewrite Hk. }
  apply (wp_runs no_guarantee R _ [] (λ h p, p.2 = None ∧ others_kept id [] h ∧ after id h =
    intended_members (member_mode team) (L id) (list_to_set (spec_emails team))
      (list_to_set (crd_emails team))) _ _) in Hr; [exact Hr| |exact Hresp].
  clear Hr Hresp. apply wp_run_M. unfold reconcileMembers, intended_members. do 2 mstep. cbv zeta. fold id.
  assert (∀ x, others_kept id [] ([] ++ [KEv (KApi cl (TeamsListMembers id)) x])) as Hk0 by done.
  assert (∀ x, L id = after id ([] ++ [KEv (KApi cl (TeamsListMembers id)) x])) as HL0 by done.
  case_decide as Hsso; [|case_decide as Hcrd; [|case_decide as Hmixed; [|set_solver]]];
    unfold listMembers; (do 3 mstep; [done|]); assert (x = Ok (l id)) as -> by done.
  - by (unfold setMembers; repeat mstep).
  - mstep. apply addMissingMembers_converges; [done|]. intros h' E1 K1.
    mstep. apply (removeMembers_converges _ _ _ tmi_Email). intros h2 E2 K2.
    unfold setMembers; repeat mstep. split_and!; [done|by eauto using others_kept_trans|]. rewrite E2, E1.
    apply crd_outcome.
  - mstep. apply addMissingMembers_converges; [done|]. intros h' E1 K1.
    do 2 mstep. apply wp_range_map; [apply _|]. intros h2 emails Hperm E2.
    mstep. apply (removeMembers_converges _ _ _ fst). intros h3 E3 K3.
    assert (others_kept id h' h2) as K2 by (intros id' _; by rewrite (members_after_benign _ _ _ _ E2)).
    unfold setMembers; repeat mstep. split_and!; [done|by eauto using others_kept_trans|].
    rewrite E3, (members_after_benign _ _ _ _ E2), E1.
    assert (list_to_set (fst <$> emails) = (list_to_set (crd_emails team) : gset string)) as ->.
    { apply set_eq. intros e. rewrite !elem_of_list_to_set, list_elem_of_fmap.
      unfold crd_emails. rewrite crdMemberSet_entries. split.
      - intros ([e' b] & -> & Hin). exists b. by rewrite <- Hperm.
      - intros [b Hb]. exists (e, b). split; [done|]. by rewrite Hperm. }
    apply mixed_outcome.
Qed.
End Convergence.

(** ** Identity *)

(** The adoption of the team [spec.teamId] names: LiteLLM has just confirmed that it exists,
    and the API server has then stored the mark on the resource, answering [x]; what is
    written next is the identifier in the spec of [x], on [x]. *)
Definition team_adopted (cl : ApiClient) (team : LiteLLMTeam) (h : khist) (team' : LiteLLMTeam) : Prop :=
  ∃ info x h0,
    h = h0 ++ [KEv (KApi cl (TeamsGet (ts_TeamID (Spec team)))) (Ok info);
               KEv (KUpdate KTeam (annotate AnnotationAdopted AnnotationAdoptedValue team)) (Ok x)] ∧
    Meta team' = Meta x ∧ tst_LiteLLMTeamID (Status team') = ts_TeamID (Spec x).

(** The body writes a status only on a resource not bound yet, with the identifier under
    which LiteLLM has just created the team, or with that of an adopted one. *)
Definition team_bound_ok (cl : ApiClient) (team : LiteLLMTeam) (h : khist) (c : kcall) : Prop :=
  ∀ team', c = KStatusUpdate KTeam team' →
    tst_LiteLLMTeamID (Status team) = "" ∧
    ((∃ h0 req resp, h = h0 ++ [KEv (KApi cl (TeamsCreate req)) (Ok resp)] ∧
        tst_LiteLLMTeamID (Status team') = tcresp_TeamID resp) ∨
     team_adopted cl team h team').

#[local] Instance team_bound_ok_benign cl team : benign_ok (team_bound_ok cl team).
Proof. intros h c Hc team' ->. done. Qed.

Section TeamIdentity.
Context `{KubeLib} `{JSONMarshal LiteLLMTeamSpec}.

Lemma wp_resolveOrganizationRef (G : khist → kcall → Prop) R team h (Q : khist → res string error → Prop) :
  benign_ok G → (∀ h' r, benign_ext h h' → Q h' r) → wp G R (resolveOrganizationRef team) h Q.
Proof.
  intros HG HQ. unfold resolveOrganizationRef. case_match; [|apply HQ, extends_refl].
  kstep. kstep; [benign_tac|]. repeat case_match; by apply wp_ret, HQ, extends_call.
Qed.

Section Pass.
Context (cl0 : ApiClient) (team0 : LiteLLMTeam).
#[local] Notation bound_ok := (team_bound_ok cl0 team0).

Lemma member_loop_bound {A} (l : list A) (b : A → M K LiteLLMTeam (option error) unit) s h
    (Q : khist → LiteLLMTeam → option error + unit → Prop) :
  (∀ x s h, wpM bound_ok any_answer (b x) s h (λ _ _ r, r = inr tt)) →
  (∀ h' s', Q h' s' (inr tt)) →
  wpM bound_ok any_answer (for_each l b) s h Q.
Proof.
  intros Hb HQ. apply (wpM_for_each _ _ (λ _ _ _, True)); [done| |by intros; apply HQ].
  intros x l' h' s' _. eapply wpM_mono; [apply Hb|]. by intros h2 s2 ? ->.
Qed.

Lemma addMissing_bound cl id members actual s h (Q : khist → LiteLLMTeam → option error + unit → Prop) :
  (∀ h' s', Q h' s' (inr tt)) →
  wpM bound_ok any_answer (addMissingMembers cl id members actual) s h Q.
Proof. intros HQ. apply member_loop_bound; [|done]. intros x s' h'. mrun. Qed.

Lemma removeAll_bound {A} (f : A → string) cl id desired (l : list A) s h
    (Q : khist → LiteLLMTeam → option error + unit → Prop) :
  (∀ h' s', Q h' s' (inr tt)) →
  wpM bound_ok any_answer (for_each l (λ x, removeMember cl id desired (f x))) s h Q.
Proof. intros HQ. apply member_loop_bound; [|done]. intros x s' h'. unfold removeMember. mrun. Qed.

Lemma reconcileMembers_bound cl s h Q :
  (∀ h' s' r, Q h' s' r) →
  wpM bound_ok any_answer (call_fn (Rt := Ret_t) (reconcileMembers cl)) s h Q.
Proof.
  intros HQ. mstep. unfold reconcileMembers, setMembers, listMembers. mpure. cbv zeta.
  case_decide; [by mrun|case_decide; [|case_decide; [|by mrun]]].
  - mpure. mstep; [done|]. destruct x as [l|e]; [|done]. mpure.
    apply addMissing_bound. intros h1 s1. mpure. apply (removeAll_bound tmi_Email). intros h2 s2. by mrun.
  - mpure. mstep; [done|]. destruct x as [l|e]; [|done]. mpure.
    apply addMissing_bound. intros h1 s1. mpure. apply wp_range_map; [apply _|]. intros h2 emails _ _.
    mpure. apply (removeAll_bound fst). intros h3 s3. by mrun.
Qed.

Lemma reconcileLogging_bound cl s h Q :
  (∀ h' s' r, Q h' s' r) →
  wpM bound_ok any_answer (call_fn (Rt := Ret_t) (reconcileLogging cl)) s h Q.
Proof.
  intros HQ. mstep. unfold reconcileLogging, setLogging, readCallbackCredentials. mpure. cbv zeta.
  case_match; [|by mrun]. case_match; [by mrun|]. case_decide; [by mrun|].
  mstep. apply (wpM_for_each _ _ (λ _ _ _, True)); [done| |intros; by mrun].
  intros cb l' h' s' _. mpure. mstep; [by intros ??|]. destruct x; mpure; [|done]. cbv zeta. by mrun.
Qed.

End Pass.

(** C29: the body writes the status only of a team that is not bound yet, so a recorded
    identifier is never replaced.  What it records is the identifier LiteLLM has just
    answered to the creation, or, for an existing team, the [spec.teamId] of the object the
    API server answered to the mark of adoption, right after LiteLLM had confirmed that
    the team [spec.teamId] exists: when the API server stores the spec it is sent, the
    recorded identifier is the confirmed one.  A crash at any point cannot leave an
    adopted team looking operator-created, which the deletion of the resource would delete. *)
Theorem reconcileTeam_binds_safely ri team :
  kalways (team_bound_ok (client_of ri) team) (run_M (reconcileTeam ri) team).
Proof.
  set (cl := client_of ri).
  apply (wp_always _ _ (λ _ _, True)), wp_run_M. unfold reconcileTeam. cbv zeta. fold cl.
  mpure. apply wp_resolveOrganizationRef; [apply _|]. intros h1 [org|e] _; [|done]. mpure.
  apply (wpM_mono _ _ _ _ _ (λ _ _ _, True)).
  - assert (∀ s h, (tst_LiteLLMTeamID (Status s) = "" → tst_LiteLLMTeamID (Status team) = "") →
      wpM (team_bound_ok cl team) any_answer
      (team ← @get K LiteLLMTeam Ret_t;
       if decide (tst_LiteLLMTeamID (Status team) = "")
       then createTeam cl org else updateTeam cl org) s h (λ _ _ _, True)) as Hrest.
    { intros s h Hun. mpure. case_decide; [|unfold updateTeam, pushSpec, m_send; cbv zeta; mrun].
      unfold createTeam, recordCreated. mpure. mstep; [done|]. destruct x as [resp|e]; [|done].
      mpure. mstep; [|mrun|done]. intros team' <-%KStatusUpdate_inj. split; [by apply Hun|]. left.
      by exists h, (teamCreateRequest s org), resp. }
    unfold bindTeam. mpure. mstep; [|by apply Hrest].
    match goal with Hc : (_ && _) = true |- _ => apply andb_prop in Hc as [Hun%bool_decide_eq_true _] end.
    mpure. unfold adoptExistingTeam. mpure.
    mstep; [done|]. destruct x as [info|e]; [|by repeat case_match; mpure; try apply Hrest].
    mpure. mstep; [done| |done]. mpure. mstep; [| |done].
    + intros team' <-%KStatusUpdate_inj. split; [done|]. right. exists info, o', h1. by rewrite <- app_assoc.
    + mpure. mstep; [done|]. mpure. by apply Hrest.
  - intros h2 s2 [e|[]] _; [done|]. mstep. mstep. apply reconcileMembers_bound.
    intros h3 s3 [e|[e|]]; [done|done|]. mstep. mstep. apply reconcileLogging_bound.
    intros h4 s4 [e|[e|]]; [done|done|unfold refreshTeam; mrun].
Qed.
End TeamIdentity.
