(* ===== verification/VirtualKey.v ===== *)
(** * Virtual keys (internal/controller/litellmvirtualkey_controller.go)

    [reconcileKey] mints a key, stores its material in a Secret (the only copy:
    LiteLLM keeps a hash), pushes spec changes, keeps the metadata of the Secret,
    and rotates the key when the Secret is really gone. *)

From S2P Require Import Prelude KubeTypes InstanceTypes Types Updates World Sha256 Common Reconcile Team.
Open Scope Z_scope.

(** [mergeStringMaps] (litellminstance_controller.go): [desired] wins. *)
Definition mergeStringMaps (existing desired : gmap string string) : gmap string string :=
  desired ∪ existing.

Definition errKeySecretGone : string := "key secret no longer exists".

(** ** The Secret of a key *)

Definition keySecretName (vk : LiteLLMVirtualKey) : string :=
  let from_spec :=
    if decide (ks_KeySecretName (Spec vk) ≠ "") then ks_KeySecretName (Spec vk)
    else Name (Meta vk) +:+ "-key" in
  match kys_KeySecretRef (Status vk) with
  | Some ref => if decide (skr_Name ref ≠ "") then skr_Name ref else from_spec
  | None => from_spec
  end.

Definition keySyncHash `{JSONMarshal LiteLLMVirtualKeySpec} (spec : LiteLLMVirtualKeySpec) : string :=
  computeSpecHash (with_ks_KeySecretTemplate None (with_ks_KeySecretName "" spec)).

Definition parseModelMaxBudget `{ParseFloat} (budgets : gmap string string) : gmap string float64 :=
  omap (λ val, match ParseFloat64 val with Ok f => Some f | Err _ => None end) budgets.

Definition desiredLabels (vk : LiteLLMVirtualKey) : gmap string string :=
  let own := {[ LabelInstanceName := ir_Name (ks_InstanceRef (Spec vk));
                LabelResourceType := "virtual-key" ]} in
  match ks_KeySecretTemplate (Spec vk) with
  | Some tmpl => mergeStringMaps (kst_Labels tmpl) own
  | None => own
  end.

Definition desiredAnnotations (vk : LiteLLMVirtualKey) : gmap string string :=
  match ks_KeySecretTemplate (Spec vk) with
  | Some tmpl => kst_Annotations tmpl
  | None => ∅
  end.

Definition api_key_data (apiKey : string) : gmap string string := {[ "api_key" := apiKey ]}.

Section VirtualKey.
Context `{KubeLib} `{JSONMarshal LiteLLMVirtualKeySpec} `{ParseFloat}.

#[local] Notation KeyM := (M K LiteLLMVirtualKey).
#[local] Notation get := (@get K LiteLLMVirtualKey _).
#[local] Notation modify := (@modify K LiteLLMVirtualKey _).
#[local] Notation recordCreated := (@recordCreated KVirtualKey).
#[local] Notation pushSpec := (@pushSpec KVirtualKey).
#[local] Notation m_send := (@m_send KVirtualKey).
#[local] Notation m_api := (@m_api KVirtualKey _).
#[local] Notation m_event := (@m_event KVirtualKey _).

(** The direct read: the manager always sets [APIReader]. *)
Definition keySecretExists (vk : LiteLLMVirtualKey) : kprog (res bool error) :=
  secret ← kcallp (KReadSecret (Namespace (Meta vk)) (keySecretName vk));
  match secret with
  | Ok _ => mret (Ok true)
  | Err err => if apierrors_IsNotFound err then mret (Ok false) else mret (Err err)
  end.

Definition createKeySecret (vk : LiteLLMVirtualKey) (apiKey : string) : kprog (option error) :=
  let meta := MkObjectMeta (keySecretName vk) (Namespace (Meta vk)) "" 0 (desiredLabels vk)
                (Some (desiredAnnotations vk)) [] [] None "" in
  match SetControllerReference (Meta vk) meta with
  | Err err => mret (Some (Errorf "set owner ref on key secret: %w" [] (Some err)))
  | Ok meta =>
      r ← kcallp (KCreateSecret (MkSecret meta "Opaque" ∅ (api_key_data apiKey)));
      match r with
      | Some err => mret (Some (Errorf "create key secret: %w" [] (Some err)))
      | None => mret None
      end
  end.

(** The existing Secret after the metadata of the template and, when [apiKey] is
    not empty, the new key; and whether anything changed. *)
Definition mergeKeySecret (vk : LiteLLMVirtualKey) (apiKey : string) (meta : ObjectMeta)
    (owned : bool) (existing : Secret) : Secret * bool :=
  let labels := mergeStringMaps (Labels meta) (desiredLabels vk) in
  let oldAnnotations := default ∅ (Annotations meta) in
  let annotations := mergeStringMaps oldAnnotations (desiredAnnotations vk) in
  let labelsChanged := negb (bool_decide (Labels meta = labels)) in
  let annotationsChanged := negb (bool_decide (oldAnnotations = annotations)) in
  let meta' := set_labels_annotations
                 (if labelsChanged then labels else Labels meta)
                 (if annotationsChanged then Some annotations else Annotations meta) meta in
  let newKey := bool_decide (apiKey ≠ "") in
  (MkSecret meta' (sec_Type existing) (sec_Data existing)
     (if newKey then api_key_data apiKey else sec_StringData existing),
   owned || labelsChanged || annotationsChanged || newKey).

Definition updateKeySecret (vk : LiteLLMVirtualKey) (apiKey : string) (existing : Secret) :
    kprog (option error) :=
  let owner :=
    if IsControlledBy (sec_meta existing) (Meta vk) then Ok (sec_meta existing)
    else SetControllerReference (Meta vk) (sec_meta existing) in
  match owner with
  | Err err => mret (Some (Errorf "set owner ref on key secret: %w" [] (Some err)))
  | Ok meta =>
      let adoptedNow := negb (IsControlledBy (sec_meta existing) (Meta vk)) in
      let '(secret, changed) := mergeKeySecret vk apiKey meta adoptedNow existing in
      if changed then kcallp (KUpdateSecret secret) else mret None
  end.

Definition reconcileKeySecret (vk : LiteLLMVirtualKey) (apiKey : string) : kprog (option error) :=
  existing ← kcallp (KGetSecret (Namespace (Meta vk)) (keySecretName vk));
  match existing with
  | Ok existing => updateKeySecret vk apiKey existing
  | Err err =>
      if apierrors_IsNotFound err then
        if decide (apiKey = "") then mret (Some (ErrSentinel errKeySecretGone))
        else createKeySecret vk apiKey
      else mret (Some (Errorf "get key secret: %w" [] (Some err)))
  end.

(** ** References *)

Definition resolveTeamRef (vk : LiteLLMVirtualKey) : kprog (res string error) :=
  match ks_TeamRef (Spec vk) with
  | None => mret (Ok "")
  | Some ref =>
      team ← kcallp (KGet KTeam (Namespace (Meta vk)) (tr_Name ref));
      match team with
      | Err err => mret (Err (Errorf "resolve team ref %q: %w" [FStr (tr_Name ref)] (Some err)))
      | Ok team =>
          if decide (tst_LiteLLMTeamID (Status team) = "")
          then mret (Err (Errorf "team %q not yet synced" [FStr (tr_Name ref)] None))
          else mret (Ok (tst_LiteLLMTeamID (Status team)))
      end
  end.

Definition resolveUserRef (vk : LiteLLMVirtualKey) : kprog (res string error) :=
  match ks_UserRef (Spec vk) with
  | None => mret (Ok "")
  | Some ref =>
      user ← kcallp (KGet KUser (Namespace (Meta vk)) (ur_Name ref));
      match user with
      | Err err => mret (Err (Errorf "resolve user ref %q: %w" [FStr (ur_Name ref)] (Some err)))
      | Ok user =>
          if decide (ust_LiteLLMUserID (Status user) = "")
          then mret (Err (Errorf "user %q not yet synced" [FStr (ur_Name ref)] None))
          else mret (Ok (ust_LiteLLMUserID (Status user)))
      end
  end.

(** ** Requests *)

Definition keyGenerateRequest (vk : LiteLLMVirtualKey) (teamID userID : string) : KeyGenerateRequest := {|
  kgr_KeyAlias := ks_KeyAlias (Spec vk);
  kgr_TeamID := teamID;
  kgr_UserID := userID;
  kgr_Models := ks_Models (Spec vk);
  kgr_MaxBudget := ks_MaxBudget (Spec vk);
  kgr_BudgetDuration := ks_BudgetDuration (Spec vk);
  kgr_ExpiresAt := ks_ExpiresAt (Spec vk);
  kgr_TPMLimit := ks_TPMLimit (Spec vk);
  kgr_RPMLimit := ks_RPMLimit (Spec vk);
  kgr_Metadata := ks_Metadata (Spec vk);
  kgr_ModelMaxBudget := parseModelMaxBudget (ks_ModelMaxBudget (Spec vk));
  kgr_MaxParallelRequests := ks_MaxParallelRequests (Spec vk);
  kgr_Guardrails := ks_Guardrails (Spec vk);
  kgr_Blocked := ks_Blocked (Spec vk);
  kgr_SoftBudget := ks_SoftBudget (Spec vk);
  kgr_ModelRPMLimit := ks_ModelRPMLimit (Spec vk);
  kgr_ModelTPMLimit := ks_ModelTPMLimit (Spec vk);
  kgr_ObjectPermission := mapObjectPermission (ks_ObjectPermission (Spec vk))
|}.

Definition keyUpdateRequest (vk : LiteLLMVirtualKey) : KeyUpdateRequest := {|
  kur_Token := kys_LiteLLMKeyToken (Status vk);
  kur_Models := ks_Models (Spec vk);
  kur_MaxBudget := ks_MaxBudget (Spec vk);
  kur_BudgetDuration := ks_BudgetDuration (Spec vk);
  kur_TPMLimit := ks_TPMLimit (Spec vk);
  kur_RPMLimit := ks_RPMLimit (Spec vk);
  kur_Metadata := ks_Metadata (Spec vk);
  kur_ModelMaxBudget := parseModelMaxBudget (ks_ModelMaxBudget (Spec vk));
  kur_MaxParallelRequests := ks_MaxParallelRequests (Spec vk);
  kur_Guardrails := ks_Guardrails (Spec vk);
  kur_Blocked := ks_Blocked (Spec vk);
  kur_SoftBudget := ks_SoftBudget (Spec vk);
  kur_ModelRPMLimit := ks_ModelRPMLimit (Spec vk);
  kur_ModelTPMLimit := ks_ModelTPMLimit (Spec vk);
  kur_ObjectPermission := mapObjectPermission (ks_ObjectPermission (Spec vk))
|}.

(** ** The body *)

(** Drops a key whose Secret is gone, so that a new one is minted. *)
Definition rotateIfSecretMissing (apiClient : ApiClient) : KeyM Ret_t unit :=
  vk ← get;
  when (bool_decide (kys_LiteLLMKeyToken (Status vk) ≠ "")) (
    exists_ ← try (lift (keySecretExists vk))
                (λ err, retry30 (Errorf "check key secret: %w" [] (Some err)));
    when (negb exists_) (
      m_event EventTypeWarning EventReasonKeySecretMissing
        "Secret %q holding the key for %q is missing; rotating the key to recreate it"
        [FStr (keySecretName vk); FStr (ks_KeyAlias (Spec vk))] ;;
      _ ← m_api apiClient (ApiDelete SKeys (kys_LiteLLMKeyToken (Status vk)));
      modify (map_status (λ st,
        with_kys_Synced false (with_kys_KeySecretRef None (with_kys_LiteLLMKeyToken "" st)))))).

Definition generateKey (apiClient : ApiClient) (teamID userID : string) : KeyM Ret_t unit :=
  vk ← get;
  resp ← try (m_api apiClient (KeysGenerate (keyGenerateRequest vk teamID userID)))
           (λ err, retry30 (Errorf "generate key: %w" [] (Some err)));
  let secretName := keySecretName vk in
  check (lift (reconcileKeySecret vk (kgresp_Key resp))) fail0 ;;
  recordCreated (λ st,
    with_kys_Synced true (with_kys_IsActive true
      (with_kys_KeySecretRef (Some (MkSecretKeyRef secretName "api_key"))
        (with_kys_LiteLLMKeyToken (kgresp_Token resp) st))))
    "update status after generate: %w" keySyncHash ;;
  vk ← get;
  m_event EventTypeNormal EventReasonCreated "Virtual key %q generated, stored in Secret %q"
    [FStr (ks_KeyAlias (Spec vk)); FStr secretName].

Definition pushKeySpec (apiClient : ApiClient) : KeyM Ret_t unit :=
  vk ← get;
  pushSpec (keySyncHash (Spec vk))
    (m_send apiClient (KeysUpdate (keyUpdateRequest vk)) id) "update key: %w" (
    vk ← get;
    m_event EventTypeNormal EventReasonUpdated "Virtual key %q updated in LiteLLM"
      [FStr (ks_KeyAlias (Spec vk))]).

Definition updateKey (apiClient : ApiClient) : KeyM Ret_t unit :=
  pushKeySpec apiClient ;;
  vk ← get;
  check (lift (reconcileKeySecret vk ""))
    (λ err, if errors_Is err errKeySecretGone then (MkResult 0 true, None) else fail0 err) ;;
  vk ← get;
  info ← m_api apiClient (KeysGet (kys_LiteLLMKeyToken (Status vk)));
  match info with
  | Ok info =>
      modify (map_status (λ st, with_kys_IsActive (ki_IsActive info)
        (with_kys_CurrentSpend (ki_Spend info) st)))
  | Err _ => mret tt
  end.

Definition stampKey : KeyM Ret_t Ret_t :=
  now ← lift (kcallp KNow);
  modify (map_status (with_kys_LastSyncTime (Some now))) ;;
  mret (RequeueIn (5 * time_Minute), None).

Definition reconcileKey (resolved : ResolvedInstance) : KeyM Ret_t Ret_t :=
  let apiClient := client_of resolved in
  vk ← get;
  teamID ← try (lift (resolveTeamRef vk)) retry30;
  userID ← try (lift (resolveUserRef vk)) retry30;
  rotateIfSecretMissing apiClient ;;
  vk ← get;
  (if decide (kys_LiteLLMKeyToken (Status vk) = "")
   then generateKey apiClient teamID userID
   else updateKey apiClient) ;;
  stampKey.

#[export] Instance LiteLLMVirtualKeyReconciler : Reconciler KVirtualKey := {
  rc_kind := kindVirtualKey;
  rc_ref := ks_InstanceRef;
  rc_conditions := kys_Conditions;
  rc_set_conditions := with_kys_Conditions;
  rc_observed_generation := false;
  rc_enterprise := true;
  rc_display := λ vk : LiteLLMVirtualKey, ks_KeyAlias (Spec vk);
  rc_delete_display := λ vk : LiteLLMVirtualKey, ks_KeyAlias (Spec vk);
  rc_msg_enterprise := "VirtualKey %q requires a LiteLLM Enterprise license";
  rc_msg_failed := "Failed to reconcile virtual key %q: %v";
  rc_msg_synced := "Virtual key synced to LiteLLM";
  rc_msg_delete_failed := "Failed to delete virtual key %q from LiteLLM: %v";
  rc_msg_deleted := "Virtual key %q deleted from LiteLLM";
  rc_msg_adopted := None;
  rc_service := SKeys;
  rc_delete_id := λ vk : LiteLLMVirtualKey,
    if decide (kys_LiteLLMKeyToken (Status vk) = "") then None else Some (kys_LiteLLMKeyToken (Status vk));
  rc_body := λ resolved vk, run_M (reconcileKey resolved) vk
}.

Definition LiteLLMVirtualKey_handleDeletion : LiteLLMVirtualKey → kprog Ret_t := handleDeletion (k := KVirtualKey).
End VirtualKey.

(** ** Every pass of the controller retries *)

Section KeyLaws.
Context `{KubeLib} `{JSONMarshal LiteLLMVirtualKeySpec} `{ParseFloat}.

Lemma rotateIfSecretMissing_retries cl : retries (rotateIfSecretMissing cl).
Proof. unfold rotateIfSecretMissing. retries_tac. Qed.

Lemma generateKey_retries cl team user : retries (generateKey cl team user).
Proof. unfold generateKey. retries_tac. Qed.

Lemma pushKeySpec_retries cl : retries (pushKeySpec cl).
Proof. unfold pushKeySpec. retries_tac. Qed.

#[local] Hint Resolve rotateIfSecretMissing_retries generateKey_retries pushKeySpec_retries : retries.

Lemma updateKey_retries cl : retries (updateKey cl).
Proof. unfold updateKey. retries_tac. Qed.

#[local] Hint Resolve updateKey_retries : retries.

#[export] Instance LiteLLMVirtualKeyReconciler_laws : ReconcilerLaws KVirtualKey.
Proof.
  split; [done|]. intros ri o t o' r. apply returns_runs. unfold reconcileKey, stampKey. retries_tac.
Qed.
End KeyLaws.

(** ** Safety of the key material *)

(** The API server itself has answered that the key's Secret does not exist. *)
Definition secret_gone (vk : LiteLLMVirtualKey) (h : khist) : Prop :=
  ∃ err, KEv (KReadSecret (Namespace (Meta vk)) (keySecretName vk)) (Err err) ∈ h ∧
    apierrors_IsNotFound err = true.

(** The API server has accepted the Secret [name] of the namespace with [key] in it: as a new
    object of that name, or over the object it answered for that name. *)
Definition key_stored (ns name key : string) (h : khist) : Prop :=
  ∃ s, sec_StringData s = api_key_data key ∧
    (KEv (KCreateSecret s) None ∈ h ∧ Namespace (sec_meta s) = ns ∧ Name (sec_meta s) = name ∨
     KEv (KUpdateSecret s) None ∈ h ∧
     ∃ s0, KEv (KGetSecret ns name) (Ok s0) ∈ h ∧
       Namespace (sec_meta s) = Namespace (sec_meta s0) ∧ Name (sec_meta s) = Name (sec_meta s0)).

Section KeySafety.
Context `{KubeLib} `{JSONMarshal LiteLLMVirtualKeySpec} `{ParseFloat}.
Implicit Types (G : khist → kcall → Prop).

Lemma wp_resolveTeamRef G R vk h (Q : khist → res string error → Prop) :
  benign_ok G → (∀ h' r, benign_ext h h' → Q h' r) → wp G R (resolveTeamRef vk) h Q.
Proof.
  intros HG HQ. unfold resolveTeamRef. case_match; [|apply HQ, extends_refl].
  kstep. kstep; [benign_tac|]. repeat case_match; by apply wp_ret, HQ, extends_call.
Qed.

Lemma wp_resolveUserRef G R vk h (Q : khist → res string error → Prop) :
  benign_ok G → (∀ h' r, benign_ext h h' → Q h' r) → wp G R (resolveUserRef vk) h Q.
Proof.
  intros HG HQ. unfold resolveUserRef. case_match; [|apply HQ, extends_refl].
  kstep. kstep; [benign_tac|]. repeat case_match; by apply wp_ret, HQ, extends_call.
Qed.

(** [m] is [m0], under the control of the key, with other labels and annotations. *)
Definition owned_from (vk : LiteLLMVirtualKey) (m0 m : ObjectMeta) : Prop :=
  ∃ m1 l a, (m1 = m0 ∨ SetControllerReference (Meta vk) m0 = Ok m1) ∧ m = set_labels_annotations l a m1.

(** The Secret of the key has been written with [key], over the one read or anew. *)
Definition key_written (vk : LiteLLMVirtualKey) (key : string) (h : khist) : Prop :=
  ∃ s m0, sec_StringData s = api_key_data key ∧ owned_from vk m0 (sec_meta s) ∧
    (KEv (KCreateSecret s) None ∈ h ∧ Namespace m0 = Namespace (Meta vk) ∧ Name m0 = keySecretName vk ∨
     KEv (KUpdateSecret s) None ∈ h ∧
     ∃ s0, KEv (KGetSecret (Namespace (Meta vk)) (keySecretName vk)) (Ok s0) ∈ h ∧ m0 = sec_meta s0).

Lemma key_written_stored `{!KubeLibLaws} vk key h :
  key_written vk key h → key_stored (Namespace (Meta vk)) (keySecretName vk) key h.
Proof.
  intros (s & m0 & Hd & (m1 & l & a & Hm & Hs) & Hw). exists s. split; [done|].
  assert (Namespace (sec_meta s) = Namespace m0 ∧ Name (sec_meta s) = Name m0) as [-> ->].
  { rewrite Hs. destruct Hm as [->|Hset]; [done|]. simpl. by destruct (Name_SetController _ _ _ Hset). }
  destruct Hw as [(? & -> & ->)|(? & s0 & ? & ->)]; [by left|right]. split; [done|]. by exists s0.
Qed.

(** Calls of [reconcileKeySecret]. *)
Definition secret_call (c : kcall) : Prop :=
  match c with KGetSecret _ _ | KCreateSecret _ | KUpdateSecret _ => True | _ => False end.

Lemma wp_reconcileKeySecret G R vk key h (Q : khist → option error → Prop) :
  (∀ h' c, secret_call c → G h' c) →
  (∀ h' r, extends secret_call h h' →
     (r = None → key ≠ "" → key_written vk key h') → Q h' r) →
  wp G R (reconcileKeySecret vk key) h Q.
Proof.
  intros HG HQ. unfold reconcileKeySecret. kstep. kstep; [by apply HG|].
  destruct x as [existing|err].
  - unfold updateKeySecret. case_match eqn:Hown; [|apply wp_ret, HQ; [by apply extends_call|done]].
    destruct (mergeKeySecret _ _ _ _ _) as [s changed] eqn:Hm. unfold mergeKeySecret in Hm.
    injection Hm as Hs Hch. destruct changed.
    + kstep; [by apply HG|]. apply HQ.
      { eapply extends_trans; by apply extends_ev. }
      intros -> Hkey. exists s, (sec_meta existing). rewrite <- Hs at 1 2. simpl. rewrite bool_decide_true by done.
      split_and!; [done| |right; split; [set_solver|exists existing; set_solver]].
      do 3 eexists. split; [|done]. destruct (IsControlledBy _ _); [left; congruence|by right].
    + apply wp_ret, HQ; [by apply extends_call|]. intros _ Hkey.
      rewrite (bool_decide_true (key ≠ "")) in Hch by done. by rewrite orb_true_r in Hch.
  - case_match; [|apply wp_ret, HQ; [by apply extends_call|done]].
    case_decide; [apply wp_ret, HQ; [by apply extends_call|done]|].
    unfold createKeySecret. cbv zeta. case_match eqn:Hown; [|apply wp_ret, HQ; [by apply extends_call|done]].
    kstep. kstep; [by apply HG|]. destruct x as [e|]; apply wp_ret, HQ.
    1,3: eapply extends_trans; by apply extends_ev.
    + done.
    + match type of Hown with SetControllerReference _ ?m0 = Ok ?m =>
        intros _ _; eexists _, m0; split_and!; [| |left; split; [apply elem_of_app; right; by left|done]]; [done|];
        exists m, (Labels m), (Annotations m); split; [by right|]; by destruct m end.
Qed.

(** What the body may do to LiteLLM's keys. *)
Definition key_call_ok (vk : LiteLLMVirtualKey) (h : khist) (c : kcall) : Prop :=
  match c with
  | KApi _ (ApiDelete s id) =>
      s = SKeys ∧ id = kys_LiteLLMKeyToken (Status vk) ∧ secret_gone vk h
  | KApi _ (KeysGenerate _) => kys_LiteLLMKeyToken (Status vk) = "" ∨ secret_gone vk h
  | _ => True
  end.

#[local] Instance key_call_ok_benign vk : benign_ok (key_call_ok vk).
Proof. intros h c Hc. by destruct c. Qed.

Lemma key_call_ok_secret vk h c : secret_call c → key_call_ok vk h c.
Proof. by destruct c. Qed.

Lemma generateKey_calls vk cl team user s h :
  kys_LiteLLMKeyToken (Status vk) = "" ∨ secret_gone vk h →
  wpM (key_call_ok vk) any_answer (generateKey cl team user) s h (λ _ _ _, True).
Proof.
  intros Hok. unfold generateKey, recordCreated. do 5 mstep; [done|]. destruct x as [resp|e]; [|done].
  do 3 mstep. apply wp_reconcileKeySecret; [apply key_call_ok_secret|].
  intros h' [e|] _ _; [done|]. mrun.
Qed.

Lemma updateKey_calls vk cl s h :
  wpM (key_call_ok vk) any_answer (updateKey cl) s h (λ _ _ _, True).
Proof.
  unfold updateKey. mstep. apply (wpM_mono _ _ _ _ _ (λ _ _ _, True)).
  - unfold pushKeySpec, pushSpec, m_send. cbv zeta. mrun.
  - intros h' s' [e|[]] _; [done|]. do 5 mstep. apply wp_reconcileKeySecret; [apply key_call_ok_secret|].
    intros h2 [e|] _ _; [done|]. mrun.
Qed.

(** C8: a working key is never destroyed: the body deletes a key only when it is
    the resource's own and the API server itself (not the informer cache) has
    answered that the Secret holding it does not exist, and a resource that has a
    key gets another one only in that case. *)
Theorem reconcileKey_rotates_only_when_gone ri vk :
  kalways (key_call_ok vk) (run_M (reconcileKey ri) vk).
Proof.
  apply (wp_always _ _ (λ _ _, True)), wp_run_M. unfold reconcileKey. cbv zeta.
  do 5 mstep. apply wp_resolveTeamRef; [apply _|]. intros h1 [team|e] _; [|done].
  do 3 mstep. apply wp_resolveUserRef; [apply _|]. intros h2 [user|e] _; [|done].
  mstep. apply (wpM_mono _ _ _ _ _ (λ h' s' r, match r with
    | inl _ => True
    | inr _ => kys_LiteLLMKeyToken (Status s') = "" →
                 kys_LiteLLMKeyToken (Status vk) = "" ∨ secret_gone vk h'
    end)).
  - unfold rotateIfSecretMissing. mpure. mstep; [|by left].
    unfold keySecretExists. mpure. mstep; [done|]. destruct x as [sec|err].
    + mpure. mstep; [done|]. by left.
    + case_match eqn:Hnf; [|done]. mpure. mstep; [|done]. mpure. mstep; [done|]. mpure.
      mstep; [split; [done|]; split; [done|]; exists err; set_solver|].
      mpure. intros _. right. exists err. set_solver.
  - intros h3 s3 [e|[]] Hs3; [done|]. do 3 mstep.
    assert (∀ h' s', wpM (key_call_ok vk) any_answer stampKey s' h' (λ _ _ _, True)) as Hrest.
    { intros h' s'. unfold stampKey. mrun. }
    case_decide as Htok.
    + eapply wpM_mono; [by apply generateKey_calls, Hs3|]. intros h' s' [e|[]] _; [done|apply Hrest].
    + eapply wpM_mono; [by apply updateKey_calls|]. intros h' s' [e|[]] _; [done|apply Hrest].
Qed.

(** The name of the Secret of the key: the one its status records, or that its spec gives
    when it records none or the one it records is gone. *)
Definition key_secret (vk : LiteLLMVirtualKey) (name : string) : Prop :=
  name = keySecretName vk ∨ name = keySecretName (map_status (with_kys_KeySecretRef None) vk).

(** A status naming a key is written only once LiteLLM has issued that key and its
    material, unless it is empty, is in the Secret the status names, that of the key. *)
Definition persisted_ok (vk : LiteLLMVirtualKey) (h : khist) (c : kcall) : Prop :=
  ∀ vk', c = KStatusUpdate KVirtualKey vk' →
    ∃ cl req resp secret, key_secret vk secret ∧
      KEv (KApi cl (KeysGenerate req)) (Ok resp) ∈ h ∧
      kys_LiteLLMKeyToken (Status vk') = kgresp_Token resp ∧
      kys_KeySecretRef (Status vk') = Some (MkSecretKeyRef secret "api_key") ∧
      (kgresp_Key resp ≠ "" → key_stored (Namespace (Meta vk)) secret (kgresp_Key resp) h).

#[local] Instance persisted_ok_benign vk : benign_ok (persisted_ok vk).
Proof. intros h c Hc vk' ->. done. Qed.

Lemma persisted_ok_secret vk h c : secret_call c → persisted_ok vk h c.
Proof. intros Hc vk' ->. done. Qed.

Lemma generateKey_persists `{!KubeLibLaws} vk cl team user s h :
  Namespace (Meta s) = Namespace (Meta vk) → key_secret vk (keySecretName s) →
  wpM (persisted_ok vk) any_answer (generateKey cl team user) s h (λ _ _ _, True).
Proof.
  intros Hns Hname. unfold generateKey, recordCreated. mpure. mstep; [done|]. destruct x as [resp|e]; [|done].
  mpure. apply wp_reconcileKeySecret; [apply persisted_ok_secret|].
  intros h' [e|] Hext Hst; [done|]. mpure. mstep.
  - intros vk' <-%KStatusUpdate_inj.
    exists cl, (keyGenerateRequest s team user), resp, (keySecretName s). split; [done|]. rewrite <- Hns.
    split; [eapply extends_elem; [exact Hext|]; set_solver|]. split; [done|]. split; [done|].
    intros Hk. by apply key_written_stored, Hst.
  - mrun.
  - done.
Qed.

Lemma updateKey_persists vk cl s h :
  wpM (persisted_ok vk) any_answer (updateKey cl) s h (λ _ _ _, True).
Proof.
  unfold updateKey. mstep. apply (wpM_mono _ _ _ _ _ (λ _ _ _, True)).
  - unfold pushKeySpec, pushSpec, m_send. cbv zeta. mrun.
  - intros h' s' [e|[]] _; [done|]. mpure. apply wp_reconcileKeySecret; [apply persisted_ok_secret|].
    intros h2 [e|] _ _; [done|]. mrun.
Qed.

Lemma rotateIfSecretMissing_meta G cl s h :
  (∀ h c, benign c = true ∨ (∃ r, c = KApi cl r) → G h c) →
  wpM G any_answer (rotateIfSecretMissing cl) s h (λ _ s' r,
    match r with inl _ => True | inr _ => Meta s' = Meta s ∧ key_secret s (keySecretName s') end).
Proof.
  intros HG. assert (benign_ok G) as HGb by (intros h' c Hc; apply HG; by left).
  unfold rotateIfSecretMissing. mpure. mstep; [|by split; [|left]].
  unfold keySecretExists. mpure. mstep; [benign_tac|]. destruct x as [sec|err].
  - mpure. mstep; [done|]. by split; [|left].
  - case_match; [|done]. mpure. mstep; [|by split; [|left]]. mpure. mstep; [benign_tac|]. mpure.
    mstep; [apply HG; right; by eexists|]. mpure. by split; [|right].
Qed.

(** C17: the key material is stored before the key is recorded: the body writes a
    status only after LiteLLM has issued the key it names and, when LiteLLM answered a
    non-empty key, after the API server has accepted that key in the Secret the status
    names, the one of the resource in its namespace: created under that name, or
    written over the object read under it.  A crash in between leaves no resource
    pointing at a key nobody holds. *)
Theorem reconcileKey_stores_before_recording `{!KubeLibLaws} ri vk :
  kalways (persisted_ok vk) (run_M (reconcileKey ri) vk).
Proof.
  apply (wp_always _ _ (λ _ _, True)), wp_run_M. unfold reconcileKey. cbv zeta.
  mpure. apply wp_resolveTeamRef; [apply _|]. intros h1 [team|e] _; [|done].
  mpure. apply wp_resolveUserRef; [apply _|]. intros h2 [user|e] _; [|done].
  mpure. eapply wpM_mono; [apply rotateIfSecretMissing_meta|].
  { intros h c [Hc|[r ->]]; [by apply benign_holds|done]. }
  intros h3 s3 [e|[]] Hmeta; [done|]. destruct Hmeta as [Hmeta Hname]. mpure.
  assert (∀ h' s', wpM (persisted_ok vk) any_answer stampKey s' h' (λ _ _ _, True)) as Hrest.
  { intros h' s'. unfold stampKey. mrun. }
  case_decide.
  - eapply wpM_mono; [apply generateKey_persists; [by rewrite Hmeta|done]|]. intros h' s' [e|[]] _; [done|apply Hrest].
  - eapply wpM_mono; [by apply updateKey_persists|]. intros h' s' [e|[]] _; [done|apply Hrest].
Qed.
End KeySafety.

(** ** The Secret *)

Section KeySecret.
Context `{KubeLib} `{!KubeLibLaws} `{JSONMarshal LiteLLMVirtualKeySpec} `{ParseFloat}.

Lemma desiredLabels_own vk :
  desiredLabels vk !! LabelInstanceName = Some (ir_Name (ks_InstanceRef (Spec vk))) ∧
  desiredLabels vk !! LabelResourceType = Some "virtual-key".
Proof.
  unfold desiredLabels, mergeStringMaps. case_match; [rewrite !lookup_union_l'|]; done.
Qed.

Lemma mergeStringMaps_idemp a b : mergeStringMaps (mergeStringMaps a b) b = mergeStringMaps a b.
Proof. unfold mergeStringMaps. by rewrite map_union_assoc, map_union_idemp. Qed.

Lemma merge_if_changed a b :
  (if negb (bool_decide (a = mergeStringMaps a b)) then mergeStringMaps a b else a) =
  mergeStringMaps a b.
Proof. by case_bool_decide. Qed.

Lemma merge_if_changed_opt o b :
  default ∅ (if negb (bool_decide (default ∅ o = mergeStringMaps (default ∅ o) b))
             then Some (mergeStringMaps (default ∅ o) b) else o) =
  mergeStringMaps (default ∅ o) b.
Proof. by case_bool_decide. Qed.

Lemma mergeKeySecret_spec vk key meta owned existing s changed :
  mergeKeySecret vk key meta owned existing = (s, changed) →
  Labels (sec_meta s) = mergeStringMaps (Labels meta) (desiredLabels vk) ∧
  default ∅ (Annotations (sec_meta s)) =
    mergeStringMaps (default ∅ (Annotations meta)) (desiredAnnotations vk) ∧
  sec_Data s = sec_Data existing ∧
  sec_StringData s = (if decide (key = "") then sec_StringData existing else api_key_data key) ∧
  IsControlledBy (sec_meta s) (Meta vk) = IsControlledBy meta (Meta vk).
Proof.
  unfold mergeKeySecret. intros [= <- _]. simpl.
  rewrite merge_if_changed, merge_if_changed_opt, Controlled_labels. repeat split; try done.
  by repeat case_decide.
Qed.

Lemma owner_controlled owner m m' :
  (if IsControlledBy m owner then Ok m else SetControllerReference owner m) = Ok m' →
  IsControlledBy m' owner = true.
Proof. destruct (IsControlledBy m owner) eqn:Hc; [by intros [= <-]|]. apply Controlled_Set. Qed.

(** What a write of a key's Secret must preserve. *)
Definition secret_write_ok (vk : LiteLLMVirtualKey) (key : string) (h : khist) (s : Secret) : Prop :=
  IsControlledBy (sec_meta s) (Meta vk) = true ∧
  Labels (sec_meta s) !! LabelInstanceName = Some (ir_Name (ks_InstanceRef (Spec vk))) ∧
  Labels (sec_meta s) !! LabelResourceType = Some "virtual-key".

Definition secret_writes_ok (vk : LiteLLMVirtualKey) (key : string) (h : khist) (c : kcall) : Prop :=
  match c with
  | KCreateSecret s => secret_write_ok vk key h s ∧ key ≠ "" ∧ sec_StringData s = api_key_data key
  | KUpdateSecret s => secret_write_ok vk key h s ∧
      ∃ s0, KEv (KGetSecret (Namespace (Meta vk)) (keySecretName vk)) (Ok s0) ∈ h ∧
        sec_Data s = sec_Data s0 ∧
        sec_StringData s = (if decide (key = "") then sec_StringData s0 else api_key_data key)
  | c => c = KGetSecret (Namespace (Meta vk)) (keySecretName vk)
  end.

(** Every write of the key's Secret leaves it owned by the resource and
    carrying the operator's labels, whatever the template says; a Secret is never
    created without a key, an update keeps the data of the Secret and sets
    [api_key] only to a freshly minted key. *)
Lemma reconcileKeySecret_writes vk key :
  kalways (secret_writes_ok vk key) (reconcileKeySecret vk key).
Proof.
  apply (wp_always _ _ (λ _ _, True)). unfold reconcileKeySecret. kstep. kstep; [done|].
  destruct (desiredLabels_own vk) as [Hl1 Hl2]. destruct x as [existing|err].
  - unfold updateKeySecret. case_match eqn:Hown; [|done].
    destruct (mergeKeySecret _ _ _ _ _) as [s changed] eqn:Hm. destruct changed; [|done].
    apply mergeKeySecret_spec in Hm as (Hlab & _ & Hdata & Hsd & Hctl).
    kstep; [|done]. split; [|exists existing; split; [set_solver|done]].
    unfold secret_write_ok. rewrite Hlab, Hctl. unfold mergeStringMaps.
    rewrite !(lookup_union_Some_l _ _ _ _ Hl1), !(lookup_union_Some_l _ _ _ _ Hl2).
    split; [|done]. by eapply owner_controlled.
  - case_match; [|done]. case_decide; [done|]. unfold createKeySecret. cbv zeta.
    case_match eqn:Hset; [|done]. kstep. kstep; [|by case_match].
    split; [|done]. unfold secret_write_ok. simpl. rewrite (Labels_SetController _ _ _ Hset). simpl.
    repeat split; [by eapply Controlled_Set|apply Hl1|apply Hl2].
Qed.

(** The Secret converges: once an update has been accepted, reconciling the
    Secret it wrote, without a new key, changes nothing. *)
Lemma updateKeySecret_converges vk key existing s out :
  runs (updateKeySecret vk key existing) [KEv (KUpdateSecret s) None] out →
  runs (updateKeySecret vk "" s) [] None.
Proof.
  unfold updateKeySecret at 1. case_match eqn:Hown; [|by intros [??]].
  destruct (mergeKeySecret _ _ _ _ _) as [s' changed] eqn:Hm. destruct changed; [|by intros [??]].
  intros (x & t' & Heq & _). apply (f_equal (fmap ev_op)) in Heq. injection Heq as <- _.
  apply mergeKeySecret_spec in Hm as (Hlab & Hann & Hdata & Hsd & Hctl).
  assert (IsControlledBy (sec_meta s) (Meta vk) = true) as Hc.
  { rewrite Hctl. by eapply owner_controlled. }
  unfold updateKeySecret. rewrite Hc. unfold mergeKeySecret. rewrite Hlab, Hann, !mergeStringMaps_idemp.
  rewrite !(bool_decide_true (_ = _)) by done. done.
Qed.
End KeySecret.

(** ** The push of the spec *)

Section KeyPush.
Context `{KubeLib} `{JSONMarshal LiteLLMVirtualKeySpec} `{ParseFloat}.

(** The fields of the Secret that holds the key are not part of what LiteLLM
    is sent: editing them alone causes no update of the key. *)
Lemma pushKeySpec_ignores_secret_fields cl (vk : LiteLLMVirtualKey) name tmpl t out :
  annotation AnnotationSyncHash vk = keySyncHash (Spec vk) →
  runs (pushKeySpec cl (MkObj (Meta vk) (with_ks_KeySecretTemplate tmpl
          (with_ks_KeySecretName name (Spec vk))) (Status vk))) t out →
  t = [].
Proof.
  intros Hann. unfold pushKeySpec, pushSpec. rewrite !get_bind. rewrite bool_decide_false.
  - by intros [-> _].
  - intros Hne. apply Hne. etransitivity; [exact Hann|done].
Qed.
End KeyPush.
