(* ===== verification/Model.v ===== *)
(** * Models (internal/controller/litellmmodel_controller.go)

    [reconcileModel] resolves the provider parameters of a model (inline, or from
    a LiteLLMCredential and its Secret), creates, updates or recreates the model
    in LiteLLM, and reports its health. *)

From S2P Require Import Prelude KubeTypes InstanceTypes Types Updates World Sha256 Common Reconcile.
Open Scope Z_scope.

Definition authModeInline : string := "inline".
Definition authModeCredential : string := "credential".
Definition healthStatusUnknown : string := "unknown".

(** What is hashed: the spec and the resolved provider parameters. *)
Record SyncInput := MkSyncInput {
  si_Spec : LiteLLMModelSpec;
  si_Params : ModelParams
}.

Record resolvedCredential := MkResolvedCredential {
  rcr_name : string;
  rcr_apiBase : string;
  rcr_apiVersion : string;
  rcr_apiKey : string
}.

(** The parameters that do not depend on the authentication mode. *)
Definition baseParams (model : LiteLLMModel) : ModelParams :=
  let p := ms_LiteLLMParams (Spec model) in {|
  mp_Model := lmp_Model p;
  mp_LiteLLMCredentialName := "";
  mp_APIBase := "";
  mp_APIKey := "";
  mp_APIVersion := "";
  mp_RPM := lmp_RPM p;
  mp_TPM := lmp_TPM p;
  mp_Timeout := lmp_Timeout p;
  mp_StreamTimeout := lmp_StreamTimeout p;
  mp_MaxRetries := lmp_MaxRetries p;
  mp_Tags := ms_Tags (Spec model);
  mp_Weight := lmp_Weight p;
  mp_Order := lmp_Order p;
  mp_MaxInputTokens := lmp_MaxInputTokens p;
  mp_Temperature := lmp_Temperature p;
  mp_TopP := lmp_TopP p;
  mp_MaxTokens := lmp_MaxTokens p;
  mp_Seed := lmp_Seed p;
  mp_Organization := lmp_Organization p;
  mp_AWSRegionName := lmp_AWSRegionName p;
  mp_ExtraHeaders := lmp_ExtraHeaders p;
  mp_DropParams := lmp_DropParams p;
  mp_VertexProject := lmp_VertexProject p;
  mp_VertexLocation := lmp_VertexLocation p;
  mp_VertexCredentials := ""
|}.

Definition modelInfoReq (info : ModelInfo) : ModelInfoReq :=
  let hc {A} (f : ModelHealthCheck → option A) :=
    match mi_HealthCheck info with Some h => f h | None => None end in
  let hs (f : ModelHealthCheck → string) :=
    match mi_HealthCheck info with Some h => f h | None => "" end in {|
  mir_ID := "";
  mir_MaxTokens := mi_MaxTokens info;
  mir_InputCostPerToken := mi_InputCostPerToken info;
  mir_OutputCostPerToken := mi_OutputCostPerToken info;
  mir_Mode := mi_Mode info;
  mir_BaseModel := mi_BaseModel info;
  mir_Tier := mi_Tier info;
  mir_RegionName := mi_RegionName info;
  mir_AccessGroups := mi_AccessGroups info;
  mir_SupportedEnvironments := mi_SupportedEnvironments info;
  mir_UseInPassThrough := mi_UseInPassThrough info;
  mir_InputCostPerPixel := mi_InputCostPerPixel info;
  mir_InputCostPerSecond := mi_InputCostPerSecond info;
  mir_CacheReadInputTokenCost := mi_CacheReadInputTokenCost info;
  mir_CacheCreationInputTokenCost := mi_CacheCreationInputTokenCost info;
  mir_DisableBackgroundHealthCheck := hc mhc_DisableBackgroundHealthCheck;
  mir_HealthCheckTimeout := hc mhc_TimeoutSeconds;
  mir_HealthCheckMaxTokens := hc mhc_MaxTokens;
  mir_HealthCheckMaxTokensReasoning := hc mhc_MaxTokensReasoning;
  mir_HealthCheckMaxTokensNonReasoning := hc mhc_MaxTokensNonReasoning;
  mir_HealthCheckSupportsMaxTokens := hc mhc_SupportsMaxTokens;
  mir_HealthCheckReasoningEffort := hs mhc_ReasoningEffort;
  mir_HealthCheckVoice := hs mhc_Voice;
  mir_HealthCheckModel := hs mhc_Model
|}.

Definition emptyModelInfoReq : ModelInfoReq :=
  modelInfoReq (MkModelInfo None None None "" "" "" "" [] [] None None None None None None).

Definition modelRequest (model : LiteLLMModel) (params : ModelParams) : ModelCreateRequest :=
  MkModelCreateRequest (ms_ModelName (Spec model)) params
    (modelInfoReq <$> ms_ModelInfo (Spec model)) "".

(** The request of an update: the create request with the identifier set twice. *)
Definition modelUpdateRequest (model : LiteLLMModel) (req : ModelCreateRequest) : ModelCreateRequest :=
  let id := mst_LiteLLMModelID (Status model) in
  with_mcr_ModelInfo (Some (with_mir_ID id (default emptyModelInfoReq (mcr_ModelInfo req))))
    (with_mcr_ModelID id req).

Definition backgroundHealthChecksEnabled (instance : LiteLLMInstance) : bool :=
  match is_GeneralSettings (Spec instance) with
  | Some gs => match gs_BackgroundHealthChecks gs with Some b => b | None => false end
  | None => false
  end.

(** Whether an entry of the health report is about the model. *)
Definition endpointOf (model : LiteLLMModel) (ep : HealthEndpoint) : bool :=
  bool_decide (he_ModelID ep = mst_LiteLLMModelID (Status model)) ||
  bool_decide (he_Model ep = ms_ModelName (Spec model)).

Section Model.
Context `{KubeLib} `{JSONMarshal SyncInput}.

#[local] Notation ModelM := (M K LiteLLMModel).
#[local] Notation get := (@get K LiteLLMModel _).
#[local] Notation modify := (@modify K LiteLLMModel _).
#[local] Notation update_obj := (@update_obj KModel _).
#[local] Notation status_update_obj := (@status_update_obj KModel _).
#[local] Notation m_api := (@m_api KModel _).
#[local] Notation m_event := (@m_event KModel _).

(** ** Provider parameters *)

Definition resolveCredential (model : LiteLLMModel) (ref : CredentialRef) :
    kprog (res resolvedCredential error) :=
  cred ← kcallp (KGet KCredential (Namespace (Meta model)) (cr_Name ref));
  match cred with
  | Err err => mret (Err (Errorf "resolve credentialRef %q: %w" [FStr (cr_Name ref)] (Some err)))
  | Ok cred =>
      if decide (crs_CredentialName (Spec cred) = "")
      then mret (Err (Errorf "credential %q has empty credentialName" [FStr (Name (Meta cred))] None))
      else
        apiKey ← getSecretValue (Namespace (Meta cred)) (Some (crs_APIKeySecretRef (Spec cred)));
        match apiKey with
        | Err err => mret (Err (Errorf "resolve credential %q API key: %w" [FStr (Name (Meta cred))] (Some err)))
        | Ok apiKey =>
            mret (Ok (MkResolvedCredential (crs_CredentialName (Spec cred))
                        (crs_APIBase (Spec cred)) (crs_APIVersion (Spec cred)) apiKey))
        end
  end.

Definition credentialParams (cred : resolvedCredential) (p : ModelParams) : ModelParams :=
  with_mp_APIKey (rcr_apiKey cred) (with_mp_APIVersion (rcr_apiVersion cred)
    (with_mp_APIBase (rcr_apiBase cred) (with_mp_LiteLLMCredentialName (rcr_name cred) p))).

(** An optional Secret value of the inline mode. *)
Definition inlineSecret (model : LiteLLMModel) (ref : option SecretKeyRef) (fmt : string)
    (set : string → ModelParams → ModelParams) (p : ModelParams) : ModelM Ret_t ModelParams :=
  match ref with
  | None => mret p
  | Some ref =>
      v ← try (lift (getSecretValue (Namespace (Meta model)) (Some ref)))
            (λ err, fail0 (Errorf fmt [] (Some err)));
      mret (set v p)
  end.

(** The authentication mode and the provider parameters. *)
Definition resolveParams (model : LiteLLMModel) : ModelM Ret_t (string * ModelParams) :=
  let lp := ms_LiteLLMParams (Spec model) in
  match lmp_CredentialRef lp with
  | Some ref =>
      cred ← try (lift (resolveCredential model ref)) retry30;
      mret (authModeCredential, credentialParams cred (baseParams model))
  | None =>
      let p := with_mp_APIVersion (lmp_APIVersion lp) (with_mp_APIBase (lmp_APIBase lp) (baseParams model)) in
      p ← inlineSecret model (lmp_APIKeySecretRef lp) "resolve API key: %w" with_mp_APIKey p;
      p ← inlineSecret model (lmp_VertexCredentialsSecretRef lp) "resolve vertex credentials: %w"
            with_mp_VertexCredentials p;
      mret (authModeInline, p)
  end.

(** ** Push *)

Definition recordSync (modelID hash authMode : string) : ModelM (option error) (option error) :=
  modify (map_status (λ st, with_mst_Synced true (with_mst_LiteLLMModelID modelID st))) ;;
  check status_update_obj (λ err, Some (Errorf "update status after sync: %w" [] (Some err))) ;;
  modify (λ model, annotate AnnotationAuthMode authMode (annotate AnnotationSyncHash hash model)) ;;
  check update_obj Some ;;
  mret None.

Definition createModel (apiClient : ApiClient) (req : ModelCreateRequest) (hash authMode : string) :
    ModelM Ret_t unit :=
  resp ← try (m_api apiClient (ModelsCreate req))
           (λ err, retry30 (Errorf "create model: %w" [] (Some err)));
  check (call_fn (recordSync (mcresp_ModelID resp) hash authMode)) fail0 ;;
  model ← get;
  m_event EventTypeNormal EventReasonCreated "Model %q registered with LiteLLM (id=%s)"
    [FStr (ms_ModelName (Spec model)); FStr (mcresp_ModelID resp)].

(** The authentication mode flipped: [/model/update] merges, so delete and create. *)
Definition recreateModel (apiClient : ApiClient) (req : ModelCreateRequest) (hash authMode : string) :
    ModelM Ret_t unit :=
  model ← get;
  check (m_api apiClient (ApiDelete SModels (mst_LiteLLMModelID (Status model))))
    (λ err, retry30 (Errorf "delete model for auth-mode switch: %w" [] (Some err))) ;;
  resp ← m_api apiClient (ModelsCreate req);
  match resp with
  | Err err =>
      modify (map_status (with_mst_LiteLLMModelID "")) ;;
      _ ← status_update_obj;
      exit (retry30 (Errorf "recreate model for auth-mode switch: %w" [] (Some err)))
  | Ok resp =>
      check (call_fn (recordSync (mcresp_ModelID resp) hash authMode)) fail0 ;;
      model ← get;
      m_event EventTypeNormal EventReasonUpdated
        "Model %q recreated in LiteLLM after auth-mode switch to %q"
        [FStr (ms_ModelName (Spec model)); FStr authMode]
  end.

Definition updateModel (apiClient : ApiClient) (req : ModelCreateRequest) (hash authMode : string) :
    ModelM Ret_t unit :=
  model ← get;
  check (m_api apiClient (ModelsUpdate (modelUpdateRequest model req)))
    (λ err, retry30 (Errorf "update model: %w" [] (Some err))) ;;
  check (call_fn (recordSync (mst_LiteLLMModelID (Status model)) hash authMode)) fail0 ;;
  model ← get;
  m_event EventTypeNormal EventReasonUpdated "Model %q updated in LiteLLM"
    [FStr (ms_ModelName (Spec model))].

(** The switch on the recorded state. *)
Definition pushModel (apiClient : ApiClient) (req : ModelCreateRequest) (hash authMode : string) :
    ModelM Ret_t unit :=
  model ← get;
  let recorded := annotation AnnotationAuthMode model in
  if decide (mst_LiteLLMModelID (Status model) = "") then createModel apiClient req hash authMode
  else if decide (annotation AnnotationSyncHash model = hash ∧ recorded = authMode) then mret tt
  else if decide (recorded ≠ "" ∧ recorded ≠ authMode) then recreateModel apiClient req hash authMode
  else updateModel apiClient req hash authMode.

(** ** Health *)

Definition setHealth {Rt} (s : string) : ModelM Rt unit := modify (map_status (with_mst_Health s)).

Definition updateModelHealth (apiClient : ApiClient) : ModelM Ret_t unit :=
  model ← get;
  report ← m_api apiClient HealthCheck;
  match report with
  | Err _ => setHealth healthStatusUnknown
  | Ok report =>
      if existsb (endpointOf model) (hcr_HealthyEndpoints report) then setHealth "healthy"
      else
        match List.find (endpointOf model) (hcr_UnhealthyEndpoints report) with
        | Some ep =>
            setHealth "unhealthy" ;;
            when (bool_decide (he_Error ep ≠ ""))
              (m_event EventTypeWarning EventReasonHealthDegraded
                 "Model %q reported unhealthy by LiteLLM: %s"
                 [FStr (ms_ModelName (Spec model)); FStr (he_Error ep)])
        | None => setHealth healthStatusUnknown
        end
  end.

Definition reconcileModel (resolved : ResolvedInstance) : ModelM Ret_t Ret_t :=
  let apiClient := client_of resolved in
  model ← get;
  '(authMode, params) ← resolveParams model;
  let hash := computeSpecHash (MkSyncInput (Spec model) params) in
  pushModel apiClient (modelRequest model params) hash authMode ;;
  (if backgroundHealthChecksEnabled (ri_Instance resolved)
   then updateModelHealth apiClient
   else setHealth healthStatusUnknown) ;;
  now ← lift (kcallp KNow);
  modify (map_status (with_mst_LastSyncTime (Some now))) ;;
  mret (RequeueIn (5 * time_Minute), None).

#[export] Instance LiteLLMModelReconciler : Reconciler KModel := {
  rc_kind := kindModel;
  rc_ref := ms_InstanceRef;
  rc_conditions := mst_Conditions;
  rc_set_conditions := with_mst_Conditions;
  rc_observed_generation := false;
  rc_enterprise := true;
  rc_display := λ model : LiteLLMModel, ms_ModelName (Spec model);
  rc_delete_display := λ model : LiteLLMModel, ms_ModelName (Spec model);
  rc_msg_enterprise := "Model %q requires a LiteLLM Enterprise license";
  rc_msg_failed := "Failed to reconcile model %q: %v";
  rc_msg_synced := "Model synced to LiteLLM";
  rc_msg_delete_failed := "Failed to delete model %q from LiteLLM: %v";
  rc_msg_deleted := "Model %q deleted from LiteLLM";
  rc_msg_adopted := None;
  rc_service := SModels;
  rc_delete_id := λ model : LiteLLMModel,
    if decide (mst_LiteLLMModelID (Status model) = "") then None
    else Some (mst_LiteLLMModelID (Status model));
  rc_body := λ resolved model, run_M (reconcileModel resolved) model
}.

Definition LiteLLMModel_handleDeletion : LiteLLMModel → kprog Ret_t := handleDeletion (k := KModel).

Definition usesCredential (cred : LiteLLMCredential) (m : LiteLLMModel) : bool :=
  match lmp_CredentialRef (ms_LiteLLMParams (Spec m)) with
  | Some ref => bool_decide (cr_Name ref = Name (Meta cred))
  | None => false
  end.

(** The watch on credentials: the models of the namespace that use one. *)
Definition findModelsForCredential (cred : LiteLLMCredential) : kprog (list (string * string)) :=
  models ← kcallp (KList KModel (Some (Namespace (Meta cred))));
  match models with
  | Err _ => mret []
  | Ok models =>
      mret ((λ m : LiteLLMModel, (Namespace (Meta m), Name (Meta m))) <$>
        filter (λ m, usesCredential cred m = true) models)
  end.
End Model.

Section ModelLaws.
Context `{KubeLib} `{JSONMarshal SyncInput}.

Lemma resolveParams_retries model : retries (resolveParams model).
Proof. unfold resolveParams, inlineSecret. retries_tac. Qed.

Lemma createModel_retries cl req hash mode : retries (createModel cl req hash mode).
Proof. unfold createModel. retries_tac. Qed.

Lemma recreateModel_retries cl req hash mode : retries (recreateModel cl req hash mode).
Proof. unfold recreateModel. retries_tac. Qed.

Lemma updateModel_retries cl req hash mode : retries (updateModel cl req hash mode).
Proof. unfold updateModel. retries_tac. Qed.

#[local] Hint Resolve resolveParams_retries createModel_retries recreateModel_retries
  updateModel_retries : retries.

Lemma pushModel_retries cl req hash mode : retries (pushModel cl req hash mode).
Proof. unfold pushModel. retries_tac. Qed.

Lemma updateModelHealth_retries cl : retries (updateModelHealth cl).
Proof. unfold updateModelHealth, setHealth. retries_tac. Qed.

#[local] Hint Resolve pushModel_retries updateModelHealth_retries : retries.

#[export] Instance LiteLLMModelReconciler_laws : ReconcilerLaws KModel.
Proof.
  split; [done|]. intros ri o t o' r. apply returns_runs. unfold reconcileModel, setHealth. retries_tac.
Qed.
End ModelLaws.

(** ** What a pass sends to LiteLLM *)

(** The authentication mode the spec asks for. *)
Definition mode_of (model : LiteLLMModel) : string :=
  match lmp_CredentialRef (ms_LiteLLMParams (Spec model)) with
  | Some _ => authModeCredential
  | None => authModeInline
  end.

Definition recorded_mode (model : LiteLLMModel) : string := annotation AnnotationAuthMode model.

(** The value of a Secret reference could not be read: the Secret, or its key. *)
Definition secret_missing (h : khist) (ns : string) (ref : SecretKeyRef) : Prop :=
  (∃ e, KEv (KGetSecret ns (skr_Name ref)) (Err e) ∈ h) ∨
  ∃ s, KEv (KGetSecret ns (skr_Name ref)) (Ok s) ∈ h ∧ sec_Data s !! skr_Key ref = None.

(** The provider parameters the spec asks for could not be resolved. *)
Definition params_missing (model : LiteLLMModel) (h : khist) : Prop :=
  let lp := ms_LiteLLMParams (Spec model) in
  match lmp_CredentialRef lp with
  | Some ref =>
      (∃ e, KEv (KGet KCredential (Namespace (Meta model)) (cr_Name ref)) (Err e) ∈ h) ∨
      ∃ cred : LiteLLMCredential, KEv (KGet KCredential (Namespace (Meta model)) (cr_Name ref)) (Ok cred) ∈ h ∧
        (crs_CredentialName (Spec cred) = "" ∨ secret_missing h (Namespace (Meta cred)) (crs_APIKeySecretRef (Spec cred)))
  | None => ∃ ref, (lmp_APIKeySecretRef lp = Some ref ∨ lmp_VertexCredentialsSecretRef lp = Some ref) ∧
      secret_missing h (Namespace (Meta model)) ref
  end.

(** An optional Secret reference and the value sent for it. *)
Definition optional_secret (h : khist) (ns : string) (ref : option SecretKeyRef) (v : string) : Prop :=
  match ref with
  | Some ref => secret_value h ns ref v
  | None => v = ""
  end.

(** The provider parameters the spec asks for, given what has been read. *)
Definition params_ok (model : LiteLLMModel) (h : khist) (p : ModelParams) : Prop :=
  let lp := ms_LiteLLMParams (Spec model) in
  match lmp_CredentialRef lp with
  | Some ref => ∃ (cred : LiteLLMCredential) apiKey,
      KEv (KGet KCredential (Namespace (Meta model)) (cr_Name ref)) (Ok cred) ∈ h ∧
      crs_CredentialName (Spec cred) ≠ "" ∧
      secret_value h (Namespace (Meta cred)) (crs_APIKeySecretRef (Spec cred)) apiKey ∧
      p = credentialParams (MkResolvedCredential (crs_CredentialName (Spec cred))
            (crs_APIBase (Spec cred)) (crs_APIVersion (Spec cred)) apiKey) (baseParams model)
  | None => ∃ apiKey vertex,
      optional_secret h (Namespace (Meta model)) (lmp_APIKeySecretRef lp) apiKey ∧
      optional_secret h (Namespace (Meta model)) (lmp_VertexCredentialsSecretRef lp) vertex ∧
      p = with_mp_VertexCredentials vertex (with_mp_APIKey apiKey
            (with_mp_APIVersion (lmp_APIVersion lp) (with_mp_APIBase (lmp_APIBase lp) (baseParams model))))
  end.

Section ModelCalls.
Context `{KubeLib} `{JSONMarshal SyncInput}.
Implicit Types (G : khist → kcall → Prop).

Lemma secret_missing_extends P h h' ns ref : extends P h h' → secret_missing h ns ref → secret_missing h' ns ref.
Proof. intros Hext [(e & ?)|(s & ? & ?)]; [left; exists e|right; exists s]; eauto using extends_elem. Qed.

Lemma wp_secretValue G R ns ref h (Q : khist → res string error → Prop) :
  benign_ok G →
  (∀ h' r, benign_ext h h' →
     match r with Ok v => secret_value h' ns ref v | Err _ => secret_missing h' ns ref end → Q h' r) →
  wp G R (getSecretValue ns (Some ref)) h Q.
Proof.
  intros HG HQ. unfold getSecretValue. kstep. kstep; [benign_tac|].
  destruct x as [s|e]; [|apply wp_ret, HQ; [by apply extends_ev|left; exists e; set_solver]].
  destruct (sec_Data s !! skr_Key ref) as [v|] eqn:Hv; apply wp_ret, HQ; try (by apply extends_ev).
  - exists s. split; [set_solver|done].
  - right. exists s. split; [set_solver|done].
Qed.

Lemma wp_resolveCredential G R (model : LiteLLMModel) ref h (Q : khist → res resolvedCredential error → Prop) :
  benign_ok G → lmp_CredentialRef (ms_LiteLLMParams (Spec model)) = Some ref →
  (∀ h' r, benign_ext h h' →
     match r with
     | Ok c => params_ok model h' (credentialParams c (baseParams model))
     | Err _ => params_missing model h'
     end → Q h' r) →
  wp G R (resolveCredential model ref) h Q.
Proof.
  intros HG Href HQ. unfold resolveCredential. kstep. kstep; [benign_tac|].
  unfold params_ok, params_missing in HQ.
  destruct x as [cred|e]; [|apply wp_ret, HQ; [by apply extends_ev|rewrite Href; left; exists e; set_solver]].
  case_decide as Hne.
  { apply wp_ret, HQ; [by apply extends_ev|]. rewrite Href. right. exists cred. split; [set_solver|by left]. }
  kstep. apply wp_secretValue; [done|]. intros h' r E Hr. cbv zeta in HQ.
  assert (benign_ext h h') as E' by (eapply extends_trans; [|exact E]; by apply extends_ev).
  assert (KEv (KGet KCredential (Namespace (Meta model)) (cr_Name ref)) (Ok cred) ∈ h') as Hin
    by (eapply extends_elem; [exact E|]; set_solver).
  destruct r as [v|e]; apply wp_ret, HQ; try done; rewrite Href.
  - by exists cred, v.
  - right. exists cred. split; [done|by right].
Qed.

Lemma wpM_inlineSecret G R (model : LiteLLMModel) ref fmt set p s h
    (Q : khist → LiteLLMModel → Ret_t + ModelParams → Prop) :
  benign_ok G →
  (∀ h' v, benign_ext h h' → optional_secret h' (Namespace (Meta model)) ref v →
     Q h' s (inr (match ref with Some _ => set v p | None => p end))) →
  (∀ h' e r, benign_ext h h' → ref = Some r → secret_missing h' (Namespace (Meta model)) r → snd e ≠ None →
     Q h' s (inl e)) →
  wpM G R (inlineSecret model ref fmt set p) s h Q.
Proof.
  intros HG HQ Hex. unfold inlineSecret. destruct ref as [ref|].
  - mpure. apply wp_secretValue; [done|]. intros h' [v|e] E Hv; [|by eapply Hex].
    mpure. by apply (HQ h' v).
  - mpure. apply (HQ h ""); [apply extends_refl|done].
Qed.

Lemma wpM_resolveParams G R (model : LiteLLMModel) s h (Q : khist → LiteLLMModel → Ret_t + (string * ModelParams) → Prop) :
  benign_ok G →
  (∀ h' p, benign_ext h h' → params_ok model h' p → Q h' s (inr (mode_of model, p))) →
  (∀ h' e, benign_ext h h' → params_missing model h' → snd e ≠ None → Q h' s (inl e)) →
  wpM G R (resolveParams model) s h Q.
Proof.
  intros HG HQ Hex. unfold resolveParams. cbv zeta.
  destruct (lmp_CredentialRef _) as [ref|] eqn:Href.
  - mpure. apply wp_resolveCredential; [done..|]. intros h' [c|e] E Hc; [|by apply Hex].
    mpure. specialize (HQ h' _ E Hc). unfold mode_of in HQ. by rewrite Href in HQ.
  - unfold params_ok, params_missing, mode_of in *. mstep.
    apply wpM_inlineSecret; [done| |].
    2: { intros h1 e r E1 Hr Hm He. apply Hex; [done| |done]. rewrite Href. exists r. split; [by left|done]. }
    intros h1 k1 E1 Hk1. mstep. apply wpM_inlineSecret; [done| |].
    2: { intros h2 e r E2 Hr Hm He. apply Hex; [by eapply extends_trans| |done]. rewrite Href. exists r. split; [by right|done]. }
    intros h2 k2 E2 Hk2. mstep. rewrite Href in HQ. apply HQ; [by eapply extends_trans|]. exists k1, k2.
    unfold optional_secret in *. destruct (lmp_APIKeySecretRef _), (lmp_VertexCredentialsSecretRef _); subst;
      repeat split; eauto using secret_value_extends.
Qed.

(** The calls of a pass on LiteLLM. *)
Definition model_call_ok (ri : ResolvedInstance) (model : LiteLLMModel) (h : khist) (c : kcall) : Prop :=
  let id := mst_LiteLLMModelID (Status model) in
  let flipped := recorded_mode model ≠ "" ∧ recorded_mode model ≠ mode_of model in
  let changed p := annotation AnnotationSyncHash model ≠ computeSpecHash (MkSyncInput (Spec model) p) ∨
                   recorded_mode model ≠ mode_of model in
  match c with
  | KApi _ (ModelsCreate req) =>
      params_ok model h (mcr_LiteLLMParams req) ∧
      (id = "" ∨ flipped ∧ ∃ cl, KEv (KApi cl (ApiDelete SModels id)) None ∈ h)
  | KApi _ (ModelsUpdate req) =>
      params_ok model h (mcr_LiteLLMParams req) ∧ changed (mcr_LiteLLMParams req) ∧
      id ≠ "" ∧ mcr_ModelID req = id ∧ ¬ flipped
  | KApi _ (ApiDelete s id') => s = SModels ∧ id' = id ∧ id ≠ "" ∧ flipped
  | KApi _ r => r = HealthCheck ∧ backgroundHealthChecksEnabled (ri_Instance ri) = true
  | _ => True
  end.

#[local] Instance model_call_ok_benign ri model : benign_ok (model_call_ok ri model).
Proof. intros h c Hc. by destruct c. Qed.

Lemma recordSync_calls ri model id hash mode s h Q :
  (∀ h' s' r, Q h' s' r) →
  wpM (model_call_ok ri model) any_answer (call_fn (Rt := Ret_t) (recordSync id hash mode)) s h Q.
Proof. intros HQ. unfold recordSync. by mrun. Qed.

Lemma params_ok_extends P model h h' p :
  extends P h h' → params_ok model h p → params_ok model h' p.
Proof.
  intros Hext. unfold params_ok, optional_secret. cbv zeta. destruct (lmp_CredentialRef _) as [ref|].
  - intros (cred & k & ? & ? & ? & ?). exists cred, k. eauto 10 using extends_elem, secret_value_extends.
  - intros (k & v & ? & ? & ?). exists k, v.
    repeat split; [..|done]; repeat case_match; eauto using secret_value_extends.
Qed.

Lemma pushModel_calls ri model p h :
  params_ok model h p →
  wpM (model_call_ok ri model) any_answer
    (pushModel (client_of ri) (modelRequest model p)
       (computeSpecHash (MkSyncInput (Spec model) p)) (mode_of model)) model h (λ _ _ _, True).
Proof.
  intros Hp. unfold pushModel. cbv zeta. mpure. fold (recorded_mode model).
  case_decide as Hid; [|case_decide as Hsync; [done|case_decide as Hflip]].
  - unfold createModel. mpure. mstep; [split; [done|by left]|]. destruct x as [resp|e]; [|done].
    mstep. mstep. apply recordSync_calls. intros h' s' [?|[?|]]; mrun.
  - unfold recreateModel. mpure. mstep; [done|]. destruct x as [e|]; [done|]. mstep. mstep.
    + split; [apply (params_ok_extends (λ _, True) _ h); [|exact Hp]; by apply extends_ev|].
      right. split; [done|]. exists (client_of ri). set_solver.
    + destruct x as [resp|e]; [|mrun]. mstep. mstep. apply recordSync_calls. intros h' s' [?|[?|]]; mrun.
  - unfold updateModel. mpure. mstep; [|destruct x as [e|]; [done|]; mstep; mstep; apply recordSync_calls;
      intros h' s' [?|[?|]]; mrun].
    simpl. split; [done|]. split; [|done].
    destruct (decide (annotation AnnotationSyncHash model = computeSpecHash (MkSyncInput (Spec model) p)));
      [right|by left]. tauto.
Qed.

(** ** What a pass must send *)

(** The requests sent to LiteLLM in a history. *)
Definition requests_of (h : khist) : list (ApiClient * api_req) :=
  omap (λ e : event K, match ev_op e with KApi cl r => Some (cl, r) | _ => None end) h.

Lemma requests_of_snoc h (e : event K) :
  requests_of (h ++ [e]) = requests_of h ++ match ev_op e with KApi cl r => [(cl, r)] | _ => [] end.
Proof. unfold requests_of. rewrite omap_app. f_equal. simpl. by destruct (ev_op e). Qed.

Lemma requests_of_benign h h' : benign_ext h h' → requests_of h' = requests_of h.
Proof.
  intros (t & -> & Ht). unfold requests_of. rewrite omap_app. rewrite <- (app_nil_r (omap _ h)) at 2. f_equal.
  induction t as [|e t IH]; [done|]. pose proof (Ht e ltac:(by left)) as He. cbn.
  rewrite IH by (intros; apply Ht; by right). by destruct (ev_op e).
Qed.

(** The requests due for the parameters [p]: none when the specification and the mode are
    those recorded; a creation; a deletion and, if it is accepted, a creation, when the mode
    has flipped; or an update. *)
Definition push_due (cl : ApiClient) (model : LiteLLMModel) (p : ModelParams) (h : khist)
    (l : list (ApiClient * api_req)) : Prop :=
  let id := mst_LiteLLMModelID (Status model) in
  let req := modelRequest model p in
  if decide (id = "") then l = [(cl, ModelsCreate req)]
  else if decide (annotation AnnotationSyncHash model = computeSpecHash (MkSyncInput (Spec model) p) ∧
                  recorded_mode model = mode_of model) then l = []
  else if decide (recorded_mode model ≠ "" ∧ recorded_mode model ≠ mode_of model) then
    (∃ e, KEv (KApi cl (ApiDelete SModels id)) (Some e) ∈ h) ∧ l = [(cl, ApiDelete SModels id)] ∨
    KEv (KApi cl (ApiDelete SModels id)) None ∈ h ∧ l = [(cl, ApiDelete SModels id); (cl, ModelsCreate req)]
  else l = [(cl, ModelsUpdate (modelUpdateRequest model req))].

(** A request or a write of the pass has been refused. *)
Definition refused (e : event K) : bool :=
  match ev_op e as c return kans c → bool with
  | KApi _ r =>
      match r as r0 return api_ans r0 → bool with
      | ModelsCreate _ => λ x, negb (is_Ok x)
      | ModelsUpdate _ => λ x : option error, bool_decide (is_Some x)
      | ApiDelete _ _ => λ x : option error, bool_decide (is_Some x)
      | _ => λ _, false
      end
  | KUpdate k _ | KStatusUpdate k _ => λ x, negb (is_Ok x)
  | _ => λ _, false
  end (ev_ans e).

Definition some_refused (h : khist) : Prop := ∃ e, e ∈ h ∧ refused e = true.

(** What a complete pass has sent, by its outcome: nothing, when the parameters could not be
    resolved; else what is due, followed by the health check, when it is enabled, unless the
    pass has failed, for a refused request or write. *)
Definition model_due (ri : ResolvedInstance) (model : LiteLLMModel) (h : khist) (r : Ret_t) : Prop :=
  (params_missing model h ∧ snd r ≠ None ∧ requests_of h = []) ∨
  ∃ p l, params_ok model h p ∧ push_due (client_of ri) model p h l ∧
    match snd r with
    | None => requests_of h = l ++ (if backgroundHealthChecksEnabled (ri_Instance ri) then [(client_of ri, HealthCheck)] else [])
    | Some _ => requests_of h = l ∧ some_refused h
    end.

Section ModelDue.
Context (ri : ResolvedInstance) (model : LiteLLMModel) (p : ModelParams).
#[local] Notation cl := (client_of ri).

Lemma push_due_grows (h : khist) (e : event K) l : push_due cl model p h l → push_due cl model p (h ++ [e]) l.
Proof. unfold push_due. cbv zeta. repeat case_decide; [done..| |done]. intros [[[x ?] ?]|[? ?]]; [left|right]; set_solver. Qed.

Lemma some_refused_last (h : khist) (e : event K) : refused e = true → some_refused (h ++ [e]).
Proof. intros He. exists e. split; [set_solver|done]. Qed.

(** The state after the requests: those sent, and a failure only for a refusal. *)
Definition pushed {A : Type} (h : khist) (r : Ret_t + A) : Prop :=
  params_ok model h p ∧ push_due cl model p h (requests_of h) ∧
  match r with inl e => snd e ≠ None ∧ some_refused h | inr _ => True end.

Lemma pushed_grows (h : khist) (e : event K) :
  match ev_op e with KApi _ _ => False | _ => True end → pushed (A := unit) h (inr tt) → pushed (A := unit) (h ++ [e]) (inr tt).
Proof.
  intros He (Hp & Hd & _). split; [|split; [|done]].
  - eapply (params_ok_extends (λ _, True)); [|exact Hp]. by apply extends_ev.
  - rewrite requests_of_snoc. destruct (ev_op e); try done; rewrite app_nil_r; by apply push_due_grows.
Qed.

Lemma pushed_exits h (r : Ret_t) :
  snd r ≠ None → some_refused h → pushed (A := unit) h (inr tt) → pushed (A := unit) h (inl r).
Proof. intros Hr He (Hp & Hd & _). by split_and!. Qed.

Lemma pushed_fails (h : khist) (e : event K) (r : Ret_t) :
  snd r ≠ None → refused e = true → pushed (A := unit) (h ++ [e]) (inr tt) → pushed (A := unit) (h ++ [e]) (inl r).
Proof. intros Hr He. apply pushed_exits; [done|]. by apply some_refused_last. Qed.

Lemma recordSync_due id hash mode s h (Q : khist → LiteLLMModel → option error + option error → Prop) :
  pushed (A := unit) h (inr tt) →
  (∀ h' s', pushed (A := unit) h' (inr tt) → Q h' s' (inr None)) →
  (∀ h' s' e, pushed (A := unit) h' (inr tt) → some_refused h' → Q h' s' (inl (Some e))) →
  wpM no_guarantee any_answer (recordSync id hash mode) s h Q.
Proof.
  intros Hp Hok Herr. unfold recordSync. mpure. mstep; [done| |].
  - mpure. mstep; [done| |]; mpure.
    + apply Hok. apply pushed_grows; [done|]. by apply pushed_grows.
    + apply Herr; [|by apply some_refused_last]. apply pushed_grows; [done|]. by apply pushed_grows.
  - mpure. apply Herr; [|by apply some_refused_last]. by apply pushed_grows.
Qed.

Lemma pushModel_due h :
  params_ok model h p → requests_of h = [] →
  wpM no_guarantee any_answer
    (pushModel cl (modelRequest model p) (computeSpecHash (MkSyncInput (Spec model) p)) (mode_of model)) model h
    (λ h' _ r, pushed h' r).
Proof.
  intros Hp Hh. unfold pushModel. cbv zeta. mpure. fold (recorded_mode model).
  assert (∀ e, params_ok model (h ++ [e]) p) as Hp1.
  { intros e. eapply (params_ok_extends (λ _, True)); [|exact Hp]. by apply extends_ev. }
  case_decide as Hid; [|case_decide as Hsync; [|case_decide as Hflip]].
  - assert (∀ x, pushed (A := unit) (h ++ [KEv (KApi cl (ModelsCreate (modelRequest model p))) x]) (inr tt)) as Hpd.
    { intros x. split_and!; [apply Hp1| |done]. rewrite requests_of_snoc, Hh. unfold push_due. cbv zeta.
      by rewrite decide_True. }
    unfold createModel. mpure. mstep; [done|]. destruct x as [resp|e]; [|mpure; by apply pushed_fails].
    mpure. apply recordSync_due; [done| |].
    + intros h' s' Hd. mpure. mstep; [done|]. by apply pushed_grows.
    + intros h' s' e (? & ? & _) Hr. by split_and!.
  - mpure. split_and!; [done| |done]. unfold push_due. cbv zeta. by rewrite decide_False, decide_True.
  - unfold recreateModel. mpure. mstep; [done|]. destruct x as [e|].
    { mpure. apply pushed_fails; [done..|]. split_and!; [apply Hp1| |done]. rewrite requests_of_snoc, Hh.
      unfold push_due. cbv zeta. rewrite decide_False, decide_False, decide_True by done. left. split; [|done].
      exists e. set_solver. }
    mpure. mstep; [done|].
    match goal with |- wpM _ _ _ _ ?h2 _ => assert (pushed (A := unit) h2 (inr tt)) as Hpd end.
    { split_and!; [|  |done].
      - eapply (params_ok_extends (λ _, True)); [|apply Hp1]. by apply extends_ev.
      - rewrite !requests_of_snoc, Hh. unfold push_due. cbv zeta.
        rewrite decide_False, decide_False, decide_True by done. right. split; [set_solver|done]. }
    destruct x as [resp|e].
    + mpure. apply recordSync_due; [done| |].
      * intros h' s' Hd. mpure. mstep; [done|]. by apply pushed_grows.
      * intros h' s' e (? & ? & _) Hr. by split_and!.
    + mpure. assert (some_refused (h ++ [KEv (KApi cl (ApiDelete SModels (mst_LiteLLMModelID (Status model)))) None] ++
        [KEv (KApi cl (ModelsCreate (modelRequest model p))) (Err e)])) as Hr.
      { rewrite app_assoc. by apply some_refused_last. }
      rewrite app_assoc in Hr. destruct Hr as (e0 & Hin & He0).
      mstep; [done| |]; mpure; (apply pushed_exits; [done| |by apply pushed_grows]); exists e0; (split; [set_solver|done]).
  - assert (∀ x, pushed (A := unit) (h ++ [KEv (KApi cl (ModelsUpdate (modelUpdateRequest model (modelRequest model p)))) x]) (inr tt)) as Hpd.
    { intros x. split_and!; [apply Hp1| |done]. rewrite requests_of_snoc, Hh. unfold push_due. cbv zeta.
      by rewrite !decide_False. }
    unfold updateModel. mpure. mstep; [done|]. destruct x as [e|]; [mpure; by apply pushed_fails|].
    mpure. apply recordSync_due; [done| |].
    + intros h' s' Hd. mpure. mstep; [done|]. by apply pushed_grows.
    + intros h' s' e (? & ? & _) Hr. by split_and!.
Qed.
End ModelDue.

(** The call of the health endpoint, and nothing else, follows the push. *)
Lemma model_due_holds ri model t out :
  runs (run_M (reconcileModel ri) model) t out → model_due ri model t out.2.
Proof.
  intros Hr. eapply (kruns_post _ _ _ (λ h o, model_due ri model h o.2)); [|exact Hr]. clear Hr t out.
  apply wp_run_M. unfold reconcileModel. cbv zeta. mpure. apply wpM_resolveParams; [apply _| |].
  2: { intros h e E Hm He. left. split_and!; [done..|]. by rewrite (requests_of_benign _ _ E). }
  intros h p E Hp. mpure. eapply wpM_mono; [by apply pushModel_due; [|rewrite (requests_of_benign _ _ E)]|].
  intros h1 s1 [e|[]] (Hp1 & Hd1 & Hr1).
  { right. exists p, (requests_of h1). destruct Hr1 as [He Hr1]. simpl. destruct (snd e); [|done]. by split_and!. }
  mpure. set (Q := λ (h' : khist) (_ : LiteLLMModel) (r : Ret_t + unit),
    r = inr tt ∧ pushed ri model p (A := unit) h1 (inr tt) ∧ params_ok model h' p ∧
    push_due (client_of ri) model p h' (requests_of h1) ∧
    requests_of h' = requests_of h1 ++
      (if backgroundHealthChecksEnabled (ri_Instance ri) then [(client_of ri, HealthCheck)] else [])).
  apply (wpM_mono _ _ _ _ _ Q).
  - unfold Q. destruct (backgroundHealthChecksEnabled _).
    2: { unfold setHealth. mpure. by rewrite app_nil_r. }
    unfold updateModelHealth, setHealth. mpure. mstep; [done|].
    assert (∀ e, params_ok model (h1 ++ [e]) p) as Hp2.
    { intros e. eapply (params_ok_extends (λ _, True)); [|exact Hp1]. by apply extends_ev. }
    assert (∀ h2 (e : event K), push_due (client_of ri) model p h2 (requests_of h1) →
      push_due (client_of ri) model p (h2 ++ [e]) (requests_of h1)) as Hd2 by (intros; by apply push_due_grows).
    destruct x as [report|e]; [|mpure; split_and!; [done..|by apply Hp2|by apply Hd2|by rewrite requests_of_snoc]].
    case_match; [mpure; split_and!; [done..|by apply Hp2|by apply Hd2|by rewrite requests_of_snoc]|].
    case_match; [|mpure; split_and!; [done..|by apply Hp2|by apply Hd2|by rewrite requests_of_snoc]].
    mpure. mstep; [|mpure; split_and!; [done..|by apply Hp2|by apply Hd2|by rewrite requests_of_snoc]].
    mpure. mstep; [done|]. split_and!; [done..| |by apply Hd2, Hd2|by rewrite !requests_of_snoc, app_nil_r].
    eapply (params_ok_extends (λ _, True)); [|apply Hp2]. by apply extends_ev.
  - intros h2 s2 r (-> & _ & Hp2 & Hd2 & Hreq). mpure. mstep; [done|]. mpure.
    right. exists p, (requests_of h1). simpl. split_and!; [|by apply push_due_grows|].
    + eapply (params_ok_extends (λ _, True)); [|exact Hp2]. by apply extends_ev.
    + by rewrite requests_of_snoc, app_nil_r.
Qed.

(** C30: a pass over a model sends to LiteLLM exactly what the state asks for, in every
    execution (first part) and all of it in a complete one (second part):
    - every pushed record carries the provider parameters resolved by this pass:
      those of the referenced credential and its Secret, never the inline ones,
      when there is a reference, and the inline ones otherwise; when they cannot be
      resolved the pass fails and sends nothing;
    - a model is created exactly when none is recorded, or after LiteLLM accepted the
      deletion of the old record, sent exactly when the authentication mode flipped;
    - it is updated exactly when the hash of spec and resolved parameters, or the
      mode, is not the recorded one, without a flip, under the recorded identifier;
    - then the health endpoint (a paid completion per model when background checks are
      off) is called exactly when the instance enables background checks, unless the
      pass has failed, which it does only when a request or a write has been refused. *)
Theorem reconcileModel_calls ri model :
  kalways (model_call_ok ri model) (run_M (reconcileModel ri) model) ∧
  ∀ t out, runs (run_M (reconcileModel ri) model) t out → model_due ri model t out.2.
Proof.
  split; [|intros t out; apply model_due_holds].
  apply (wp_always _ _ (λ _ _, True)), wp_run_M. unfold reconcileModel. cbv zeta.
  mpure. apply wpM_resolveParams; [apply _| |done]. intros h1 p E1 Hp. mstep.
  eapply wpM_mono; [by apply pushModel_calls|]. intros h2 s2 [e|[]] _; [done|].
  mstep. apply (wpM_mono _ _ _ _ _ (λ _ _ _, True)); [|intros h3 s3 [e|[]] _; [done|mrun]].
  destruct (backgroundHealthChecksEnabled _) eqn:Hbg; [|by unfold setHealth; mrun].
  unfold updateModelHealth, setHealth. by mrun.
Qed.
End ModelCalls.
