(* ===== verification/Password.v ===== *)
(** * The password digest of a user (internal/controller/litellmuser_controller.go)

    [passwordDigest] renders an Argon2id digest in PHC string format and
    [passwordMatchesDigest] parses it back.  [argon2.IDKey] is a parameter (package
    golang.org/x/crypto); base64, [strings.Split] and the [v=%d] scan of the Go
    standard library are written out.  Bytes are [Z]s in 0..255. *)

From S2P Require Import Prelude KubeTypes InstanceTypes Types World Sha256.
From stdpp Require Import pretty.
From Stdlib Require Import Ascii.
Open Scope Z_scope.

(** [argon2.IDKey(password, salt, time, memory, threads, keyLen)], on bytes. *)
Class Argon2 := argon2_IDKey : list Z → list Z → Z → Z → Z → Z → list Z.

Definition is_byte (b : Z) : Prop := 0 ≤ b < 256.

(** The result is a slice of [keyLen] bytes. *)
Class Argon2Laws `{Argon2} : Prop := {
  IDKey_length pw salt t m p n : 0 ≤ n → Z.of_nat (length (argon2_IDKey pw salt t m p n)) = n;
  IDKey_bytes pw salt t m p n : Forall is_byte (argon2_IDKey pw salt t m p n)
}.

(** ** base64.RawStdEncoding *)

Definition b64_alphabet : list ascii :=
  String.list_ascii_of_string "ABCDEFGHIJKLMNOPQRSTUVWXYZabcdefghijklmnopqrstuvwxyz0123456789+/".

Definition b64_char (i : Z) : ascii := nth (Z.to_nat i) b64_alphabet "A"%char.

Fixpoint index_of (c : ascii) (l : list ascii) (i : Z) : option Z :=
  match l with
  | [] => None
  | d :: l' => if Ascii.eqb c d then Some i else index_of c l' (i + 1)
  end.

Definition b64_value (c : ascii) : option Z := index_of c b64_alphabet 0.

(** Bytes to six-bit groups. *)
Fixpoint b64_split (l : list Z) : list Z :=
  match l with
  | a :: b :: c :: l' =>
      Z.shiftr a 2 ::
      Z.lor (Z.shiftl (Z.land a 3) 4) (Z.shiftr b 4) ::
      Z.lor (Z.shiftl (Z.land b 15) 2) (Z.shiftr c 6) ::
      Z.land c 63 :: b64_split l'
  | [a; b] =>
      [Z.shiftr a 2; Z.lor (Z.shiftl (Z.land a 3) 4) (Z.shiftr b 4); Z.shiftl (Z.land b 15) 2]
  | [a] => [Z.shiftr a 2; Z.shiftl (Z.land a 3) 4]
  | [] => []
  end.

Definition b64_encode (l : list Z) : list ascii := b64_char <$> b64_split l.

(** Six-bit groups to bytes; trailing bits are dropped (the encoding is not
    strict), a single trailing group is an error. *)
Fixpoint b64_groups (l : list Z) : option (list Z) :=
  match l with
  | w :: x :: y :: z :: l' =>
      r ← b64_groups l';
      Some (Z.lor (Z.shiftl w 2) (Z.shiftr x 4) ::
            Z.lor (Z.shiftl (Z.land x 15) 4) (Z.shiftr y 2) ::
            Z.lor (Z.shiftl (Z.land y 3) 6) z :: r)
  | [w; x; y] =>
      Some [Z.lor (Z.shiftl w 2) (Z.shiftr x 4); Z.lor (Z.shiftl (Z.land x 15) 4) (Z.shiftr y 2)]
  | [w; x] => Some [Z.lor (Z.shiftl w 2) (Z.shiftr x 4)]
  | [_] => None
  | [] => Some []
  end.

(** Go's decoder skips carriage returns and newlines. *)
Definition is_newline (c : ascii) : bool :=
  Ascii.eqb c "010"%char || Ascii.eqb c "013"%char.

Definition b64_decode (s : list ascii) : option (list Z) :=
  mapM b64_value (filter (λ c, is_newline c = false) s) ≫= b64_groups.

(** ** [strings.Split(s, sep)] for a separator of one byte *)

Fixpoint split_on (sep : ascii) (l : list ascii) : list (list ascii) :=
  match l with
  | [] => [[]]
  | c :: l' =>
      if Ascii.eqb c sep then [] :: split_on sep l'
      else match split_on sep l' with
           | w :: ws => (c :: w) :: ws
           | [] => [[c]]
           end
  end.

(** ** [fmt.Sscanf(s, "v=%d", &version)]

    After the literal [v=]: spaces are skipped, then an optional sign and at least
    one digit; the rest of the input is ignored.  An overflowing number is an
    error in Go; here it is a value no test accepts. *)

Definition digit_value (c : ascii) : option Z :=
  let b := Z.of_N (N_of_ascii c) in
  if (48 <=? b) && (b <=? 57) then Some (b - 48) else None.

Fixpoint scan_digits (acc : option Z) (l : list ascii) : option Z :=
  match l with
  | c :: l' =>
      match digit_value c with
      | Some d => scan_digits (Some (10 * default 0 acc + d)) l'
      | None => acc
      end
  | [] => acc
  end.

Fixpoint skip_spaces (l : list ascii) : list ascii :=
  match l with
  | c :: l' => if Ascii.eqb c " "%char || Ascii.eqb c "009"%char then skip_spaces l' else l
  | [] => []
  end.

Definition scan_int (l : list ascii) : option Z :=
  match skip_spaces l with
  | "-"%char :: l' => Z.opp <$> scan_digits None l'
  | "+"%char :: l' => scan_digits None l'
  | l' => scan_digits None l'
  end.

Definition Sscanf_v (l : list ascii) : option Z :=
  match l with
  | "v"%char :: "="%char :: l' => scan_int l'
  | _ => None
  end.

(** ** The digest *)

Definition argon2_Version : Z := 19.
Definition argon2Time : Z := 2.
Definition argon2Memory : Z := 19 * 1024.
Definition argon2Threads : Z := 1.
Definition argon2KeyLen : Z := 32.
Definition argon2SaltLen : nat := 16.

Definition argon2Params : string :=
  "m=" +:+ pretty argon2Memory +:+ ",t=" +:+ pretty argon2Time +:+ ",p=" +:+ pretty argon2Threads.

Section Digest.
Context `{Argon2}.

Definition passwordKey (password : string) (salt : list Z) : list Z :=
  argon2_IDKey (bytes_of password) salt argon2Time argon2Memory argon2Threads argon2KeyLen.

(** [passwordDigest], once the salt has been drawn. *)
Definition digestWith (salt : list Z) (password : string) : string :=
  "$argon2id$v=" +:+ pretty argon2_Version +:+ "$" +:+ argon2Params +:+ "$" +:+
  String.string_of_list_ascii (b64_encode salt) +:+ "$" +:+
  String.string_of_list_ascii (b64_encode (passwordKey password salt)).

Definition passwordMatchesDigest (digest password : string) : bool :=
  match split_on "$"%char (chars digest) with
  | [_; alg; version; params; salt; hash] =>
      bool_decide (alg = chars "argon2id") &&
      bool_decide (Sscanf_v version = Some argon2_Version) &&
      bool_decide (params = chars argon2Params) &&
      match b64_decode salt, b64_decode hash with
      | Some salt, Some want =>
          bool_decide (Z.of_nat (length want) = argon2KeyLen) &&
          bool_decide (passwordKey password salt = want)
      | _, _ => false
      end
  | _ => false
  end.
End Digest.

(** ** Round trip of base64 *)

(** Facts on bytes and six-bit groups, by enumeration. *)
Lemma enumerate (n m : Z) (P : Z → Z → bool) :
  forallb (λ x, forallb (P x) (seqZ 0 m)) (seqZ 0 n) = true →
  ∀ x y, 0 ≤ x < n → 0 ≤ y < m → P x y = true.
Proof.
  rewrite forallb_forall. intros Hall x y Hx Hy. specialize (Hall x).
  rewrite <- list_elem_of_In, elem_of_seqZ, forallb_forall in Hall.
  apply Hall; [lia|]. rewrite <- list_elem_of_In, elem_of_seqZ. lia.
Qed.

Lemma enumerate2 (n m : Z) (f g : Z → Z → Z) :
  forallb (λ x, forallb (λ y, f x y =? g x y) (seqZ 0 m)) (seqZ 0 n) = true →
  ∀ x y, 0 ≤ x < n → 0 ≤ y < m → f x y = g x y.
Proof. intros Hall x y Hx Hy. by apply Z.eqb_eq, (enumerate n m (λ x y, f x y =? g x y)). Qed.

Lemma enumerate1 (n : Z) (f g : Z → Z) :
  forallb (λ x, forallb (λ y, f x =? g x) (seqZ 0 1)) (seqZ 0 n) = true → ∀ x, 0 ≤ x < n → f x = g x.
Proof. intros Hall x Hx. by apply (enumerate2 n 1 (λ x _, f x) (λ x _, g x) Hall x 0). Qed.

Lemma low_high_2 a : is_byte a → Z.lor (Z.shiftl (Z.shiftr a 2) 2) (Z.land a 3) = a.
Proof. apply (enumerate1 256 (λ a, Z.lor (Z.shiftl (Z.shiftr a 2) 2) (Z.land a 3)) id). by vm_compute. Qed.
Lemma low_high_4 a : is_byte a → Z.lor (Z.shiftl (Z.shiftr a 4) 4) (Z.land a 15) = a.
Proof. apply (enumerate1 256 (λ a, Z.lor (Z.shiftl (Z.shiftr a 4) 4) (Z.land a 15)) id). by vm_compute. Qed.
Lemma low_high_6 a : is_byte a → Z.lor (Z.shiftl (Z.shiftr a 6) 6) (Z.land a 63) = a.
Proof. apply (enumerate1 256 (λ a, Z.lor (Z.shiftl (Z.shiftr a 6) 6) (Z.land a 63)) id). by vm_compute. Qed.

Lemma group2_high a b : is_byte a → is_byte b →
  Z.shiftr (Z.lor (Z.shiftl (Z.land a 3) 4) (Z.shiftr b 4)) 4 = Z.land a 3.
Proof.
  apply (enumerate2 256 256 (λ a b, Z.shiftr (Z.lor (Z.shiftl (Z.land a 3) 4) (Z.shiftr b 4)) 4)
           (λ a _, Z.land a 3)). by vm_compute.
Qed.
Lemma group2_low a b : is_byte a → is_byte b →
  Z.land (Z.lor (Z.shiftl (Z.land a 3) 4) (Z.shiftr b 4)) 15 = Z.shiftr b 4.
Proof.
  apply (enumerate2 256 256 (λ a b, Z.land (Z.lor (Z.shiftl (Z.land a 3) 4) (Z.shiftr b 4)) 15)
           (λ _ b, Z.shiftr b 4)). by vm_compute.
Qed.
Lemma group3_high b c : is_byte b → is_byte c →
  Z.shiftr (Z.lor (Z.shiftl (Z.land b 15) 2) (Z.shiftr c 6)) 2 = Z.land b 15.
Proof.
  apply (enumerate2 256 256 (λ b c, Z.shiftr (Z.lor (Z.shiftl (Z.land b 15) 2) (Z.shiftr c 6)) 2)
           (λ b _, Z.land b 15)). by vm_compute.
Qed.
Lemma group3_low b c : is_byte b → is_byte c →
  Z.land (Z.lor (Z.shiftl (Z.land b 15) 2) (Z.shiftr c 6)) 3 = Z.shiftr c 6.
Proof.
  apply (enumerate2 256 256 (λ b c, Z.land (Z.lor (Z.shiftl (Z.land b 15) 2) (Z.shiftr c 6)) 3)
           (λ _ c, Z.shiftr c 6)). by vm_compute.
Qed.
Lemma group2_last a : is_byte a → Z.shiftr (Z.shiftl (Z.land a 3) 4) 4 = Z.land a 3.
Proof. apply (enumerate1 256 (λ a, Z.shiftr (Z.shiftl (Z.land a 3) 4) 4) (λ a, Z.land a 3)). by vm_compute. Qed.
Lemma group3_last b : is_byte b → Z.shiftr (Z.shiftl (Z.land b 15) 2) 2 = Z.land b 15.
Proof. apply (enumerate1 256 (λ b, Z.shiftr (Z.shiftl (Z.land b 15) 2) 2) (λ b, Z.land b 15)). by vm_compute. Qed.

Lemma list_ind3 {A} (P : list A → Prop) :
  P [] → (∀ a, P [a]) → (∀ a b, P [a; b]) → (∀ a b c l, P l → P (a :: b :: c :: l)) → ∀ l, P l.
Proof.
  intros H0 H1 H2 H3. fix IH 1. intros [|a [|b [|c l]]]; [apply H0|apply H1|apply H2|apply H3, IH].
Qed.

Lemma b64_groups_split l : Forall is_byte l → b64_groups (b64_split l) = Some l.
Proof.
  induction l as [|a|a b|a b c l IH] using list_ind3; [done|..];
    rewrite ?Forall_cons; intros Hl; destruct_and?; cbn [b64_split b64_groups].
  - by rewrite group2_last, low_high_2.
  - by rewrite group2_high, group2_low, group3_last, low_high_2, low_high_4.
  - rewrite IH by done. cbn [mbind option_bind].
    by rewrite group2_high, group2_low, group3_high, group3_low, low_high_2, low_high_4, low_high_6.
Qed.

(** Every group is a six-bit value. *)
Definition is_group (x : Z) : bool := (0 <=? x) && (x <? 64).

Lemma split_groups l : Forall is_byte l → Forall is_group (b64_split l).
Proof.
  assert (∀ f : Z → Z → Z,
    forallb (λ x, forallb (λ y, is_group (f x y)) (seqZ 0 256)) (seqZ 0 256) = true →
    ∀ x y, is_byte x → is_byte y → is_group (f x y)) as Hf.
  { intros f Hall x y Hx Hy. apply Is_true_true. by apply (enumerate 256 256 (λ x y, is_group (f x y))). }
  assert (∀ a, is_byte a → is_group (Z.shiftr a 2) ∧ is_group (Z.land a 63) ∧
    is_group (Z.shiftl (Z.land a 3) 4) ∧ is_group (Z.shiftl (Z.land a 15) 2)) as H1.
  { intros a Ha. repeat split.
    - by apply (Hf (λ a _, Z.shiftr a 2)) with a; vm_compute.
    - by apply (Hf (λ a _, Z.land a 63)) with a; vm_compute.
    - by apply (Hf (λ a _, Z.shiftl (Z.land a 3) 4)) with a; vm_compute.
    - by apply (Hf (λ a _, Z.shiftl (Z.land a 15) 2)) with a; vm_compute. }
  assert (∀ a b, is_byte a → is_byte b →
    is_group (Z.lor (Z.shiftl (Z.land a 3) 4) (Z.shiftr b 4)) ∧
    is_group (Z.lor (Z.shiftl (Z.land a 15) 2) (Z.shiftr b 6))) as H2.
  { intros a b Ha Hb. split.
    - by apply (Hf (λ a b, Z.lor (Z.shiftl (Z.land a 3) 4) (Z.shiftr b 4))); [vm_compute|..].
    - by apply (Hf (λ a b, Z.lor (Z.shiftl (Z.land a 15) 2) (Z.shiftr b 6))); [vm_compute|..]. }
  induction l as [|a|a b|a b c l IH] using list_ind3; [constructor|..];
    rewrite ?Forall_cons; intros Hl; destruct_and?; cbn [b64_split];
    repeat (constructor; [by first [eapply H1 | eapply H2]|]); auto.
Qed.

Lemma b64_group_char (P : Z → bool) :
  forallb P (seqZ 0 64) = true → ∀ i, is_group i → P i = true.
Proof.
  rewrite forallb_forall. intros Hall i Hi. apply Hall.
  rewrite <- list_elem_of_In, elem_of_seqZ. apply Is_true_true, andb_true_iff in Hi. lia.
Qed.

Lemma b64_value_char i : is_group i → b64_value (b64_char i) = Some i.
Proof.
  intros Hi.
  pose proof (b64_group_char (λ i, bool_decide (b64_value (b64_char i) = Some i)) eq_refl i Hi) as Hb.
  by apply bool_decide_eq_true in Hb.
Qed.

Lemma b64_char_plain i : is_group i →
  is_newline (b64_char i) = false ∧ Ascii.eqb (b64_char i) "$"%char = false.
Proof.
  intros Hi. pose proof (b64_group_char (λ i, bool_decide
    (is_newline (b64_char i) = false ∧ Ascii.eqb (b64_char i) "$"%char = false)) eq_refl i Hi) as Hb.
  by apply bool_decide_eq_true in Hb.
Qed.

Lemma list_filter_all {A} (P : A → Prop) `{∀ x, Decision (P x)} (l : list A) :
  (∀ x, x ∈ l → P x) → filter P l = l.
Proof.
  induction l as [|x l IH]; intros Hl; [done|]. rewrite filter_cons_True by set_solver.
  f_equal. set_solver.
Qed.

Lemma b64_decode_encode l : Forall is_byte l → b64_decode (b64_encode l) = Some l.
Proof.
  intros Hl. unfold b64_decode, b64_encode.
  assert (filter (λ c, is_newline c = false) (b64_char <$> b64_split l) = b64_char <$> b64_split l ∧
          mapM b64_value (b64_char <$> b64_split l) = Some (b64_split l)) as [-> ->].
  { pose proof (split_groups l Hl) as Hgs. split.
    - apply list_filter_all. intros c (g & -> & Hg)%list_elem_of_fmap.
      by apply b64_char_plain, (proj1 (Forall_forall _ _) Hgs).
    - apply mapM_fmap_Forall_Some. eapply Forall_impl; [exact Hgs|]. apply b64_value_char. }
  cbn [mbind option_bind]. by apply b64_groups_split.
Qed.

Lemma b64_encode_no_dollar l : Forall is_byte l → Forall (λ c, Ascii.eqb c "$"%char = false) (b64_encode l).
Proof.
  intros Hl. apply Forall_fmap. eapply Forall_impl; [by apply split_groups|].
  intros g Hg. by apply b64_char_plain.
Qed.

(** ** Round trip of the digest *)

Lemma split_on_app sep w r :
  Forall (λ c, Ascii.eqb c sep = false) w → split_on sep (w ++ sep :: r) = w :: split_on sep r.
Proof.
  induction 1 as [|c w Hc Hw IH]; simpl; [by rewrite Ascii.eqb_refl|]. by rewrite Hc, IH.
Qed.

Lemma split_on_last sep w : Forall (λ c, Ascii.eqb c sep = false) w → split_on sep w = [w].
Proof. induction 1 as [|c w Hc Hw IH]; simpl; [done|]. by rewrite Hc, IH. Qed.

Lemma chars_of l : chars (String.string_of_list_ascii l) = l.
Proof. apply String.list_ascii_of_string_of_list_ascii. Qed.

Section DigestLemmas.
Context `{Argon2Laws}.

Lemma digestWith_split salt pw :
  Forall is_byte salt →
  split_on "$"%char (chars (digestWith salt pw)) =
    [[]; chars "argon2id"; chars "v=19"; chars argon2Params; b64_encode salt;
     b64_encode (passwordKey pw salt)].
Proof.
  intros Hsalt. unfold digestWith. rewrite !chars_app, !chars_of.
  change (chars (pretty argon2_Version)) with (chars "19").
  change (chars "$argon2id$v=") with ([] ++ "$"%char :: chars "argon2id" ++ "$"%char :: chars "v=").
  change (chars "$") with ["$"%char].
  rewrite <- !app_assoc. cbn [app]. rewrite <- app_assoc. cbn [app].
  change ("$"%char :: chars "argon2id" ++ ?r) with ([] ++ "$"%char :: chars "argon2id" ++ r).
  rewrite (split_on_app _ []) by constructor. f_equal.
  rewrite split_on_app by (repeat constructor). f_equal.
  change (chars "v=" ++ chars "19" ++ ?r) with (chars "v=19" ++ r).
  rewrite split_on_app by (repeat constructor). f_equal.
  rewrite split_on_app by (vm_compute; repeat constructor). f_equal.
  rewrite split_on_app by (by apply b64_encode_no_dollar). f_equal.
  by rewrite split_on_last by apply b64_encode_no_dollar, IDKey_bytes.
Qed.

Lemma digest_match salt pw pw' :
  Forall is_byte salt →
  passwordMatchesDigest (digestWith salt pw) pw' =
    bool_decide (passwordKey pw' salt = passwordKey pw salt).
Proof.
  intros Hsalt. unfold passwordMatchesDigest. rewrite digestWith_split by done.
  rewrite !(bool_decide_true (_ = _)) by done. cbn [andb].
  rewrite !b64_decode_encode by (done || apply IDKey_bytes).
  assert (Z.of_nat (length (passwordKey pw salt)) = argon2KeyLen) as -> by (by apply IDKey_length).
  by rewrite bool_decide_true.
Qed.

(** Rendering and parsing the PHC string lose nothing: the digest recorded for
    a password is recognised for that password, and for another one exactly when
    Argon2id itself does not tell the two apart under the salt. *)
Lemma passwordMatchesDigest_digestWith salt pw pw' :
  Forall is_byte salt →
  passwordMatchesDigest (digestWith salt pw) pw = true ∧
  (passwordMatchesDigest (digestWith salt pw) pw' = true ↔ passwordKey pw' salt = passwordKey pw salt).
Proof.
  intros Hsalt. rewrite !digest_match by done. rewrite bool_decide_true by done.
  split; [done|]. apply bool_decide_eq_true.
Qed.
End DigestLemmas.

(** A concrete key derivation, to run the digest. *)
Module ToyArgon2.
Definition toy_IDKey (pw salt : list Z) (t m p n : Z) : list Z :=
  resize (Z.to_nat n) 0 ((λ x, x `mod` 256) <$> (pw ++ salt)).

#[export] Instance toy : Argon2 := toy_IDKey.

#[export] Instance toy_laws : Argon2Laws.
Proof.
  split.
  - intros. unfold argon2_IDKey, toy, toy_IDKey. rewrite length_resize. lia.
  - intros. unfold argon2_IDKey, toy, toy_IDKey. rewrite resize_spec. apply Forall_app. split.
    + apply Forall_take, Forall_fmap, Forall_true. intros x. unfold is_byte. simpl.
      apply Z.mod_pos_bound. lia.
    + apply Forall_replicate. unfold is_byte. lia.
Qed.
End ToyArgon2.

Lemma passwordMatchesDigest_applies :
  @passwordMatchesDigest ToyArgon2.toy (@digestWith ToyArgon2.toy [1; 2; 255] "hunter2") "hunter2" = true.
Proof.
  apply (@passwordMatchesDigest_digestWith ToyArgon2.toy ToyArgon2.toy_laws [1; 2; 255] "hunter2" "hunter3").
  repeat constructor; unfold is_byte; lia.
Defined.
