(* ===== verification/User.v ===== *)
(** * Users (internal/controller/litellmuser_controller.go)

    [reconcileUser] creates a user in LiteLLM or adopts the one that exists under
    [spec.userId], pushes spec changes, and applies the initial password once per
    value of its Secret. *)

From S2P Require Import Prelude KubeTypes InstanceTypes Types Updates World Sha256 Common Reconcile Team Password.
Open Scope Z_scope.

Definition userRequest (user : LiteLLMUser) (teams : list UserTeam) : UserCreateRequest := {|
  ucr_UserID := us_UserID (Spec user);
  ucr_UserEmail := us_UserEmail (Spec user);
  ucr_UserRole := us_UserRole (Spec user);
  ucr_MaxBudget := us_MaxBudget (Spec user);
  ucr_BudgetDuration := us_BudgetDuration (Spec user);
  ucr_Models := us_Models (Spec user);
  ucr_Teams := teams;
  ucr_TPMLimit := us_TPMLimit (Spec user);
  ucr_RPMLimit := us_RPMLimit (Spec user);
  ucr_SoftBudget := us_SoftBudget (Spec user);
  ucr_ModelRPMLimit := us_ModelRPMLimit (Spec user);
  ucr_ModelTPMLimit := us_ModelTPMLimit (Spec user);
  ucr_ObjectPermission := mapObjectPermission (us_ObjectPermission (Spec user));
  ucr_Metadata := us_Metadata (Spec user);
  ucr_Blocked := us_Blocked (Spec user);
  ucr_AutoCreateKey := Some (default false (us_AutoCreateKey (Spec user)))
|}.

Section User.
Context `{KubeLib} `{JSONMarshal LiteLLMUserSpec} `{Argon2}.

#[local] Notation UserM := (M K LiteLLMUser).
#[local] Notation get := (@get K LiteLLMUser _).
#[local] Notation modify := (@modify K LiteLLMUser _).
#[local] Notation recordCreated := (@recordCreated KUser).
#[local] Notation pushSpec := (@pushSpec KUser).
#[local] Notation m_send := (@m_send KUser).
#[local] Notation status_patch_obj := (@status_patch_obj KUser _).
#[local] Notation markAdopted := (@markAdopted KUser _).
#[local] Notation m_api := (@m_api KUser _).
#[local] Notation m_event := (@m_event KUser _).

(** ** References *)

Definition resolveTeamMembership (user : LiteLLMUser) (t : UserTeamMembership) :
    kprog (res UserTeam error) :=
  let team_of id := MkUserTeam id (utm_Role t) (utm_MaxBudgetInTeam t) in
  match utm_TeamRef t with
  | None => mret (Ok (team_of (utm_TeamID t)))
  | Some ref =>
      team ← kcallp (KGet KTeam (Namespace (Meta user)) (tr_Name ref));
      match team with
      | Err err => mret (Err (Errorf "resolve team ref %q: %w" [FStr (tr_Name ref)] (Some err)))
      | Ok team =>
          if decide (tst_LiteLLMTeamID (Status team) = "")
          then mret (Err (Errorf "team %q not yet synced (no litellmTeamId)" [FStr (tr_Name ref)] None))
          else mret (Ok (team_of (tst_LiteLLMTeamID (Status team))))
      end
  end.

Fixpoint resolveTeamRefs (user : LiteLLMUser) (l : list UserTeamMembership) :
    kprog (res (list UserTeam) error) :=
  match l with
  | [] => mret (Ok [])
  | t :: l' =>
      team ← resolveTeamMembership user t;
      match team with
      | Err err => mret (Err err)
      | Ok team =>
          rest ← resolveTeamRefs user l';
          match rest with
          | Err err => mret (Err err)
          | Ok rest => mret (Ok (team :: rest))
          end
      end
  end.

(** ** Adoption *)

Definition http_StatusConflict : Z := 409.

Definition adoptExistingUser (apiClient : ApiClient) (user : LiteLLMUser) (req : UserCreateRequest)
    (createErr : error) : kprog (option error) :=
  let conflict := match IsAPIError createErr with
                  | Some apiErr => StatusCode apiErr =? http_StatusConflict
                  | None => false
                  end in
  if negb conflict || bool_decide (us_UserID (Spec user) = "")
  then mret (Some (Errorf "create user: %w" [] (Some createErr)))
  else
    info ← api apiClient (UsersGet (us_UserID (Spec user)));
    match info with
    | Err err =>
        match IsAPIError err with
        | Some getErr =>
            if IsNotFound getErr
            then mret (Some (Errorf "create user: %w (no user with id %q, so not adopting)"
                               [FStr (us_UserID (Spec user))] (Some createErr)))
            else mret (Some (Errorf "create user: %w (could not check for existing user %q: %v)"
                               [FStr (us_UserID (Spec user)); FErr err] (Some createErr)))
        | None => mret (Some (Errorf "create user: %w (could not check for existing user %q: %v)"
                                [FStr (us_UserID (Spec user)); FErr err] (Some createErr)))
        end
    | Ok _ =>
        r ← api apiClient (UsersUpdate req);
        match r with
        | Some err => mret (Some (Errorf "update adopted user: %w" [] (Some err)))
        | None => mret None
        end
    end.

(** Creates or adopts; answers the identifier and whether it was adopted. *)
Definition createOrAdopt (apiClient : ApiClient) (req : UserCreateRequest) :
    UserM Ret_t (string * bool) :=
  user ← get;
  resp ← m_api apiClient (UsersCreate req);
  match resp with
  | Ok resp => mret (ucresp_UserID resp, false)
  | Err err =>
      check (lift (adoptExistingUser apiClient user req err)) retry30 ;;
      check markAdopted fail0 ;;
      user ← get;
      mret (us_UserID (Spec user), true)
  end.

Definition createUser (apiClient : ApiClient) (req : UserCreateRequest) : UserM Ret_t unit :=
  '(userID, adopted) ← createOrAdopt apiClient req;
  recordCreated (λ st, with_ust_Synced true (with_ust_LiteLLMUserID userID st))
    "update status after create: %w" computeSpecHash ;;
  user ← get;
  if adopted : bool
  then m_event EventTypeNormal EventReasonAdopted "Adopted existing LiteLLM user %q (id=%s)"
         [FStr (us_UserEmail (Spec user)); FStr userID]
  else m_event EventTypeNormal EventReasonCreated "User %q registered with LiteLLM (id=%s)"
         [FStr (us_UserEmail (Spec user)); FStr userID].

Definition updateUser (apiClient : ApiClient) (req : UserCreateRequest) : UserM Ret_t unit :=
  user ← get;
  pushSpec (computeSpecHash (Spec user)) (m_send apiClient (UsersUpdate req) id) "update user: %w" (
    modify (map_status (with_ust_Synced true)) ;;
    user ← get;
    m_event EventTypeNormal EventReasonUpdated "User %q updated in LiteLLM"
      [FStr (us_UserEmail (Spec user))]).

(** ** The initial password *)

Definition setPasswordCondition {Rt} (status reason : string) (msg : text) : UserM Rt unit :=
  modify (λ user, map_status (λ st, with_ust_Conditions (SetStatusCondition (ust_Conditions st)
    (MkCondition ConditionInitialPasswordApplied status reason msg (Generation (Meta user)))) st) user).

Definition passwordDigest (password : string) : kprog (res string error) :=
  salt ← kcallp (KRandom argon2SaltLen);
  match salt with
  | Err err => mret (Err (Errorf "generate password digest salt: %w" [] (Some err)))
  | Ok salt => mret (Ok (digestWith salt password))
  end.

Definition rejectPassword (ref : SecretKeyRef) (err : error) : UserM Z Z :=
  let rejected := match IsAPIError err with Some apiErr => negb (IsTransient apiErr) | None => false end in
  let retry := if rejected then 0 else 30 * time_Second in
  let reason := if rejected then "PasswordRejected" else "ApplyFailed" in
  m_event EventTypeWarning EventReasonPasswordRejected
    "Failed to apply initial password from Secret %q: %v" [FStr (skr_Name ref); FErr err] ;;
  setPasswordCondition ConditionFalse reason (err_text err) ;;
  mret retry.

Definition recordPassword (ref : SecretKeyRef) (password : string) : UserM Z Z :=
  digest ← lift (passwordDigest password);
  match digest with
  | Err err =>
      setPasswordCondition ConditionFalse "DigestFailed" (err_text err) ;;
      mret (30 * time_Second)
  | Ok digest =>
      base ← get;
      modify (map_status (with_ust_InitialPasswordDigest digest)) ;;
      setPasswordCondition ConditionTrue "Applied" (lit "Initial password applied") ;;
      _ ← status_patch_obj base;
      user ← get;
      m_event EventTypeNormal EventReasonPasswordApplied
        "Initial password from Secret %q applied to user %q"
        [FStr (skr_Name ref); FStr (ust_LiteLLMUserID (Status user))] ;;
      mret 0
  end.

Definition applyPassword (apiClient : ApiClient) (ref : SecretKeyRef) (password : string) : UserM Z Z :=
  user ← get;
  if passwordMatchesDigest (ust_InitialPasswordDigest (Status user)) password then
    setPasswordCondition ConditionTrue "Applied" (lit "Initial password applied") ;;
    mret 0
  else
    r ← m_api apiClient (UsersSetPassword (ust_LiteLLMUserID (Status user)) password);
    match r with
    | Some err => rejectPassword ref err
    | None => recordPassword ref password
    end.

(** Answers a requeue delay, 0 for none. *)
Definition reconcileInitialPassword (apiClient : ApiClient) : UserM Z Z :=
  user ← get;
  match us_InitialPasswordSecretRef (Spec user) with
  | None =>
      modify (map_status (λ st,
        with_ust_Conditions (RemoveStatusCondition (ust_Conditions st) ConditionInitialPasswordApplied)
          (with_ust_InitialPasswordDigest "" st))) ;;
      mret 0
  | Some ref =>
      secret ← lift (kcallp (KGetSecret (Namespace (Meta user)) (skr_Name ref)));
      match secret with
      | Err err =>
          if apierrors_IsNotFound err then
            m_event EventTypeWarning EventReasonSecretNotFound "Initial password Secret %q not found"
              [FStr (skr_Name ref)] ;;
            setPasswordCondition ConditionFalse "SecretNotFound"
              (Sprintf "Secret %q not found" [FStr (skr_Name ref)]) ;;
            mret 0
          else
            setPasswordCondition ConditionFalse "SecretFetchFailed"
              (Sprintf "get Secret %q: %v" [FStr (skr_Name ref); FErr err]) ;;
            mret (30 * time_Second)
      | Ok secret =>
          let password := map_get_str (sec_Data secret) (skr_Key ref) in
          if decide (password = "") then
            m_event EventTypeWarning EventReasonSecretKeyMissing
              "Initial password Secret %q has no non-empty key %q"
              [FStr (skr_Name ref); FStr (skr_Key ref)] ;;
            setPasswordCondition ConditionFalse "SecretKeyMissing"
              (Sprintf "Secret %q has no non-empty key %q" [FStr (skr_Name ref); FStr (skr_Key ref)]) ;;
            mret 0
          else applyPassword apiClient ref password
      end
  end.

(** ** The body *)

Definition refreshUser (apiClient : ApiClient) (retry : Z) : UserM Ret_t Ret_t :=
  user ← get;
  info ← m_api apiClient (UsersGet (ust_LiteLLMUserID (Status user)));
  match info with
  | Ok info => modify (map_status (with_ust_CurrentSpend (ui_Spend info)))
  | Err _ => mret tt
  end ;;
  now ← lift (kcallp KNow);
  modify (map_status (with_ust_LastSyncTime (Some now))) ;;
  mret (RequeueIn (if 0 <? retry then retry else 5 * time_Minute), None).

Definition reconcileUser (resolved : ResolvedInstance) : UserM Ret_t Ret_t :=
  let apiClient := client_of resolved in
  user ← get;
  teams ← try (lift (resolveTeamRefs user (us_Teams (Spec user))))
            (λ err, retry30 (Errorf "resolve team refs: %w" [] (Some err)));
  let req := userRequest user teams in
  (if decide (ust_LiteLLMUserID (Status user) = "")
   then createUser apiClient req
   else updateUser apiClient req) ;;
  retry ← call_fn (reconcileInitialPassword apiClient);
  refreshUser apiClient retry.

#[export] Instance LiteLLMUserReconciler : Reconciler KUser := {
  rc_kind := kindUser;
  rc_ref := us_InstanceRef;
  rc_conditions := ust_Conditions;
  rc_set_conditions := with_ust_Conditions;
  rc_observed_generation := false;
  rc_enterprise := true;
  rc_display := λ user : LiteLLMUser, us_UserEmail (Spec user);
  rc_delete_display := λ user : LiteLLMUser, us_UserEmail (Spec user);
  rc_msg_enterprise := "User %q requires a LiteLLM Enterprise license";
  rc_msg_failed := "Failed to reconcile user %q: %v";
  rc_msg_synced := "User synced to LiteLLM";
  rc_msg_delete_failed := "Failed to delete user %q from LiteLLM: %v";
  rc_msg_deleted := "User %q deleted from LiteLLM";
  rc_msg_adopted := Some "User %q was adopted, not created, by the operator; left in place in LiteLLM";
  rc_service := SUsers;
  rc_delete_id := λ user : LiteLLMUser,
    if decide (ust_LiteLLMUserID (Status user) = "") then None
    else Some (ust_LiteLLMUserID (Status user));
  rc_body := λ resolved user, run_M (reconcileUser resolved) user
}.

Definition LiteLLMUser_handleDeletion : LiteLLMUser → kprog Ret_t := handleDeletion (k := KUser).

(** The watch on Secrets: the users of the namespace whose password it holds. *)
Definition usesPasswordSecret (secret : Secret) (u : LiteLLMUser) : bool :=
  match us_InitialPasswordSecretRef (Spec u) with
  | Some ref => bool_decide (skr_Name ref = Name (sec_meta secret))
  | None => false
  end.

Definition findUsersForSecret (secret : Secret) : kprog (list (string * string)) :=
  users ← kcallp (KList KUser (Some (Namespace (sec_meta secret))));
  match users with
  | Err _ => mret []
  | Ok users =>
      mret ((λ u : LiteLLMUser, (Namespace (Meta u), Name (Meta u))) <$>
        filter (λ u, usesPasswordSecret secret u = true) users)
  end.
End User.

Section UserLaws.
Context `{KubeLib} `{JSONMarshal LiteLLMUserSpec} `{Argon2}.

Lemma createOrAdopt_retries cl req : retries (createOrAdopt cl req).
Proof. unfold createOrAdopt. retries_tac. Qed.

#[local] Hint Resolve createOrAdopt_retries : retries.

Lemma createUser_retries cl req : retries (createUser cl req).
Proof. unfold createUser. retries_tac. Qed.

Lemma updateUser_retries cl req : retries (updateUser cl req).
Proof. unfold updateUser. retries_tac. Qed.

#[local] Hint Resolve createUser_retries updateUser_retries : retries.

Lemma refreshUser_returns cl retry : returns_retried (refreshUser cl retry).
Proof.
  unfold refreshUser. apply returns_bind; [retries_tac|]. intros user.
  apply returns_bind; [retries_tac|]. intros info. apply returns_bind; [retries_tac|]. intros _.
  apply returns_bind; [retries_tac|]. intros now. apply returns_bind; [retries_tac|]. intros _.
  apply returns_ret. unfold retried. simpl. destruct (0 <? retry) eqn:Hr; [by rewrite Hr|done].
Qed.

#[export] Instance LiteLLMUserReconciler_laws : ReconcilerLaws KUser.
Proof.
  split; [done|]. intros ri o t o' r. apply returns_runs. unfold reconcileUser. cbv zeta.
  apply returns_bind; [retries_tac|]. intros user. apply returns_bind; [retries_tac|]. intros teams.
  apply returns_bind; [retries_tac|]. intros _. apply returns_bind; [retries_tac|]. intros retry.
  apply refreshUser_returns.
Qed.
End UserLaws.

(** ** Identity *)

(** A status naming a LiteLLM user is written only once LiteLLM has created the
    user, or once its existence under [spec.userId] is confirmed and the mark of
    an adopted user is stored. *)
Definition user_bound_ok (h : khist) (c : kcall) : Prop :=
  ∀ user', c = KStatusUpdate KUser user' →
    let id := ust_LiteLLMUserID (Status user') in
    (∃ cl req resp, KEv (KApi cl (UsersCreate req)) (Ok resp) ∈ h ∧ id = ucresp_UserID resp) ∨
    adoption_recorded KUser h ∧ ∃ cl uid info, KEv (KApi cl (UsersGet uid)) (Ok info) ∈ h.

(** Events and reads ask for nothing, and neither does a call that is not a status
    update. *)
#[local] Instance user_bound_ok_benign : benign_ok user_bound_ok.
Proof. intros h c Hc user' ->. done. Qed.

Section UserIdentity.
Context `{KubeLib} `{JSONMarshal LiteLLMUserSpec} `{Argon2}.
Implicit Types (G : khist → kcall → Prop).

Lemma wp_resolveTeamRefs G R user l h (Q : khist → res (list UserTeam) error → Prop) :
  benign_ok G → (∀ h' r, benign_ext h h' → Q h' r) → wp G R (resolveTeamRefs user l) h Q.
Proof.
  intros HG. revert h Q. induction l as [|t l IH]; intros h Q HQ; simpl; [apply HQ, extends_refl|].
  kstep. apply (wp_mono _ _ _ _ (λ h' _, benign_ext h h')).
  - unfold resolveTeamMembership. cbv zeta. destruct (utm_TeamRef t); [|apply wp_ret, extends_refl].
    kstep. kstep; [benign_tac|]. repeat case_match; apply wp_ret; by apply extends_ev.
  - intros h1 [team|e] E1; [|by apply wp_ret, HQ].
    kstep. apply IH. intros h2 [rest|e] E2; apply wp_ret, HQ; by eapply extends_trans.
Qed.

(** A confirmed adoption. *)
Lemma wp_adoptExistingUser G R cl user req err h (Q : khist → option error → Prop) :
  (∀ h' r, G h' (KApi cl r)) →
  (∀ h' r, extends (λ _, True) h h' →
     (r = None → us_UserID (Spec user) ≠ "" ∧
        (∃ apiErr, IsAPIError err = Some apiErr ∧ StatusCode apiErr = 409) ∧
        (∃ info, KEv (KApi cl (UsersGet (us_UserID (Spec user)))) (Ok info) ∈ h') ∧
        KEv (KApi cl (UsersUpdate req)) None ∈ h') → Q h' r) →
  wp G R (adoptExistingUser cl user req err) h Q.
Proof.
  intros HG HQ. unfold adoptExistingUser. cbv zeta.
  destruct (IsAPIError err) as [apiErr|] eqn:Hae; [|by apply wp_ret, HQ; [apply extends_refl|]].
  destruct (StatusCode apiErr =? http_StatusConflict) eqn:Hcode;
    [|by apply wp_ret, HQ; [apply extends_refl|]].
  cbn [negb orb]. case_bool_decide as Hid; [by apply wp_ret, HQ; [apply extends_refl|]|].
  kstep. kstep; [done|]. destruct x as [info|e].
  - kstep. kstep; [done|]. destruct x as [e|]; apply wp_ret, HQ;
      try (eapply extends_trans; by apply extends_ev); [done|].
    intros _. split; [done|]. split; [exists apiErr; split; [done|]; by apply Z.eqb_eq in Hcode|].
    split; [exists info; set_solver|set_solver].
  - repeat case_match; apply wp_ret, HQ; try (by apply extends_ev); done.
Qed.

Lemma initialPassword_bound cl s h Q :
  (∀ h' s' r, Q h' s' r) →
  wpM user_bound_ok any_answer (call_fn (Rt := Ret_t) (reconcileInitialPassword cl)) s h Q.
Proof.
  intros HQ. mstep. unfold reconcileInitialPassword. mpure.
  destruct (us_InitialPasswordSecretRef _) as [ref|]; [|by mpure].
  mpure. mstep; [by intros ??|]. destruct x as [secret|e].
  - cbv zeta. case_decide; [unfold setPasswordCondition; by mrun|].
    unfold applyPassword. mpure. case_match; [unfold setPasswordCondition; by mrun|].
    mpure. mstep; [by intros ??|]. destruct x as [e|].
    + unfold rejectPassword, setPasswordCondition. cbv zeta. by mrun.
    + unfold recordPassword, setPasswordCondition, passwordDigest. mpure. mstep; [by intros ??|].
      destruct x as [salt|e]; [|by mrun]. mpure. by mrun.
  - case_match; unfold setPasswordCondition; by mrun.
Qed.

(** The body records a LiteLLM identifier only for a user LiteLLM has just
    created under that identifier, or, after a conflict, for a user whose
    existence LiteLLM has confirmed and once the adoption mark is stored; so a
    crash can never leave an adopted user looking operator-created, which the
    deletion of the resource would delete. *)
Lemma reconcileUser_binds_safely ri user :
  kalways user_bound_ok (run_M (reconcileUser ri) user).
Proof.
  apply (wp_always _ _ (λ _ _, True)), wp_run_M. unfold reconcileUser. cbv zeta.
  mpure. apply wp_resolveTeamRefs; [apply _|]. intros h1 [teams|e] _; [|done]. mpure.
  apply (wpM_mono _ _ _ _ _ (λ _ _ _, True)).
  - case_decide; [|unfold updateUser, pushSpec, m_send; cbv zeta; mrun].
    unfold createUser, createOrAdopt, recordCreated. mpure. mstep; [done|]. destruct x as [resp|e].
    + mpure. mstep; [|mrun|done]. intros user' <-%KStatusUpdate_inj. left.
      exists (client_of ri), (userRequest user teams), resp. split; [set_solver|done].
    + mpure. apply wp_adoptExistingUser; [done|]. intros h2 [e2|] E2 Hok; [done|]. mpure.
      destruct (Hok eq_refl) as (_ & _ & (info & Hinfo) & _).
      mstep; [done| |done]. mpure. mstep; [|mrun|done].
      intros user' <-%KStatusUpdate_inj. right. split.
      * eexists _, _. split; [apply elem_of_app; right; by apply list_elem_of_singleton|].
        apply annotation_annotate.
      * exists (client_of ri), (us_UserID (Spec user)), info. set_solver.
  - intros h2 s2 [e|[]] _; [done|]. mstep. apply initialPassword_bound.
    intros h3 s3 [e|retry]; [done|]. unfold refreshUser. mrun.
Qed.
End UserIdentity.

(** ** The initial password is applied once per value *)

(** What the password step may do: read the Secret, send a password that is the
    current value of the Secret and that the recorded digest does not match, and
    record a digest of the very password LiteLLM has just accepted. *)
Definition password_call_ok `{Argon2} (user : LiteLLMUser) (h : khist) (c : kcall) : Prop :=
  match c with
  | KApi _ r => ∃ ref pw,
      r = UsersSetPassword (ust_LiteLLMUserID (Status user)) pw ∧
      us_InitialPasswordSecretRef (Spec user) = Some ref ∧ pw ≠ "" ∧
      secret_value h (Namespace (Meta user)) ref pw ∧
      passwordMatchesDigest (ust_InitialPasswordDigest (Status user)) pw = false
  | KStatusPatch k o base => ∃ cl id pw salt,
      KEv (KApi cl (UsersSetPassword id pw)) None ∈ h ∧
      KEv (KRandom argon2SaltLen) (Ok salt) ∈ h ∧
      ∀ user' base', c = KStatusPatch KUser user' base' →
        ust_InitialPasswordDigest (Status user') = digestWith salt pw
  | c => benign c = true
  end.

#[local] Instance password_call_ok_benign `{Argon2} user : benign_ok (password_call_ok user).
Proof. intros h c Hc. by destruct c. Qed.

Section UserPassword.
Context `{KubeLib} `{Argon2}.

Lemma wpM_setPasswordCondition {Rt} G R status reason msg s h (Q : khist → LiteLLMUser → Rt + unit → Prop) :
  (∀ s', Spec s' = Spec s → ust_InitialPasswordDigest (Status s') = ust_InitialPasswordDigest (Status s) →
     Q h s' (inr tt)) →
  wpM G R (setPasswordCondition status reason msg) s h Q.
Proof. intros HQ. unfold setPasswordCondition. mpure. by apply HQ. Qed.

Lemma reconcileInitialPassword_wp cl user h :
  wpM (password_call_ok user) any_answer (reconcileInitialPassword cl) user h (λ _ _ _, True).
Proof.
  unfold reconcileInitialPassword. mpure.
  destruct (us_InitialPasswordSecretRef _) as [ref|] eqn:Href; [|by mpure].
  mpure. mstep; [done|]. destruct x as [secret|e].
  - cbv zeta. case_decide as Hpw; [by unfold setPasswordCondition; mrun|].
    unfold applyPassword. mpure. case_match eqn:Hmatch; [by unfold setPasswordCondition; mrun|].
    mpure. mstep.
    { exists ref, (map_get_str (sec_Data secret) (skr_Key ref)). repeat split; [done|done| |done].
      exists secret. split; [set_solver|]. unfold map_get_str in *.
      by destruct (sec_Data secret !! skr_Key ref). }
    destruct x as [e|]; [by unfold rejectPassword, setPasswordCondition; cbv zeta; mrun|].
    unfold recordPassword, passwordDigest. mpure. mstep; [done|].
    destruct x as [salt|e]; [|by unfold setPasswordCondition; mrun].
    mpure. apply wpM_setPasswordCondition. intros s' _ Hd. mpure. mstep; [|by mrun|by mrun].
    eexists cl, _, _, salt. split; [apply elem_of_app; left; apply elem_of_app; right; by apply list_elem_of_singleton|].
    split; [set_solver|]. intros user' base' Heq. apply KStatusPatch_inj in Heq as <-. by etransitivity; [exact Hd|].
  - by case_match; unfold setPasswordCondition; mrun.
Qed.

(** C31: the initial password is sent to LiteLLM only when it is the current,
    non-empty value of the referenced Secret and the recorded digest does not
    match it (a resync therefore never overwrites a password the user has
    changed since), and the digest recorded afterwards is made from the password
    LiteLLM accepted. *)
Theorem reconcileInitialPassword_calls cl user :
  kalways (password_call_ok user) (run_M (reconcileInitialPassword cl) user).
Proof.
  apply (wp_always _ _ (λ _ _, True)), wp_run_M. apply reconcileInitialPassword_wp.
Qed.

(** Once the digest of a password is recorded, further passes leave the user's
    password alone as long as the Secret keeps its value: no call of LiteLLM, and
    no requeue. *)
Lemma reconcileInitialPassword_idempotent `{!Argon2Laws} cl (user : LiteLLMUser) ref pw salt secret t user' d :
  us_InitialPasswordSecretRef (Spec user) = Some ref →
  Forall is_byte salt →
  ust_InitialPasswordDigest (Status user) = digestWith salt pw →
  sec_Data secret !! skr_Key ref = Some pw →
  pw ≠ "" →
  runs (run_M (reconcileInitialPassword cl) user)
    (KEv (KGetSecret (Namespace (Meta user)) (skr_Name ref)) (Ok secret) :: t) (user', d) →
  t = [] ∧ d = 0 ∧ ust_InitialPasswordDigest (Status user') = digestWith salt pw.
Proof.
  destruct user as [meta spec status]. cbn [Spec Status Meta]. intros Href Hsalt Hdig Hkey Hpw.
  assert (runs (run_M (reconcileInitialPassword cl) (MkObj meta spec status))
    (KEv (KGetSecret (Namespace meta) (skr_Name ref)) (Ok secret) :: t) (user', d) →
    runs (run_M (applyPassword cl ref pw) (MkObj meta spec status)) t (user', d)) as Hstep.
  { unfold run_M, reconcileInitialPassword. rewrite get_bind. cbn [Spec Status Meta] in *. rewrite Href. cbv zeta.
    intros (x & t' & Heq & Hr).
    apply (Ev_cons_inj (S := K) (KGetSecret (Namespace meta) (skr_Name ref))) in Heq as [<- <-].
    revert Hr. unfold map_get_str. cbn -[applyPassword map_get_str]. rewrite Hkey. cbn [default].
    rewrite decide_False by done. done. }
  intros Hr%Hstep. revert Hr. unfold run_M, applyPassword. rewrite get_bind.
  cbn [Spec Status Meta].
  assert (passwordMatchesDigest (ust_InitialPasswordDigest status) pw = true) as ->.
  { rewrite Hdig, digest_match by done. by rewrite bool_decide_true. }
  by intros [-> [= -> ->]].
Qed.
End UserPassword.
