(* ===== verification/Organization.v ===== *)
(** * Organizations (internal/controller/litellmorganization_controller.go) *)

From S2P Require Import Prelude KubeTypes InstanceTypes Types Updates World Sha256 Common Reconcile Team.
Open Scope Z_scope.

Definition orgCreateRequest (org : LiteLLMOrganization) : OrganizationCreateRequest := {|
  ocr_OrganizationAlias := os_OrganizationAlias (Spec org);
  ocr_Models := os_Models (Spec org);
  ocr_MaxBudget := os_MaxBudget (Spec org);
  ocr_BudgetDuration := os_BudgetDuration (Spec org);
  ocr_TpmLimit := os_TpmLimit (Spec org);
  ocr_RpmLimit := os_RpmLimit (Spec org);
  ocr_SoftBudget := os_SoftBudget (Spec org);
  ocr_ModelRPMLimit := os_ModelRPMLimit (Spec org);
  ocr_ModelTPMLimit := os_ModelTPMLimit (Spec org);
  ocr_ObjectPermission := mapObjectPermission (os_ObjectPermission (Spec org));
  ocr_Metadata := os_Metadata (Spec org)
|}.

Definition orgUpdateRequest (org : LiteLLMOrganization) : OrganizationUpdateRequest := {|
  our_OrganizationID := ost_LiteLLMOrganizationID (Status org);
  our_OrganizationAlias := os_OrganizationAlias (Spec org);
  our_Models := os_Models (Spec org);
  our_MaxBudget := os_MaxBudget (Spec org);
  our_BudgetDuration := os_BudgetDuration (Spec org);
  our_TpmLimit := os_TpmLimit (Spec org);
  our_RpmLimit := os_RpmLimit (Spec org);
  our_SoftBudget := os_SoftBudget (Spec org);
  our_ModelRPMLimit := os_ModelRPMLimit (Spec org);
  our_ModelTPMLimit := os_ModelTPMLimit (Spec org);
  our_ObjectPermission := mapObjectPermission (os_ObjectPermission (Spec org));
  our_Metadata := os_Metadata (Spec org)
|}.

(** [desired] and [actual]: emails to roles, the last entry of an email wins. *)
Definition desiredRoles (l : list OrganizationMember) : gmap string string :=
  foldl (λ m x, <[om_Email x := om_Role x]> m) ∅ l.

Definition actualRoles (l : list OrgMemberInfo) : gmap string string :=
  foldl (λ m x, <[omi_Email x := omi_Role x]> m) ∅ l.

Definition memberRole (m : OrganizationMember) : string :=
  if decide (om_Role m = "") then "internal_user" else om_Role m.

Section Organization.
Context `{KubeLib} `{JSONMarshal LiteLLMOrganizationSpec}.

#[local] Notation OrgM := (M K LiteLLMOrganization).
#[local] Notation get := (@get K LiteLLMOrganization _).
#[local] Notation modify := (@modify K LiteLLMOrganization _).
#[local] Notation recordCreated := (@recordCreated KOrganization).
#[local] Notation pushSpec := (@pushSpec KOrganization).
#[local] Notation m_send := (@m_send KOrganization).
#[local] Notation m_api := (@m_api KOrganization _).
#[local] Notation m_event := (@m_event KOrganization _).

Definition addOrgMember (apiClient : ApiClient) (id : string) (actual : gmap string string)
    (m : OrganizationMember) : OrgM (option error) unit :=
  when (bool_decide (actual !! om_Email m = None))
    (_ ← m_api apiClient (OrganizationsAddMember
           (MkOrgMemberAddRequest id (MkOrgMemberRequest (om_Email m) (memberRole m))));
     mret tt).

Definition deleteOrgMember (apiClient : ApiClient) (id : string) (desired : gmap string string)
    (am : OrgMemberInfo) : OrgM (option error) unit :=
  when (bool_decide (desired !! omi_Email am = None))
    (_ ← m_api apiClient (OrganizationsDeleteMember id (omi_UserID am)); mret tt).

Definition reconcileOrgMembers (apiClient : ApiClient) : OrgM (option error) (option error) :=
  org ← get;
  let id := ost_LiteLLMOrganizationID (Status org) in
  info ← try (m_api apiClient (OrganizationsGet id))
           (λ err, Some (Errorf "get organization info: %w" [] (Some err)));
  let desired := desiredRoles (os_Members (Spec org)) in
  let actual := actualRoles (oi_Members info) in
  for_each (os_Members (Spec org)) (addOrgMember apiClient id actual) ;;
  for_each (oi_Members info) (deleteOrgMember apiClient id desired) ;;
  modify (map_status (with_ost_MemberCount (Z.of_nat (length (os_Members (Spec org)))))) ;;
  mret None.

Definition createOrganization (apiClient : ApiClient) : OrgM Ret_t unit :=
  org ← get;
  resp ← try (m_api apiClient (OrganizationsCreate (orgCreateRequest org)))
           (λ err, retry30 (Errorf "create organization: %w" [] (Some err)));
  recordCreated (λ st, with_ost_Synced true
      (with_ost_LiteLLMOrganizationID (ocresp_OrganizationID resp) st))
    "update status after create: %w" computeSpecHash ;;
  org ← get;
  m_event EventTypeNormal EventReasonCreated "Organization %q registered with LiteLLM (id=%s)"
    [FStr (os_OrganizationAlias (Spec org)); FStr (ocresp_OrganizationID resp)].

Definition updateOrganization (apiClient : ApiClient) : OrgM Ret_t unit :=
  org ← get;
  pushSpec (computeSpecHash (Spec org))
    (m_send apiClient (OrganizationsUpdate (orgUpdateRequest org)) id) "update organization: %w" (
    modify (map_status (with_ost_Synced true)) ;;
    org ← get;
    m_event EventTypeNormal EventReasonUpdated "Organization %q updated in LiteLLM"
      [FStr (os_OrganizationAlias (Spec org))]).

Definition refreshOrganization (apiClient : ApiClient) : OrgM Ret_t Ret_t :=
  org ← get;
  info ← m_api apiClient (OrganizationsGet (ost_LiteLLMOrganizationID (Status org)));
  match info with
  | Ok info => modify (map_status (λ st,
      with_ost_MemberCount (Z.of_nat (length (oi_Members info)))
        (with_ost_CurrentSpend (oi_Spend info) st)))
  | Err _ => mret tt
  end ;;
  now ← lift (kcallp KNow);
  modify (map_status (with_ost_LastSyncTime (Some now))) ;;
  mret (RequeueIn (5 * time_Minute), None).

Definition reconcileOrganization (resolved : ResolvedInstance) : OrgM Ret_t Ret_t :=
  let apiClient := client_of resolved in
  org ← get;
  (if decide (ost_LiteLLMOrganizationID (Status org) = "")
   then createOrganization apiClient
   else updateOrganization apiClient) ;;
  org ← get;
  when (bool_decide (length (os_Members (Spec org)) ≠ 0%nat))
    (check (call_fn (reconcileOrgMembers apiClient))
       (λ err, retry30 (Errorf "reconcile members: %w" [] (Some err)))) ;;
  refreshOrganization apiClient.

#[export] Instance LiteLLMOrganizationReconciler : Reconciler KOrganization := {
  rc_kind := kindOrganization;
  rc_ref := os_InstanceRef;
  rc_conditions := ost_Conditions;
  rc_set_conditions := with_ost_Conditions;
  rc_observed_generation := true;
  rc_enterprise := true;
  rc_display := λ org : LiteLLMOrganization, os_OrganizationAlias (Spec org);
  rc_delete_display := λ org : LiteLLMOrganization, os_OrganizationAlias (Spec org);
  rc_msg_enterprise := "Organization %q requires a LiteLLM Enterprise license";
  rc_msg_failed := "Failed to reconcile organization %q: %v";
  rc_msg_synced := "Organization synced to LiteLLM";
  rc_msg_delete_failed := "Failed to delete organization %q from LiteLLM: %v";
  rc_msg_deleted := "Organization %q deleted from LiteLLM";
  rc_msg_adopted := None;
  rc_service := SOrganizations;
  rc_delete_id := λ org : LiteLLMOrganization,
    if decide (ost_LiteLLMOrganizationID (Status org) = "") then None
    else Some (ost_LiteLLMOrganizationID (Status org));
  rc_body := λ resolved org, run_M (reconcileOrganization resolved) org
}.

Definition LiteLLMOrganization_handleDeletion : LiteLLMOrganization → kprog Ret_t := handleDeletion (k := KOrganization).
End Organization.

Section OrganizationLaws.
Context `{KubeLib} `{JSONMarshal LiteLLMOrganizationSpec}.

Lemma createOrganization_retries cl : retries (createOrganization cl).
Proof. unfold createOrganization. retries_tac. Qed.

Lemma updateOrganization_retries cl : retries (updateOrganization cl).
Proof. unfold updateOrganization. retries_tac. Qed.

#[local] Hint Resolve createOrganization_retries updateOrganization_retries : retries.

#[export] Instance LiteLLMOrganizationReconciler_laws : ReconcilerLaws KOrganization.
Proof.
  split; [done|]. intros ri o t o' r. apply returns_runs.
  unfold reconcileOrganization, refreshOrganization. retries_tac.
Qed.
End OrganizationLaws.

(** ** Convergence of the members *)

Lemma foldl_insert_None {A} (k v : A → string) (l : list A) (m : gmap string string) e :
  foldl (λ m x, <[k x := v x]> m) m l !! e = None ↔ e ∉ k <$> l ∧ m !! e = None.
Proof.
  revert m. induction l as [|x l IH]; intros m; cbn; [set_solver|].
  rewrite IH, lookup_insert_None, not_elem_of_cons. naive_solver.
Qed.

Lemma desiredRoles_None l e : desiredRoles l !! e = None ↔ e ∉ om_Email <$> l.
Proof. unfold desiredRoles. rewrite foldl_insert_None, lookup_empty. tauto. Qed.

Lemma actualRoles_None l e : actualRoles l !! e = None ↔ e ∉ omi_Email <$> l.
Proof. unfold actualRoles. rewrite foldl_insert_None, lookup_empty. tauto. Qed.

(** The members of an organization at LiteLLM: those listed that are left, and those added,
    after the accepted membership calls of a history that name it. *)
Record roster := MkRoster { r_listed : list OrgMemberInfo; r_added : list OrgMemberRequest }.

Definition roster_step (id : string) (s : roster) (e : event K) : roster :=
  match ev_op e as c return kans c → roster with
  | KApi _ r =>
      match r as r0 return api_ans r0 → roster with
      | OrganizationsAddMember req => λ x : option error,
          match x with
          | None =>
              if decide (omar_OrganizationID req = id) then MkRoster (r_listed s) (r_added s ++ [omar_Member req]) else s
          | Some _ => s
          end
      | OrganizationsDeleteMember oid user => λ x : option error,
          match x with
          | None =>
              if decide (oid = id) then MkRoster (filter (λ am, omi_UserID am ≠ user) (r_listed s)) (r_added s) else s
          | Some _ => s
          end
      | _ => λ _, s
      end
  | _ => λ _, s
  end (ev_ans e).

Definition roster_after (id : string) (l : list OrgMemberInfo) (h : khist) : roster :=
  foldl (roster_step id) (MkRoster l []) h.

Lemma roster_after_snoc id l h e : roster_after id l (h ++ [e]) = roster_step id (roster_after id l h) e.
Proof. unfold roster_after. by rewrite foldl_app. Qed.

(** LiteLLM lists [l id] for the organization [id] and accepts the membership calls. *)
Definition org_cooperates (l : string → list OrgMemberInfo) (h : khist) (c : kcall) : kans c → Prop :=
  match c as c0 return kans c0 → Prop with
  | KApi _ r =>
      match r as r0 return api_ans r0 → Prop with
      | OrganizationsGet id => λ x, ∃ info, x = Ok info ∧ oi_Members info = l id
      | OrganizationsAddMember _ | OrganizationsDeleteMember _ _ => λ x : option error, x = None
      | _ => λ _, True
      end
  | _ => λ _, True
  end.

Definition org_membership_call (c : kcall) : bool :=
  match c with KApi _ (OrganizationsAddMember _) | KApi _ (OrganizationsDeleteMember _ _) => true | _ => false end.

(** The API server keeps the members of the specification in what it answers to a write. *)
Definition keeps_members (h : khist) (c : kcall) : kans c → Prop :=
  match c as c0 return kans c0 → Prop with
  | KUpdate k o | KStatusUpdate k o =>
      match k as k0 return obj k0 → res (obj k0) error → Prop with
      | KOrganization => λ (o : LiteLLMOrganization) (x : res LiteLLMOrganization error),
          match x with Ok o' => os_Members (Spec o') = os_Members (Spec o) | Err _ => True end
      | _ => λ _ _, True
      end o
  | _ => λ _, True
  end.

Section OrganizationMembers.
Context `{KubeLib} `{JSONMarshal LiteLLMOrganizationSpec}.

Section Listed.
Variables (l : list OrgMemberInfo).

(** The requests for the members of the spec that are not listed. *)
Definition missing (members : list OrganizationMember) : list OrgMemberRequest :=
  (λ m, MkOrgMemberRequest (om_Email m) (memberRole m)) <$> filter (λ m, om_Email m ∉ omi_Email <$> l) members.

Lemma filter_everywhere {A} (P : A → Prop) `{∀ x, Decision (P x)} (xs : list A) : Forall P xs → filter P xs = xs.
Proof. induction 1; [done|]. rewrite filter_cons, decide_True by done. congruence. Qed.

(** The listed members the spec asks for. *)
Definition kept (members : list OrganizationMember) : list OrgMemberInfo → list OrgMemberInfo :=
  filter (λ am, omi_Email am ∈ om_Email <$> members).

Lemma delete_one members before am rest :
  NoDup (omi_UserID <$> before ++ am :: rest) →
  filter (λ a, omi_UserID a ≠ omi_UserID am) (kept members before ++ am :: rest) = kept members before ++ rest.
Proof.
  rewrite fmap_app, fmap_cons. intros (Hb & Hdis & [Hr _]%NoDup_cons)%NoDup_app.
  rewrite filter_app, filter_cons, decide_False by (intros []; done). f_equal; apply filter_everywhere, Forall_forall.
  - intros a [_ Ha]%list_elem_of_filter Heq. apply (Hdis (omi_UserID a)); [by apply list_elem_of_fmap_2|].
    rewrite Heq. by left.
  - intros a Ha Heq. apply Hr. rewrite <-Heq. by apply list_elem_of_fmap_2.
Qed.

Lemma roster_emails members email :
  email ∈ (omi_Email <$> kept members l) ++ (omr_UserEmail <$> missing members) ↔ email ∈ om_Email <$> members.
Proof.
  unfold kept, missing. rewrite elem_of_app, !list_elem_of_fmap. setoid_rewrite list_elem_of_filter.
  setoid_rewrite list_elem_of_fmap. setoid_rewrite list_elem_of_filter. split.
  - intros [(am & -> & Hin & _)|(r & -> & m & -> & _ & Hm)]; [done|]. by exists m.
  - intros (m & -> & Hm). destruct (decide (om_Email m ∈ omi_Email <$> l)) as [Hin|Hout].
    + apply list_elem_of_fmap in Hin as (am & Heq & Ham). left. exists am. split; [done|]. split; [|done].
      exists m. split; [by rewrite Heq|done].
    + right. exists (MkOrgMemberRequest (om_Email m) (memberRole m)). split; [done|]. exists m. split; [done|]. by split.
Qed.

End Listed.

Lemma no_members_no_calls ri org t :
  os_Members (Spec org) = [] →
  partial (run_M (reconcileOrganization ri) org) t → respects keeps_members [] t →
  Forall (λ e : event K, org_membership_call (ev_op e) = false) t.
Proof.
  intros Hnone Hp Hresp. apply Forall_forall. intros e (t1 & t2 & ->)%list_elem_of_split.
  eapply (wp_partial (λ _ (c : op K), org_membership_call c = false) keeps_members _ [] (λ _ _, True)); [|exact Hp|exact Hresp|reflexivity].
  apply wp_run_M. unfold reconcileOrganization. cbv zeta. mpure.
  eapply (wpM_mono _ _ _ _ _ (λ _ s r, match r with inl _ => True | inr _ => os_Members (Spec s) = [] end)).
  - case_decide.
    + unfold createOrganization, recordCreated. mpure. mstep; [done|]. destruct x as [resp|]; [|done]. mpure.
      mstep; [done| |done]. mpure. mstep; [done| |done]. mpure. mrun. all: by simpl in *; repeat (etrans; [eassumption|]).
    + unfold updateOrganization, pushSpec, m_send. mrun. all: by simpl in *; repeat (etrans; [eassumption|]).
  - intros h s [e'|[]] Hs; [done|]. mpure. rewrite Hs. mrun. unfold refreshOrganization. mrun.
Qed.

Variables (l : string → list OrgMemberInfo).
#[local] Notation after id h := (roster_after id (l id) h).
#[local] Notation R := (org_cooperates l).

(** No other organization than [id] changes between two histories. *)
Definition rosters_kept (id : string) (h h' : khist) : Prop := ∀ id', id' ≠ id → after id' h' = after id' h.

Lemma rosters_kept_trans id h1 h2 h3 : rosters_kept id h1 h2 → rosters_kept id h2 h3 → rosters_kept id h1 h3.
Proof. intros H12 H23 id' Hne. by rewrite H23, H12. Qed.
Lemma rosters_kept_step id h h' e :
  rosters_kept id h h' → (∀ id' s, id' ≠ id → roster_step id' s e = s) → rosters_kept id h (h' ++ [e]).
Proof. intros Hk He id' Hne. rewrite roster_after_snoc, He by done. by apply Hk. Qed.

Lemma addOrgMembers_converges cl id members s h (Q : khist → LiteLLMOrganization → option error + unit → Prop) :
  after id h = MkRoster (l id) [] →
  (∀ h', after id h' = MkRoster (l id) (missing (l id) members) → rosters_kept id h h' → Q h' s (inr tt)) →
  wpM no_guarantee R (for_each members (addOrgMember cl id (actualRoles (l id)))) s h Q.
Proof.
  intros Hh HQ.
  apply (wpM_for_each _ _ (λ rest h' s', s' = s ∧ rosters_kept id h h' ∧
    ∃ added, after id h' = MkRoster (l id) added ∧ missing (l id) members = added ++ missing (l id) rest)).
  - split_and!; [done..|]. by exists [].
  - intros m rest h' ? (-> & Hk & added & Hh' & Hm). unfold addOrgMember, missing in *. rewrite filter_cons in Hm. mstep.
    + do 2 mstep; [done|]. mstep. assert (x = None) as -> by done. split_and!; [done| |].
      { apply rosters_kept_step; [done|]. intros id' s0 Hne. unfold roster_step. cbn [ev_op ev_ans omar_OrganizationID]. by rewrite decide_False. }
      rewrite roster_after_snoc, Hh'. unfold roster_step. simpl. rewrite decide_True by done.
      rewrite bool_decide_eq_true, actualRoles_None in H1. rewrite decide_True in Hm by done.
      eexists. split; [reflexivity|]. by rewrite Hm, <-app_assoc.
    + rewrite bool_decide_eq_false, actualRoles_None in H1. rewrite decide_False in Hm by done.
      split_and!; [done..|]. by exists added.
  - intros h' ? (-> & Hk & added & Hh' & Hm). apply HQ; [|done]. rewrite Hm, Hh'. unfold missing. by rewrite app_nil_r.
Qed.

Lemma deleteOrgMembers_converges cl id members added s h (Q : khist → LiteLLMOrganization → option error + unit → Prop) :
  NoDup (omi_UserID <$> l id) →
  after id h = MkRoster (l id) added →
  (∀ h', after id h' = MkRoster (kept members (l id)) added → rosters_kept id h h' → Q h' s (inr tt)) →
  wpM no_guarantee R (for_each (l id) (deleteOrgMember cl id (desiredRoles members))) s h Q.
Proof.
  intros Hnd Hh HQ.
  apply (wpM_for_each _ _ (λ rest h' s', s' = s ∧ rosters_kept id h h' ∧
    ∃ before, l id = before ++ rest ∧ after id h' = MkRoster (kept members before ++ rest) added)).
  - split_and!; [done..|]. by exists [].
  - intros am rest h' ? (-> & Hk & before & Hl & Hh'). rewrite Hl in Hnd. unfold deleteOrgMember.
    assert (before ++ am :: rest = (before ++ [am]) ++ rest) as Hsplit by by rewrite <-app_assoc.
    mstep.
    + rewrite bool_decide_eq_true, desiredRoles_None in H1. do 2 mstep; [done|]. mstep.
      assert (x = None) as -> by done. split_and!; [done| |].
      { apply rosters_kept_step; [done|]. intros id' s0 Hne. unfold roster_step. cbn [ev_op ev_ans omar_OrganizationID]. by rewrite decide_False. }
      rewrite roster_after_snoc, Hh'. exists (before ++ [am]).
      split; [by rewrite Hl, Hsplit|]. unfold roster_step. cbn [ev_op ev_ans r_listed r_added].
      rewrite decide_True, delete_one by done.
      unfold kept. rewrite filter_app, filter_cons, decide_False by done. by rewrite app_nil_r.
    + rewrite bool_decide_eq_false, desiredRoles_None in H1. apply dec_stable in H1.
      split_and!; [done..|]. exists (before ++ [am]). split; [by rewrite Hl, Hsplit|]. rewrite Hh'. f_equal.
      unfold kept. rewrite filter_app, filter_cons, decide_True by done. by rewrite <-app_assoc.
  - intros h' ? (-> & Hk & before & Hl & Hh'). apply HQ; [|done]. rewrite Hh', Hl. by rewrite !app_nil_r.
Qed.

(** C26: when LiteLLM accepts the membership calls and lists each user of the organization
    once, one pass leaves in the organization whose identifier the status records exactly
    the members of the specification, if it has any: those listed with the role they had,
    and the others with the role it asks for; every other organization is left as it was.
    A specification without members changes none, when the API server answers a write with
    the members it was sent. *)
Theorem reconcileOrgMembers_converges cl org t org' err :
  let id := ost_LiteLLMOrganizationID (Status org) in
  NoDup (omi_UserID <$> l id) →
  runs (run_M (reconcileOrgMembers cl) org) t (org', err) →
  respects R [] t →
  let members := os_Members (Spec org) in
  err = None ∧
  (∀ oid, after oid t =
     if decide (oid = id) then MkRoster (kept members (l id)) (missing (l id) members) else MkRoster (l oid) []) ∧
  (∀ email, email ∈ (omi_Email <$> r_listed (after id t)) ++ (omr_UserEmail <$> r_added (after id t)) ↔
     email ∈ om_Email <$> members) ∧
  ∀ ri t, members = [] → partial (run_M (reconcileOrganization ri) org) t → respects keeps_members [] t →
    Forall (λ e : event K, org_membership_call (ev_op e) = false) t.
Proof.
  intros id Hnd Hr Hresp members.
  apply (wp_runs no_guarantee R _ [] (λ h p, p.2 = None ∧ rosters_kept id [] h ∧
    after id h = MkRoster (kept members (l id)) (missing (l id) members)) _ _) in Hr as (He & Hk & Ha).
  2:{ clear Hr Hresp. apply wp_run_M. unfold reconcileOrgMembers. mpure. mstep; [done|]. destruct H1 as (info & -> & Hl).
    mpure. subst members. rewrite Hl. cbv zeta. fold id. mpure.
    apply addOrgMembers_converges; [done|]. intros h1 E1 K1. mstep.
    apply (deleteOrgMembers_converges _ _ _ _ _ _ _ Hnd E1). intros h2 E2 K2. repeat mstep.
    split_and!; [done| |done]. eapply rosters_kept_trans; [|exact K2]. eapply rosters_kept_trans; [|exact K1]. done. }
  2:{ exact Hresp. }
  cbn [app fst snd] in He, Hk, Ha. split_and!; [done| |intros email; rewrite Ha; apply roster_emails|].
  - intros oid. case_decide as Hid; [by rewrite Hid|]. by rewrite Hk.
  - intros ri t2. apply no_members_no_calls.
Qed.
End OrganizationMembers.
