(* ===== verification/Customer.v ===== *)
(** * Customers (internal/controller/litellmcustomer_controller.go)

    A customer has no identifier of its own in LiteLLM: [status.synced] records
    that it has been created under [spec.customerId]. *)

From S2P Require Import Prelude KubeTypes InstanceTypes Types Updates World Sha256 Common Reconcile Team.
Open Scope Z_scope.

Definition customerCreateRequest (c : LiteLLMCustomer) : CustomerCreateRequest := {|
  ccr_UserID := cs_CustomerID (Spec c);
  ccr_Alias := cs_Alias (Spec c);
  ccr_MaxBudget := cs_MaxBudget (Spec c);
  ccr_BudgetDuration := cs_BudgetDuration (Spec c);
  ccr_BudgetID := cs_BudgetID (Spec c);
  ccr_TpmLimit := cs_TpmLimit (Spec c);
  ccr_RpmLimit := cs_RpmLimit (Spec c);
  ccr_AllowedModelRegion := cs_AllowedModelRegion (Spec c);
  ccr_DefaultModel := cs_DefaultModel (Spec c);
  ccr_Models := cs_Models (Spec c);
  ccr_Blocked := cs_Blocked (Spec c);
  ccr_ObjectPermission := mapObjectPermission (cs_ObjectPermission (Spec c));
  ccr_Metadata := cs_Metadata (Spec c)
|}.

Definition customerUpdateRequest (c : LiteLLMCustomer) : CustomerUpdateRequest := {|
  cur_UserID := cs_CustomerID (Spec c);
  cur_Alias := cs_Alias (Spec c);
  cur_MaxBudget := cs_MaxBudget (Spec c);
  cur_BudgetDuration := cs_BudgetDuration (Spec c);
  cur_BudgetID := cs_BudgetID (Spec c);
  cur_TpmLimit := cs_TpmLimit (Spec c);
  cur_RpmLimit := cs_RpmLimit (Spec c);
  cur_AllowedModelRegion := cs_AllowedModelRegion (Spec c);
  cur_DefaultModel := cs_DefaultModel (Spec c);
  cur_Models := cs_Models (Spec c);
  cur_Blocked := cs_Blocked (Spec c);
  cur_ObjectPermission := mapObjectPermission (cs_ObjectPermission (Spec c));
  cur_Metadata := cs_Metadata (Spec c)
|}.

(** The error of a call whose value is dropped. *)
Definition only_error {A} (r : res A error) : option error :=
  match r with Ok _ => None | Err err => Some err end.

Section Customer.
Context `{KubeLib} `{JSONMarshal LiteLLMCustomerSpec}.

#[local] Notation CustomerM := (M K LiteLLMCustomer).
#[local] Notation get := (@get K LiteLLMCustomer _).
#[local] Notation modify := (@modify K LiteLLMCustomer _).
#[local] Notation recordCreated := (@recordCreated KCustomer).
#[local] Notation pushSpec := (@pushSpec KCustomer).
#[local] Notation m_send := (@m_send KCustomer).
#[local] Notation m_api := (@m_api KCustomer _).
#[local] Notation m_event := (@m_event KCustomer _).

Definition createCustomer (apiClient : ApiClient) : CustomerM Ret_t unit :=
  customer ← get;
  _ ← try (m_api apiClient (CustomersCreate (customerCreateRequest customer)))
        (λ err, retry30 (Errorf "create customer: %w" [] (Some err)));
  recordCreated (with_cst_Synced true) "update status after create: %w" computeSpecHash ;;
  customer ← get;
  m_event EventTypeNormal EventReasonCreated "Customer %q registered with LiteLLM"
    [FStr (cs_CustomerID (Spec customer))].

Definition updateCustomer (apiClient : ApiClient) : CustomerM Ret_t unit :=
  customer ← get;
  pushSpec (computeSpecHash (Spec customer))
    (m_send apiClient (CustomersUpdate (customerUpdateRequest customer)) only_error)
    "update customer: %w" (
    customer ← get;
    m_event EventTypeNormal EventReasonUpdated "Customer %q updated in LiteLLM"
      [FStr (cs_CustomerID (Spec customer))]).

Definition refreshCustomer (apiClient : ApiClient) : CustomerM Ret_t Ret_t :=
  customer ← get;
  info ← m_api apiClient (CustomersGet (cs_CustomerID (Spec customer)));
  match info with
  | Ok info => modify (map_status (λ st,
      with_cst_Blocked (ci_Blocked info) (with_cst_CurrentSpend (ci_Spend info) st)))
  | Err _ => mret tt
  end ;;
  now ← lift (kcallp KNow);
  modify (map_status (with_cst_LastSyncTime (Some now))) ;;
  mret (RequeueIn (5 * time_Minute), None).

Definition reconcileCustomer (resolved : ResolvedInstance) : CustomerM Ret_t Ret_t :=
  let apiClient := client_of resolved in
  customer ← get;
  (if cst_Synced (Status customer) then updateCustomer apiClient else createCustomer apiClient) ;;
  refreshCustomer apiClient.

#[export] Instance LiteLLMCustomerReconciler : Reconciler KCustomer := {
  rc_kind := kindCustomer;
  rc_ref := cs_InstanceRef;
  rc_conditions := cst_Conditions;
  rc_set_conditions := with_cst_Conditions;
  rc_observed_generation := true;
  rc_enterprise := true;
  rc_display := λ c : LiteLLMCustomer, cs_CustomerID (Spec c);
  rc_delete_display := λ c : LiteLLMCustomer, cs_CustomerID (Spec c);
  rc_msg_enterprise := "Customer %q requires a LiteLLM Enterprise license";
  rc_msg_failed := "Failed to reconcile customer %q: %v";
  rc_msg_synced := "Customer synced to LiteLLM";
  rc_msg_delete_failed := "Failed to delete customer %q from LiteLLM: %v";
  rc_msg_deleted := "Customer %q deleted from LiteLLM";
  rc_msg_adopted := None;
  rc_service := SCustomers;
  rc_delete_id := λ c : LiteLLMCustomer,
    if cst_Synced (Status c) then Some (cs_CustomerID (Spec c)) else None;
  rc_body := λ resolved c, run_M (reconcileCustomer resolved) c
}.

Definition LiteLLMCustomer_handleDeletion : LiteLLMCustomer → kprog Ret_t := handleDeletion (k := KCustomer).
End Customer.

Section CustomerLaws.
Context `{KubeLib} `{JSONMarshal LiteLLMCustomerSpec}.

Lemma createCustomer_retries cl : retries (createCustomer cl).
Proof. unfold createCustomer. retries_tac. Qed.

Lemma updateCustomer_retries cl : retries (updateCustomer cl).
Proof. unfold updateCustomer. retries_tac. Qed.

#[local] Hint Resolve createCustomer_retries updateCustomer_retries : retries.

#[export] Instance LiteLLMCustomerReconciler_laws : ReconcilerLaws KCustomer.
Proof.
  split; [done|]. intros ri o t o' r. apply returns_runs.
  unfold reconcileCustomer, refreshCustomer. retries_tac.
Qed.
End CustomerLaws.
