(* ===== verification/Budget.v ===== *)
(** * Budgets (internal/controller/litellmbudget_controller.go) *)

From S2P Require Import Prelude KubeTypes InstanceTypes Types Updates World Sha256 Common Reconcile.
Open Scope Z_scope.

Definition resolveBudgetID (budget : LiteLLMBudget) : string :=
  if decide (bs_BudgetID (Spec budget) ≠ "") then bs_BudgetID (Spec budget) else Name (Meta budget).

Definition budgetRequest (budget : LiteLLMBudget) : BudgetRequest := {|
  br_BudgetID := resolveBudgetID budget;
  br_MaxBudget := bs_MaxBudget (Spec budget);
  br_SoftBudget := bs_SoftBudget (Spec budget);
  br_BudgetDuration := bs_BudgetDuration (Spec budget);
  br_TPMLimit := bs_TPMLimit (Spec budget);
  br_RPMLimit := bs_RPMLimit (Spec budget);
  br_MaxParallelRequests := bs_MaxParallelRequests (Spec budget);
  br_ModelMaxBudget := bs_ModelMaxBudget (Spec budget)
|}.

(** An update goes to the recorded identifier. *)
Definition budgetUpdateRequest (budget : LiteLLMBudget) : BudgetRequest :=
  with_br_BudgetID (bst_LiteLLMBudgetID (Status budget)) (budgetRequest budget).

Section Budget.
Context `{KubeLib} `{JSONMarshal LiteLLMBudgetSpec}.

#[local] Notation BudgetM := (M K LiteLLMBudget).
#[local] Notation get := (@get K LiteLLMBudget _).
#[local] Notation modify := (@modify K LiteLLMBudget _).
#[local] Notation recordCreated := (@recordCreated KBudget).
#[local] Notation pushSpec := (@pushSpec KBudget).
#[local] Notation m_send := (@m_send KBudget).
#[local] Notation m_api := (@m_api KBudget _).
#[local] Notation m_event := (@m_event KBudget _).

Definition createBudget (apiClient : ApiClient) : BudgetM Ret_t unit :=
  budget ← get;
  resp ← try (m_api apiClient (BudgetsCreate (budgetRequest budget)))
           (λ err, retry30 (Errorf "create budget: %w" [] (Some err)));
  let id := if decide (bresp_BudgetID resp = "") then resolveBudgetID budget else bresp_BudgetID resp in
  recordCreated (λ st, with_bst_Synced true (with_bst_LiteLLMBudgetID id st))
    "update status after create: %w" computeSpecHash ;;
  m_event EventTypeNormal EventReasonCreated "Budget registered with LiteLLM (id=%s)" [FStr id].

Definition updateBudget (apiClient : ApiClient) : BudgetM Ret_t unit :=
  budget ← get;
  pushSpec (computeSpecHash (Spec budget))
    (m_send apiClient (BudgetsUpdate (budgetUpdateRequest budget)) id) "update budget: %w" (
    modify (map_status (with_bst_Synced true)) ;;
    budget ← get;
    m_event EventTypeNormal EventReasonUpdated "Budget %q updated in LiteLLM"
      [FStr (bst_LiteLLMBudgetID (Status budget))]).

Definition refreshBudget (apiClient : ApiClient) : BudgetM Ret_t Ret_t :=
  budget ← get;
  info ← m_api apiClient (BudgetsGet (bst_LiteLLMBudgetID (Status budget)));
  match info with
  | Ok (Some info) => modify (map_status (with_bst_CurrentSpend (bi_Spend info)))
  | _ => mret tt
  end ;;
  now ← lift (kcallp KNow);
  modify (map_status (with_bst_LastSyncTime (Some now))) ;;
  mret (RequeueIn (5 * time_Minute), None).

Definition reconcileBudget (resolved : ResolvedInstance) : BudgetM Ret_t Ret_t :=
  let apiClient := client_of resolved in
  budget ← get;
  (if decide (bst_LiteLLMBudgetID (Status budget) = "")
   then createBudget apiClient
   else updateBudget apiClient) ;;
  refreshBudget apiClient.

#[export] Instance LiteLLMBudgetReconciler : Reconciler KBudget := {
  rc_kind := kindBudget;
  rc_ref := bs_InstanceRef;
  rc_conditions := bst_Conditions;
  rc_set_conditions := with_bst_Conditions;
  rc_observed_generation := true;
  rc_enterprise := false;
  rc_display := λ budget : LiteLLMBudget, Name (Meta budget);
  rc_delete_display := λ budget : LiteLLMBudget, bst_LiteLLMBudgetID (Status budget);
  rc_msg_enterprise := "";
  rc_msg_failed := "Failed to reconcile budget %q: %v";
  rc_msg_synced := "Budget synced to LiteLLM";
  rc_msg_delete_failed := "Failed to delete budget %q from LiteLLM: %v";
  rc_msg_deleted := "Budget %q deleted from LiteLLM";
  rc_msg_adopted := None;
  rc_service := SBudgets;
  rc_delete_id := λ budget : LiteLLMBudget,
    if decide (bst_LiteLLMBudgetID (Status budget) = "") then None
    else Some (bst_LiteLLMBudgetID (Status budget));
  rc_body := λ resolved budget, run_M (reconcileBudget resolved) budget
}.

Definition LiteLLMBudget_handleDeletion : LiteLLMBudget → kprog Ret_t := handleDeletion (k := KBudget).
End Budget.

Section BudgetLaws.
Context `{KubeLib} `{JSONMarshal LiteLLMBudgetSpec}.

Lemma createBudget_retries cl : retries (createBudget cl).
Proof. unfold createBudget. retries_tac. Qed.

Lemma updateBudget_retries cl : retries (updateBudget cl).
Proof. unfold updateBudget. retries_tac. Qed.

#[local] Hint Resolve createBudget_retries updateBudget_retries : retries.

#[export] Instance LiteLLMBudgetReconciler_laws : ReconcilerLaws KBudget.
Proof.
  split; [done|]. intros ri o t o' r. apply returns_runs.
  unfold reconcileBudget, refreshBudget. retries_tac.
Qed.
End BudgetLaws.
