(* ===== verification/Bodies.v ===== *)
(** * The bodies of the organization, customer and budget controllers

    The three have one shape: create the object when none is recorded, or push the spec when
    its hash is not the recorded one; then read the object back. *)

From S2P Require Import Prelude KubeTypes InstanceTypes Types Updates World Sha256 Common Reconcile Team Organization Customer Budget.
Open Scope Z_scope.

(** What is recorded of an object before its body runs, and what the body may send. *)
Record plan (k : Kind) := MkPlan {
  p_bound : bool (* the object has been created *);
  p_create : api_req;
  p_update : api_req;
  p_accepts : ∀ r, api_ans r → bool (* LiteLLM took the request *);
  p_stored : api_ans p_create → StatusOf k → Prop (* the status records the answer *);
  p_other : api_req → bool (* reads and membership *)
}.
Arguments p_bound {k}. Arguments p_create {k}. Arguments p_update {k}. Arguments p_accepts {k}.
Arguments p_stored {k}. Arguments p_other {k}.

(** The calls of a body from [o0]: one request that changes the object, the first call of the
    pass, and only the one that is due; the status after a creation carries what LiteLLM
    answered; a hash is recorded for the spec that LiteLLM took. *)
Definition body_ok {k : Kind} (hash : SpecOf k → string) (p : plan k) (cl : ApiClient) (o0 : obj k) (h : khist) (c : kcall) : Prop :=
  match c with
  | KApi cl' r =>
      cl' = cl ∧
      (p_other p r = true ∨
       h = [] ∧ if p_bound p then r = p_update p ∧ annotation AnnotationSyncHash o0 ≠ hash (Spec o0) else r = p_create p)
  | KStatusUpdate k' _ =>
      k' = k ∧ p_bound p = false ∧
      ∃ x o, c = KStatusUpdate k o ∧ h = [KEv (KApi cl (p_create p)) x] ∧ p_accepts p (p_create p) x = true ∧
             p_stored p x (Status o) ∧ Spec o = Spec o0
  | KUpdate k' _ =>
      k' = k ∧ ∃ o, c = KUpdate k (annotate AnnotationSyncHash (hash (Spec o)) o) ∧
        if p_bound p then o = o0 ∧ ∃ x, KEv (KApi cl (p_update p)) x ∈ h ∧ p_accepts p (p_update p) x = true
        else ∃ o1, KEv (KStatusUpdate k o1) (Ok o) ∈ h
  | c => benign c = true
  end.

(** The converse: what a complete execution [t] of the body starts with.  When the object is
    bound and its hash is not the recorded one, the update and, if LiteLLM took it, the
    record of the hash; when it is not bound, the creation, then, if LiteLLM took it, the
    status with its answer and, if the API server took that, the hash of what it stored. *)
Definition body_due {k : Kind} (hash : SpecOf k → string) (p : plan k) (cl : ApiClient) (o0 : obj k) (t : khist) : Prop :=
  if p_bound p then
    annotation AnnotationSyncHash o0 ≠ hash (Spec o0) →
    ∃ x t1, t = KEv (KApi cl (p_update p)) x :: t1 ∧
      (p_accepts p (p_update p) x = true →
       ∃ y t2, t1 = KEv (KUpdate k (annotate AnnotationSyncHash (hash (Spec o0)) o0)) y :: t2)
  else
    ∃ x t1, t = KEv (KApi cl (p_create p)) x :: t1 ∧
      (p_accepts p (p_create p) x = true →
       ∃ o y t2, t1 = KEv (KStatusUpdate k o) y :: t2 ∧
         p_stored p x (Status o) ∧ Spec o = Spec o0 ∧ Meta o = Meta o0 ∧
         ∀ o', y = Ok o' → ∃ z t3, t2 = KEv (KUpdate k (annotate AnnotationSyncHash (hash (Spec o')) o')) z :: t3).

Definition took_error (x : option error) : bool := match x with None => true | Some _ => false end.

(** ** The three plans *)

Definition org_plan (org : LiteLLMOrganization) : plan KOrganization := {|
  p_bound := bool_decide (ost_LiteLLMOrganizationID (Status org) ≠ "");
  p_create := OrganizationsCreate (orgCreateRequest org);
  p_update := OrganizationsUpdate (orgUpdateRequest org);
  p_accepts := λ r, match r return api_ans r → bool with
                    | OrganizationsCreate _ => is_Ok | OrganizationsUpdate _ => took_error | _ => λ _, false end;
  p_stored := λ (x : res OrganizationCreateResponse error) (st : StatusOf KOrganization),
    ∃ resp, x = Ok resp ∧ ost_LiteLLMOrganizationID st = ocresp_OrganizationID resp ∧ ost_Synced st = true;
  p_other := λ r, match r with
                  | OrganizationsGet _ | OrganizationsAddMember _ | OrganizationsDeleteMember _ _ => true | _ => false end
|}.

Definition customer_plan (customer : LiteLLMCustomer) : plan KCustomer := {|
  p_bound := cst_Synced (Status customer);
  p_create := CustomersCreate (customerCreateRequest customer);
  p_update := CustomersUpdate (customerUpdateRequest customer);
  p_accepts := λ r, match r return api_ans r → bool with
                    | CustomersCreate _ => is_Ok | CustomersUpdate _ => is_Ok | _ => λ _, false end;
  p_stored := λ (x : res CustomerInfo error) (st : StatusOf KCustomer), cst_Synced st = true;
  p_other := λ r, match r with CustomersGet _ => true | _ => false end
|}.

Definition budget_plan (budget : LiteLLMBudget) : plan KBudget := {|
  p_bound := bool_decide (bst_LiteLLMBudgetID (Status budget) ≠ "");
  p_create := BudgetsCreate (budgetRequest budget);
  p_update := BudgetsUpdate (budgetUpdateRequest budget);
  p_accepts := λ r, match r return api_ans r → bool with
                    | BudgetsCreate _ => is_Ok | BudgetsUpdate _ => took_error | _ => λ _, false end;
  p_stored := λ (x : res BudgetResponse error) (st : StatusOf KBudget),
    ∃ resp, x = Ok resp ∧ bst_Synced st = true ∧
      bst_LiteLLMBudgetID st = (if decide (bresp_BudgetID resp = "") then resolveBudgetID budget else bresp_BudgetID resp);
  p_other := λ r, match r with BudgetsGet _ => true | _ => false end
|}.

(** ** The two shared sequences *)

(** A property of a history that its extensions keep holds at the end of any program. *)
Lemma wpM_grown {St Rt A} (P : khist → Prop) (m : M K St Rt A) s h (Q : khist → St → Rt + A → Prop) :
  (∀ h t, P h → P (h ++ t)) → P h → (∀ h' s' r, P h' → Q h' s' r) → wpM no_guarantee any_answer m s h Q.
Proof.
  intros Happ HP HQ. unfold wpM. eapply wp_mono; [by apply wp_evidence|].
  intros h' [s' r] (t & -> & _). by apply HQ, Happ.
Qed.

Section Shared.
Context {k : Kind} (hash : SpecOf k → string) (p : plan k) (cl : ApiClient) (o0 : obj k).
#[local] Notation G := (body_ok hash p cl o0).

Lemma body_ok_create h : p_bound p = false → h = [] → G h (KApi cl (p_create p)).
Proof. intros Hb ->. split; [done|]. right. by rewrite Hb. Qed.

Lemma body_ok_other h r : p_other p r = true → G h (KApi cl r).
Proof. intros Hr. split; [done|by left]. Qed.

Lemma recordCreated_body set msg x s h (Q : khist → obj k → Ret_t + unit → Prop) :
  p_bound p = false → h = [KEv (KApi cl (p_create p)) x] → s = o0 →
  p_accepts p (p_create p) x = true → p_stored p x (set (Status o0)) →
  (∀ h' s' r, Q h' s' r) →
  wpM G any_answer (recordCreated set msg hash) s h Q.
Proof.
  intros Hb -> -> Hx Hset HQ. unfold recordCreated. mpure. mstep; [| |done].
  { split; [done|]. split; [done|]. exists x, (map_status set o0). by split_and!. }
  mpure. mstep; [|done..]. split; [done|]. exists o'. split; [done|]. rewrite Hb.
  exists (map_status set o0). apply elem_of_app. right. by apply list_elem_of_singleton.
Qed.

Lemma pushSpec_body (answer : api_ans (p_update p) → option error) msg after (Q : khist → obj k → Ret_t + unit → Prop) :
  p_bound p = true → (∀ x, answer x = None → p_accepts p (p_update p) x = true) →
  (∀ s h, wpM G any_answer after s h Q) → (∀ h' s' r, Q h' s' r) →
  wpM G any_answer (pushSpec (hash (Spec o0)) (m_send cl (p_update p) answer) msg after) o0 [] Q.
Proof.
  intros Hb Hacc Hafter HQ. unfold pushSpec, m_send. mpure. mstep; [|done]. mpure.
  apply bool_decide_eq_true in H. mstep.
  { split; [done|]. right. split; [done|]. by rewrite Hb. }
  mpure. destruct (answer x) eqn:Hans; [done|]. mpure. mstep; [| |done].
  - split; [done|]. exists o0. split; [done|]. rewrite Hb. split; [done|]. exists x. split; [|by apply Hacc].
    by apply list_elem_of_singleton.
  - mpure. apply Hafter.
Qed.

#[local] Notation due := (body_due hash p cl o0).

Lemma body_due_app t t' : due t → due (t ++ t').
Proof.
  unfold body_due. destruct (p_bound p).
  - intros Hd Hh. destruct (Hd Hh) as (x & t1 & -> & Hx). exists x, (t1 ++ t'). split; [done|]. intros Ha.
    destruct (Hx Ha) as (y & t2 & ->). by exists y, (t2 ++ t').
  - intros (x & t1 & -> & Hx). exists x, (t1 ++ t'). split; [done|]. intros Ha.
    destruct (Hx Ha) as (o & y & t2 & -> & ? & ? & ? & Hy). exists o, y, (t2 ++ t'). split_and!; [done..|].
    intros o' Ho'. destruct (Hy o' Ho') as (z & t3 & ->). by exists z, (t3 ++ t').
Qed.

Lemma due_then {Rt A} (m : M K (obj k) Rt A) s h (Q : khist → obj k → Rt + A → Prop) :
  due h → (∀ h' s' r, due h' → Q h' s' r) → wpM no_guarantee any_answer m s h Q.
Proof. apply wpM_grown. apply body_due_app. Qed.

(** A refused creation. *)
Lemma due_refused x : p_bound p = false → p_accepts p (p_create p) x = false → due [KEv (KApi cl (p_create p)) x].
Proof. intros Hb Hx. unfold body_due. rewrite Hb. exists x, []. split; [done|]. by rewrite Hx. Qed.

Lemma recordCreated_due set msg x s h (Q : khist → obj k → Ret_t + unit → Prop) :
  p_bound p = false → h = [KEv (KApi cl (p_create p)) x] → s = o0 → p_stored p x (set (Status o0)) →
  (∀ h' s' r, due h' → Q h' s' r) →
  wpM no_guarantee any_answer (recordCreated set msg hash) s h Q.
Proof.
  intros Hb -> -> Hset HQ. unfold recordCreated. mpure. mstep; [done| |].
  - mpure. mstep; [done| |]; mpure; apply HQ; unfold body_due; rewrite Hb; exists x; eexists; (split; [done|]);
      intros _; exists (map_status set o0); do 2 eexists; (split_and!; [done..|]); intros ? [= <-]; by do 2 eexists.
  - mpure. apply HQ. unfold body_due. rewrite Hb. exists x. eexists. split; [done|]. intros _.
    exists (map_status set o0). do 2 eexists. by split_and!.
Qed.

Lemma pushSpec_due (answer : api_ans (p_update p) → option error) msg after (Q : khist → obj k → Ret_t + unit → Prop) :
  p_bound p = true → (∀ x, answer x ≠ None → p_accepts p (p_update p) x = false) →
  (∀ h' s' r, due h' → Q h' s' r) →
  wpM no_guarantee any_answer (pushSpec (hash (Spec o0)) (m_send cl (p_update p) answer) msg after) o0 [] Q.
Proof.
  intros Hb Hacc HQ. unfold pushSpec, m_send. mpure. mstep.
  2: { apply bool_decide_eq_false in H. apply HQ. unfold body_due. by rewrite Hb. }
  mpure. mstep; [done|]. mpure. destruct (answer x) as [e|] eqn:Hans.
  - mpure. apply HQ. unfold body_due. rewrite Hb. intros _. exists x, []. split; [done|]. by rewrite Hacc by congruence.
  - mpure. assert (∀ y, due ([KEv (KApi cl (p_update p)) x] ++
      [KEv (KUpdate k (annotate AnnotationSyncHash (hash (Spec o0)) o0)) y])) as Hdue.
    { intros y. unfold body_due. rewrite Hb. intros _. exists x. eexists. split; [done|]. intros _. by do 2 eexists. }
    mstep; [done| |]; mpure; [|by apply HQ]. by apply due_then.
Qed.
End Shared.

Section Bodies.
Context `{KubeLib} `{JSONMarshal LiteLLMOrganizationSpec} `{JSONMarshal LiteLLMCustomerSpec} `{JSONMarshal LiteLLMBudgetSpec}.

Lemma not_bound (id : string) : id = "" → bool_decide (id ≠ "") = false.
Proof. by intros ->. Qed.

Lemma bound (id : string) : id ≠ "" → bool_decide (id ≠ "") = true.
Proof. by intros; apply bool_decide_eq_true. Qed.

Lemma org_members_body cl org s h (Q : khist → LiteLLMOrganization → Ret_t + option error → Prop) :
  (∀ h' s' r, Q h' s' r) →
  wpM (body_ok computeSpecHash (org_plan org) cl org) any_answer (call_fn (reconcileOrgMembers cl)) s h Q.
Proof.
  intros HQ. mstep. unfold reconcileOrgMembers. mpure. mstep; [by apply body_ok_other|]. destruct x as [info|]; [|done].
  mpure. cbv zeta. mpure. apply (wpM_for_each _ _ (λ _ _ _, True)); [done| |].
  { intros m l' h' s' _. unfold addOrgMember. mstep; [|done]. mpure. mstep; [by apply body_ok_other|]. by mpure. }
  intros h1 s1 _. mpure. apply (wpM_for_each _ _ (λ _ _ _, True)); [done| |].
  { intros m l' h' s' _. unfold deleteOrgMember. mstep; [|done]. mpure. mstep; [by apply body_ok_other|]. by mpure. }
  intros h2 s2 _. by mpure.
Qed.

Lemma org_body ri org :
  kalways (body_ok computeSpecHash (org_plan org) (client_of ri) org) (run_M (reconcileOrganization ri) org).
Proof.
  apply (wp_always _ _ (λ _ _, True)), wp_run_M. unfold reconcileOrganization. cbv zeta. mpure.
  eapply (wpM_mono _ _ _ _ _ (λ _ _ _, True)).
  - case_decide as Hid.
    + unfold createOrganization. mpure. mstep; [by apply (body_ok_create _ (org_plan org)); [apply not_bound|]|].
      destruct x as [resp|]; [|done]. mpure.
      apply (recordCreated_body _ (org_plan org)) with (x := Ok resp); [by apply not_bound|done|done|done|by exists resp|].
      intros h' s' [|[]]; [done|mrun].
    + apply (pushSpec_body _ (org_plan org) _ org id); [by apply bound|by intros [|]| |done]. intros s h. mrun.
  - intros h s [|[]] _; [done|]. mpure. mstep.
    + mstep. apply org_members_body. intros h' s' [|[|]]; [done..|]. unfold refreshOrganization. mpure.
      mstep; [by apply body_ok_other|]. mrun.
    + unfold refreshOrganization. mpure. mstep; [by apply body_ok_other|]. mrun.
Qed.

Lemma customer_body ri customer :
  kalways (body_ok computeSpecHash (customer_plan customer) (client_of ri) customer) (run_M (reconcileCustomer ri) customer).
Proof.
  apply (wp_always _ _ (λ _ _, True)), wp_run_M. unfold reconcileCustomer. cbv zeta. mpure.
  eapply (wpM_mono _ _ _ _ _ (λ _ _ _, True)).
  - case_match eqn:Hsynced.
    + apply (pushSpec_body _ (customer_plan customer) _ customer only_error); [done|by intros [|]| |done]. intros s h. mrun.
    + unfold createCustomer. mpure. mstep; [by apply (body_ok_create _ (customer_plan customer))|].
      destruct x as [info|]; [|done]. mpure.
      apply (recordCreated_body _ (customer_plan customer)) with (x := Ok info); [done..|].
      intros h' s' [|[]]; [done|mrun].
  - intros h s [|[]] _; [done|]. unfold refreshCustomer. mpure. mstep; [by apply body_ok_other|]. mrun.
Qed.

Lemma budget_body ri budget :
  kalways (body_ok computeSpecHash (budget_plan budget) (client_of ri) budget) (run_M (reconcileBudget ri) budget).
Proof.
  apply (wp_always _ _ (λ _ _, True)), wp_run_M. unfold reconcileBudget. cbv zeta. mpure.
  eapply (wpM_mono _ _ _ _ _ (λ _ _ _, True)).
  - case_decide as Hid.
    + unfold createBudget. mpure. mstep; [by apply (body_ok_create _ (budget_plan budget)); [apply not_bound|]|].
      destruct x as [resp|]; [|done]. mpure.
      apply (recordCreated_body _ (budget_plan budget)) with (x := Ok resp); [by apply not_bound|done|done|done|by exists resp|].
      intros h' s' [|[]]; [done|mrun].
    + apply (pushSpec_body _ (budget_plan budget) _ budget id); [by apply bound|by intros [|]| |done]. intros s h. mrun.
  - intros h s [|[]] _; [done|]. unfold refreshBudget. mpure. mstep; [by apply body_ok_other|]. mrun.
Qed.

(** Every complete execution starts with what is due. *)
Lemma due_body {k : Kind} hash (p : plan k) cl o0 (m : M K (obj k) Ret_t Ret_t) t out :
  wpM no_guarantee any_answer m o0 [] (λ h _ _, body_due hash p cl o0 h) → runs (run_M m o0) t out → body_due hash p cl o0 t.
Proof. intros Hm Hr. eapply (kruns_post _ _ _ (λ h _, body_due hash p cl o0 h)); [|exact Hr]. by apply wp_run_M. Qed.

Lemma org_due ri org t out :
  runs (run_M (reconcileOrganization ri) org) t out → body_due computeSpecHash (org_plan org) (client_of ri) org t.
Proof.
  apply due_body. unfold reconcileOrganization. cbv zeta. mpure.
  eapply (wpM_mono _ _ _ _ _ (λ h _ _, body_due computeSpecHash (org_plan org) (client_of ri) org h)).
  - case_decide as Hid.
    + unfold createOrganization. mpure. mstep; [done|]. destruct x as [resp|].
      2: { mpure. eapply (due_refused _ (org_plan org)); [by apply not_bound|done]. }
      mpure. eapply (recordCreated_due _ (org_plan org) _ _ _ _ (Ok resp)); [by apply not_bound|done|done|by exists resp|].
      intros h' s' [|[]] Hd; [done|]. by eapply due_then.
    + by apply (pushSpec_due _ (org_plan org) _ org id); [apply bound|intros [|]|].
  - intros h s [|[]] Hd; [done|]. by eapply due_then.
Qed.

Lemma customer_due ri customer t out :
  runs (run_M (reconcileCustomer ri) customer) t out →
  body_due computeSpecHash (customer_plan customer) (client_of ri) customer t.
Proof.
  apply due_body. unfold reconcileCustomer. cbv zeta. mpure.
  eapply (wpM_mono _ _ _ _ _ (λ h _ _, body_due computeSpecHash (customer_plan customer) (client_of ri) customer h)).
  - case_match eqn:Hsynced.
    + by apply (pushSpec_due _ (customer_plan customer) _ customer only_error); [|intros [|]|].
    + unfold createCustomer. mpure. mstep; [done|]. destruct x as [info|].
      2: { mpure. by eapply (due_refused _ (customer_plan customer)). }
      mpure. eapply (recordCreated_due _ (customer_plan customer) _ _ _ _ (Ok info)); [done..|].
      intros h' s' [|[]] Hd; [done|]. by eapply due_then.
  - intros h s [|[]] Hd; [done|]. by eapply due_then.
Qed.

Lemma budget_due ri budget t out :
  runs (run_M (reconcileBudget ri) budget) t out →
  body_due computeSpecHash (budget_plan budget) (client_of ri) budget t.
Proof.
  apply due_body. unfold reconcileBudget. cbv zeta. mpure.
  eapply (wpM_mono _ _ _ _ _ (λ h _ _, body_due computeSpecHash (budget_plan budget) (client_of ri) budget h)).
  - case_decide as Hid.
    + unfold createBudget. mpure. mstep; [done|]. destruct x as [resp|].
      2: { mpure. eapply (due_refused _ (budget_plan budget)); [by apply not_bound|done]. }
      mpure. eapply (recordCreated_due _ (budget_plan budget) _ _ _ _ (Ok resp)); [by apply not_bound|done|done|by exists resp|].
      intros h' s' [|[]] Hd; [done|]. by eapply due_then.
    + by apply (pushSpec_due _ (budget_plan budget) _ budget id); [apply bound|intros [|]|].
  - intros h s [|[]] Hd; [done|]. by eapply due_then.
Qed.

(** C14: the bodies of the organization, customer and budget controllers send exactly the
    request that is due, before any other call: the creation when the object is not recorded
    as created, the update when it is and the hash of its spec is not the recorded one, and
    no other request that changes it.  When LiteLLM takes the creation, the status with its
    answer is written next, and then, if the API server takes that, the hash of the spec it
    stored; when LiteLLM takes the update, the hash of the spec pushed.  Every execution makes
    these calls and no others, but reads, events and, for an organization, membership calls. *)
Theorem bodies_calls ri :
  (∀ org, let p := org_plan org in
     kalways (body_ok computeSpecHash p (client_of ri) org) (run_M (reconcileOrganization ri) org) ∧
     ∀ t out, runs (run_M (reconcileOrganization ri) org) t out → body_due computeSpecHash p (client_of ri) org t) ∧
  (∀ customer, let p := customer_plan customer in
     kalways (body_ok computeSpecHash p (client_of ri) customer) (run_M (reconcileCustomer ri) customer) ∧
     ∀ t out, runs (run_M (reconcileCustomer ri) customer) t out → body_due computeSpecHash p (client_of ri) customer t) ∧
  (∀ budget, let p := budget_plan budget in
     kalways (body_ok computeSpecHash p (client_of ri) budget) (run_M (reconcileBudget ri) budget) ∧
     ∀ t out, runs (run_M (reconcileBudget ri) budget) t out → body_due computeSpecHash p (client_of ri) budget t).
Proof.
  split_and!; intros; (split; [|intros t out]).
  all: first [apply org_body|apply customer_body|apply budget_body|apply org_due|apply customer_due|apply budget_due].
Qed.
End Bodies.
