(* ===== verification/Credential.v ===== *)
(** * Credentials (internal/controller/litellmcredential_controller.go)

    A credential is pushed to LiteLLM's database; the annotation
    [AnnotationSyncHash] is the only mark that it has been. *)

From S2P Require Import Prelude KubeTypes InstanceTypes Types Updates World Sha256 Common Reconcile.
Open Scope Z_scope.

(** What is hashed. *)
Record CredentialSyncInput := MkCredentialSyncInput {
  csi_Spec : LiteLLMCredentialSpec;
  csi_APIKey : string;
  csi_Payload : CredentialPayload
}.

Inductive credentialAction := actionNoop | actionCreate | actionUpdate.

Definition planAction (cred : LiteLLMCredential) (currentHash : string) : credentialAction :=
  if decide (annotation AnnotationSyncHash cred = "") then actionCreate
  else if decide (annotation AnnotationSyncHash cred ≠ currentHash) then actionUpdate
  else actionNoop.

Definition isCredentialConflict (err : error) : bool :=
  match IsAPIError err with
  | None => false
  | Some apiErr =>
      (StatusCode apiErr =? 400) || (StatusCode apiErr =? 409) ||
      let msg := strings_ToLower (Message apiErr) in
      strings_Contains msg "unique constraint" || strings_Contains msg "already exists"
  end.

Definition errSecretKeyMissing : string := "key not found in Secret".

(** [DecodeJSONParams] (api/v1alpha1/common_types.go). *)
Definition DecodeJSONParams `{JSONUnmarshal} (m : gmap string string) : gmap string JSONValue :=
  omap (λ raw, if decide (raw = "") then None
               else match json_Unmarshal raw with Ok v => Some v | Err _ => None end) m.

(** The values the operator sets itself. *)
Definition ownValues (cred : LiteLLMCredential) (apiKey : string) : gmap string JSONValue :=
  let set k v (m : gmap string JSONValue) := if decide (v ≠ "") then <[k := JString v]> m else m in
  set "api_version" (crs_APIVersion (Spec cred))
    (set "api_base" (crs_APIBase (Spec cred)) {[ "api_key" := JString apiKey ]}).

Definition buildCredentialPayload `{JSONUnmarshal} (cred : LiteLLMCredential) (apiKey : string) :
    CredentialPayload :=
  MkCredentialPayload (crs_CredentialName (Spec cred))
    (ownValues cred apiKey ∪ DecodeJSONParams (crs_Params (Spec cred)))
    {[ "managed_by" := JString "litellm-operator" ]}.

Definition countReferences (cred : LiteLLMCredential) (models : list LiteLLMModel) : Z :=
  Z.of_nat (length (filter (λ m : LiteLLMModel,
    match lmp_CredentialRef (ms_LiteLLMParams (Spec m)) with
    | Some ref => bool_decide (cr_Name ref = Name (Meta cred))
    | None => false
    end = true) models)).

Section Credential.
Context `{KubeLib} `{JSONMarshal CredentialSyncInput} `{JSONUnmarshal}.

#[local] Notation CredM := (M K LiteLLMCredential Ret_t).
#[local] Notation get := (@get K LiteLLMCredential _).
#[local] Notation modify := (@modify K LiteLLMCredential _).
#[local] Notation update_obj := (@update_obj KCredential _).
#[local] Notation status_update_obj := (@status_update_obj KCredential _).
#[local] Notation m_api := (@m_api KCredential _).
#[local] Notation m_event := (@m_event KCredential _).

Definition fetchAPIKey (cred : LiteLLMCredential) : kprog (res string error) :=
  let ref := crs_APIKeySecretRef (Spec cred) in
  secret ← kcallp (KGetSecret (Namespace (Meta cred)) (skr_Name ref));
  match secret with
  | Err err => mret (Err (Errorf "get Secret %q: %w" [FStr (skr_Name ref)] (Some err)))
  | Ok secret =>
      match sec_Data secret !! skr_Key ref with
      | None => mret (Err (Errorf "secret %q: %w: %s" [FStr (skr_Name ref); FStr (skr_Key ref)]
                             (Some (ErrSentinel errSecretKeyMissing))))
      | Some val => mret (Ok val)
      end
  end.

Definition setStatus (configured : bool) (reason : string) (msg : text) : CredM unit :=
  now ← lift (kcallp KNow);
  modify (λ cred, map_status (λ st,
    with_crst_Conditions (SetStatusCondition (crst_Conditions st)
      (MkCondition ConditionReady (if configured then ConditionTrue else ConditionFalse) reason msg
         (Generation (Meta cred))))
      (with_crst_LastSyncTime (Some now) (with_crst_Configured configured st))) cred) ;;
  _ ← status_update_obj;
  mret tt.

Definition reportAPIError (op : string) (err : error) : CredM unit :=
  cred ← get;
  m_event EventTypeWarning EventReasonReconcileFailed "Credential %q %s: %v"
    [FStr (crs_CredentialName (Spec cred)); FStr op; FErr err] ;;
  setStatus false "APIError" (Sprintf "%s: %v" [FStr op; FErr err]) ;;
  match IsAPIError err with
  | Some apiErr =>
      if IsTransient apiErr then exit (RequeueIn (30 * time_Second), None)
      else exit (RequeueIn (5 * time_Minute), None)
  | None => exit (RequeueIn (30 * time_Second), None)
  end.

Definition createCredential (apiClient : ApiClient) (payload : CredentialPayload) : CredM unit :=
  r ← m_api apiClient (CredentialsCreate payload);
  match r with
  | None => mret tt
  | Some err =>
      if isCredentialConflict err then
        u ← m_api apiClient (CredentialsUpdate payload);
        match u with
        | Some uerr => reportAPIError "create credential (fallback to update)" uerr
        | None => mret tt
        end
      else reportAPIError "create credential" err
  end ;;
  cred ← get;
  m_event EventTypeNormal EventReasonCreated "Credential %q registered with LiteLLM"
    [FStr (crs_CredentialName (Spec cred))].

Definition updateCredential (apiClient : ApiClient) (payload : CredentialPayload) : CredM unit :=
  r ← m_api apiClient (CredentialsUpdate payload);
  match r with
  | None => mret tt
  | Some err =>
      let gone := match IsAPIError err with Some apiErr => IsNotFound apiErr | None => false end in
      if gone then
        c ← m_api apiClient (CredentialsCreate payload);
        match c with
        | Some cerr => reportAPIError "recreate credential after 404" cerr
        | None => mret tt
        end
      else reportAPIError "update credential" err
  end ;;
  cred ← get;
  m_event EventTypeNormal EventReasonUpdated "Credential %q updated in LiteLLM"
    [FStr (crs_CredentialName (Spec cred))].

Definition pushCredential (apiClient : ApiClient) (payload : CredentialPayload) (currentHash : string) :
    CredM unit :=
  cred ← get;
  match planAction cred currentHash with
  | actionCreate => createCredential apiClient payload
  | actionUpdate => updateCredential apiClient payload
  | actionNoop => mret tt
  end ;;
  cred ← get;
  when (bool_decide (annotation AnnotationSyncHash cred ≠ currentHash)) (
    modify (annotate AnnotationSyncHash currentHash) ;;
    check update_obj fail0).

(** [countReferencingModels]; an error reads as 0. *)
Definition countReferencingModels (cred : LiteLLMCredential) : kprog Z :=
  models ← kcallp (KList KModel (Some (Namespace (Meta cred))));
  match models with
  | Err _ => mret 0
  | Ok models => mret (countReferences cred models)
  end.

(** [apierrors.IsNotFound(errors.Unwrap(err))]. *)
Definition unwrapsNotFound (err : error) : bool :=
  match errors_Unwrap err with Some e => apierrors_IsNotFound e | None => false end.

(** [Reconcile] once the object is fetched, alive and carries the finalizer. *)
Definition reconcileCredential : CredM Ret_t :=
  cred ← get;
  resolved ← lift (resolveInstance (Namespace (Meta cred)) kindCredential (crs_InstanceRef (Spec cred)));
  match resolved with
  | Err err =>
      let reason := if unwrapsNotFound err then "InstanceNotFound" else instanceRefFailureReason err in
      m_event EventTypeWarning EventReasonInstanceNotReady "Credential %q: %v"
        [FStr (crs_CredentialName (Spec cred)); FErr err] ;;
      setStatus false reason (err_text err) ;;
      mret (RequeueIn (30 * time_Second), None)
  | Ok resolved =>
      apiKey ← lift (fetchAPIKey cred);
      match apiKey with
      | Err err =>
          let reason := if errors_Is err errSecretKeyMissing then "SecretKeyMissing"
                        else if unwrapsNotFound err then "SecretNotFound" else "SecretFetchFailed" in
          m_event EventTypeWarning EventReasonSecretNotFound "Credential %q: %v"
            [FStr (crs_CredentialName (Spec cred)); FErr err] ;;
          setStatus false reason (err_text err) ;;
          mret (RequeueIn (30 * time_Second), None)
      | Ok apiKey =>
          let payload := buildCredentialPayload cred apiKey in
          let currentHash := computeSpecHash (MkCredentialSyncInput (Spec cred) apiKey payload) in
          pushCredential (client_of resolved) payload currentHash ;;
          cred ← get;
          refCount ← lift (countReferencingModels cred);
          modify (map_status (with_crst_ReferencedByModels refCount)) ;;
          setStatus true "Synced" (lit "Credential registered with LiteLLM") ;;
          mret (RequeueIn (5 * time_Minute), None)
      end
  end.

Definition handleCredentialDeletion (cred : LiteLLMCredential) : kprog Ret_t :=
  if ContainsFinalizer (Meta cred) FinalizerName then
    _ ← (if crst_Configured (Status cred) then
           resolved ← resolveInstanceForCleanup (Namespace (Meta cred)) (crs_InstanceRef (Spec cred));
           match resolved with
           | Ok resolved =>
               _ ← api (client_of resolved) (ApiDelete SCredentials (crs_CredentialName (Spec cred)));
               mret tt
           | Err _ => mret tt
           end
         else mret tt);
    r ← kcallp (KUpdate KCredential (set_meta (RemoveFinalizer (Meta cred) FinalizerName) cred));
    mret (Result0, match r with Ok _ => None | Err e => Some e end)
  else mret (Result0, None).

Definition ReconcileCredential (ns name : string) : kprog Ret_t :=
  r ← kcallp (KGet KCredential ns name);
  match r with
  | Err err => mret (Result0, IgnoreNotFound err)
  | Ok cred =>
      let live (cred : LiteLLMCredential) :=
        '(_, r) ← run_M reconcileCredential cred; mret r in
      match DeletionTimestamp (Meta cred) with
      | Some _ => handleCredentialDeletion cred
      | None =>
          if ContainsFinalizer (Meta cred) FinalizerName then live cred
          else
            r ← kcallp (KUpdate KCredential (set_meta (AddFinalizer (Meta cred) FinalizerName) cred));
            match r with
            | Err err => mret (Result0, Some err)
            | Ok cred' => live cred'
            end
      end
  end.

Definition findCredentialsForSecret (secret : Secret) : kprog (list (string * string)) :=
  creds ← kcallp (KList KCredential (Some (Namespace (sec_meta secret))));
  match creds with
  | Err _ => mret []
  | Ok creds =>
      mret ((λ c : LiteLLMCredential, (Namespace (Meta c), Name (Meta c))) <$>
        filter (λ c : LiteLLMCredential,
          skr_Name (crs_APIKeySecretRef (Spec c)) = Name (sec_meta secret)) creds)
  end.
End Credential.

(** ** What a pass pushes and records *)

Section CredentialCalls.
Context `{KubeLib} `{JSONMarshal CredentialSyncInput} `{JSONUnmarshal}.
Implicit Types (G : khist → kcall → Prop).

(** LiteLLM has accepted the payload. *)
Definition payload_accepted (p : CredentialPayload) (h : khist) : Prop :=
  ∃ cl, KEv (KApi cl (CredentialsCreate p)) None ∈ h ∨ KEv (KApi cl (CredentialsUpdate p)) None ∈ h.

(** A payload built from the spec and from the value just read from the Secret. *)
Definition current_payload (cred : LiteLLMCredential) (h : khist) (p : CredentialPayload) (hash : string) : Prop :=
  ∃ apiKey, secret_value h (Namespace (Meta cred)) (crs_APIKeySecretRef (Spec cred)) apiKey ∧
    p = buildCredentialPayload cred apiKey ∧
    hash = computeSpecHash (MkCredentialSyncInput (Spec cred) apiKey p).

Definition credential_call_ok (cred : LiteLLMCredential) (h : khist) (c : kcall) : Prop :=
  let recorded := annotation AnnotationSyncHash cred in
  match c with
  | KApi cl (CredentialsCreate p) => ∃ hash, current_payload cred h p hash ∧
      (recorded = "" ∨
       ∃ err apiErr, KEv (KApi cl (CredentialsUpdate p)) (Some err) ∈ h ∧
         IsAPIError err = Some apiErr ∧ StatusCode apiErr = 404)
  | KApi cl (CredentialsUpdate p) => ∃ hash, current_payload cred h p hash ∧
      (recorded ≠ "" ∧ recorded ≠ hash ∨
       ∃ err, KEv (KApi cl (CredentialsCreate p)) (Some err) ∈ h ∧ isCredentialConflict err = true)
  | KApi _ _ => False
  | KUpdate k _ => k = KCredential ∧ ∀ cred', c = KUpdate KCredential cred' →
      ∃ p hash, current_payload cred h p hash ∧ payload_accepted p h ∧
        annotation AnnotationSyncHash cred' = hash
  | _ => True
  end.

#[local] Instance credential_call_ok_benign cred : benign_ok (credential_call_ok cred).
Proof. intros h c Hc. by destruct c. Qed.

Lemma wp_fetchAPIKey G R cred h (Q : khist → res string error → Prop) :
  benign_ok G →
  (∀ h' r, benign_ext h h' →
     (∀ v, r = Ok v → secret_value h' (Namespace (Meta cred)) (crs_APIKeySecretRef (Spec cred)) v) → Q h' r) →
  wp G R (fetchAPIKey cred) h Q.
Proof.
  intros HG HQ. unfold fetchAPIKey. cbv zeta. kstep. kstep; [benign_tac|].
  destruct x as [s|e]; [|apply wp_ret, HQ; [by apply extends_ev|done]].
  destruct (sec_Data s !! _) as [v|] eqn:Hv; apply wp_ret, HQ; try (by apply extends_ev); [|done].
  intros v' [= <-]. exists s. split; [set_solver|done].
Qed.

Lemma wpM_setStatus cred b reason msg s h (Q : khist → LiteLLMCredential → Ret_t + unit → Prop) :
  (∀ h' s', Q h' s' (inr tt)) →
  wpM (credential_call_ok cred) any_answer (setStatus b reason msg) s h Q.
Proof. intros HQ. unfold setStatus. by mrun. Qed.

Lemma wpM_reportAPIError cred op err s h (Q : khist → LiteLLMCredential → Ret_t + unit → Prop) :
  (∀ h' s' r, retried r = true → Q h' s' (inl r)) →
  wpM (credential_call_ok cred) any_answer (reportAPIError op err) s h Q.
Proof.
  intros HQ. unfold reportAPIError. mpure. mstep; [done|]. mstep. apply wpM_setStatus. intros h' s'.
  repeat case_match; mpure; by apply HQ.
Qed.

Lemma current_payload_extends P cred h h' p hash :
  extends P h h' → current_payload cred h p hash → current_payload cred h' p hash.
Proof. intros Hext (k & ? & ? & ?). exists k. eauto using secret_value_extends. Qed.

Lemma payload_accepted_extends P p h h' : extends P h h' → payload_accepted p h → payload_accepted p h'.
Proof. intros Hext (cl & Hin). exists cl. destruct Hin; eauto using extends_elem. Qed.

(** A push ends with an accepted payload and the same object, or returns. *)
Lemma wpM_push_ev cl cred p hash s h (Q : khist → LiteLLMCredential → Ret_t + unit → Prop) :
  current_payload cred h p hash →
  annotation AnnotationSyncHash cred ≠ hash →
  (∀ h', extends (λ _, True) h h' → payload_accepted p h' → Q h' s (inr tt)) →
  (∀ h' s' r, retried r = true → Q h' s' (inl r)) →
  wpM (credential_call_ok cred) any_answer
    (if decide (annotation AnnotationSyncHash cred = "") then createCredential cl p
     else updateCredential cl p) s h Q.
Proof.
  intros Hcur Hne HQ Hret.
  assert (∀ e e2, current_payload cred ((h ++ [e]) ++ [e2]) p hash ∧ current_payload cred (h ++ [e]) p hash) as Hext.
  { intros e e2. split; apply (current_payload_extends (λ _, True) _ h); try done.
    - eapply extends_trans; by apply extends_ev.
    - by apply extends_ev. }
  case_decide as Hrec.
  - unfold createCredential. mpure. mstep; [exists hash; split; [done|by left]|].
    destruct x as [err|].
    + case_match eqn:Hconf; [|mpure; by apply wpM_reportAPIError]. mpure. mstep.
      { exists hash. split; [by apply (Hext _ (KEv KNow 0))|]. right. exists err. split; [set_solver|done]. }
      destruct x as [uerr|]; [by apply wpM_reportAPIError|]. mpure. mstep; [done|]. apply HQ.
      * eapply extends_trans; [|by apply extends_ev]. eapply extends_trans; by apply extends_ev.
      * exists cl. right. set_solver.
    + mpure. mstep; [done|]. apply HQ.
      * eapply extends_trans; by apply extends_ev.
      * exists cl. left. set_solver.
  - unfold updateCredential. mpure. mstep; [exists hash; split; [done|by left]|].
    destruct x as [err|].
    + cbv zeta. case_match eqn:Hgone; [|mpure; by apply wpM_reportAPIError]. mpure. mstep.
      { exists hash. split; [by apply (Hext _ (KEv KNow 0))|]. right. exists err.
        destruct (IsAPIError err) as [apiErr|] eqn:Hae; [|done]. exists apiErr.
        split; [set_solver|]. split; [done|]. by apply Z.eqb_eq. }
      destruct x as [cerr|]; [by apply wpM_reportAPIError|]. mpure. mstep; [done|]. apply HQ.
      * eapply extends_trans; [|by apply extends_ev]. eapply extends_trans; by apply extends_ev.
      * exists cl. left. set_solver.
    + mpure. mstep; [done|]. apply HQ.
      * eapply extends_trans; by apply extends_ev.
      * exists cl. right. set_solver.
Qed.

Lemma wpM_pushCredential cl cred p hash h (Q : khist → LiteLLMCredential → Ret_t + unit → Prop) :
  current_payload cred h p hash →
  (∀ h' s', Q h' s' (inr tt)) →
  (∀ h' s' r, retried r = true → Q h' s' (inl r)) →
  wpM (credential_call_ok cred) any_answer (pushCredential cl p hash) cred h Q.
Proof.
  intros Hcur HQ Hret. unfold pushCredential. mpure.
  destruct (decide (annotation AnnotationSyncHash cred = hash)) as [Heq|Hne].
  - assert (hash ≠ "") as Hh.
    { destruct Hcur as (k & _ & _ & ->). apply computeSpecHash_nonempty. }
    unfold planAction. rewrite decide_False by congruence. rewrite decide_False by tauto.
    mpure. mstep; [by apply bool_decide_eq_true in H2|done].
  - assert (planAction cred hash = if decide (annotation AnnotationSyncHash cred = "")
                                   then actionCreate else actionUpdate) as ->.
    { unfold planAction. case_decide; [done|]. by rewrite decide_True. }
    replace (match (if decide (annotation AnnotationSyncHash cred = "") then actionCreate else actionUpdate) with
             | actionNoop => mret tt
             | actionCreate => createCredential cl p
             | actionUpdate => updateCredential cl p
             end) with (if decide (annotation AnnotationSyncHash cred = "")
                        then createCredential cl p else updateCredential cl p) by (by case_decide).
    eapply wpM_push_ev; [exact Hcur|exact Hne| |exact Hret]. intros h' Hext Hacc.
    mpure. mstep; [|apply HQ]. mpure. mstep; [|by mpure|by mpure; apply Hret].
    split; [done|]. intros cred' <-%KUpdate_inj. exists p, hash.
    split; [by eapply current_payload_extends|]. split; [done|]. apply annotation_annotate.
Qed.

Lemma reconcileCredential_wp cred h :
  wpM (credential_call_ok cred) any_answer reconcileCredential cred h
    (λ _ _ r, retried (match r with inl e => e | inr e => e end) = true).
Proof.
  unfold reconcileCredential. mpure. apply wp_resolveInstanceRef; [apply _|].
  intros h1 [resolved|err] E1 _.
  - mpure. apply wp_fetchAPIKey; [apply _|]. intros h2 [apiKey|err] E2 Hkey.
    + cbv zeta. mstep. apply wpM_pushCredential.
      * exists apiKey. auto.
      * intros h3 s3. mpure. unfold countReferencingModels. mpure. mstep; [done|].
        destruct x; mpure; apply wpM_setStatus; intros h4 s4; by mpure.
      * done.
    + cbv zeta. mpure. mstep; [done|]. mstep. apply wpM_setStatus. intros h3 s3. by mpure.
  - cbv zeta. mpure. mstep; [done|]. mstep. apply wpM_setStatus. intros h3 s3. by mpure.
Qed.

(** The credential controller pushes exactly what the recorded hash asks for,
    and records a hash only for a payload LiteLLM has accepted:
    - a create is sent only when no hash is recorded, or after an update of the same
      payload was answered 404 (deleted behind the operator's back);
    - an update only when a different hash is recorded, or after a create of the
      same payload was refused because the credential already exists;
    - every payload is built from the spec and from the API key this pass read
      from the Secret, and the hash written with it is the hash of that payload. *)
Lemma reconcileCredential_calls cred :
  kalways (credential_call_ok cred) (run_M reconcileCredential cred).
Proof.
  apply (wp_always _ _ (λ _ _, True)), wp_run_M. eapply wpM_mono; [apply reconcileCredential_wp|done].
Qed.

(** No credential is given up: a pass over a live credential ends with an error
    (retried by controller-runtime) or asks for another pass. *)
Lemma reconcileCredential_requeues (cred : LiteLLMCredential) t cred' r :
  runs (run_M reconcileCredential cred) t (cred', r) → retried r = true.
Proof.
  intros Hr.
  apply (wp_runs_any (credential_call_ok cred) (run_M reconcileCredential cred)
    (λ _ p, retried p.2 = true) t (cred', r)); [|done].
  apply wp_run_M, reconcileCredential_wp.
Qed.
End CredentialCalls.

(** ** The payload *)

(** The free-form params of a credential add to what the operator sends but
    never replace the API key, the API base or the API version the spec sets;
    the other values are the decoded params. *)
Lemma buildCredentialPayload_reserved `{JSONUnmarshal} (cred : LiteLLMCredential) apiKey :
  let values := cp_CredentialValues (buildCredentialPayload cred apiKey) in
  values !! "api_key" = Some (JString apiKey) ∧
  (crs_APIBase (Spec cred) ≠ "" → values !! "api_base" = Some (JString (crs_APIBase (Spec cred)))) ∧
  (crs_APIVersion (Spec cred) ≠ "" → values !! "api_version" = Some (JString (crs_APIVersion (Spec cred)))) ∧
  (∀ k, k ∉ ["api_key"; "api_base"; "api_version"] →
     values !! k = DecodeJSONParams (crs_Params (Spec cred)) !! k).
Proof.
  cbv zeta. simpl. unfold ownValues. split; [|split; [|split]].
  - apply lookup_union_Some_l. repeat case_decide; by simplify_map_eq.
  - intros. apply lookup_union_Some_l. repeat case_decide; by simplify_map_eq.
  - intros. apply lookup_union_Some_l. repeat case_decide; by simplify_map_eq.
  - intros k Hk. apply lookup_union_r.
    assert (k ≠ "api_key" ∧ k ≠ "api_base" ∧ k ≠ "api_version") as (? & ? & ?) by set_solver.
    repeat case_decide; by simplify_map_eq.
Qed.

(** ** Deletion *)

Section CredentialDeletion.
Context `{KubeLib} `{JSONMarshal CredentialSyncInput} `{JSONUnmarshal}.

(** The deletion of a credential relies on [status.configured], which every
    pass that cannot read the Secret (or reach LiteLLM) resets: when the Secret is
    gone, the pass leaves [configured = false], and the deletion of a resource with
    that status makes no call to LiteLLM at all, so a credential that had been
    pushed stays in LiteLLM's database. *)
Lemma credential_orphaned_after_failed_pass (cred : LiteLLMCredential) resolved t0 err t cred' r :
  runs (resolveInstance (Namespace (Meta cred)) kindCredential (crs_InstanceRef (Spec cred))) t0 (Ok resolved) →
  runs (run_M reconcileCredential cred)
    (t0 ++ KEv (KGetSecret (Namespace (Meta cred)) (skr_Name (crs_APIKeySecretRef (Spec cred)))) (Err err) :: t)
    (cred', r) →
  (∃ st x, last t = Some (KEv (KStatusUpdate KCredential st) x) ∧ crst_Configured (Status st) = false) ∧
  ∀ gone : LiteLLMCredential, crst_Configured (Status gone) = false →
    kalways (λ _ c, ∀ cl req, c ≠ KApi cl req) (handleCredentialDeletion gone).
Proof.
  intros Hres Hr. split.
  - unfold run_M, reconcileCredential in Hr. rewrite get_bind in Hr.
    assert (runs (lift (St := LiteLLMCredential) (Rt := Ret_t)
      (resolveInstance (Namespace (Meta cred)) kindCredential (crs_InstanceRef (Spec cred))) cred)
      t0 (cred, inr (Ok resolved))) as Hl.
    { rewrite <- (app_nil_r t0). by eapply runs_bind. }
    apply runs_bind_inv in Hr as (t1 & t2 & [s1 r1] & Ht & Hr & Hend). destruct Hend as [-> [= -> ->]].
    rewrite app_nil_r in Ht. subst t1. eapply runs_bind_prefix in Hr; [|exact Hl]. simpl in Hr.
    destruct Hr as (y & t' & Heq & Hr). apply Ev_cons_inj in Heq as [<- <-]. simpl in Hr.
    destruct Hr as (u & ta & -> & now & tb & -> & z & tc & -> & Hr).
    assert (tc = []) as -> by (by destruct z; destruct Hr as [-> _]).
    eexists _, z. split; [reflexivity|done].
  - intros gone Hgone. apply (wp_always _ _ (λ _ _, True)). unfold handleCredentialDeletion.
    rewrite Hgone. case_match; [|done]. kstep. kstep. kstep. kstep; [done|]. done.
Qed.
End CredentialDeletion.
