(* ===== verification/Duration.v ===== *)
(** * Durations ([time.ParseDuration] of the Go standard library)

    The interval of a config sync is a string such as ["30s"] or ["1h15m30.5s"].
    Integers are the [uint64]s of the Go code, with its overflow tests; the
    fraction is computed in [float64], as the Go code does. *)

From S2P Require Import Prelude KubeTypes InstanceTypes Types Sha256.
From Stdlib Require Import Ascii SpecFloat.
Open Scope Z_scope.

Definition f64_of_Z (z : Z) : float64 := binary_normalize 53 1024 z 0 false.
Definition f64_div (x y : float64) : float64 := SFdiv 53 1024 x y.
Definition f64_mul (x y : float64) : float64 := SFmul 53 1024 x y.

(** [uint64(x)] of a non-negative finite float: truncation. *)
Definition f64_trunc (x : float64) : Z :=
  match x with
  | S754_finite _ m e => if 0 <=? e then Z.pos m * 2 ^ e else Z.pos m / 2 ^ (- e)
  | _ => 0
  end.

Definition is_digit (b : Z) : bool := (48 <=? b) && (b <=? 57).

#[local] Arguments is_digit : simpl never.

(** [leadingInt]: the value and the rest, or an overflow. *)
Fixpoint leadingInt (x : Z) (s : list Z) : option (Z * list Z) :=
  match s with
  | c :: s' =>
      if is_digit c then
        if 2 ^ 63 / 10 <? x then None
        else let x' := x * 10 + (c - 48) in
             if 2 ^ 63 <? x' then None else leadingInt x' s'
      else Some (x, s)
  | [] => Some (x, s)
  end.

(** [leadingFraction]: digits beyond the precision are skipped; the scale is the
    power of ten, exact in [float64] for the at most 19 digits kept. *)
Fixpoint leadingFraction (x scale : Z) (overflow : bool) (s : list Z) : Z * Z * list Z :=
  match s with
  | c :: s' =>
      if is_digit c then
        if overflow then leadingFraction x scale true s'
        else if (2 ^ 63 - 1) / 10 <? x then leadingFraction x scale true s'
        else let y := x * 10 + (c - 48) in
             if 2 ^ 63 <? y then leadingFraction x scale true s'
             else leadingFraction y (scale * 10) false s'
      else (x, scale, s)
  | [] => (x, scale, s)
  end.

Fixpoint span_unit (s : list Z) : list Z * list Z :=
  match s with
  | c :: s' =>
      if (c =? 46) || is_digit c then ([], s)
      else let '(u, rest) := span_unit s' in (c :: u, rest)
  | [] => ([], [])
  end.

(** [unitMap]; the two spellings of the micro sign in UTF-8. *)
Definition unitMap (u : list Z) : option Z :=
  if decide (u = bytes_of "ns") then Some 1
  else if decide (u = bytes_of "us") then Some 1000
  else if decide (u = [0xC2; 0xB5; 115]) then Some 1000
  else if decide (u = [0xCE; 0xBC; 115]) then Some 1000
  else if decide (u = bytes_of "ms") then Some 1000000
  else if decide (u = bytes_of "s") then Some 1000000000
  else if decide (u = bytes_of "m") then Some 60000000000
  else if decide (u = bytes_of "h") then Some 3600000000000
  else None.

(** One group [number unit]: the nanoseconds and the rest. *)
Definition parseGroup (s : list Z) : option (Z * list Z) :=
  match leadingInt 0 s with
  | None => None
  | Some (v, s1) =>
      let pre := negb (Nat.eqb (length s) (length s1)) in
      let '(f, scale, s2, post) :=
        match s1 with
        | 46%Z :: s1' =>
            let '(f, scale, s2) := leadingFraction 0 1 false s1' in
            (f, scale, s2, negb (Nat.eqb (length s1') (length s2)))
        | _ => (0, 1, s1, false)
        end in
      if negb pre && negb post then None
      else
        match span_unit s2 with
        | ([], _) => None
        | (u, s3) =>
            match unitMap u with
            | None => None
            | Some unit =>
                if 2 ^ 63 / unit <? v then None
                else
                  let v := v * unit in
                  if 0 <? f then
                    let v := v + f64_trunc (f64_mul (f64_of_Z f) (f64_div (f64_of_Z unit) (f64_of_Z scale))) in
                    if 2 ^ 63 <? v then None else Some (v, s3)
                  else Some (v, s3)
            end
        end
  end.

(** The loop; every group consumes at least one byte, so the length of the
    string is enough fuel. *)
Fixpoint parseGroups (fuel : nat) (d : Z) (s : list Z) : option Z :=
  match s with
  | [] => Some d
  | _ =>
      match fuel with
      | O => None
      | S fuel =>
          match parseGroup s with
          | None => None
          | Some (v, s') => if 2 ^ 63 <? d + v then None else parseGroups fuel (d + v) s'
          end
      end
  end.

Definition ParseDuration (str : string) : option Z :=
  let s := bytes_of str in
  let '(neg, s) :=
    match s with
    | 45%Z :: s' => (true, s')
    | 43%Z :: s' => (false, s')
    | _ => (false, s)
    end in
  if decide (s = [48]) then Some 0
  else if decide (s = []) then None
  else
    match parseGroups (length s) 0 s with
    | None => None
    | Some d => if neg then Some (- d) else if 2 ^ 63 - 1 <? d then None else Some d
    end.

Example ParseDuration_30s : ParseDuration "30s" = Some 30000000000.
Proof. by vm_compute. Qed.
Example ParseDuration_mixed : ParseDuration "1h15m30.918273645s" = Some 4530918273645.
Proof. by vm_compute. Qed.
Example ParseDuration_fraction : ParseDuration "-.5h" = Some (-1800000000000).
Proof. by vm_compute. Qed.
Example ParseDuration_bad : ParseDuration "3000000h" = None ∧ ParseDuration "5" = None ∧ ParseDuration "" = None.
Proof. by vm_compute. Qed.
Example ParseDuration_max : ParseDuration "9223372036854775807ns" = Some 9223372036854775807.
Proof. by vm_compute. Qed.

(** ** Fuel *)

Lemma leadingInt_length x s v s' : leadingInt x s = Some (v, s') → (length s' ≤ length s)%nat.
Proof.
  revert x. induction s as [|c s IH]; intros x; simpl; [by intros [= _ <-]|].
  case_match; [|by intros [= _ <-]]. case_match; [done|]. case_match; [done|].
  intros Hr%IH. lia.
Qed.

Lemma leadingFraction_length x sc ov s v sc' s' :
  leadingFraction x sc ov s = (v, sc', s') → (length s' ≤ length s)%nat.
Proof.
  revert x sc ov. induction s as [|c s IH]; intros x sc ov; simpl; [by intros [= _ _ <-]|].
  case_match; [|by intros [= _ _ <-]].
  repeat case_match; intros Hr%IH; lia.
Qed.

Lemma span_unit_length s u s' : span_unit s = (u, s') → length s = (length u + length s')%nat.
Proof.
  revert u. induction s as [|c s IH]; intros u; simpl; [by intros [= <- <-]|].
  case_match; [by intros [= <- <-]|]. destruct (span_unit s) as [u' r] eqn:Hs.
  intros [= <- <-]. simpl. by rewrite (IH u').
Qed.

Lemma parseGroup_length s v s' : parseGroup s = Some (v, s') → (length s' < length s)%nat.
Proof.
  unfold parseGroup. destruct (leadingInt 0 s) as [[i s1]|] eqn:Hi; [|done].
  apply leadingInt_length in Hi.
  destruct (match s1 with 46%Z :: _ => _ | _ => _ end) as [[[f scale] s2] post] eqn:Hf.
  assert (length s2 ≤ length s1)%nat as Hs2.
  { revert Hf. destruct s1 as [|c s1]; [by intros [= _ _ <- _]|].
    repeat case_match; simplify_eq/=; intros; simplify_eq/=; try lia;
      match goal with Hl : leadingFraction _ _ _ _ = _ |- _ => apply leadingFraction_length in Hl; lia end. }
  destruct (negb _ && negb post); [done|]. destruct (span_unit s2) as [[|b u] s3] eqn:Hu; [done|].
  apply span_unit_length in Hu. simpl in Hu.
  repeat case_match; intros; simplify_eq; lia.
Qed.

(** The length of the string is enough fuel for the loop. *)
Lemma parseGroups_fuel n m d s : (length s ≤ n)%nat → (length s ≤ m)%nat → parseGroups n d s = parseGroups m d s.
Proof.
  revert m d s. induction n as [|n IH]; intros m d s Hn Hm; destruct s as [|c s]; simpl in *;
    try lia; destruct m as [|m]; simpl; try done; try lia.
  destruct (parseGroup (c :: s)) as [[v s']|] eqn:Hg; [|done].
  apply parseGroup_length in Hg. simpl in Hg. case_match; [done|]. apply IH; lia.
Qed.

(** ** Bounds *)

Lemma leadingInt_bounds x s v s' : 0 ≤ x → leadingInt x s = Some (v, s') → 0 ≤ v.
Proof.
  revert x. induction s as [|c s IH]; intros x Hx; simpl; [by intros [= <- _]|].
  destruct (is_digit c) eqn:Hc; [|by intros [= <- _]].
  case_match; [done|]. case_match; [done|]. apply IH.
  unfold is_digit in Hc. apply andb_true_iff in Hc as [H1%Z.leb_le H2%Z.leb_le]. lia.
Qed.

Lemma f64_trunc_nonneg x : 0 ≤ f64_trunc x.
Proof.
  destruct x as [| | |b m e]; simpl; try lia. destruct (0 <=? e) eqn:He.
  - apply Z.leb_le in He. assert (0 < 2 ^ e) by (apply Z.pow_pos_nonneg; lia). lia.
  - apply Z.div_pos; [lia|]. apply Z.pow_pos_nonneg; [lia|]. apply Z.leb_gt in He. lia.
Qed.

Lemma unitMap_pos u n : unitMap u = Some n → 0 < n.
Proof. unfold unitMap. repeat case_decide; intros [= <-]; done. Qed.

Lemma parseGroup_nonneg s v s' : parseGroup s = Some (v, s') → 0 ≤ v.
Proof.
  unfold parseGroup. destruct (leadingInt 0 s) as [[i s1]|] eqn:Hi; [|done].
  apply leadingInt_bounds in Hi; [|done].
  destruct (match s1 with 46%Z :: _ => _ | _ => _ end) as [[[f scale] s2] post].
  case_match; [done|]. destruct (span_unit s2) as [[|b u] s3]; [done|].
  destruct (unitMap _) as [n|] eqn:Hn; [|done]. apply unitMap_pos in Hn.
  case_match; [done|]. case_match; [|intros [= <- _]; lia].
  case_match; [done|]. intros [= <- _].
  pose proof (f64_trunc_nonneg (f64_mul (f64_of_Z f) (f64_div (f64_of_Z n) (f64_of_Z scale)))). lia.
Qed.

Lemma parseGroups_bounds fuel d s r : 0 ≤ d ≤ 2 ^ 63 → parseGroups fuel d s = Some r → 0 ≤ r ≤ 2 ^ 63.
Proof.
  revert d s. induction fuel as [|fuel IH]; intros d s Hd; destruct s as [|c s]; simpl; try done;
    try (by intros [= <-]).
  destruct (parseGroup (c :: s)) as [[v s']|] eqn:Hg; [|done]. apply parseGroup_nonneg in Hg.
  destruct (2 ^ 63 <? d + v) eqn:Hlt; [done|]. apply Z.ltb_ge in Hlt. apply IH. lia.
Qed.

Lemma ParseDuration_int64_bounds s d : ParseDuration s = Some d → - 2 ^ 63 ≤ d ≤ 2 ^ 63 - 1.
Proof.
  unfold ParseDuration.
  destruct (match bytes_of s with 45%Z :: _ => _ | _ => _ end) as [neg l].
  case_decide; [intros [= <-]; lia|]. case_decide; [done|].
  destruct (parseGroups _ _ _) as [r|] eqn:Hr; [|done]. apply parseGroups_bounds in Hr; [|lia].
  destruct neg; [intros [= <-]; lia|].
  destruct (2 ^ 63 - 1 <? r) eqn:Hlt; [done|]. apply Z.ltb_ge in Hlt. intros [= <-]. lia.
Qed.
