(* ===== verification/ConfigSync.v ===== *)
(** * Config sync (internal/controller/configsync_syncer.go, configsync_controller.go)

    A sync cycle compares, for each kind of resource, the custom resources that
    reference an instance with the objects LiteLLM lists.  The six functions
    [syncModels] .. [syncCustomers] are one text with different names: [syncKind] is
    that text, and [SyncKind k] gives the names for each kind. *)

From S2P Require Import Prelude KubeTypes InstanceTypes Types Updates World Sha256 Common Reconcile Duration.
Open Scope Z_scope.

Record syncResult := MkSyncResult {
  sr_SyncedModels : Z;
  sr_SyncedTeams : Z;
  sr_SyncedUsers : Z;
  sr_SyncedKeys : Z;
  sr_SyncedOrganizations : Z;
  sr_SyncedCustomers : Z;
  sr_UnmanagedModels : Z;
  sr_UnmanagedTeams : Z;
  sr_UnmanagedUsers : Z;
  sr_UnmanagedKeys : Z;
  sr_UnmanagedOrganizations : Z;
  sr_UnmanagedCustomers : Z;
  sr_DriftDetected : Z;
  sr_PrunedResources : Z;
  sr_Errors : list text
}.

Definition syncResult0 : syncResult := MkSyncResult 0 0 0 0 0 0 0 0 0 0 0 0 0 0 [].

Definition incr_SyncedModels (r : syncResult) : syncResult :=
  MkSyncResult (sr_SyncedModels r + 1) (sr_SyncedTeams r) (sr_SyncedUsers r) (sr_SyncedKeys r)
    (sr_SyncedOrganizations r) (sr_SyncedCustomers r) (sr_UnmanagedModels r) (sr_UnmanagedTeams
    r) (sr_UnmanagedUsers r) (sr_UnmanagedKeys r) (sr_UnmanagedOrganizations r)
    (sr_UnmanagedCustomers r) (sr_DriftDetected r) (sr_PrunedResources r) (sr_Errors r).
Definition incr_SyncedTeams (r : syncResult) : syncResult :=
  MkSyncResult (sr_SyncedModels r) (sr_SyncedTeams r + 1) (sr_SyncedUsers r) (sr_SyncedKeys r)
    (sr_SyncedOrganizations r) (sr_SyncedCustomers r) (sr_UnmanagedModels r) (sr_UnmanagedTeams
    r) (sr_UnmanagedUsers r) (sr_UnmanagedKeys r) (sr_UnmanagedOrganizations r)
    (sr_UnmanagedCustomers r) (sr_DriftDetected r) (sr_PrunedResources r) (sr_Errors r).
Definition incr_SyncedUsers (r : syncResult) : syncResult :=
  MkSyncResult (sr_SyncedModels r) (sr_SyncedTeams r) (sr_SyncedUsers r + 1) (sr_SyncedKeys r)
    (sr_SyncedOrganizations r) (sr_SyncedCustomers r) (sr_UnmanagedModels r) (sr_UnmanagedTeams
    r) (sr_UnmanagedUsers r) (sr_UnmanagedKeys r) (sr_UnmanagedOrganizations r)
    (sr_UnmanagedCustomers r) (sr_DriftDetected r) (sr_PrunedResources r) (sr_Errors r).
Definition incr_SyncedKeys (r : syncResult) : syncResult :=
  MkSyncResult (sr_SyncedModels r) (sr_SyncedTeams r) (sr_SyncedUsers r) (sr_SyncedKeys r + 1)
    (sr_SyncedOrganizations r) (sr_SyncedCustomers r) (sr_UnmanagedModels r) (sr_UnmanagedTeams
    r) (sr_UnmanagedUsers r) (sr_UnmanagedKeys r) (sr_UnmanagedOrganizations r)
    (sr_UnmanagedCustomers r) (sr_DriftDetected r) (sr_PrunedResources r) (sr_Errors r).
Definition incr_SyncedOrganizations (r : syncResult) : syncResult :=
  MkSyncResult (sr_SyncedModels r) (sr_SyncedTeams r) (sr_SyncedUsers r) (sr_SyncedKeys r)
    (sr_SyncedOrganizations r + 1) (sr_SyncedCustomers r) (sr_UnmanagedModels r)
    (sr_UnmanagedTeams r) (sr_UnmanagedUsers r) (sr_UnmanagedKeys r) (sr_UnmanagedOrganizations
    r) (sr_UnmanagedCustomers r) (sr_DriftDetected r) (sr_PrunedResources r) (sr_Errors r).
Definition incr_SyncedCustomers (r : syncResult) : syncResult :=
  MkSyncResult (sr_SyncedModels r) (sr_SyncedTeams r) (sr_SyncedUsers r) (sr_SyncedKeys r)
    (sr_SyncedOrganizations r) (sr_SyncedCustomers r + 1) (sr_UnmanagedModels r)
    (sr_UnmanagedTeams r) (sr_UnmanagedUsers r) (sr_UnmanagedKeys r) (sr_UnmanagedOrganizations
    r) (sr_UnmanagedCustomers r) (sr_DriftDetected r) (sr_PrunedResources r) (sr_Errors r).
Definition incr_UnmanagedModels (r : syncResult) : syncResult :=
  MkSyncResult (sr_SyncedModels r) (sr_SyncedTeams r) (sr_SyncedUsers r) (sr_SyncedKeys r)
    (sr_SyncedOrganizations r) (sr_SyncedCustomers r) (sr_UnmanagedModels r + 1)
    (sr_UnmanagedTeams r) (sr_UnmanagedUsers r) (sr_UnmanagedKeys r) (sr_UnmanagedOrganizations
    r) (sr_UnmanagedCustomers r) (sr_DriftDetected r) (sr_PrunedResources r) (sr_Errors r).
Definition incr_UnmanagedTeams (r : syncResult) : syncResult :=
  MkSyncResult (sr_SyncedModels r) (sr_SyncedTeams r) (sr_SyncedUsers r) (sr_SyncedKeys r)
    (sr_SyncedOrganizations r) (sr_SyncedCustomers r) (sr_UnmanagedModels r) (sr_UnmanagedTeams
    r + 1) (sr_UnmanagedUsers r) (sr_UnmanagedKeys r) (sr_UnmanagedOrganizations r)
    (sr_UnmanagedCustomers r) (sr_DriftDetected r) (sr_PrunedResources r) (sr_Errors r).
Definition incr_UnmanagedUsers (r : syncResult) : syncResult :=
  MkSyncResult (sr_SyncedModels r) (sr_SyncedTeams r) (sr_SyncedUsers r) (sr_SyncedKeys r)
    (sr_SyncedOrganizations r) (sr_SyncedCustomers r) (sr_UnmanagedModels r) (sr_UnmanagedTeams
    r) (sr_UnmanagedUsers r + 1) (sr_UnmanagedKeys r) (sr_UnmanagedOrganizations r)
    (sr_UnmanagedCustomers r) (sr_DriftDetected r) (sr_PrunedResources r) (sr_Errors r).
Definition incr_UnmanagedKeys (r : syncResult) : syncResult :=
  MkSyncResult (sr_SyncedModels r) (sr_SyncedTeams r) (sr_SyncedUsers r) (sr_SyncedKeys r)
    (sr_SyncedOrganizations r) (sr_SyncedCustomers r) (sr_UnmanagedModels r) (sr_UnmanagedTeams
    r) (sr_UnmanagedUsers r) (sr_UnmanagedKeys r + 1) (sr_UnmanagedOrganizations r)
    (sr_UnmanagedCustomers r) (sr_DriftDetected r) (sr_PrunedResources r) (sr_Errors r).
Definition incr_UnmanagedOrganizations (r : syncResult) : syncResult :=
  MkSyncResult (sr_SyncedModels r) (sr_SyncedTeams r) (sr_SyncedUsers r) (sr_SyncedKeys r)
    (sr_SyncedOrganizations r) (sr_SyncedCustomers r) (sr_UnmanagedModels r) (sr_UnmanagedTeams
    r) (sr_UnmanagedUsers r) (sr_UnmanagedKeys r) (sr_UnmanagedOrganizations r + 1)
    (sr_UnmanagedCustomers r) (sr_DriftDetected r) (sr_PrunedResources r) (sr_Errors r).
Definition incr_UnmanagedCustomers (r : syncResult) : syncResult :=
  MkSyncResult (sr_SyncedModels r) (sr_SyncedTeams r) (sr_SyncedUsers r) (sr_SyncedKeys r)
    (sr_SyncedOrganizations r) (sr_SyncedCustomers r) (sr_UnmanagedModels r) (sr_UnmanagedTeams
    r) (sr_UnmanagedUsers r) (sr_UnmanagedKeys r) (sr_UnmanagedOrganizations r)
    (sr_UnmanagedCustomers r + 1) (sr_DriftDetected r) (sr_PrunedResources r) (sr_Errors r).
Definition incr_DriftDetected (r : syncResult) : syncResult :=
  MkSyncResult (sr_SyncedModels r) (sr_SyncedTeams r) (sr_SyncedUsers r) (sr_SyncedKeys r)
    (sr_SyncedOrganizations r) (sr_SyncedCustomers r) (sr_UnmanagedModels r) (sr_UnmanagedTeams
    r) (sr_UnmanagedUsers r) (sr_UnmanagedKeys r) (sr_UnmanagedOrganizations r)
    (sr_UnmanagedCustomers r) (sr_DriftDetected r + 1) (sr_PrunedResources r) (sr_Errors r).
Definition incr_PrunedResources (r : syncResult) : syncResult :=
  MkSyncResult (sr_SyncedModels r) (sr_SyncedTeams r) (sr_SyncedUsers r) (sr_SyncedKeys r)
    (sr_SyncedOrganizations r) (sr_SyncedCustomers r) (sr_UnmanagedModels r) (sr_UnmanagedTeams
    r) (sr_UnmanagedUsers r) (sr_UnmanagedKeys r) (sr_UnmanagedOrganizations r)
    (sr_UnmanagedCustomers r) (sr_DriftDetected r) (sr_PrunedResources r + 1) (sr_Errors r).
Definition addError (msg : text) (r : syncResult) : syncResult :=
  MkSyncResult (sr_SyncedModels r) (sr_SyncedTeams r) (sr_SyncedUsers r) (sr_SyncedKeys r)
    (sr_SyncedOrganizations r) (sr_SyncedCustomers r) (sr_UnmanagedModels r) (sr_UnmanagedTeams
    r) (sr_UnmanagedUsers r) (sr_UnmanagedKeys r) (sr_UnmanagedOrganizations r)
    (sr_UnmanagedCustomers r) (sr_DriftDetected r) (sr_PrunedResources r) (sr_Errors r ++ [msg]).

Inductive syncScope := syncScopeOutside | syncScopeProtected | syncScopeManaged.

(** [delete(annotations, AnnotationSyncHash)]. *)
Definition drop_hash {Sp St} (a : gmap string string) (o : Obj Sp St) : Obj Sp St :=
  set_meta (set_annotations (Some (delete AnnotationSyncHash a)) (Meta o)) o.

(** What distinguishes the six functions. *)
Class SyncKind (k : Kind) := {
  sk_kind : string;
  sk_type : string;                (* "model", as in events and errors *)
  sk_plural : string;              (* "models" *)
  sk_ref : SpecOf k → InstanceRef;
  sk_display : obj k → string;
  (** the identifier under which the CR is managed, if it has one *)
  sk_managed : obj k → option string;
  (** the identifier a protected CR protects *)
  sk_protected : obj k → option string;
  (** [clearStatusFn] *)
  sk_clear : StatusOf k → StatusOf k;
  sk_item : Type;
  sk_list : api_req;
  sk_list_ans : api_ans sk_list → res (list sk_item) error;
  sk_item_id : sk_item → string;
  sk_item_name : sk_item → string;
  sk_drifted : obj k → sk_item → bool;
  sk_service : Service;
  sk_incr_synced : syncResult → syncResult;
  sk_incr_unmanaged : syncResult → syncResult
}.

(** An identifier recorded by the operator. *)
Definition nonempty (id : string) : option string := if decide (id = "") then None else Some id.

#[export] Instance SyncModels : SyncKind KModel := {
  sk_kind := kindModel;
  sk_type := "model";
  sk_plural := "models";
  sk_ref := ms_InstanceRef;
  sk_display := λ m : LiteLLMModel, ms_ModelName (Spec m);
  sk_managed := λ m : LiteLLMModel, nonempty (mst_LiteLLMModelID (Status m));
  sk_protected := λ m : LiteLLMModel, Some (mst_LiteLLMModelID (Status m));
  sk_clear := λ st, with_mst_Synced false (with_mst_LiteLLMModelID "" st);
  sk_item := ModelInfoResponse;
  sk_list := ModelsList;
  sk_list_ans := id;
  sk_item_id := mires_ModelID;
  sk_item_name := mires_ModelName;
  sk_drifted := λ (m : LiteLLMModel) api,
    bool_decide (ms_ModelName (Spec m) ≠ mires_ModelName api) ||
    bool_decide (lmp_Model (ms_LiteLLMParams (Spec m)) ≠ mp_Model (mires_Params api));
  sk_service := SModels;
  sk_incr_synced := incr_SyncedModels;
  sk_incr_unmanaged := incr_UnmanagedModels
}.

#[export] Instance SyncTeams : SyncKind KTeam := {
  sk_kind := kindTeam;
  sk_type := "team";
  sk_plural := "teams";
  sk_ref := ts_InstanceRef;
  sk_display := λ t : LiteLLMTeam, ts_TeamAlias (Spec t);
  sk_managed := λ t : LiteLLMTeam, nonempty (tst_LiteLLMTeamID (Status t));
  sk_protected := λ t : LiteLLMTeam, Some (tst_LiteLLMTeamID (Status t));
  sk_clear := λ st, with_tst_Synced false (with_tst_LiteLLMTeamID "" st);
  sk_item := TeamInfo;
  sk_list := TeamsList;
  sk_list_ans := id;
  sk_item_id := ti_TeamID;
  sk_item_name := ti_TeamAlias;
  sk_drifted := λ (t : LiteLLMTeam) api, bool_decide (ts_TeamAlias (Spec t) ≠ ti_TeamAlias api);
  sk_service := STeams;
  sk_incr_synced := incr_SyncedTeams;
  sk_incr_unmanaged := incr_UnmanagedTeams
}.

#[export] Instance SyncUsers : SyncKind KUser := {
  sk_kind := kindUser;
  sk_type := "user";
  sk_plural := "users";
  sk_ref := us_InstanceRef;
  sk_display := λ u : LiteLLMUser, us_UserID (Spec u);
  sk_managed := λ u : LiteLLMUser, nonempty (ust_LiteLLMUserID (Status u));
  sk_protected := λ u : LiteLLMUser, Some (ust_LiteLLMUserID (Status u));
  sk_clear := λ st, with_ust_Synced false (with_ust_LiteLLMUserID "" st);
  sk_item := UserInfo;
  sk_list := UsersList;
  sk_list_ans := id;
  sk_item_id := ui_UserID;
  sk_item_name := ui_UserEmail;
  sk_drifted := λ (u : LiteLLMUser) api,
    bool_decide (us_UserEmail (Spec u) ≠ ui_UserEmail api) ||
    bool_decide (us_UserRole (Spec u) ≠ ui_UserRole api);
  sk_service := SUsers;
  sk_incr_synced := incr_SyncedUsers;
  sk_incr_unmanaged := incr_UnmanagedUsers
}.

#[export] Instance SyncKeys : SyncKind KVirtualKey := {
  sk_kind := kindVirtualKey;
  sk_type := "key";
  sk_plural := "keys";
  sk_ref := ks_InstanceRef;
  sk_display := λ vk : LiteLLMVirtualKey, ks_KeyAlias (Spec vk);
  sk_managed := λ vk : LiteLLMVirtualKey, nonempty (kys_LiteLLMKeyToken (Status vk));
  sk_protected := λ vk : LiteLLMVirtualKey, Some (kys_LiteLLMKeyToken (Status vk));
  sk_clear := λ st, with_kys_Synced false (with_kys_LiteLLMKeyToken "" st);
  sk_item := KeyInfo;
  sk_list := KeysList;
  sk_list_ans := id;
  sk_item_id := ki_Token;
  sk_item_name := ki_KeyAlias;
  sk_drifted := λ (vk : LiteLLMVirtualKey) api, bool_decide (ks_KeyAlias (Spec vk) ≠ ki_KeyAlias api);
  sk_service := SKeys;
  sk_incr_synced := incr_SyncedKeys;
  sk_incr_unmanaged := incr_UnmanagedKeys
}.

#[export] Instance SyncOrganizations : SyncKind KOrganization := {
  sk_kind := kindOrganization;
  sk_type := "organization";
  sk_plural := "organizations";
  sk_ref := os_InstanceRef;
  sk_display := λ o : LiteLLMOrganization, os_OrganizationAlias (Spec o);
  sk_managed := λ o : LiteLLMOrganization, nonempty (ost_LiteLLMOrganizationID (Status o));
  sk_protected := λ o : LiteLLMOrganization, Some (ost_LiteLLMOrganizationID (Status o));
  sk_clear := λ st, with_ost_Synced false (with_ost_LiteLLMOrganizationID "" st);
  sk_item := OrganizationInfo;
  sk_list := OrganizationsList;
  sk_list_ans := id;
  sk_item_id := oi_OrganizationID;
  sk_item_name := oi_OrganizationAlias;
  sk_drifted := λ (o : LiteLLMOrganization) api,
    bool_decide (os_OrganizationAlias (Spec o) ≠ oi_OrganizationAlias api);
  sk_service := SOrganizations;
  sk_incr_synced := incr_SyncedOrganizations;
  sk_incr_unmanaged := incr_UnmanagedOrganizations
}.

(** A customer is known by [spec.customerId]; only a synced one counts. *)
Definition synced_customer (c : LiteLLMCustomer) : option string :=
  if cst_Synced (Status c) then Some (cs_CustomerID (Spec c)) else None.

#[export] Instance SyncCustomers : SyncKind KCustomer := {
  sk_kind := kindCustomer;
  sk_type := "customer";
  sk_plural := "customers";
  sk_ref := cs_InstanceRef;
  sk_display := λ c : LiteLLMCustomer, cs_CustomerID (Spec c);
  sk_managed := synced_customer;
  sk_protected := synced_customer;
  sk_clear := with_cst_Synced false;
  sk_item := CustomerInfo;
  sk_list := CustomersList;
  sk_list_ans := id;
  sk_item_id := ci_UserID;
  sk_item_name := ci_Alias;
  sk_drifted := λ (c : LiteLLMCustomer) api,
    bool_decide (cs_Alias (Spec c) ≠ ci_Alias api) ||
    match cs_Blocked (Spec c) with Some b => negb (Bool.eqb b (ci_Blocked api)) | None => false end;
  sk_service := SCustomers;
  sk_incr_synced := incr_SyncedCustomers;
  sk_incr_unmanaged := incr_UnmanagedCustomers
}.

(** [configSyncer]: what a cycle does not change. *)
Record configSyncer := MkConfigSyncer {
  cs_apiClient : ApiClient;
  cs_instance : LiteLLMInstance;
  cs_config : ConfigSyncSpec
}.

Section ConfigSync.
Context `{KubeLib}.
Variable s : configSyncer.
#[local] Notation instance := (cs_instance s).
#[local] Notation config := (cs_config s).

(** ** Scope *)

(** The namespaces already looked up in this cycle ([allowedNamespaces]). *)
Definition scope (cache : gmap string bool) (namespace : string) (ref : InstanceRef) (kind : string) :
    kprog (syncScope * gmap string bool) :=
  if negb (referencesInstance namespace ref instance) then mret (syncScopeOutside, cache)
  else
    '(allowed, cache) ←
      match cache !! namespace with
      | Some allowed => mret (allowed, cache)
      | None =>
          r ← instanceAllowsNamespace instance namespace;
          let allowed := match r with Ok b => b | Err _ => true end in
          mret (allowed, <[namespace := allowed]> cache)
      end;
    if negb allowed then mret (syncScopeOutside, cache)
    else if negb (instanceAllowsKind instance namespace kind) then mret (syncScopeProtected, cache)
    else mret (syncScopeManaged, cache).

(** ** Audit events and remediation *)

Definition emitAuditEvent (reason fmt : string) (args : list farg) : kprog unit :=
  if css_AuditChanges config || bool_decide (reason ∈ [EventReasonConfigSyncPruned; EventReasonConfigSyncRecreated])
  then emitEvent instance EventTypeNormal reason fmt args
  else mret tt.

Definition crd_wins : bool := bool_decide (css_ConflictResolution config ∈ ["crd-wins"; ""]).

Section Kind.
Context {k : Kind} `{SyncKind k}.

(** The object in memory, after the calls, and the result. *)
Definition handleDrift (o : obj k) (result : syncResult) : kprog (obj k * syncResult) :=
  let names := [FStr sk_type; FStr (sk_display o)] in
  let result := incr_DriftDetected result in
  if crd_wins then
    '(o', r) ←
      match Annotations (Meta o) with
      | None => mret (o, None)
      | Some a =>
          let o := drop_hash a o in
          r ← kcallp (KUpdate k o);
          mret match r with Ok o' => (o', None) | Err err => (o, Some err) end
      end;
    match r with
    | Some err =>
        mret (o', addError (Sprintf "clear sync hash for %s %q: %v" (names ++ [FErr err])) result)
    | None =>
        _ ← emitAuditEvent EventReasonConfigSyncDriftRemediated
              "Drift detected on %s %q, triggered re-sync (crd-wins)" names;
        mret (o', result)
    end
  else
    _ ← (if decide (css_ConflictResolution config = "api-wins") then
           emitAuditEvent EventReasonConfigSyncDriftDetected
             "Drift detected on %s %q, API state preserved (api-wins)" names
         else if decide (css_ConflictResolution config = "manual") then
           emitAuditEvent EventReasonConfigSyncDriftDetected
             "Drift detected on %s %q, manual resolution required" names
         else mret tt);
    mret (o, result).

Definition handleDeletedFromAPI (o : obj k) (result : syncResult) : kprog syncResult :=
  let names := [FStr sk_type; FStr (sk_display o)] in
  let result := incr_DriftDetected result in
  if crd_wins then
    r ← kcallp (KStatusUpdate k (map_status sk_clear o));
    match r with
    | Err err => mret (addError (Sprintf "clear status for %s %q: %v" (names ++ [FErr err])) result)
    | Ok o =>
        r ← kcallp (KUpdate k (drop_hash (default ∅ (Annotations (Meta o))) o));
        match r with
        | Err err => mret (addError (Sprintf "clear hash for %s %q: %v" (names ++ [FErr err])) result)
        | Ok _ =>
            _ ← emitAuditEvent EventReasonConfigSyncRecreated
                  "API resource for %s %q was deleted externally, triggered recreation (crd-wins)" names;
            mret result
        end
    end
  else
    _ ← (if decide (css_ConflictResolution config = "api-wins") then
           emitAuditEvent EventReasonConfigSyncDriftDetected
             "API resource for %s %q was deleted externally, API state accepted (api-wins)" names
         else if decide (css_ConflictResolution config = "manual") then
           emitAuditEvent EventReasonConfigSyncDriftDetected
             "API resource for %s %q is missing from API, manual resolution required" names
         else mret tt);
    mret result.

Definition handleUnmanaged (id name : string) (result : syncResult) : kprog syncResult :=
  if decide (css_UnmanagedResourcePolicy config = "prune") then
    r ← api (cs_apiClient s) (ApiDelete sk_service id);
    match r with
    | Some err =>
        mret (addError (Sprintf "prune %s %q: %v" [FStr sk_type; FStr name; FErr err]) result)
    | None =>
        _ ← emitAuditEvent EventReasonConfigSyncPruned "Pruned unmanaged %s %q" [FStr sk_type; FStr name];
        mret (incr_PrunedResources result)
    end
  else if decide (css_UnmanagedResourcePolicy config = "adopt") then
    _ ← emitAuditEvent EventReasonConfigSyncUnmanaged
          "Detected unmanaged %s %q (adopt policy — reporting only)" [FStr sk_type; FStr name];
    mret result
  else mret result.

(** ** One kind *)

(** The managed CRs by identifier, the protected identifiers, and the cache. *)
Record classified := MkClassified {
  cl_managed : gmap string (obj k);
  cl_protected : gset string;
  cl_cache : gmap string bool
}.

Definition classifyOne (c : classified) (o : obj k) : kprog classified :=
  '(sc, cache) ← scope (cl_cache c) (Namespace (Meta o)) (sk_ref (Spec o)) sk_kind;
  let c := MkClassified (cl_managed c) (cl_protected c) cache in
  match sc, DeletionTimestamp (Meta o) with
  | syncScopeOutside, _ | _, Some _ => mret c
  | syncScopeProtected, None =>
      mret match sk_protected o with
           | Some id => MkClassified (cl_managed c) ({[id]} ∪ cl_protected c) cache
           | None => c
           end
  | syncScopeManaged, None =>
      mret match sk_managed o with
           | Some id => MkClassified (<[id := o]> (cl_managed c)) (cl_protected c) cache
           | None => c
           end
  end.

Fixpoint classify (c : classified) (l : list (obj k)) : kprog classified :=
  match l with
  | [] => mret c
  | o :: l' => c ← classifyOne c o; classify c l'
  end.

(** The loop over the objects LiteLLM lists: the managed CRs (which [handleDrift]
    mutates), the identifiers seen and the result. *)
Fixpoint visitAPI (protected : gset string) (l : list sk_item) (managed : gmap string (obj k))
    (seen : gset string) (result : syncResult) :
    kprog (gmap string (obj k) * gset string * syncResult) :=
  match l with
  | [] => mret (managed, seen, result)
  | x :: l' =>
      match managed !! sk_item_id x with
      | Some crd =>
          let result := sk_incr_synced result in
          let seen := {[sk_item_id x]} ∪ seen in
          if sk_drifted crd x then
            '(crd, result) ← handleDrift crd result;
            visitAPI protected l' (<[sk_item_id x := crd]> managed) seen result
          else visitAPI protected l' managed seen result
      | None =>
          if decide (sk_item_id x ∈ protected) then visitAPI protected l' managed seen result
          else
            result ← handleUnmanaged (sk_item_id x) (sk_item_name x) (sk_incr_unmanaged result);
            visitAPI protected l' managed seen result
      end
  end.

(** The loop over the managed CRs, in the order of a map iteration. *)
Fixpoint visitMissing (l : list (string * obj k)) (seen : gset string) (result : syncResult) :
    kprog syncResult :=
  match l with
  | [] => mret result
  | (id, crd) :: l' =>
      if decide (id ∈ seen) then visitMissing l' seen result
      else
        result ← handleDeletedFromAPI crd result;
        visitMissing l' seen result
  end.

Definition syncKind (st : gmap string bool * syncResult) : kprog (gmap string bool * syncResult) :=
  let '(cache, result) := st in
  crds ← kcallp (KList k None);
  match crds with
  | Err err => mret (cache, addError (Sprintf "list %s CRDs: %v" [FStr sk_type; FErr err]) result)
  | Ok crds =>
      c ← classify (MkClassified ∅ ∅ cache) crds;
      items ← api (cs_apiClient s) sk_list;
      match sk_list_ans items with
      | Err err =>
          mret (cl_cache c, addError (Sprintf "list API %s: %v" [FStr sk_plural; FErr err]) result)
      | Ok items =>
          '(managed, seen, result) ← visitAPI (cl_protected c) items (cl_managed c) ∅ result;
          l ← range_map managed;
          result ← visitMissing l seen result;
          mret (cl_cache c, result)
      end
  end.
End Kind.

(** [sync]. *)
Definition sync : kprog syncResult :=
  st ← syncKind (k := KModel) (∅, syncResult0);
  st ← syncKind (k := KTeam) st;
  st ← syncKind (k := KUser) st;
  st ← syncKind (k := KVirtualKey) st;
  st ← syncKind (k := KOrganization) st;
  st ← syncKind (k := KCustomer) st;
  mret st.2.
End ConfigSync.

(** ** The controller *)

Definition syncInterval (config : ConfigSyncSpec) : Z :=
  match ParseDuration (css_Interval config) with
  | Some d => if d <? 10 * time_Second then 30 * time_Second else d
  | None => 30 * time_Second
  end.

Section ConfigSyncReconciler.
Context `{KubeLib}.

Definition set_instance_condition (status reason : string) (msg : text) (instance : LiteLLMInstance) :
    LiteLLMInstance :=
  map_status (λ st, with_ist_Conditions (SetStatusCondition (ist_Conditions st)
    (MkCondition ConditionConfigSynced status reason msg (Generation (Meta instance)))) st) instance.

Definition configSyncStatus (now : Time) (r : syncResult) : ConfigSyncStatus :=
  MkConfigSyncStatus (Some now) (sr_SyncedModels r) (sr_SyncedTeams r) (sr_SyncedUsers r)
    (sr_SyncedKeys r) (sr_SyncedOrganizations r) (sr_SyncedCustomers r) (sr_UnmanagedModels r)
    (sr_UnmanagedTeams r) (sr_UnmanagedUsers r) (sr_UnmanagedKeys r) (sr_UnmanagedOrganizations r)
    (sr_UnmanagedCustomers r) (sr_Errors r).

(** The summary: a format and its arguments. *)
Definition buildSyncSummary (r : syncResult) : text :=
  let totalSynced := sr_SyncedModels r + sr_SyncedTeams r + sr_SyncedUsers r + sr_SyncedKeys r +
    sr_SyncedOrganizations r + sr_SyncedCustomers r in
  let totalUnmanaged := sr_UnmanagedModels r + sr_UnmanagedTeams r + sr_UnmanagedUsers r +
    sr_UnmanagedKeys r + sr_UnmanagedOrganizations r + sr_UnmanagedCustomers r in
  let drift := if 0 <? sr_DriftDetected r then [FInt (sr_DriftDetected r)] else [] in
  let pruned := if 0 <? sr_PrunedResources r then [FInt (sr_PrunedResources r)] else [] in
  Sprintf ("%d managed, %d unmanaged" +:+
             (if 0 <? sr_DriftDetected r then ", %d drift(s) detected" else "") +:+
             (if 0 <? sr_PrunedResources r then ", %d pruned" else ""))
    ([FInt totalSynced; FInt totalUnmanaged] ++ drift ++ pruned).

(** The end of [Reconcile]: the status, the condition and the event. *)
Definition reportSync (instance : LiteLLMInstance) (result : syncResult) : kprog unit :=
  now ← kcallp KNow;
  let instance := map_status (with_ist_ConfigSync (Some (configSyncStatus now result))) instance in
  let errors := [FInt (Z.of_nat (length (sr_Errors result)))] in
  let summary := buildSyncSummary result in
  instance ←
    (if decide (sr_Errors result ≠ []) then
       let instance := set_instance_condition ConditionFalse "SyncErrors"
                         (Sprintf "%d error(s) during config sync" errors) instance in
       _ ← emitEvent instance EventTypeWarning EventReasonConfigSyncFailed
             "Config sync completed with %d error(s)" errors;
       mret instance
     else
       let instance := set_instance_condition ConditionTrue "SyncCompleted" summary instance in
       _ ← emitEvent instance EventTypeNormal EventReasonConfigSyncCompleted
             ("Config sync completed: " +:+ tx_fmt summary) (tx_args summary);
       mret instance);
  _ ← kcallp (KStatusUpdate KInstance instance);
  mret tt.

Definition resolveMasterKey (instance : LiteLLMInstance) : kprog (res string error) :=
  getSecretValue (Namespace (Meta instance)) (masterKeyRef instance).

Definition runConfigSync (instance : LiteLLMInstance) (config : ConfigSyncSpec) : kprog Ret_t :=
  let requeue := (RequeueIn (syncInterval config), None) in
  if ist_Ready (Status instance) then
    masterKey ← resolveMasterKey instance;
    match masterKey with
    | Err err =>
        _ ← kcallp (KStatusUpdate KInstance
              (set_instance_condition ConditionFalse "MasterKeyError" (err_text err) instance));
        mret requeue
    | Ok masterKey =>
        ca ← operatorProxyCACert instance;
        result ← sync (MkConfigSyncer (MkApiClient (ist_Endpoint (Status instance)) masterKey ca) instance config);
        _ ← reportSync instance result;
        mret requeue
    end
  else
    _ ← kcallp (KStatusUpdate KInstance (set_instance_condition ConditionFalse "InstanceNotReady"
          (lit "Waiting for instance to become ready") instance));
    mret requeue.

(** Clears what a sync that is now disabled has left. *)
Definition clearConfigSync (instance : LiteLLMInstance) : kprog Ret_t :=
  match FindStatusCondition (ist_Conditions (Status instance)) ConditionConfigSynced with
  | None => mret (Result0, None)
  | Some _ =>
      _ ← kcallp (KStatusUpdate KInstance (map_status (λ st,
            with_ist_ConfigSync None
              (with_ist_Conditions (RemoveStatusCondition (ist_Conditions st) ConditionConfigSynced) st))
            instance));
      mret (Result0, None)
  end.

(** [Reconcile] once the instance is fetched. *)
Definition reconcileConfigSync (instance : LiteLLMInstance) : kprog Ret_t :=
  match is_ConfigSync (Spec instance) with
  | Some config =>
      if css_Enabled config then runConfigSync instance config else clearConfigSync instance
  | None => clearConfigSync instance
  end.

Definition ConfigSyncReconcile (ns name : string) : kprog Ret_t :=
  r ← kcallp (KGet KInstance ns name);
  match r with
  | Err err => mret (Result0, IgnoreNotFound err)
  | Ok instance => reconcileConfigSync instance
  end.
End ConfigSyncReconciler.

(** ** What a sync cycle may call *)

(** A managed CR would be protected under the same identifier, and clearing its
    status makes it unmanaged. *)
Class SyncKindLaws (k : Kind) `{SyncKind k} : Prop := {
  protected_managed (o : obj k) id : sk_managed o = Some id → sk_protected o = Some id;
  managed_cleared (o : obj k) : sk_managed (map_status sk_clear o) = None
}.

Lemma nonempty_Some s id : nonempty s = Some id ↔ s = id ∧ id ≠ "".
Proof. unfold nonempty. case_decide; naive_solver. Qed.

Ltac sync_laws :=
  split; [intros o id Hid; cbn in *; first [by apply nonempty_Some in Hid as [<- _]|exact Hid]
         |by intros [m sp st]; destruct st].

#[export] Instance SyncModels_laws : SyncKindLaws KModel.
Proof. sync_laws. Qed.
#[export] Instance SyncTeams_laws : SyncKindLaws KTeam.
Proof. sync_laws. Qed.
#[export] Instance SyncUsers_laws : SyncKindLaws KUser.
Proof. sync_laws. Qed.
#[export] Instance SyncKeys_laws : SyncKindLaws KVirtualKey.
Proof. sync_laws. Qed.
#[export] Instance SyncOrganizations_laws : SyncKindLaws KOrganization.
Proof. sync_laws. Qed.
#[export] Instance SyncCustomers_laws : SyncKindLaws KCustomer.
Proof. sync_laws. Qed.

Section SyncTheorems.
Context `{KubeLib}.
Variable s : configSyncer.
#[local] Notation instance := (cs_instance s).
#[local] Notation config := (cs_config s).
#[local] Notation any_ext := (extends (λ _, True)).
Implicit Types (G : khist → kcall → Prop) (R : khist → ∀ c : kcall, kans c → Prop).

(** The cached refusals are definite ones. *)
Definition cache_ok (h : khist) (cache : gmap string bool) : Prop :=
  ∀ ns, cache !! ns = Some false → refuses h instance ns.

Lemma cache_ok_extends P h h' cache : extends P h h' → cache_ok h cache → cache_ok h' cache.
Proof. intros Hext Hc ns Hns. eapply refuses_extends; eauto. Qed.

Lemma wp_scope G R cache ns ref kind h (Q : khist → syncScope * gmap string bool → Prop) :
  (∀ h' n, G h' (KGetNamespace n)) →
  cache_ok h cache →
  (∀ h' sc cache', benign_ext h h' → cache_ok h' cache' →
     (sc = syncScopeOutside → referencesInstance ns ref instance = true → refuses h' instance ns) →
     (sc = syncScopeManaged → referencesInstance ns ref instance = true) →
     Q h' (sc, cache')) →
  wp G R (scope s cache ns ref kind) h Q.
Proof.
  intros HG Hc HQ. unfold scope. destruct (referencesInstance ns ref instance) eqn:Href; cbn [negb];
    [|by apply wp_ret, HQ; eauto with go].
  apply wp_bind.
  apply (wp_mono _ _ _ _ (λ h1 p, benign_ext h h1 ∧ cache_ok h1 p.2 ∧
    (p.1 = false → refuses h1 instance ns))).
  - destruct (cache !! ns) as [b|] eqn:Hb.
    { apply wp_ret. split; [apply extends_refl|]. split; [done|]. intros Hf. apply Hc. simpl in Hf. by rewrite Hb, Hf. }
    apply wp_bind, wp_instanceAllowsNamespace; [done|]. intros h1 r E1 _ Hr. apply wp_ret.
    assert ((match r with Ok b => b | Err _ => true end) = false → refuses h1 instance ns) as Hr'.
    { destruct r as [[]|]; try done. by intros _; apply Hr. }
    split; [done|]. split; [|done]. intros n. simpl. intros [[<- Hn]|[_ Hn]]%lookup_insert_Some; [by auto|].
    eapply refuses_extends; [exact E1|]. by apply Hc.
  - intros h1 [allowed cache1] (E1 & Hc1 & Hr). cbn [fst snd] in *. destruct allowed; cbn [negb].
    + destruct (instanceAllowsKind instance ns kind); cbn [negb]; apply wp_ret, HQ; done.
    + apply wp_ret, HQ; auto.
Qed.

Section Kind.
Context {k : Kind} `{!SyncKind k} `{!SyncKindLaws k}.

(** A live CR of the cycle that stands for the LiteLLM object [id]. *)
Definition claims (o : obj k) (id : string) : Prop :=
  referencesInstance (Namespace (Meta o)) (sk_ref (Spec o)) instance = true ∧
  DeletionTimestamp (Meta o) = None ∧ sk_managed o = Some id.

(** The lists read by the cycle for this kind. *)
Definition listed (h : khist) (crds : list (obj k)) (items : list sk_item) : Prop :=
  KEv (KList k None) (Ok crds) ∈ h ∧
  ∃ ans, KEv (KApi (cs_apiClient s) sk_list) ans ∈ h ∧ sk_list_ans ans = Ok items.

(** No CR stands for the listed object [id], except from namespaces the instance
    definitely refuses. *)
Definition unclaimed (h : khist) (id : string) : Prop :=
  ∃ crds items, listed h crds items ∧ id ∈ map sk_item_id items ∧
    ∀ o, o ∈ crds → claims o id → refuses h instance (Namespace (Meta o)).

(** [o] is a live CR of the cycle whose object LiteLLM does not list. *)
Definition missing (h : khist) (o : obj k) : Prop :=
  ∃ crds items id, listed h crds items ∧ o ∈ crds ∧ claims o id ∧ id ∉ map sk_item_id items.

(** [o] is what the API server has answered to a write of the cycle. *)
Definition answered (h : khist) (o : obj k) : Prop :=
  ∃ o0 : obj k, KEv (KUpdate k o0) (Ok o) ∈ h ∨ KEv (KStatusUpdate k o0) (Ok o) ∈ h.

(** [o'] is [o] with no recorded hash, and otherwise the same. *)
Definition unstamped (o o' : obj k) : Prop :=
  Spec o' = Spec o ∧ Status o' = Status o ∧
  annotation AnnotationSyncHash o' = "" ∧
  (∀ key, key ≠ AnnotationSyncHash → default ∅ (Annotations (Meta o')) !! key = default ∅ (Annotations (Meta o)) !! key) ∧
  ∃ a, Meta o' = set_annotations a (Meta o).

(** [o'] is [o] in the memory of the cycle, which drops its hash before it writes it. *)
Definition copy_of (o o' : obj k) : Prop := o' = o ∨ unstamped o o'.

(** [o] is a live CR of the cycle that differs from the object LiteLLM lists for it, or what
    the API server has answered to a write of one. *)
Definition drifted (h : khist) (o : obj k) : Prop :=
  (∃ crds items x o', listed h crds items ∧ o ∈ crds ∧ x ∈ items ∧ claims o (sk_item_id x) ∧
     copy_of o o' ∧ sk_drifted o' x = true) ∨
  answered h o.

(** The calls with an effect, and when they are made. *)
Definition effect_ok (h : khist) (c : kcall) : Prop :=
  (∃ id, c = KApi (cs_apiClient s) (ApiDelete sk_service id) ∧
     css_UnmanagedResourcePolicy config = "prune" ∧ unclaimed h id) ∨
  (∃ o o' : obj k, c = KUpdate k o' ∧ crd_wins s = true ∧ drifted h o ∧ unstamped o o') ∨
  (∃ o : obj k, c = KStatusUpdate k (map_status sk_clear o) ∧ crd_wins s = true ∧ missing h o).

Definition kind_ok (h : khist) (c : kcall) : Prop :=
  benign c = true ∨ c = KApi (cs_apiClient s) sk_list ∨ effect_ok h c.

Lemma listed_extends P h h' crds items : extends P h h' → listed h crds items → listed h' crds items.
Proof. intros Hext [Hl (ans & Ha & Hi)]. split; [by eapply extends_elem|]. exists ans. eauto using extends_elem. Qed.

Lemma unclaimed_extends P h h' id : extends P h h' → unclaimed h id → unclaimed h' id.
Proof.
  intros Hext (crds & items & Hl & Hid & Hr). exists crds, items.
  split; [by eapply listed_extends|]. split; [done|]. eauto using refuses_extends.
Qed.

Lemma missing_extends P h h' o : extends P h h' → missing h o → missing h' o.
Proof. intros Hext (crds & items & id & Hl & ?). exists crds, items, id. eauto using listed_extends. Qed.

Lemma answered_extends P h h' o : extends P h h' → answered h o → answered h' o.
Proof. intros Hext (o0 & [?|?]); exists o0; [left|right]; by eapply extends_elem. Qed.

Lemma unstamped_drop_hash a (o : obj k) : a = default ∅ (Annotations (Meta o)) → unstamped o (drop_hash a o).
Proof.
  intros ->. destruct o as [m sp st]. unfold unstamped, annotation, drop_hash, map_get_str. cbn. split_and!; [done..| | |].
  - by rewrite lookup_delete_eq.
  - intros key Hne. by rewrite lookup_delete_ne.
  - by eexists.
Qed.

#[export] Instance kind_ok_benign : benign_ok kind_ok.
Proof. intros h c Hc. by left. Qed.

Lemma wp_emitAuditEvent G R reason fmt args h (Q : khist → unit → Prop) :
  benign_ok G → (∀ h' u, benign_ext h h' → Q h' u) → wp G R (emitAuditEvent s reason fmt args) h Q.
Proof.
  intros HG HQ. unfold emitAuditEvent. case_match; [kstep; [benign_tac|]|apply wp_ret]; apply HQ;
    [by apply extends_ev|apply extends_refl].
Qed.

Lemma wp_audit R reason fmt args h :
  wp kind_ok R (emitAuditEvent s reason fmt args) h (λ h' _, any_ext h h').
Proof. apply wp_emitAuditEvent; [apply _|]. intros h' _ E. by eapply extends_mono; [|exact E]. Qed.

(** *** Classification *)

(** Every live CR of [seen] that stands for an object has been taken in, unless
    its namespace is refused; nothing else has. *)
Definition classified_ok (h : khist) (seen : list (obj k)) (c : classified) : Prop :=
  cache_ok h (cl_cache c) ∧
  (∀ o id, o ∈ seen → claims o id →
     refuses h instance (Namespace (Meta o)) ∨ is_Some (cl_managed c !! id) ∨ id ∈ cl_protected c) ∧
  (∀ id o, cl_managed c !! id = Some o → o ∈ seen ∧ claims o id).

Lemma wp_classifyOne G R c o seen h (Q : khist → classified → Prop) :
  (∀ h' n, G h' (KGetNamespace n)) →
  classified_ok h seen c →
  (∀ h' c', benign_ext h h' → classified_ok h' (seen ++ [o]) c' → Q h' c') →
  wp G R (classifyOne s c o) h Q.
Proof.
  intros HG (Hc & Hseen & Hman) HQ. unfold classifyOne.
  apply wp_bind, wp_scope; [done|done|]. intros h1 sc cache E1 Hcache Hout Hin.
  assert (∀ c' : classified, cl_cache c' = cache →
    (∀ id, is_Some (cl_managed c !! id) → is_Some (cl_managed c' !! id)) →
    cl_protected c ⊆ cl_protected c' →
    (∀ id, claims o id → refuses h1 instance (Namespace (Meta o)) ∨ is_Some (cl_managed c' !! id) ∨
                          id ∈ cl_protected c') →
    (∀ id o', cl_managed c' !! id = Some o' → cl_managed c !! id = Some o' ∨ o' = o ∧ claims o id) →
    Q h1 c') as Hk.
  { intros c' Hcc Hmono Hsub Ho Hnew. apply HQ; [done|]. split; [by rewrite Hcc|]. split.
    - intros o' id [Ho'| ->%list_elem_of_singleton]%elem_of_app Hcl; [|by auto].
      destruct (Hseen o' id Ho' Hcl) as [?|[?|?]]; [left; by eapply refuses_extends|auto|set_solver].
    - intros id o' [Hold|[-> Hcl]]%Hnew; rewrite elem_of_app; [|split; [right; set_solver|done]].
      destruct (Hman id o' Hold). auto. }
  destruct (DeletionTimestamp (Meta o)) as [d|] eqn:Hd.
  { assert (∀ id, ¬ claims o id) as Hno by (intros id (_ & ? & _); congruence).
    assert (Q h1 (MkClassified (cl_managed c) (cl_protected c) cache)).
    { apply Hk; [done|done|done| |by left]. intros id Hcl. by destruct (Hno id). }
    by destruct sc; apply wp_ret. }
  destruct sc; apply wp_ret.
  - apply Hk; [done|done|done| |by left]. intros id (Href & _). left. by apply Hout.
  - destruct (sk_protected o) as [id0|] eqn:Hp; apply Hk; cbn; [done|done|set_solver| |by left|done|done|done| |by left];
      intros id (_ & _ & Hid%protected_managed); [right; right; set_solver|congruence].
  - destruct (sk_managed o) as [id0|] eqn:Hp; apply Hk; cbn; [done| |done| | |done|done|done| |by left].
    + intros id Hs. rewrite lookup_insert_is_Some'. by right.
    + intros id (_ & _ & Hid). right; left. rewrite lookup_insert_is_Some'. left. congruence.
    + intros id o' [[<- <-]|[_ Hold]]%lookup_insert_Some; [|by left]. right. split; [done|].
      repeat split; auto.
    + intros id (_ & _ & Hid). congruence.
Qed.

Lemma wp_classify G R l c seen h (Q : khist → classified → Prop) :
  (∀ h' n, G h' (KGetNamespace n)) →
  classified_ok h seen c →
  (∀ h' c', benign_ext h h' → classified_ok h' (seen ++ l) c' → Q h' c') →
  wp G R (classify s c l) h Q.
Proof.
  intros HG. revert c seen h. induction l as [|o l IH]; intros c seen h Hc HQ; cbn [classify].
  - apply wp_ret, HQ; [apply extends_refl|by rewrite app_nil_r].
  - apply wp_bind, (wp_classifyOne _ _ _ _ seen); [done|done|]. intros h1 c1 E1 Hc1.
    apply (IH c1 (seen ++ [o])); [done|]. intros h2 c2 E2 Hc2. apply HQ; [by eapply extends_trans|].
    by rewrite <- app_assoc in Hc2.
Qed.

(** *** The two loops *)

Lemma unstamped_trans (o1 o2 o3 : obj k) : copy_of o1 o2 → unstamped o2 o3 → unstamped o1 o3.
Proof.
  intros [->|(S1 & T1 & _ & A1 & a1 & M1)] (S2 & T2 & H2 & A2 & a2 & M2); [split_and!; try done; by exists a2|].
  unfold unstamped. rewrite S2, S1, T2, T1. split_and!; [done..| |].
  - intros key Hne. by rewrite A2, A1.
  - exists a2. rewrite M2, M1. done.
Qed.

Lemma wp_handleDrift R (o o' : obj k) result h (Q : khist → obj k * syncResult → Prop) :
  drifted h o → copy_of o o' →
  (∀ h' p, any_ext h h' → copy_of o p.1 ∨ answered h' p.1 → Q h' p) → wp kind_ok R (handleDrift s o' result) h Q.
Proof.
  intros Hd Hcopy HQ. unfold handleDrift. cbv zeta. destruct (crd_wins s) eqn:Hw.
  - apply wp_bind. apply (wp_mono _ _ _ _ (λ h1 p, any_ext h h1 ∧ (copy_of o p.1 ∨ answered h1 p.1))).
    + destruct (Annotations (Meta o')) as [a|] eqn:Ha; [|apply wp_ret; split; [apply extends_refl|by left]].
      assert (unstamped o (drop_hash a o')) as Hu.
      { eapply unstamped_trans; [exact Hcopy|]. apply unstamped_drop_hash. by rewrite Ha. }
      apply wp_bind. kstep; [right; right; right; left; by exists o, (drop_hash a o')|].
      destruct x as [o1|e]; apply wp_ret; (split; [by apply extends_ev|]); [right|left; by right].
      exists (drop_hash a o'). left. set_solver.
    + intros h1 [o1 [e|]] [E1 Ho]; [by apply wp_ret, HQ|].
      apply wp_bind. eapply wp_mono; [apply wp_audit|]. intros h2 u E2. apply wp_ret, HQ.
      * by eapply extends_trans.
      * destruct Ho as [?|?]; [by left|right]. by apply (answered_extends _ _ _ _ E2).
  - apply wp_bind. apply (wp_mono _ _ _ _ (λ h1 _, any_ext h h1)); [|intros h1 u E1; by apply wp_ret, HQ; [|left]].
    by repeat case_match; first [apply wp_audit|apply wp_ret, extends_refl].
Qed.

Lemma wp_handleDeletedFromAPI R (o : obj k) result h (Q : khist → syncResult → Prop) :
  missing h o →
  (∀ h' p, any_ext h h' → Q h' p) → wp kind_ok R (handleDeletedFromAPI s o result) h Q.
Proof.
  intros Hm HQ. unfold handleDeletedFromAPI. cbv zeta. destruct (crd_wins s) eqn:Hw.
  - kstep. kstep; [right; right; right; right; by exists o|]. destruct x as [o1|e]; [|apply wp_ret, HQ; by apply extends_ev].
    kstep. kstep.
    { right; right; right; left. do 2 eexists. split_and!; [done..| |by apply unstamped_drop_hash].
      right. exists (map_status sk_clear o). right. set_solver. }
    destruct x as [o2|e]; [|apply wp_ret, HQ; eapply extends_trans; by apply extends_ev].
    apply wp_bind. eapply wp_mono; [apply wp_audit|]. intros h2 u E2. apply wp_ret, HQ.
    eapply extends_trans; [|exact E2]. eapply extends_trans; by apply extends_ev.
  - apply wp_bind. apply (wp_mono _ _ _ _ (λ h1 _, any_ext h h1)); [|intros h1 u E1; by apply wp_ret, HQ].
    by repeat case_match; first [apply wp_audit|apply wp_ret, extends_refl].
Qed.

Lemma wp_handleUnmanaged R id name result h (Q : khist → syncResult → Prop) :
  unclaimed h id →
  (∀ h' p, any_ext h h' → Q h' p) → wp kind_ok R (handleUnmanaged s id name result) h Q.
Proof.
  intros Hu HQ. unfold handleUnmanaged. case_decide as Hp.
  - kstep. kstep; [right; right; left; eauto|]. destruct x as [e|]; [apply wp_ret, HQ; by apply extends_ev|].
    apply wp_bind. eapply wp_mono; [apply wp_audit|]. intros h1 u E1. apply wp_ret, HQ.
    eapply extends_trans; [|exact E1]. by apply extends_ev.
  - case_decide; [|apply wp_ret, HQ, extends_refl].
    apply wp_bind. eapply wp_mono; [apply wp_audit|]. intros h1 u E1. by apply wp_ret, HQ.
Qed.

(** The managed CRs and the identifiers seen, after the items [done]. *)
Definition visited (m0 : gmap string (obj k)) (done : list sk_item) (m : gmap string (obj k))
    (seen : gset string) : Prop :=
  (∀ id, is_Some (m !! id) ↔ is_Some (m0 !! id)) ∧
  (∀ id, id ∉ seen → m !! id = m0 !! id) ∧
  (∀ id, id ∈ map sk_item_id done → is_Some (m0 !! id) → id ∈ seen).

Lemma visited_skip m0 done x m seen :
  visited m0 done m seen → m !! sk_item_id x = None → visited m0 (done ++ [x]) m seen.
Proof.
  intros (H1 & H2 & H3) Hx. split; [done|]. split; [done|]. intros id. rewrite map_app, elem_of_app.
  intros [?| ->%list_elem_of_singleton] Hs; [by apply H3|]. apply H1 in Hs as [? ?]. congruence.
Qed.

Lemma visited_seen m0 done x m seen crd :
  visited m0 done m seen → is_Some (m !! sk_item_id x) →
  visited m0 (done ++ [x]) m ({[sk_item_id x]} ∪ seen) ∧
  visited m0 (done ++ [x]) (<[sk_item_id x := crd]> m) ({[sk_item_id x]} ∪ seen).
Proof.
  intros (H1 & H2 & H3) Hx.
  assert (∀ id, id ∈ map sk_item_id (done ++ [x]) → is_Some (m0 !! id) →
    id ∈ ({[sk_item_id x]} ∪ seen : gset string)) as H3'.
  { intros id. rewrite map_app, elem_of_app. intros [?| ->%list_elem_of_singleton] Hs; [|set_solver].
    specialize (H3 id). set_solver. }
  split; (split; [|split; [|done]]).
  - done.
  - intros id Hid. apply H2. set_solver.
  - intros id. rewrite <- H1, lookup_insert_is_Some'. split; [by intros [<-|?]|by right].
  - intros id Hid. rewrite lookup_insert_ne by set_solver. apply H2. set_solver.
Qed.

(** The objects in memory are CRs of the cycle, or answers to its writes. *)
Definition in_memory (h : khist) (crds : list (obj k)) (m : gmap string (obj k)) : Prop :=
  ∀ id o', m !! id = Some o' → ∃ o, copy_of o o' ∧ ((o ∈ crds ∧ claims o id) ∨ answered h o).

Lemma in_memory_extends P h h' crds m : extends P h h' → in_memory h crds m → in_memory h' crds m.
Proof.
  intros Hext Hm id o' Ho. destruct (Hm id o' Ho) as (o & ? & [?|?]); exists o; (split; [done|]); [by left|right].
  by eapply answered_extends.
Qed.

Lemma wp_visitAPI R m0 protected crds items l done m seen result h
    (Q : khist → gmap string (obj k) * gset string * syncResult → Prop) :
  listed h crds items → (∀ x, x ∈ l → x ∈ items) → in_memory h crds m →
  (∀ x, x ∈ l → m0 !! sk_item_id x = None → sk_item_id x ∉ protected → unclaimed h (sk_item_id x)) →
  visited m0 done m seen →
  (∀ h' m' seen' result', any_ext h h' → visited m0 (done ++ l) m' seen' → Q h' (m', seen', result')) →
  wp kind_ok R (visitAPI s protected l m seen result) h Q.
Proof.
  revert done m seen result h. induction l as [|x l IH]; intros done m seen result h Hli Hl Hmem Hun Hv HQ;
    cbn [visitAPI].
  { apply wp_ret, HQ; [apply extends_refl|by rewrite app_nil_r]. }
  rewrite cons_middle, app_assoc in HQ.
  assert (∀ h1 m1 seen1 result1, any_ext h h1 → in_memory h1 crds m1 → visited m0 (done ++ [x]) m1 seen1 →
    wp kind_ok R (visitAPI s protected l m1 seen1 result1) h1 Q) as Hnext.
  { intros h1 m1 seen1 result1 E1 Hm1 Hv1. eapply IH; [by eapply listed_extends| |exact Hm1| |exact Hv1|].
    - intros y Hy. apply Hl. by right.
    - intros y Hy Hn Hp. eapply unclaimed_extends; [exact E1|]. apply Hun; [by right|done|done].
    - intros h2 m2 seen2 result2 E2. apply HQ. by eapply extends_trans. }
  destruct (m !! sk_item_id x) as [crd|] eqn:Hx.
  - cbv zeta. destruct (visited_seen m0 done x m seen crd Hv (mk_is_Some _ _ Hx)) as [Hsame _].
    case_match eqn:Hdr; [|apply Hnext; [apply extends_refl|done..]].
    destruct (Hmem _ _ Hx) as (o & Hcopy & Ho). apply wp_bind, (wp_handleDrift _ o).
    { destruct Ho as [[? ?]|?]; [left; exists crds, items, x, crd|by right]. split_and!; [done..| |done|done|done].
      apply Hl. by left. }
    { done. }
    intros h1 [crd1 result1] E1 Hcrd. simpl in Hcrd. apply Hnext; [done| |by apply visited_seen].
    intros id o1 [[<- <-]|[_ Ho1]]%lookup_insert_Some; [|by apply (in_memory_extends _ _ _ _ _ E1 Hmem)].
    destruct Hcrd as [?|?]; [exists o|exists crd1; split; [by left|by right]]. split; [done|].
    destruct Ho as [?|?]; [by left|right]. by apply (answered_extends _ _ _ _ E1).
  - case_decide as Hp; [apply Hnext; [apply extends_refl|done|by apply visited_skip]|].
    apply wp_bind, wp_handleUnmanaged.
    + apply Hun; [left|apply eq_None_not_Some|done]. destruct Hv as (H1 & _ & _). rewrite <- H1, Hx.
      by intros [? ?].
    + intros h1 result1 E1. apply Hnext; [done|by eapply in_memory_extends|by apply visited_skip].
Qed.

Lemma wp_visitMissing R l seen result h (Q : khist → syncResult → Prop) :
  (∀ id o, (id, o) ∈ l → id ∉ seen → missing h o) →
  (∀ h' r, any_ext h h' → Q h' r) →
  wp kind_ok R (visitMissing s l seen result) h Q.
Proof.
  revert result h. induction l as [|[id o] l IH]; intros result h Hm HQ; cbn [visitMissing].
  { apply wp_ret, HQ, extends_refl. }
  assert (∀ h1 result1, any_ext h h1 → wp kind_ok R (visitMissing s l seen result1) h1 Q) as Hnext.
  { intros h1 result1 E1. apply IH.
    - intros id' o' Hin Hs. eapply missing_extends; [exact E1|]. eapply Hm; [by right|done].
    - intros h2 r E2. apply HQ. by eapply extends_trans. }
  case_decide; [apply Hnext, extends_refl|].
  apply wp_bind, wp_handleDeletedFromAPI; [eapply Hm; [by left|done]|]. intros h1 r E1. by apply Hnext.
Qed.

Lemma wp_syncKind R cache result h (Q : khist → gmap string bool * syncResult → Prop) :
  cache_ok h cache →
  (∀ h' cache' result', any_ext h h' → cache_ok h' cache' → Q h' (cache', result')) →
  wp kind_ok R (syncKind (k := k) s (cache, result)) h Q.
Proof.
  intros Hc HQ. unfold syncKind. kstep. kstep; [by left|].
  assert (∀ x, any_ext h (h ++ [KEv (KList k None) x])) as E0 by (intros x'; by apply extends_ev).
  match goal with x : ar _ _ |- _ => destruct x as [crds|e] end;
    [|apply wp_ret, HQ; [apply E0|eapply cache_ok_extends, Hc; apply E0]].
  apply wp_bind, (wp_classify _ _ _ _ []).
  { intros h1 n. by left. }
  { split; [eapply cache_ok_extends, Hc; apply E0|]. split; [by intros ?? ?%not_elem_of_nil|].
    intros id o. cbn. by rewrite lookup_empty. }
  intros h1 c E1 (Hcache & Hall & Hman). kstep. kstep; [by right; left|].
  match goal with |- context [KEv ?c ?x] => pose (h2 := h1 ++ [KEv c x]); rename x into ans end. fold h2.
  assert (any_ext h1 h2) as E2 by (by apply extends_ev).
  assert (any_ext h h2) as E02.
  { eapply extends_trans; [apply (E0 (Ok crds))|]. eapply extends_trans; [|exact E2].
    by eapply extends_mono; [|exact E1]. }
  destruct (sk_list_ans ans) as [items|e] eqn:Hans; [|apply wp_ret, HQ; [done|eapply cache_ok_extends, Hcache; exact E2]].
  assert (listed h2 crds items) as Hl.
  { split; [|exists ans; split; [unfold h2; set_solver|done]].
    eapply extends_elem; [exact E2|]. eapply extends_elem; [exact E1|]. set_solver. }
  apply wp_bind, (wp_visitAPI _ (cl_managed c) _ crds items _ []); [done|done| | | |].
  { intros id o Ho. exists o. split; [by left|]. left. by apply Hman. }
  { intros x Hx Hn Hp. exists crds, items. split; [done|]. split; [by apply list_elem_of_fmap_2|].
    intros o Ho Hcl. destruct (Hall o _ Ho Hcl) as [Hr|[[o' Hs]|?]]; [|congruence|done].
    eapply refuses_extends, Hr; exact E2. }
  { split; [done|]. split; [done|]. by intros id ?%not_elem_of_nil. }
  intros h3 m seen result1 E3 (Hdom & Hsame & Hseen).
  apply wp_bind, wp_range_map; [apply _|]. intros h4 l Hperm E4.
  assert (any_ext h2 h4) as E24.
  { eapply extends_trans; [exact E3|]. by eapply extends_mono; [|exact E4]. }
  apply wp_bind, wp_visitMissing.
  - intros id o Hin Hns. rewrite Hperm, elem_of_map_to_list, (Hsame id Hns) in Hin.
    destruct (Hman id o Hin) as [Ho Hcl]. eapply missing_extends; [exact E24|].
    exists crds, items, id. split; [done|]. split; [done|]. split; [done|]. intros Hid. apply Hns, Hseen; [done|].
    by eexists.
  - intros h5 r E5. apply wp_ret, HQ.
    + eapply extends_trans; [exact E02|]. by eapply extends_trans.
    + eapply cache_ok_extends; [|exact Hcache]. eapply extends_trans; [exact E2|]. by eapply extends_trans.
Qed.
End Kind.

(** Some of the six kinds. *)
Definition some_kind (P : ∀ k, SyncKind k → Prop) : Prop :=
  P KModel _ ∨ P KTeam _ ∨ P KUser _ ∨ P KVirtualKey _ ∨ P KOrganization _ ∨ P KCustomer _.

Lemma some_kind_mono (P P' : ∀ k, SyncKind k → Prop) :
  (∀ k sk, @SyncKindLaws k sk → P k sk → P' k sk) → some_kind P → some_kind P'.
Proof.
  unfold some_kind. intros HP.
  intros [?|[?|[?|[?|[?|?]]]]]; [left|right; left|do 2 right; left|do 3 right; left|do 4 right; left|do 5 right];
    by apply HP; [apply _|].
Qed.

Definition sync_ok (h : khist) (c : kcall) : Prop := some_kind (λ k sk, kind_ok (k := k) h c).

Lemma wp_sync R h : wp sync_ok R (sync s) h (λ _ _, True).
Proof.
  assert (∀ k (sk : SyncKind k) `{!SyncKindLaws k} st h (Q : khist → gmap string bool * syncResult → Prop),
    (∀ h' c, kind_ok (k := k) h' c → sync_ok h' c) → cache_ok h st.1 →
    (∀ h' st', cache_ok h' st'.1 → Q h' st') → wp sync_ok R (syncKind (k := k) s st) h Q) as Hk.
  { intros k sk ? [cache result] h0 Q Hok Hc HQ. eapply wp_weaken; [|exact Hok].
    apply wp_syncKind; [done|]. intros h' cache' result' _ Hc'. by apply HQ. }
  assert (cache_ok h (∅ : gmap string bool)) as H0 by (intros ns; by rewrite lookup_empty).
  unfold sync. apply wp_bind, Hk; [apply _|unfold sync_ok, some_kind; tauto|exact H0|].
  do 5 (intros ? ? ?; apply wp_bind, Hk; [apply _|unfold sync_ok, some_kind; tauto|done|]).
  by intros.
Qed.

Lemma sync_ok_client h cl r : sync_ok h (KApi cl r) → cl = cs_apiClient s.
Proof.
  unfold sync_ok, some_kind, kind_ok, effect_ok. naive_solver.
Qed.

(** C2: a config sync cycle deletes an object in LiteLLM only under the policy
    prune, and only an object it has just listed and that no live custom resource
    of the cycle stands for; a resource is left out of account only when the
    instance definitely refuses its namespace (a failed lookup of the namespace
    never is a refusal), and one whose kind is not admitted still protects its
    object. *)
Theorem sync_prunes_unclaimed :
  kalways (λ h c, ∀ cl svc id, c = KApi cl (ApiDelete svc id) →
    css_UnmanagedResourcePolicy config = "prune" ∧ cl = cs_apiClient s ∧
    some_kind (λ k sk, svc = sk_service ∧ unclaimed (k := k) h id)) (sync s).
Proof.
  match goal with |- kalways ?G _ => apply (wp_always G _ (λ _ _, True)) end.
  eapply wp_weaken; [apply wp_sync|]. intros h c Hok cl svc id ->.
  unfold sync_ok, some_kind, kind_ok, effect_ok in Hok. unfold some_kind.
  naive_solver.
Qed.

(** C27: a config sync cycle writes to Kubernetes only when the custom resources win.  It
    updates a live resource that the cycle has listed and that differs from the object
    LiteLLM lists for it, or what the API server has just answered to such a write: what is
    written is that object with its recorded hash dropped, and every other annotation, the
    other metadata, the spec and the status as they were.  It clears the status of a live
    resource whose object LiteLLM does not list, after which the resource stands for no
    object, so that the next pass creates it anew.  It writes nothing else, and calls
    LiteLLM only to list and to delete. *)
Theorem sync_writes :
  kalways (λ h c, some_kind (λ k sk,
    benign c = true ∨ c = KApi (cs_apiClient s) sk_list ∨
    (∃ id, c = KApi (cs_apiClient s) (ApiDelete sk_service id)) ∨
    crd_wins s = true ∧
    ((∃ o o' : obj k, c = KUpdate k o' ∧ drifted h o ∧ unstamped o o') ∨
     ∃ o : obj k, c = KStatusUpdate k (map_status sk_clear o) ∧ missing h o ∧
       sk_managed (map_status sk_clear o) = None))) (sync s).
Proof.
  match goal with |- kalways ?G _ => apply (wp_always G _ (λ _ _, True)) end.
  eapply wp_weaken; [apply wp_sync|]. intros h c. apply some_kind_mono.
  intros k sk ? [?|[?|[(id & -> & _)|[(o & o' & -> & Hw & Hd & Hu)|(o & -> & Hw & Hm)]]]]; [by left|by right; left|..].
  - do 2 right; left. eauto.
  - do 3 right. split; [done|]. left. by exists o, o'.
  - do 3 right. split; [done|]. right. exists o. auto using managed_cleared.
Qed.
End SyncTheorems.

(** ** The controller *)

Lemma syncInterval_bounds config :
  10 * time_Second ≤ syncInterval config ≤ 2 ^ 63 - 1.
Proof.
  unfold syncInterval, time_Second. destruct (ParseDuration _) as [d|] eqn:Hd; [|lia].
  apply ParseDuration_int64_bounds in Hd. case_match; lia.
Qed.

Section ConfigSyncTheorems.
Context `{KubeLib}.

(** *** Remediation *)

Lemma pushSpec_resends {k A} `{JSONMarshal A} (x : A) cl req (answer : api_ans req → option error) msg after
    (o : obj k) t out :
  annotation AnnotationSyncHash o = "" →
  runs (pushSpec (computeSpecHash x) (m_send cl req answer) msg after o) t out →
  ∃ z t', t = KEv (KApi cl req) z :: t'.
Proof.
  intros Ha. unfold pushSpec. rewrite get_bind, Ha.
  rewrite bool_decide_true by (by intros Heq; destruct (computeSpecHash_nonempty x)).
  cbn -[annotation]. intros (z & t' & -> & _). eauto.
Qed.

Lemma emitAuditEvent_benign s reason fmt args t u :
  runs (emitAuditEvent s reason fmt args) t u → ∀ e, e ∈ t → benign (ev_op e) = true.
Proof. by_wp t u. apply wp_emitAuditEvent; [apply _|]. by intros h' u (t & -> & Ht). Qed.

(** When the custom resources win, a drifted object is remediated: its recorded
    hash is dropped by an update and, once the API server stores it so, the next
    push of the controller sends the spec to LiteLLM, whatever the spec is.  When
    they do not win, the cycle leaves the object alone. *)
Lemma handleDrift_remediates s {k} `{SyncKind k} (o : obj k) a result t o' result' :
  Annotations (Meta o) = Some a →
  runs (handleDrift s o result) t (o', result') →
  if crd_wins s
  then ∃ (y : res (obj k) error) t1, t = KEv (KUpdate k (drop_hash a o)) y :: t1 ∧
    match y with
    | Err err => t1 = [] ∧ sr_Errors result' ≠ sr_Errors result
    | Ok server => o' = server ∧ sr_Errors result' = sr_Errors result ∧
        (annotation AnnotationSyncHash server = "" →
         ∀ A (J : JSONMarshal A) (x : A) cl req (answer : api_ans req → option error) msg after t2 out,
           runs (pushSpec (computeSpecHash x) (m_send cl req answer) msg after server) t2 out →
           ∃ z t3, t2 = KEv (KApi cl req) z :: t3)
    end
  else o' = o ∧ ∀ e, e ∈ t → benign (ev_op e) = true.
Proof.
  intros Ha Hr. destruct (crd_wins s) eqn:Hw.
  - unfold handleDrift in Hr. rewrite Hw, Ha in Hr. simpl in Hr.
    destruct Hr as (y & t1 & -> & Hr). exists y, t1. split; [done|].
    destruct y as [server|err]; simpl in Hr.
    + apply runs_bind_inv in Hr as (t2 & t3 & u & -> & _ & [-> [= -> ->]]).
      do 2 (split; [done|]). intros Hs A J x cl req answer msg after t4 out. by apply pushSpec_resends.
    + destruct Hr as [-> [= -> ->]]. split; [done|]. cbn. intros Heq.
      apply (f_equal length) in Heq. rewrite length_app in Heq. simpl in Heq. lia.
  - revert Hr. unfold handleDrift. rewrite Hw. cbv zeta.
    intros (t1 & t2 & u & -> & H1 & [-> [= -> ->]])%runs_bind_inv. split; [done|].
    rewrite app_nil_r.
    repeat case_match; first [by eapply emitAuditEvent_benign|destruct H1 as [-> _]; by intros e ?%not_elem_of_nil].
Qed.

(** An instance whose config sync is enabled is synced again and again, whatever
    happens in a cycle (not ready, no master key, API errors, failed writes): the
    pass never fails and is requeued after the configured interval, at least ten
    seconds and within an int64. *)
Lemma ConfigSyncReconcile_requeues ns name (instance : LiteLLMInstance) config t out :
  is_ConfigSync (Spec instance) = Some config →
  css_Enabled config = true →
  runs (ConfigSyncReconcile ns name) (KEv (KGet KInstance ns name) (Ok instance) :: t) out →
  out = (RequeueIn (syncInterval config), None) ∧
  10 * time_Second ≤ syncInterval config ≤ 2 ^ 63 - 1.
Proof.
  intros Hcs Hen (x & t' & Heq & Hr). apply Ev_cons_inj in Heq as [<- <-].
  split; [|apply syncInterval_bounds]. simpl in Hr. unfold reconcileConfigSync in Hr. rewrite Hcs, Hen in Hr. revert Hr. by_wp t out.
  unfold runConfigSync. cbv zeta. case_match; [|by kgo].
  apply wp_bind, wp_anything. intros h1 [mkey|e]; [|by kgo].
  apply wp_bind, wp_anything. intros h2 ca. apply wp_bind, wp_anything. intros h3 r.
  by apply wp_bind, wp_anything.
Qed.

(** Config sync calls LiteLLM only for an instance it has just fetched, that has
    sync enabled and is ready, at the endpoint of its status and with the master
    key just read from its Secret. *)
Lemma ConfigSyncReconcile_guarded ns name :
  kalways (λ h c, ∀ cl r, c = KApi cl r →
    ∃ (instance : LiteLLMInstance) config ref,
      KEv (KGet KInstance ns name) (Ok instance) ∈ h ∧
      is_ConfigSync (Spec instance) = Some config ∧ css_Enabled config = true ∧
      ist_Ready (Status instance) = true ∧ ac_endpoint cl = ist_Endpoint (Status instance) ∧
      masterKeyRef instance = Some ref ∧
      secret_value h (Namespace (Meta instance)) ref (ac_masterKey cl)) (ConfigSyncReconcile ns name).
Proof.
  match goal with |- kalways ?G _ => apply (wp_always G _ (λ _ _, True)); set (guard := G) end.
  assert (benign_ok guard) as Hb by (intros h c Hc cl req ->; done).
  assert (∀ instance h, wp guard any_answer (clearConfigSync instance) h (λ _ _, True)) as Hclear.
  { intros instance h. unfold clearConfigSync. case_match; [|done]. kgo; first [done|by intros ???]. }
  unfold ConfigSyncReconcile. kstep. kstep; [benign_tac|].
  match goal with x : ar _ _ |- _ => destruct x as [instance|e] end; [|done].
  unfold reconcileConfigSync. cbn beta iota.
  destruct (is_ConfigSync (Spec instance)) as [config|] eqn:Hcs; [|apply Hclear].
  destruct (css_Enabled config) eqn:Hen; [|apply Hclear].
  unfold runConfigSync. cbv zeta. destruct (ist_Ready (Status instance)) eqn:Hready; [|kgo; first [done|by intros ???]].
  unfold resolveMasterKey. apply wp_bind, wp_getSecretValue; [by apply benign_from_ok|]. intros h1 mkey E1 Hkey.
  destruct mkey as [mkey|e]; [|kgo; first [done|by intros ???]].
  destruct (Hkey mkey eq_refl) as (ref & Href & Hval).
  apply wp_bind, wp_operatorProxyCACert; [by apply benign_from_ok|]. intros h2 ca E2.
  assert (KEv (KGet KInstance ns name) (Ok instance) ∈ h2) as Hin.
  { eapply extends_elem; [exact E2|]. eapply extends_elem; [exact E1|]. set_solver. }
  assert (secret_value h2 (Namespace (Meta instance)) ref mkey) as Hval2 by (by eapply secret_value_extends).
  apply wp_bind. eapply (wp_mono _ _ _ _ (λ _ _, True)).
  - eapply wp_weaken_from; [apply wp_sync|]. intros h3 c E3 Hok cl req ->.
    apply sync_ok_client in Hok as ->. exists instance, config, ref.
    repeat split; [by eapply extends_elem|done..|by eapply secret_value_extends].
  - intros h3 result _. unfold reportSync. kgo; first [done|by intros ???].
Qed.
End ConfigSyncTheorems.
