(* ===== verification/Rollout.v ===== *)
(** * Rollout digests (internal/controller/secret_rollout.go, configmap_rollout.go)

    A pod resolves the Secrets and ConfigMaps it consumes when it starts.  The
    instance controller stamps a digest of what the pod consumes on the pod
    template, so that a change behind a reference rolls the workload.  The bytes
    that are hashed are kept ([hashWriter]); the digest is SHA-256 of them. *)

From S2P Require Import Prelude KubeTypes InstanceTypes Types World Sha256 Common.
From stdpp Require Import sorting.
Open Scope Z_scope.

(** ** What a pod consumes *)

(** How one object is consumed; [None] is the nil map of keys. *)
Record dataRef := MkDataRef {
  dr_whole : bool;
  dr_keys : option (gset string)
}.

Definition dataRef0 : dataRef := MkDataRef false None.
Definition addKey (key : string) (d : dataRef) : dataRef :=
  MkDataRef (dr_whole d) (Some ({[key]} ∪ default ∅ (dr_keys d))).
Definition setWhole (d : dataRef) : dataRef := MkDataRef true (dr_keys d).

(** [if r := ref(name); r != nil { f(r) }]: [ref] creates the entry. *)
Definition refFunc (refs : gmap string dataRef) (name : string) (f : dataRef → dataRef) :
    gmap string dataRef :=
  if decide (name = "") then refs
  else <[name := f (default dataRef0 (refs !! name))]> refs.

(** A volume's object: all of it without items, else the items' keys. *)
Definition refVolume (refs : gmap string dataRef) (o : VolumeObject) : gmap string dataRef :=
  refFunc refs (vo_Name o) (λ d,
    if decide (length (vo_Items o) = 0%nat) then setWhole d
    else fold_left (λ d key, addKey key d) (vo_Items o) d).

(** The two collectors are one text over these accessors. *)
Section Refs.
Variable keyRef : EnvVarSource → option KeySelector.
Variable fromRef : EnvFromSource → option string.
Variable volumeRef : Volume → option VolumeObject.
Variable sourceRef : VolumeProjection → option VolumeObject.

Definition refEnv (refs : gmap string dataRef) (e : EnvVar) : gmap string dataRef :=
  match env_ValueFrom e with
  | None => refs
  | Some src =>
      match keyRef src with
      | None => refs
      | Some s => refFunc refs (ksel_Name s) (addKey (ksel_Key s))
      end
  end.

Definition refEnvFrom (refs : gmap string dataRef) (ef : EnvFromSource) : gmap string dataRef :=
  match fromRef ef with
  | None => refs
  | Some name => refFunc refs name setWhole
  end.

Definition refContainer (refs : gmap string dataRef) (c : Container) : gmap string dataRef :=
  fold_left refEnvFrom (ctr_EnvFrom c) (fold_left refEnv (ctr_Env c) refs).

Definition refSource (refs : gmap string dataRef) (src : VolumeProjection) : gmap string dataRef :=
  match sourceRef src with None => refs | Some o => refVolume refs o end.

Definition refPodVolume (refs : gmap string dataRef) (v : Volume) : gmap string dataRef :=
  match volumeRef v with
  | Some o => refVolume refs o
  | None =>
      match vol_Projected v with
      | Some sources => fold_left refSource sources refs
      | None => refs
      end
  end.

Definition podSpecRefs (spec : PodSpec) : gmap string dataRef :=
  fold_left refPodVolume (pod_Volumes spec)
    (fold_left refContainer (pod_Containers spec ++ pod_InitContainers spec) ∅).
End Refs.

Definition podSpecSecretRefs : PodSpec → gmap string dataRef :=
  podSpecRefs evs_SecretKeyRef efs_SecretRef vol_Secret vp_Secret.
Definition podSpecConfigMapRefs : PodSpec → gmap string dataRef :=
  podSpecRefs evs_ConfigMapKeyRef efs_ConfigMapRef vol_ConfigMap vp_ConfigMap.

(** ** The digest *)

(** The bytes written so far. *)
Definition hashWriter : Type := list Z.
Definition newHashWriter : hashWriter := [].

(** A field: its length, as eight bytes, then its bytes. *)
Definition frame (p : list Z) : list Z := SHA.be_bytes 8 (Z.of_nat (length p)) ++ p.
Definition write (parts : list (list Z)) (w : hashWriter) : hashWriter := w ++ mjoin (frame <$> parts).
Definition sum (w : hashWriter) : string := hex_EncodeToString (sha256_Sum256 w).

(** [slices.Sorted]: the order of Go strings is that of their bytes. *)
Definition string_le (a b : string) : Prop := String.leb a b = true.
#[export] Instance string_le_dec : RelDecision string_le.
Proof. intros a b. unfold string_le. apply _. Defined.
Definition slices_Sorted (l : list string) : list string := merge_sort string_le l.
Definition sortedKeys {V} (m : gmap string V) : list string := slices_Sorted (map_to_list m).*1.

Definition absentMark : list Z := 0 :: bytes_of "absent".
Definition missingMark : list Z := 0 :: bytes_of "missing".

(** The fields of a Secret's keys, in order. *)
Definition writeSecretKey (data : gmap string string) (w : hashWriter) (k : string) : hashWriter :=
  match data !! k with
  | None => write [bytes_of k; missingMark] w
  | Some v => write [bytes_of k; bytes_of v] w
  end.

Definition secretWanted (ref : dataRef) (data : gmap string string) : list string :=
  let keys := if dr_whole ref then None else dr_keys ref in
  match keys with
  | Some keys => slices_Sorted (elements keys)
  | None => sortedKeys data
  end.

Definition writeConfigMapKey (cm : ConfigMap) (w : hashWriter) (k : string) : hashWriter :=
  match cm_Data cm !! k with
  | Some v => write [bytes_of k; bytes_of v] w
  | None =>
      match cm_BinaryData cm !! k with
      | Some v => write [bytes_of k; bytes_of v] w
      | None => write [bytes_of k; missingMark] w
      end
  end.

Definition configMapWanted (ref : dataRef) (cm : ConfigMap) : list string :=
  if dr_whole ref then slices_Sorted (sortedKeys (cm_Data cm) ++ sortedKeys (cm_BinaryData cm))
  else slices_Sorted (elements (default ∅ (dr_keys ref))).

(** The loop over the referenced Secrets. *)
Fixpoint hashSecrets (namespace : string) (refs : gmap string dataRef) (names : list string)
    (w : hashWriter) : kprog (res hashWriter error) :=
  match names with
  | [] => mret (Ok w)
  | name :: names' =>
      let w := write [bytes_of name] w in
      r ← kcallp (KGetSecret namespace name);
      match r with
      | Err err =>
          if apierrors_IsNotFound err then hashSecrets namespace refs names' (write [absentMark] w)
          else mret (Err (Errorf "hashing Secret %s/%s for pod template: %w"
                            [FStr namespace; FStr name] (Some err)))
      | Ok secret =>
          let ref := default dataRef0 (refs !! name) in
          hashSecrets namespace refs names'
            (fold_left (writeSecretKey (sec_Data secret)) (secretWanted ref (sec_Data secret)) w)
      end
  end.

Definition podTemplateSecretHash (namespace : string) (spec : PodSpec) : kprog (res string error) :=
  let refs := podSpecSecretRefs spec in
  if decide (refs = ∅) then mret (Ok "")
  else
    r ← hashSecrets namespace refs (sortedKeys refs) newHashWriter;
    mret match r with Ok w => Ok (sum w) | Err err => Err err end.

Fixpoint hashConfigMaps (namespace : string) (refs : gmap string dataRef) (names : list string)
    (w : hashWriter) : kprog (res hashWriter error) :=
  match names with
  | [] => mret (Ok w)
  | name :: names' =>
      let w := write [bytes_of name] w in
      r ← kcallp (KGetConfigMap namespace name);
      match r with
      | Err err =>
          if apierrors_IsNotFound err then hashConfigMaps namespace refs names' (write [absentMark] w)
          else mret (Err (Errorf "hashing ConfigMap %s/%s for pod template: %w"
                            [FStr namespace; FStr name] (Some err)))
      | Ok cm =>
          let ref := default dataRef0 (refs !! name) in
          hashConfigMaps namespace refs names'
            (fold_left (writeConfigMapKey cm) (configMapWanted ref cm) w)
      end
  end.

Definition podTemplateConfigMapHash (namespace : string) (spec : PodSpec) : kprog (res string error) :=
  let refs := podSpecConfigMapRefs spec in
  if decide (refs = ∅) then mret (Ok "")
  else
    r ← hashConfigMaps namespace refs (sortedKeys refs) newHashWriter;
    mret match r with Ok w => Ok (sum w) | Err err => Err err end.

(** ** The framing *)

Lemma be_bytes_mod n x y :
  SHA.be_bytes n x = SHA.be_bytes n y → x mod 2 ^ (8 * Z.of_nat n) = y mod 2 ^ (8 * Z.of_nat n).
Proof.
  induction n as [|n IH]; cbn [SHA.be_bytes]; intros Heq; [by rewrite !Z.mod_1_r|].
  injection Heq as Hb Hr. apply IH in Hr.
  replace (8 * Z.of_nat (S n)) with (8 * Z.of_nat n + 8) by lia.
  rewrite Z.pow_add_r, !Z.rem_mul_r by lia. rewrite Hr. f_equal. f_equal.
  change 255 with (Z.ones 8) in Hb. rewrite !Z.land_ones, !Z.shiftr_div_pow2 in Hb by lia. exact Hb.
Qed.

(** Lengths of Go slices fit in the eight bytes of a frame. *)
Definition short (p : list Z) : Prop := Z.of_nat (length p) < 2 ^ 64.

Lemma frame_app_inj p q w w' :
  short p → short q → frame p ++ w = frame q ++ w' → p = q ∧ w = w'.
Proof.
  unfold frame, short. intros Hp Hq Heq. rewrite <- !app_assoc in Heq.
  apply app_inj_1 in Heq as [Hlen Heq]; [|by rewrite !be_bytes_length].
  apply be_bytes_mod in Hlen. change (8 * Z.of_nat 8) with 64 in Hlen.
  rewrite !Z.mod_small in Hlen by lia. apply app_inj_1 in Heq; [done|lia].
Qed.

(** The fields can be read back from the bytes that are hashed. *)
Lemma frames_inj ps qs :
  Forall short ps → Forall short qs → mjoin (frame <$> ps) = mjoin (frame <$> qs) → ps = qs.
Proof.
  intros Hps. revert qs. induction Hps as [|p ps Hp Hps IH]; intros qs Hqs Heq;
    destruct Hqs as [|q qs Hq Hqs]; [done|done|done|].
  cbn in Heq. apply frame_app_inj in Heq as [-> Heq]; [|done|done]. f_equal. by apply IH.
Qed.

Lemma write_app ps qs w : write qs (write ps w) = write (ps ++ qs) w.
Proof. unfold write. by rewrite fmap_app, join_app, app_assoc. Qed.

Lemma write_parts {A} (f : A → list (list Z)) (wr : hashWriter → A → hashWriter) l w :
  (∀ w x, wr w x = write (f x) w) → fold_left wr l w = write (l ≫= f) w.
Proof.
  intros Hw. revert w. induction l as [|x l IH]; intros w; cbn; [unfold write; by rewrite app_nil_r|].
  rewrite Hw, IH, write_app. done.
Qed.

(** ** The references *)

(** Every entry consumes something. *)
Definition dataRef_ok (d : dataRef) : Prop :=
  dr_whole d = true ∨ ∃ ks, dr_keys d = Some ks ∧ ks ≠ ∅.
Definition refs_ok (refs : gmap string dataRef) : Prop := map_Forall (λ _ d, dataRef_ok d) refs.

Lemma addKey_ok key d : dataRef_ok (addKey key d).
Proof. right. eexists. split; [done|]. set_solver. Qed.
Lemma setWhole_ok d : dataRef_ok (setWhole d).
Proof. by left. Qed.

Lemma refFunc_ok refs name f : refs_ok refs → (∀ d, dataRef_ok (f d)) → refs_ok (refFunc refs name f).
Proof. intros Hr Hf. unfold refFunc. case_decide; [done|]. by apply map_Forall_insert_2. Qed.

Lemma refVolume_ok refs o : refs_ok refs → refs_ok (refVolume refs o).
Proof.
  intros Hr. apply refFunc_ok; [done|]. intros d. case_decide as Hl; [apply setWhole_ok|].
  assert (∀ l d, dataRef_ok d → dataRef_ok (fold_left (λ d key, addKey key d) l d)) as Hfold.
  { induction l as [|k l IH]; cbn; auto using addKey_ok. }
  destruct (vo_Items o) as [|k l]; [done|]. cbn. apply Hfold, addKey_ok.
Qed.

Lemma fold_left_ok {A} (f : gmap string dataRef → A → gmap string dataRef) l refs :
  (∀ refs x, refs_ok refs → refs_ok (f refs x)) → refs_ok refs → refs_ok (fold_left f l refs).
Proof. intros Hf. revert refs. induction l as [|x l IH]; cbn; auto. Qed.

Create HintDb refs.
#[export] Hint Resolve addKey_ok setWhole_ok refFunc_ok refVolume_ok fold_left_ok : refs.

Lemma podSpecRefs_ok keyRef fromRef volumeRef sourceRef spec :
  refs_ok (podSpecRefs keyRef fromRef volumeRef sourceRef spec).
Proof.
  unfold podSpecRefs. apply fold_left_ok.
  - intros refs v Hr. unfold refPodVolume. case_match; [auto with refs|]. case_match; [|done].
    apply fold_left_ok; [|done]. intros refs' src Hr'. unfold refSource. case_match; auto with refs.
  - apply fold_left_ok; [|by apply map_Forall_empty].
    intros refs c Hr. unfold refContainer. apply fold_left_ok; [|apply fold_left_ok; [|done]].
    + intros refs' ef Hr'. unfold refEnvFrom. case_match; auto with refs.
    + intros refs' e Hr'. unfold refEnv. repeat case_match; auto with refs.
Qed.

(** ** What a pod consumes, as rules *)

Section Consumes.
Variable keyRef : EnvVarSource → option KeySelector.
Variable fromRef : EnvFromSource → option string.
Variable volumeRef : Volume → option VolumeObject.
Variable sourceRef : VolumeProjection → option VolumeObject.

(** The part of the object [name] that a volume mounts: all of it, or the key [k]. *)
Definition mounts (o : VolumeObject) (name : string) (part : option string) : Prop :=
  vo_Name o = name ∧ match part with None => vo_Items o = [] | Some k => k ∈ vo_Items o end.

(** A pod consumes the object [name] whole ([None]) or a key of it. *)
Inductive consumes (spec : PodSpec) (name : string) : option string → Prop :=
| consumes_env c e src s :
    c ∈ pod_Containers spec ++ pod_InitContainers spec → e ∈ ctr_Env c → env_ValueFrom e = Some src →
    keyRef src = Some s → ksel_Name s = name → consumes spec name (Some (ksel_Key s))
| consumes_env_from c ef :
    c ∈ pod_Containers spec ++ pod_InitContainers spec → ef ∈ ctr_EnvFrom c → fromRef ef = Some name →
    consumes spec name None
| consumes_volume v o part :
    v ∈ pod_Volumes spec → volumeRef v = Some o → mounts o name part → consumes spec name part
| consumes_projected v sources src o part :
    v ∈ pod_Volumes spec → volumeRef v = None → vol_Projected v = Some sources → src ∈ sources →
    sourceRef src = Some o → mounts o name part → consumes spec name part.

(** What an entry, and the collected references, say of an object. *)
Definition has (d : dataRef) (part : option string) : Prop :=
  match part with None => dr_whole d = true | Some k => k ∈ default ∅ (dr_keys d) end.
Definition covered (refs : gmap string dataRef) (name : string) (part : option string) : Prop :=
  has (default dataRef0 (refs !! name)) part.

Lemma has_addKey key d part : has (addKey key d) part ↔ has d part ∨ part = Some key.
Proof. destruct part as [k|]; cbn; [set_solver|naive_solver]. Qed.
Lemma has_setWhole d part : has (setWhole d) part ↔ has d part ∨ part = None.
Proof. destruct part as [k|]; cbn; naive_solver. Qed.
Lemma has_addKeys keys d part :
  has (fold_left (λ d key, addKey key d) keys d) part ↔ has d part ∨ ∃ k, part = Some k ∧ k ∈ keys.
Proof.
  revert d. induction keys as [|key keys IH]; intros d; cbn; [set_solver|].
  rewrite IH, has_addKey. set_solver.
Qed.

Lemma covered_refFunc refs name f (adds : option string → Prop) n part :
  (∀ d part, has (f d) part ↔ has d part ∨ adds part) →
  covered (refFunc refs name f) n part ↔ covered refs n part ∨ (n ≠ "" ∧ n = name ∧ adds part).
Proof.
  intros Hf. unfold covered, refFunc. case_decide as Hn; [naive_solver|]. destruct (decide (n = name)) as [->|Hne].
  - rewrite lookup_insert_eq. cbn. rewrite Hf. naive_solver.
  - rewrite lookup_insert_ne by done. naive_solver.
Qed.

Lemma covered_refVolume refs o n part :
  covered (refVolume refs o) n part ↔ covered refs n part ∨ (n ≠ "" ∧ mounts o n part).
Proof.
  unfold refVolume. rewrite (covered_refFunc _ _ _ (λ part, mounts o (vo_Name o) part)).
  - unfold mounts. naive_solver.
  - intros d part'. unfold mounts. destruct (vo_Items o) as [|k l]; cbn [length].
    + rewrite decide_True, has_setWhole by done. destruct part'; set_solver.
    + rewrite decide_False, has_addKeys by done. destruct part'; set_solver.
Qed.

(** A loop covers what its steps do. *)
Lemma covered_fold {A} (f : gmap string dataRef → A → gmap string dataRef) (P : A → Prop) l refs n part :
  (∀ refs x, covered (f refs x) n part ↔ covered refs n part ∨ P x) →
  covered (fold_left f l refs) n part ↔ covered refs n part ∨ ∃ x, x ∈ l ∧ P x.
Proof.
  intros Hf. revert refs. induction l as [|x l IH]; intros refs; cbn; [set_solver|].
  rewrite IH, Hf. setoid_rewrite elem_of_cons. naive_solver.
Qed.

(** The collected references are exactly what the pod consumes: every environment variable,
    source of an environment, volume and projection, of all containers. *)
Lemma podSpecRefs_consumes spec n part :
  covered (podSpecRefs keyRef fromRef volumeRef sourceRef spec) n part ↔ n ≠ "" ∧ consumes spec n part.
Proof.
  unfold podSpecRefs.
  rewrite (covered_fold _ (λ v, n ≠ "" ∧
    ((∃ o, volumeRef v = Some o ∧ mounts o n part) ∨
     (∃ sources src o, volumeRef v = None ∧ vol_Projected v = Some sources ∧ src ∈ sources ∧
        sourceRef src = Some o ∧ mounts o n part)))).
  2:{ intros refs v. unfold refPodVolume. destruct (volumeRef v) as [o|] eqn:Ho; [rewrite covered_refVolume; naive_solver|].
      destruct (vol_Projected v) as [sources|] eqn:Hp; [|naive_solver].
      rewrite (covered_fold _ (λ src, ∃ o, sourceRef src = Some o ∧ n ≠ "" ∧ mounts o n part)); [naive_solver|].
      intros refs' src. unfold refSource. destruct (sourceRef src) eqn:Hs; [rewrite covered_refVolume|]; naive_solver. }
  rewrite (covered_fold _ (λ c, n ≠ "" ∧
    ((∃ e src s, e ∈ ctr_Env c ∧ env_ValueFrom e = Some src ∧ keyRef src = Some s ∧ ksel_Name s = n ∧ part = Some (ksel_Key s)) ∨
     (∃ ef, ef ∈ ctr_EnvFrom c ∧ fromRef ef = Some n ∧ part = None)))).
  2:{ intros refs c. unfold refContainer.
      rewrite (covered_fold _ (λ ef, n ≠ "" ∧ fromRef ef = Some n ∧ part = None)).
      - rewrite (covered_fold _ (λ e, n ≠ "" ∧ ∃ src s, env_ValueFrom e = Some src ∧ keyRef src = Some s ∧
          ksel_Name s = n ∧ part = Some (ksel_Key s))); [naive_solver|].
        intros refs' e. unfold refEnv. destruct (env_ValueFrom e) as [src|] eqn:He; [|naive_solver].
        destruct (keyRef src) as [s|] eqn:Hk; [|naive_solver].
        rewrite (covered_refFunc _ _ _ (λ part, part = Some (ksel_Key s))) by (intros; apply has_addKey). naive_solver.
      - intros refs' ef. unfold refEnvFrom. destruct (fromRef ef) as [name|] eqn:Hf; [|naive_solver].
        rewrite (covered_refFunc _ _ _ (λ part, part = None)) by (intros; apply has_setWhole). naive_solver. }
  assert (covered ∅ n part ↔ False) as ->.
  { unfold covered. rewrite lookup_empty. destruct part; cbn; set_solver. }
  split.
  - intros [[[]|(c & Hc & Hn & [(e & src & s & ?)|(ef & ?)])]|(v & Hv & Hn & [(o & ?)|(sources & src & o & ?)])];
      (split; [done|]); destruct_and?; subst; by econstructor.
  - intros [Hn Hc]. destruct Hc; naive_solver.
Qed.
End Consumes.

(** C33: the two collectors are complete and sound: the Secrets (and the ConfigMaps) they record
    for a pod, whole or by key, are exactly those the pod consumes by an environment
    variable, an environment source, a volume or a projection of any container; only a
    reference without a name is left out. *)
Theorem podSpecRefs_complete spec name part :
  (covered (podSpecSecretRefs spec) name part ↔
     name ≠ "" ∧ consumes evs_SecretKeyRef efs_SecretRef vol_Secret vp_Secret spec name part) ∧
  (covered (podSpecConfigMapRefs spec) name part ↔
     name ≠ "" ∧ consumes evs_ConfigMapKeyRef efs_ConfigMapRef vol_ConfigMap vp_ConfigMap spec name part).
Proof. split; apply podSpecRefs_consumes. Qed.

(** ** What is hashed *)

(** The answers of the reads, by name, and the fields they give. *)
Definition reads (namespace : string) (l : list (string * res Secret error)) : khist :=
  (λ x, KEv (KGetSecret namespace x.1) x.2) <$> l.

Definition keyValue (s : Secret) (k : string) : list Z :=
  match sec_Data s !! k with Some v => bytes_of v | None => missingMark end.

Definition answerParts (refs : gmap string dataRef) (x : string * res Secret error) : list (list Z) :=
  bytes_of x.1 ::
  match x.2 with
  | Err _ => [absentMark]
  | Ok s => secretWanted (default dataRef0 (refs !! x.1)) (sec_Data s) ≫= λ k, [bytes_of k; keyValue s k]
  end.

Definition secretPreimage (refs : gmap string dataRef) (l : list (string * res Secret error)) : list Z :=
  mjoin (frame <$> (l ≫= answerParts refs)).

Lemma write_secret refs name s w :
  fold_left (writeSecretKey (sec_Data s)) (secretWanted (default dataRef0 (refs !! name)) (sec_Data s))
    (write [bytes_of name] w) = write (answerParts refs (name, Ok s)) w.
Proof.
  unfold answerParts. cbn [fst snd].
  rewrite (write_parts (λ k, [bytes_of k; keyValue s k])), write_app; [done|].
  intros w0 k. unfold writeSecretKey, keyValue. by destruct (sec_Data s !! k).
Qed.

Lemma hashSecrets_runs ns refs names w t r :
  runs (hashSecrets ns refs names w) t r →
  ∃ l, t = reads ns l ∧
    match r with
    | Ok w' => l.*1 = names ∧ w' = write (l ≫= answerParts refs) w ∧
        ∀ name e, (name, Err e) ∈ l → apierrors_IsNotFound e = true
    | Err err => ∃ l' name e, l = l' ++ [(name, Err e)] ∧ apierrors_IsNotFound e = false ∧
        err = Errorf "hashing Secret %s/%s for pod template: %w" [FStr ns; FStr name] (Some e)
    end.
Proof.
  revert w t. induction names as [|name names IH]; intros w t; cbn [hashSecrets].
  { intros [-> ->]. exists []. split; [done|]. split; [done|]. split; [unfold write; by rewrite app_nil_r|].
    by intros ?? ?%not_elem_of_nil. }
  intros (x & t' & -> & Hr).
  assert (∀ w1, runs (hashSecrets ns refs names w1) t' r →
    w1 = write (answerParts refs (name, x)) w →
    (∀ e, x = Err e → apierrors_IsNotFound e = true) → ∃ l, KEv (KGetSecret ns name) x :: t' = reads ns l ∧
    match r with
    | Ok w' => l.*1 = name :: names ∧ w' = write (l ≫= answerParts refs) w ∧
        ∀ name e, (name, Err e) ∈ l → apierrors_IsNotFound e = true
    | Err err => ∃ l' name e, l = l' ++ [(name, Err e)] ∧ apierrors_IsNotFound e = false ∧
        err = Errorf "hashing Secret %s/%s for pod template: %w" [FStr ns; FStr name] (Some e)
    end) as Hcons.
  { intros w1 Hr1 -> Hx. apply IH in Hr1 as (l & -> & Hl). exists ((name, x) :: l). split; [done|].
    destruct r as [w'|err].
    - destruct Hl as (<- & -> & Hnf). split; [done|]. split; [by rewrite write_app|].
      intros n e [[= <- <-]|?]%elem_of_cons; eauto.
    - destruct Hl as (l' & n & e & -> & ? & ?). by exists ((name, x) :: l'), n, e. }
  cbn in Hr. destruct x as [s|e].
  - eapply Hcons; [exact Hr|apply write_secret|done].
  - destruct (apierrors_IsNotFound e) eqn:He.
    + eapply (Hcons (write [absentMark] (write [bytes_of name] w))); [exact Hr|by rewrite write_app|].
      by intros e' [= <-].
    + destruct Hr as [-> ->]. exists [(name, Err e)]. split; [done|]. by exists [], name, e.
Qed.

(** The digest of the Secrets of a pod template is the empty string when the pod
    consumes none; else every Secret is read, in the order of the names, and the
    digest is SHA-256 of the framed names, keys and values.  A Secret that does
    not exist counts as absent; any other failed read stops and fails, so that a
    transient failure never yields a digest. *)
Lemma podTemplateSecretHash_spec ns spec t r :
  runs (podTemplateSecretHash ns spec) t r →
  let refs := podSpecSecretRefs spec in
  (refs = ∅ ∧ t = [] ∧ r = Ok "") ∨
  refs ≠ ∅ ∧ ∃ l, t = reads ns l ∧
    match r with
    | Ok h => l.*1 = sortedKeys refs ∧ h = sum (secretPreimage refs l) ∧
        ∀ name e, (name, Err e) ∈ l → apierrors_IsNotFound e = true
    | Err err => ∃ l' name e, l = l' ++ [(name, Err e)] ∧ apierrors_IsNotFound e = false ∧
        err = Errorf "hashing Secret %s/%s for pod template: %w" [FStr ns; FStr name] (Some e)
    end.
Proof.
  intros Hr refs. unfold podTemplateSecretHash in Hr. cbv zeta in Hr. fold refs in Hr.
  case_decide as Hempty; [left; by destruct Hr as [-> ->]|]. right. split; [done|].
  apply runs_bind_inv in Hr as (t1 & t2 & r0 & -> & Hr & [-> ->]). rewrite app_nil_r.
  apply hashSecrets_runs in Hr as (l & -> & Hl). exists l. split; [done|].
  destruct r0 as [w|err]; [|done]. destruct Hl as (Hn & -> & Hnf). done.
Qed.

(** ** Which changes roll the workload *)

(** The references are to single keys, none of which is the mark of absence. *)
Definition by_keys (refs : gmap string dataRef) : Prop :=
  map_Forall (λ _ d, dr_whole d = false ∧
    ∀ k, k ∈ default ∅ (dr_keys d) → bytes_of k ≠ absentMark) refs.

(** The same Secret for a pod that consumes some keys of it: absent, or with each of those
    keys absent or of the same value. *)
Definition same_consumed (refs : gmap string dataRef) (x y : string * res Secret error) : Prop :=
  x.1 = y.1 ∧
  match x.2, y.2 with
  | Err _, Err _ => True
  | Ok s, Ok s' => ∀ k, k ∈ default ∅ (dr_keys (default dataRef0 (refs !! x.1))) →
                     sec_Data s !! k = sec_Data s' !! k
  | _, _ => False
  end.

(** No value that is read is the bytes that stand for an absent key. *)
Definition unmarked (x : string * res Secret error) : Prop :=
  ∀ s k v, x.2 = Ok s → sec_Data s !! k = Some v → bytes_of v ≠ missingMark.

#[export] Instance byte_of_ascii_inj : Inj (=) (=) byte_of_ascii.
Proof.
  intros x y Hxy. unfold byte_of_ascii in Hxy. apply N2Z.inj in Hxy.
  by rewrite <- (Ascii.ascii_N_embedding x), <- (Ascii.ascii_N_embedding y), Hxy.
Qed.

#[export] Instance bytes_of_inj : Inj (=) (=) bytes_of.
Proof.
  intros a b Hab%(inj (fmap byte_of_ascii)).
  by rewrite <- (String.string_of_list_ascii_of_string a), <- (String.string_of_list_ascii_of_string b), Hab.
Qed.

Lemma keyValue_inj (s s' : Secret) k :
  (∀ k v, sec_Data s !! k = Some v → bytes_of v ≠ missingMark) →
  (∀ k v, sec_Data s' !! k = Some v → bytes_of v ≠ missingMark) →
  keyValue s k = keyValue s' k → sec_Data s !! k = sec_Data s' !! k.
Proof.
  intros Hs Hs'. unfold keyValue. destruct (sec_Data s !! k) as [v|] eqn:Hv, (sec_Data s' !! k) as [v'|] eqn:Hv'; try done.
  - intros ->%(inj bytes_of). done.
  - intros Heq. by destruct (Hs _ _ Hv).
  - intros Heq. by destruct (Hs' _ _ Hv').
Qed.

Lemma secretWanted_by_keys refs name data :
  refs_ok refs → by_keys refs → is_Some (refs !! name) →
  ∃ ks, secretWanted (default dataRef0 (refs !! name)) data = slices_Sorted (elements ks) ∧ ks ≠ ∅ ∧
    dr_keys (default dataRef0 (refs !! name)) = Some ks ∧ ∀ k, k ∈ ks → bytes_of k ≠ absentMark.
Proof.
  intros Hok Hby [d Hd]. rewrite Hd. simpl. destruct (Hok _ _ Hd) as [Hw|(ks & Hks & Hne)];
    destruct (Hby _ _ Hd) as [Hw' Habs]; [congruence|].
  exists ks. unfold secretWanted. rewrite Hw', Hks. by rewrite Hks in Habs.
Qed.

Lemma elem_of_slices_Sorted k ks : k ∈ slices_Sorted (elements (C := gset string) ks) ↔ k ∈ ks.
Proof. unfold slices_Sorted. by rewrite merge_sort_Permutation, elem_of_elements. Qed.

Lemma key_fields_inj (s s' : Secret) l :
  (l ≫= λ k, [bytes_of k; keyValue s k]) = (l ≫= λ k, [bytes_of k; keyValue s' k]) ↔
  ∀ k, k ∈ l → keyValue s k = keyValue s' k.
Proof.
  induction l as [|k l IH]; cbn.
  { split; [by intros _ k ?%not_elem_of_nil|done]. }
  split.
  - intros [= Hv Hl]. intros k' [->|?]%elem_of_cons; [done|]. by apply IH.
  - intros Hall. rewrite (Hall k) by left. do 2 f_equal. apply IH. intros k' Hk'. apply Hall. by right.
Qed.

Lemma key_fields_length (s : Secret) l :
  length (l ≫= λ k, [bytes_of k; keyValue s k]) = (2 * length l)%nat.
Proof. induction l as [|k l IH]; [done|]. cbn [mbind list_bind]. rewrite length_app, IH. simpl. lia. Qed.

Lemma answerParts_inj refs name a a' rest rest' :
  refs_ok refs → by_keys refs → is_Some (refs !! name) → unmarked (name, a) → unmarked (name, a') →
  answerParts refs (name, a) ++ rest = answerParts refs (name, a') ++ rest' →
  same_consumed refs (name, a) (name, a') ∧ rest = rest'.
Proof.
  intros Hok Hby Hsome Hm Hm'. unfold answerParts, same_consumed. cbn [fst snd].
  destruct (secretWanted_by_keys refs name ∅ Hok Hby Hsome) as (ks & _ & Hne & Hks & Habs).
  assert (∀ data, secretWanted (default dataRef0 (refs !! name)) data = slices_Sorted (elements ks)) as Hw.
  { intros data. destruct (secretWanted_by_keys refs name data Hok Hby Hsome) as (ks' & -> & _ & ? & _).
    congruence. }
  assert (∀ s r r', [absentMark] ++ r ≠
    (slices_Sorted (elements ks) ≫= λ k, [bytes_of k; keyValue s k]) ++ r') as Hdiff.
  { intros s r r'. destruct (slices_Sorted (elements ks)) as [|k l] eqn:Hl.
    - exfalso. apply Hne, elem_of_equiv_empty_L. intros k Hk%elem_of_slices_Sorted. rewrite Hl in Hk. set_solver.
    - cbn. intros [= Hk _]. eapply Habs; [|exact (eq_sym Hk)]. apply elem_of_slices_Sorted. rewrite Hl. by left. }
  destruct a as [s|e], a' as [s'|e']; rewrite ?Hw; cbn [app]; intros [= Heq].
  - rewrite Hks. simpl. apply app_inj_1 in Heq as [Heq ->]; [|by rewrite !key_fields_length].
    split; [|done]. split; [done|]. intros k Hk. apply keyValue_inj; [by intros; eapply Hm|by intros; eapply Hm'|].
    eapply key_fields_inj; [exact Heq|]. by apply elem_of_slices_Sorted.
  - by destruct (Hdiff s rest' rest).
  - by destruct (Hdiff s' rest rest').
  - done.
Qed.

Lemma answerParts_same refs x y :
  refs_ok refs → by_keys refs → is_Some (refs !! x.1) →
  same_consumed refs x y → answerParts refs x = answerParts refs y.
Proof.
  destruct x as [name a], y as [name' a']. intros Hok Hby Hsome [Hn Hs]. cbn in *. subst name'.
  destruct (secretWanted_by_keys refs name ∅ Hok Hby Hsome) as (ks & _ & _ & Hks & _).
  unfold answerParts. cbn [fst snd]. f_equal. destruct a as [s|e], a' as [s'|e']; try done.
  destruct (secretWanted_by_keys refs name (sec_Data s) Hok Hby Hsome) as (k1 & -> & _ & H1 & _).
  destruct (secretWanted_by_keys refs name (sec_Data s') Hok Hby Hsome) as (k2 & -> & _ & H2 & _).
  assert (k2 = k1) as -> by congruence. apply key_fields_inj. intros k Hk%elem_of_slices_Sorted.
  unfold keyValue. rewrite Hs; [done|]. by rewrite H1.
Qed.

(** C32: for a pod that consumes its Secrets key by key, when no value read is the bytes
    NUL "missing" that stand for an absent key, the hashed bytes are the same exactly when
    everything consumed is: a Secret that appears or disappears, a key that does, or a value
    that changes is always seen, however names, keys and values are cut.  A change to a key
    the pod does not consume never rolls the workload, whatever the values.  No consumed key may
    be named like the mark of an absent Secret (no valid key is), and what is hashed is
    framed by lengths of 64 bits ([short]). *)
Theorem secretPreimage_faithful spec l l' :
  let refs := podSpecSecretRefs spec in
  by_keys refs →
  Forall (λ x, is_Some (refs !! x.1)) l →
  l.*1 = l'.*1 →
  Forall short (l ≫= answerParts refs) → Forall short (l' ≫= answerParts refs) →
  (Forall2 (same_consumed refs) l l' → secretPreimage refs l = secretPreimage refs l') ∧
  (Forall unmarked l → Forall unmarked l' →
   secretPreimage refs l = secretPreimage refs l' → Forall2 (same_consumed refs) l l').
Proof.
  intros refs Hby Hin Hn Hs Hs'.
  assert (refs_ok refs) as Hok by apply podSpecRefs_ok. unfold secretPreimage. split.
  - intros Hall. f_equal. f_equal. clear Hs Hs' Hn. induction Hall as [|x y l l' Hxy _ IH]; [done|].
    apply Forall_cons in Hin as [Hx Hin]. cbn [mbind list_bind].
    rewrite (answerParts_same refs x y) by done. f_equal. by apply IH.
  - intros Hm Hm' Heq%frames_inj; [|done|done]. clear Hs Hs'. revert l' Hn Hm' Heq.
    induction l as [|[name a] l IH]; intros [|[name' a'] l'] Hn Hm' Heq; try done.
    injection Hn as <- Hn. apply Forall_cons in Hin as [Hname Hin]. cbn [mbind list_bind] in Heq.
    apply Forall_cons in Hm as [Ha Hm]. apply Forall_cons in Hm' as [Ha' Hm'].
    apply answerParts_inj in Heq as [Hsame Heq]; [|done..]. constructor; [done|]. by apply IH.
Qed.

(** The value that is those bytes is not told from an absent key. *)
Lemma missing_mark_collides (refs : gmap string dataRef) name k (s : Secret) :
  refs !! name = Some (MkDataRef false (Some {[k]})) → sec_Data s !! k = None →
  let marked := MkSecret (sec_meta s) (sec_Type s) {[k := String (Ascii.ascii_of_nat 0) "missing"]} (sec_StringData s) in
  secretPreimage refs [(name, Ok s)] = secretPreimage refs [(name, Ok marked)] ∧
  ¬ same_consumed refs (name, Ok s) (name, Ok marked).
Proof.
  intros Hr Hk marked. split.
  - unfold secretPreimage. do 2 f_equal. cbn [mbind list_bind]. rewrite !app_nil_r. unfold answerParts, secretWanted.
    cbn [fst snd]. rewrite Hr. cbn [default from_option id dr_whole dr_keys]. rewrite elements_singleton.
    change (slices_Sorted [k]) with [k]. cbn [mbind list_bind app]. unfold keyValue, marked. cbn [sec_Data].
    by rewrite Hk, lookup_singleton_eq.
  - intros [_ Hs]. cbn [fst snd] in Hs. rewrite Hr in Hs. specialize (Hs k). unfold marked in Hs. cbn [sec_Data] in Hs.
    rewrite Hk, lookup_singleton_eq in Hs. cbn in Hs. discriminate Hs. set_solver.
Qed.

(** Any answers of the reads that are not failures give a digest. *)
Lemma hashSecrets_total ns refs l w :
  (∀ name e, (name, Err e) ∈ l → apierrors_IsNotFound e = true) →
  runs (hashSecrets ns refs l.*1 w) (reads ns l) (Ok (write (l ≫= answerParts refs) w)).
Proof.
  revert w. induction l as [|[name a] l IH]; intros w Hnf; cbn [hashSecrets fmap list_fmap fst].
  { split; [done|]. unfold write. by rewrite app_nil_r. }
  assert (∀ n e, (n, Err e) ∈ l → apierrors_IsNotFound e = true) as Hnf'.
  { intros n e Hin. apply (Hnf n). by right. }
  eexists a, _. split; [done|]. cbn [mbind list_bind]. rewrite <- write_app.
  destruct a as [s|e]; cbn -[write].
  - rewrite <- (write_secret refs name s w). by apply IH.
  - rewrite (Hnf name e) by left.
    replace (write (answerParts refs (name, Err e)) w) with (write [absentMark] (write [bytes_of name] w))
      by (by rewrite write_app).
    by apply IH.
Qed.

Lemma podTemplateSecretHash_total ns spec l :
  podSpecSecretRefs spec ≠ ∅ →
  l.*1 = sortedKeys (podSpecSecretRefs spec) →
  (∀ name e, (name, Err e) ∈ l → apierrors_IsNotFound e = true) →
  runs (podTemplateSecretHash ns spec) (reads ns l) (Ok (sum (secretPreimage (podSpecSecretRefs spec) l))).
Proof.
  intros Hne Hl Hnf. unfold podTemplateSecretHash. cbv zeta. rewrite decide_False by done. rewrite <- Hl.
  rewrite <- (app_nil_r (reads ns l)). eapply runs_bind; [by apply hashSecrets_total|]. done.
Qed.

(** Two Secrets consumed whole can exchange their contents unseen: moving the key
    b from Secret a to Secret b (as the key x) leaves the digest as it was, although
    the fields are framed. *)
Lemma podTemplateSecretHash_collision :
  ∃ spec (a b a' b' : Secret) h,
    sec_Data a ≠ sec_Data a' ∧
    runs (podTemplateSecretHash "ns" spec) (reads "ns" [("a", Ok a); ("b", Ok b)]) (Ok h) ∧
    runs (podTemplateSecretHash "ns" spec) (reads "ns" [("a", Ok a'); ("b", Ok b')]) (Ok h).
Proof.
  set (secret d := MkSecret (MkObjectMeta "" "" "" 0 ∅ None [] [] None "") "Opaque" d ∅).
  set (spec := barePod [bareContainer "litellm" []
    [MkEnvFromSource (Some "a") None JNull; MkEnvFromSource (Some "b") None JNull]]).
  set (l := [("a", Ok (secret {["b" := "x"]})); ("b", Ok (secret ∅))] : list (string * res Secret error)).
  set (l' := [("a", Ok (secret ∅)); ("b", Ok (secret {["x" := "b"]}))] : list (string * res Secret error)).
  exists spec, (secret {["b" := "x"]}), (secret ∅), (secret ∅), (secret {["x" := "b"]}).
  exists (sum (secretPreimage (podSpecSecretRefs spec) l)). split; [done|]. split.
  - apply (podTemplateSecretHash_total _ _ l); [by vm_compute|by vm_compute|set_solver].
  - replace (secretPreimage (podSpecSecretRefs spec) l) with (secretPreimage (podSpecSecretRefs spec) l')
      by (by vm_compute).
    apply (podTemplateSecretHash_total _ _ l'); [by vm_compute|by vm_compute|set_solver].
Qed.
