(* ===== verification/ProxyConfig.v ===== *)
(** * The configuration of the proxy (internal/resources/configmap.go)

    [GenerateProxyConfigWithConflicts] renders the specification of an instance and its
    guardrails into [proxy_server_config.yaml].  A [map[string]interface{}] is a [gmap] of
    [value]s, a section of the configuration a map stored under its name; the YAML text of
    it is made by the library ([YAMLMarshal]). *)

From S2P Require Import Prelude KubeTypes InstanceTypes Types Updates World Sha256 Common Reconcile.
From S2P Require Import Credential Rollout.
From stdpp Require Import sorting.
Open Scope Z_scope.

(** The values of an [interface{}] the rendering stores: typed Go values, and decoded JSON. *)
Inductive value :=
| VBool (b : bool)
| VInt (z : Z)
| VFloat (f : float64)
| VString (s : string)
| VList (l : list value)
| VMap (m : gmap string value)
| VJSON (v : JSONValue).

Definition VStrings (l : list string) : value := VList (VString <$> l).

Abbreviation fields := (gmap string value).

(** [sigs.k8s.io/yaml.Marshal]. *)
Class YAMLMarshal := yaml_Marshal : fields → res string error.

#[local] Notation "x |> f" := (f x) (at level 50, left associativity, only parsing).

(** ** Optional fields

    A string, a list or a map is written when it is not empty, a pointer when it is not nil. *)
Definition set_str (k s : string) (m : fields) : fields := if decide (s = "") then m else <[k := VString s]> m.
Definition set_strs (k : string) (l : list string) (m : fields) : fields :=
  match l with [] => m | _ => <[k := VStrings l]> m end.
Definition set_some {A} (f : A → value) (k : string) (o : option A) (m : fields) : fields :=
  match o with Some a => <[k := f a]> m | None => m end.
Definition set_map {A} (f : A → value) (k : string) (a : gmap string A) (m : fields) : fields :=
  if decide (a = ∅) then m else <[k := VMap (f <$> a)]> m.
Definition set_if (b : bool) (k : string) (v : value) (m : fields) : fields := if b then <[k := v]> m else m.
Definition set_list {A} (f : A → value) (k : string) (l : list A) (m : fields) : fields :=
  match l with [] => m | _ => <[k := VList (f <$> l)]> m end.

(** ** Sections *)

(** [config[name].(map[string]interface{})], or a new map when there is none. *)
Definition section (name : string) (config : fields) : fields :=
  match config !! name with Some (VMap m) => m | _ => ∅ end.

(** A section written when it is not empty. *)
Definition set_section (name : string) (m : fields) (config : fields) : fields :=
  if decide (m = ∅) then config else <[name := VMap m]> config.

(** [ensureLiteLLMSettings(config)] and the writes to the map it returns. *)
Definition with_section (name : string) (f : fields → fields) (config : fields) : fields :=
  <[name := VMap (f (section name config))]> config.

Definition generalSettings : string := "general_settings".
Definition litellmSettings : string := "litellm_settings".
Definition routerSettings : string := "router_settings".

Definition ensureLiteLLMSettings : (fields → fields) → fields → fields := with_section litellmSettings.
Definition ensureGeneralSettings : (fields → fields) → fields → fields := with_section generalSettings.

(** A pointer written into a section, which is created only then. *)
Definition section_some {A} (f : A → value) (name k : string) (o : option A) (config : fields) : fields :=
  match o with Some a => with_section name <[k := f a]> config | None => config end.

(** A builder that runs when its part of the specification is there. *)
Definition on_some {A} (o : option A) (f : A → fields → fields) (config : fields) : fields :=
  match o with Some a => f a config | None => config end.

(** ** Sections rendered from one specification *)

Definition buildGeneralSettings (spec : option GeneralSettingsSpec) : fields :=
  match spec with
  | None => ∅
  | Some spec =>
      ∅ |> set_if (0 <? gs_ProxyBatchWriteAt spec) "proxy_batch_write_at" (VInt (gs_ProxyBatchWriteAt spec))
        |> set_some VBool "master_key_required" (gs_MasterKeyRequired spec)
        |> set_strs "alert_types" (gs_AlertTypes spec)
        |> set_strs "alerting" (gs_Alerting spec)
        |> set_some VInt "alerting_threshold" (gs_AlertingThreshold spec)
        |> set_map VString "alert_to_webhook_url" (gs_AlertToWebhookURL spec)
        |> set_some VBool "background_health_checks" (gs_BackgroundHealthChecks spec)
        |> set_some VInt "health_check_interval" (gs_HealthCheckInterval spec)
        |> set_some VBool "health_check_details" (gs_HealthCheckDetails spec)
        |> set_some VBool "health_check_skip_disabled_background_models" (gs_HealthCheckSkipDisabledModels spec)
        |> set_str "custom_key_generate" (gs_CustomKeyGenerate spec)
        |> set_some VBool "allow_user_auth" (gs_AllowUserAuth spec)
        |> set_some VString "max_budget" (gs_MaxBudget spec)
        |> set_str "budget_duration" (gs_BudgetDuration spec)
        |> set_some VInt "global_max_parallel_requests" (gs_GlobalMaxParallelRequests spec)
        |> set_some VInt "proxy_budget_rescheduler_min_time" (gs_BudgetReschedulerMinTime spec)
        |> set_some VInt "proxy_budget_rescheduler_max_time" (gs_BudgetReschedulerMaxTime spec)
  end.

Definition providerBudget (b : ProviderBudget) : value :=
  VMap {[ "budget_limit" := VString (pb_BudgetLimit b); "time_period" := VString (pb_TimePeriod b) ]}.

Definition buildRouterSettings (spec : option RouterSettingsSpec) : fields :=
  match spec with
  | None => ∅
  | Some spec =>
      ∅ |> set_str "routing_strategy" (rs_RoutingStrategy spec)
        |> set_some VInt "num_retries" (rs_NumRetries spec)
        |> set_some VInt "timeout" (rs_Timeout spec)
        |> set_some VInt "retry_after" (rs_RetryAfter spec)
        |> set_some VInt "stream_timeout" (rs_StreamTimeout spec)
        |> set_some VBool "enable_pre_call_checks" (rs_EnablePreCallChecks spec)
        |> set_map VString "model_group_alias" (rs_ModelGroupAlias spec)
        |> set_some VInt "allowed_fails" (rs_AllowedFails spec)
        |> set_some VInt "cooldown_time" (rs_CooldownTime spec)
        |> set_map VInt "retry_policy" (rs_RetryPolicy spec)
        |> set_map (λ p : gmap string Z, VMap (VInt <$> p)) "model_group_retry_policy" (rs_ModelGroupRetryPolicy spec)
        |> set_if (match rs_EnableTagFiltering spec with Some b => b | None => false end) "enable_tag_filtering" (VBool true)
        |> set_some VBool "tag_filtering_match_any" (rs_TagFilteringMatchAny spec)
        |> set_some VInt "default_max_parallel_requests" (rs_DefaultMaxParallelRequests spec)
        |> set_map providerBudget "provider_budget_config" (rs_ProviderBudgetConfig spec)
  end.

Definition buildLiteLLMSettings (ll : option LiteLLMSettingsSpec) : fields → fields :=
  on_some ll (λ ll config,
    config |> section_some VBool litellmSettings "json_logs" (lls_JSONLogs ll)
           |> section_some VBool litellmSettings "check_provider_endpoint" (lls_CheckProviderEndpoint ll)).

(** ** Fallbacks *)

Definition modelFallbackEntry (e : ModelFallbackEntry) : value :=
  VMap {[ mfe_Model e := VStrings (mfe_Fallbacks e) ]}.

Definition buildFallbackConfig (fb : FallbackSpec) (config : fields) : fields :=
  let config :=
    match fb_DefaultFallbacks fb, fb_ContentPolicyFallbacks fb, fb_ContextWindowFallbacks fb with
    | [], [], [] => config
    | d, cp, cw =>
        with_section litellmSettings (λ ls,
          ls |> set_strs "default_fallbacks" d
             |> set_list modelFallbackEntry "content_policy_fallbacks" cp
             |> set_list modelFallbackEntry "context_window_fallbacks" cw) config
    end in
  match fb_ModelFallbacks fb, fb_MaxFallbacks fb with
  | [], None => config
  | mf, max =>
      with_section routerSettings (λ rs,
        rs |> set_list modelFallbackEntry "fallbacks" mf |> set_some VInt "max_fallbacks" max) config
  end.

(** ** Single sign-on *)

Definition mapDefaultUserTeam (t : DefaultUserTeam) : value :=
  VMap ({[ "team_id" := VString (dut_TeamID t) ]}
        |> set_str "user_role" (dut_Role t)
        |> set_some VFloat "max_budget_in_team" (dut_MaxBudgetInTeam t)).

Definition mapDefaultUserParams (p : DefaultUserParams) : fields :=
  ∅ |> set_some VFloat "max_budget" (dup_MaxBudget p)
    |> set_str "budget_duration" (dup_BudgetDuration p)
    |> set_strs "models" (dup_Models p)
    |> set_str "user_role" (dup_UserRole p)
    |> set_list mapDefaultUserTeam "teams" (dup_Teams p).

Definition mapDefaultTeamParams (p : DefaultTeamParams) : fields :=
  ∅ |> set_some VFloat "max_budget" (dtp_MaxBudget p)
    |> set_str "budget_duration" (dtp_BudgetDuration p)
    |> set_strs "models" (dtp_Models p)
    |> set_some VInt "tpm_limit" (dtp_TPMLimit p)
    |> set_some VInt "rpm_limit" (dtp_RPMLimit p).

Definition customSSOModulePath (handler : option CustomSSOHandlerSpec) : string :=
  match handler with
  | None => ""
  | Some handler =>
      if decide (chs_Module handler = "") then
        match chs_ConfigMapRef handler with
        | None => ""
        | Some ref =>
            if decide (chcmr_FunctionName ref = "") then ""
            else
              let fileName := if decide (chcmr_FileName ref = "") then "handler.py" else chcmr_FileName ref in
              "custom_sso_handlers." +:+ strings_TrimSuffix fileName ".py" +:+ "." +:+ chcmr_FunctionName ref
        end
      else chs_Module handler
  end.

Definition buildSSOConfig (sso : SSOSpec) (config : fields) : fields :=
  let ls : fields :=
    ∅ |> set_some (λ p, VMap (mapDefaultUserParams p)) "default_internal_user_params" (sso_DefaultUserParams sso)
      |> set_some (λ p, VMap (mapDefaultTeamParams p)) "default_team_params" (sso_DefaultTeamParams sso) in
  let config := if decide (ls = ∅) then config else ensureLiteLLMSettings (λ existing, ls ∪ existing) config in
  let config :=
    if decide (sso_TeamIDsJWTField sso = "") then config
    else ensureGeneralSettings
           <["litellm_jwtauth" := VMap {[ "team_ids_jwt_field" := VString (sso_TeamIDsJWTField sso) ]}]> config in
  let path := customSSOModulePath (sso_CustomSSOHandler sso) in
  if decide (path = "") then config else ensureGeneralSettings <["custom_sso" := VString path]> config.

(** ** Authentication *)

Definition scopeMapping (m : JWTScopeMapping) : value :=
  VMap ({[ "scope" := VString (jsm_Scope m) ]} |> set_strs "models" (jsm_Models m) |> set_strs "routes" (jsm_Routes m)).

(** The mappings of the legacy map, in the order of its sorted keys, then the structured ones. *)
Definition scopeMappings (jwt : JWTAuthSpec) : list value :=
  ((λ s, VMap {[ "scope" := VString s; "models" := VStrings (default [] (jwt_ScopeModelMappings jwt !! s)) ]}) <$>
     sortedKeys (jwt_ScopeModelMappings jwt)) ++
  (scopeMapping <$> jwt_ScopeMappings jwt).

Definition roleMapping (m : JWTRoleMapping) : value :=
  VMap {[ "role" := VString (jrm_Role m); "internal_role" := VString (jrm_InternalRole m) ]}.
Definition litellmRole (m : JWTLiteLLMRoleMapEntry) : value :=
  VMap {[ "jwt_role" := VString (jlrme_JWTRole m); "litellm_role" := VString (jlrme_LiteLLMRole m) ]}.
Definition routingOverride (o : JWTRoutingOverride) : value :=
  VMap ({[ "iss" := VString (jro_Iss o) ]}
        |> set_str "client_id" (jro_ClientID o) |> set_str "scope" (jro_Scope o)
        |> set_str "aud" (jro_Aud o) |> set_str "path" (jro_Path o)).

Definition buildJWTMappings (jwt : JWTAuthSpec) (jwtauth : fields) : fields :=
  jwtauth |> set_list id "scope_mappings" (scopeMappings jwt)
          |> set_list roleMapping "role_mappings" (jwt_RoleMappings jwt)
          |> set_list litellmRole "jwt_litellm_role_map" (jwt_JWTLiteLLMRoleMap jwt)
          |> set_list routingOverride "routing_overrides" (jwt_RoutingOverrides jwt).

(** The loops over literal maps of distinct keys, whose order does not matter. *)
Definition jwtStrings (jwt : JWTAuthSpec) : list (string * string) :=
  [("admin_jwt_scope", jwt_AdminJWTScope jwt); ("team_id_jwt_field", jwt_TeamIDJWTField jwt);
   ("team_ids_jwt_field", jwt_TeamIDsJWTField jwt); ("team_alias_jwt_field", jwt_TeamAliasJWTField jwt);
   ("team_id_default", jwt_TeamIDDefault jwt); ("org_id_jwt_field", jwt_OrgIDJWTField jwt);
   ("org_alias_jwt_field", jwt_OrgAliasJWTField jwt); ("user_id_jwt_field", jwt_UserIDJWTField jwt);
   ("user_email_jwt_field", jwt_UserEmailJWTField jwt); ("user_role_jwt_field", jwt_UserRoleJWTField jwt);
   ("user_roles_jwt_field", jwt_UserRolesJWTField jwt); ("user_allowed_email_domain", jwt_UserAllowedEmailDomain jwt);
   ("object_id_jwt_field", jwt_ObjectIDJWTField jwt); ("roles_jwt_field", jwt_RolesJWTField jwt);
   ("end_user_id_jwt_field", jwt_EndUserIDJWTField jwt); ("custom_validate", jwt_CustomValidate jwt);
   ("virtual_key_claim_field", jwt_VirtualKeyClaimField jwt); ("oidc_userinfo_endpoint", jwt_OIDCUserInfoEndpoint jwt)].

Definition jwtLists (jwt : JWTAuthSpec) : list (string * list string) :=
  [("admin_allowed_routes", jwt_AdminAllowedRoutes jwt); ("team_allowed_routes", jwt_TeamAllowedRoutes jwt);
   ("user_allowed_roles", jwt_UserAllowedRoles jwt)].

Definition jwtBools (jwt : JWTAuthSpec) : list (string * option bool) :=
  [("user_id_upsert", jwt_UserIDUpsert jwt); ("team_id_upsert", jwt_TeamIDUpsert jwt);
   ("team_claim_fallback", jwt_TeamClaimFallback jwt); ("enforce_rbac", jwt_EnforceRBAC jwt);
   ("enforce_team_based_model_access", jwt_EnforceTeamBasedModelAccess jwt);
   ("enforce_scope_based_access", jwt_EnforceScopeBasedAccess jwt);
   ("sync_user_role_and_teams", jwt_SyncUserRoleAndTeams jwt); ("oidc_userinfo_enabled", jwt_OIDCUserInfoEnabled jwt)].

Definition jwtInts (jwt : JWTAuthSpec) : list (string * option Z) :=
  [("public_key_ttl", jwt_PublicKeyTTL jwt); ("virtual_key_mapping_cache_ttl", jwt_VirtualKeyMappingCacheTTL jwt);
   ("oidc_userinfo_cache_ttl", jwt_OIDCUserInfoCacheTTL jwt)].

Definition jwtAuth (jwt : JWTAuthSpec) : fields :=
  buildJWTMappings jwt
    (∅ |> fold_left (λ m '(k, v), set_str k v m) (jwtStrings jwt)
       |> fold_left (λ m '(k, v), set_strs k v m) (jwtLists jwt)
       |> fold_left (λ m '(k, v), set_some VBool k v m) (jwtBools jwt)
       |> fold_left (λ m '(k, v), set_some VInt k v m) (jwtInts jwt)).

Definition buildJWTAuthConfig (jwt : JWTAuthSpec) : fields → fields :=
  ensureGeneralSettings (λ gs,
    let gs := <["enable_jwt_auth" := VBool true]> gs in
    if decide (jwtAuth jwt = ∅) then gs else <["litellm_jwtauth" := VMap (jwtAuth jwt)]> gs).

Definition oauth2Mapping (m : OAuth2Mapping) : value :=
  VMap {[ "jwt_field" := VString (oam_JWTField m); "litellm_attribute" := VString (oam_LiteLLMAttribute m) ]}.

Definition buildOAuth2AuthConfig (oauth2 : OAuth2AuthSpec) : fields → fields :=
  ensureGeneralSettings (λ gs,
    let gs := <["enable_oauth2_auth" := VBool true]> gs in
    match oa_ConfigMappings oauth2 with
    | [] => gs
    | l => <["oauth2_config_mappings" :=
               VMap (fold_left (λ m mapping, <[oam_Name mapping := oauth2Mapping mapping]> m) l ∅)]> gs
    end).

Definition rolePermission (permissions : gmap string RolePermission) (role : string) : value :=
  let perm := default (MkRolePermission [] []) (permissions !! role) in
  VMap ({[ "role" := VString role ]} |> set_strs "routes" (rp_Routes perm) |> set_strs "models" (rp_Models perm)).

Definition keyGeneration (kg : KeyGenerationSettings) : fields :=
  ∅ |> set_some (λ t, VMap {[ "allowed_team_member_roles" := VStrings (tkgs_AllowedTeamMemberRoles t) ]})
         "team_key_generation" (kgs_TeamKeyGeneration kg)
    |> set_some (λ p, VMap {[ "allowed_user_roles" := VStrings (pkgs_AllowedUserRoles p) ]})
         "personal_key_generation" (kgs_PersonalKeyGeneration kg).

Definition buildRBACConfig (rbac : RBACSpec) : fields → fields :=
  ensureGeneralSettings (λ gs,
    <["enforce_rbac" := VBool true]> gs
    |> set_strs "admin_only_routes" (rbac_AdminOnlyRoutes rbac)
    |> set_strs "allowed_routes" (rbac_AllowedRoutes rbac)
    |> set_some VBool "default_team_disabled" (rbac_DefaultTeamDisabled rbac)
    |> match rbac_KeyGeneration rbac with
       | Some kg => set_if (bool_decide (keyGeneration kg ≠ ∅)) "key_generation_settings" (VMap (keyGeneration kg))
       | None => id
       end
    |> set_list (rolePermission (rbac_RolePermissions rbac)) "role_permissions" (sortedKeys (rbac_RolePermissions rbac))).

(** ** Other sections *)

Definition buildIPAllowlistConfig (a : IPAllowlistSpec) : fields → fields :=
  ensureGeneralSettings (λ gs,
    <["allowed_ips" := VStrings (ias_AllowedIPs a)]> gs
    |> set_if (match ias_UseXForwardedFor a with Some b => b | None => false end) "use_x_forwarded_for" (VBool true)
    |> set_some VInt "max_request_size_mb" (ias_MaxRequestSizeMB a)
    |> set_some VInt "max_response_size_mb" (ias_MaxResponseSizeMB a)).

Definition buildDefaultCustomerBudget (spec : DefaultCustomerBudgetSpec) (config : fields) : fields :=
  match dcbs_MaxBudget spec with
  | None => if decide (dcbs_BudgetID spec = "") then config
            else ensureLiteLLMSettings (set_str "max_end_user_budget_id" (dcbs_BudgetID spec)) config
  | Some b =>
      ensureLiteLLMSettings (λ ls,
        <["max_end_user_budget" := VFloat b]> ls |> set_str "max_end_user_budget_id" (dcbs_BudgetID spec)) config
  end.

Definition buildSecretManagerConfig (sm : SecretManagerSpec) : fields → fields :=
  let settings :=
    ∅ |> set_strs "hosted_keys" (sm_HostedKeys sm)
      |> set_some VBool "store_virtual_keys" (sm_StoreVirtualKeys sm)
      |> set_str "prefix_for_stored_virtual_keys" (sm_PrefixForStoredVirtualKeys sm)
      |> set_str "access_mode" (sm_AccessMode sm)
      |> set_str "primary_secret_name" (sm_PrimarySecretName sm) in
  ensureGeneralSettings (λ gs,
    <["key_management_system" := VString (sm_Provider sm)]> gs
    |> set_if (bool_decide (settings ≠ ∅)) "key_management_settings" (VMap settings)).

Definition auditLogs (a : AuditLogSpec) (config : fields) : fields :=
  if als_Enabled a then
    config |> ensureGeneralSettings <["store_audit_logs" := VBool true]>
           |> section_some VInt litellmSettings "audit_log_retention_days" (als_RetentionDays a)
  else config.

Definition buildLoggingConfig (l : InstanceLoggingSpec) (config : fields) : fields :=
  config
  |> on_some (ilog_AuditLogs l) auditLogs
  |> section_some VBool litellmSettings "turn_off_message_logging" (ilog_TurnOffMessageLogging l)
  |> section_some VBool litellmSettings "redact_user_api_key_info" (ilog_RedactUserAPIKeyInfo l)
  |> on_some (ilog_SpendLogRetention l) (λ r, ensureGeneralSettings (λ gs,
       gs |> set_str "maximum_spend_logs_retention_period" (slrs_MaxRetentionPeriod r)
          |> set_str "maximum_spend_logs_retention_interval" (slrs_CleanupInterval r))).

Definition uiAccessModeAdminOnly : string := "admin_only".

Definition buildAdminUIConfig (ui : AdminUISpec) (config : fields) : fields :=
  (match aui_AdminOnly ui with
   | Some true => ensureGeneralSettings <["ui_access_mode" := VString uiAccessModeAdminOnly]> config
   | _ => config
   end)
  |> section_some VBool generalSettings "store_model_in_db" (aui_StoreModelInDB ui)
  |> section_some VBool generalSettings "default_team_disabled" (aui_DefaultTeamDisabled ui).

(** ** Caching *)

Definition cacheTypeRedis : string := "redis".
Definition cacheTypeRedisSemantic : string := "redis-semantic".
Definition cacheTypeS3 : string := "s3".
Definition cacheTypeGCS : string := "gcs".
Definition cacheTypeQdrant : string := "qdrant".
Definition cacheModeDefaultOff : string := "default_off".

(** A Secret is referred to by the environment variable that holds it. *)
Definition env_ref (name : string) : value := VString ("os.environ/" +:+ name).

Definition buildRedisCacheParams (instance : LiteLLMInstance) (caching : CachingSpec) (params : fields) : fields :=
  match cch_Redis caching with
  | Some r =>
      params
      |> set_str "host" (crs2_Host r)
      |> set_some VInt "port" (crs2_Port r)
      |> set_some (λ _, env_ref "CACHE_REDIS_PASSWORD") "password" (crs2_PasswordSecretRef r)
      |> set_if (crs2_SSL r) "ssl" (VBool true)
  | None =>
      match is_Redis (Spec instance) with
      | Some redis =>
          if rd_Enabled redis && bool_decide (rd_Host redis ≠ "") then
            <["host" := VString (rd_Host redis)]> params
            |> <["port" := VInt (if rd_Port redis =? 0 then 6379 else rd_Port redis)]>
            |> set_some (λ _, env_ref "REDIS_PASSWORD") "password" (rd_PasswordSecretRef redis)
          else params
      | None => params
      end
  end.

Definition s3CacheParams (s3 : CacheS3Spec) (params : fields) : fields :=
  <["s3_bucket_name" := VString (css2_BucketName s3)]> params
  |> set_str "s3_region_name" (css2_Region s3)
  |> set_some (λ _, env_ref "CACHE_S3_ACCESS_KEY_ID") "s3_aws_access_key_id" (css2_CredentialsSecretRef s3)
  |> set_some (λ _, env_ref "CACHE_S3_SECRET_ACCESS_KEY") "s3_aws_secret_access_key" (css2_CredentialsSecretRef s3).

Definition gcsCacheParams (gcs : CacheGCSSpec) (params : fields) : fields :=
  <["s3_bucket_name" := VString (cs3_BucketName gcs)]> params
  |> set_some (λ _, env_ref "CACHE_GCS_SERVICE_ACCOUNT_JSON") "s3_aws_access_key_id" (cs3_CredentialsSecretRef gcs).

Definition qdrantCacheParams (q : CacheQdrantSpec) (params : fields) : fields :=
  <["qdrant_semantic_cache_embedding_model" := VString "text-embedding-ada-002"]> params
  |> <["qdrant_url" := VString (cqs_URL q)]>
  |> set_some (λ _, env_ref "CACHE_QDRANT_API_KEY") "qdrant_api_key" (cqs_APIKeySecretRef q)
  |> set_str "qdrant_collection_name" (cqs_CollectionName q).

(** The parameters of the backend. *)
Definition backendParams (instance : LiteLLMInstance) (caching : CachingSpec) (cacheType : string) : fields → fields :=
  if decide (cacheType = cacheTypeRedis ∨ cacheType = cacheTypeRedisSemantic) then buildRedisCacheParams instance caching
  else if decide (cacheType = cacheTypeS3) then on_some (cch_S3 caching) s3CacheParams
  else if decide (cacheType = cacheTypeGCS) then on_some (cch_GCS caching) gcsCacheParams
  else if decide (cacheType = cacheTypeQdrant) then on_some (cch_Qdrant caching) qdrantCacheParams
  else id.

(** The [params] of [buildCachingConfig]. *)
Definition cacheParams (instance : LiteLLMInstance) (caching : CachingSpec) : fields :=
  let cacheType := if decide (cch_Type caching = "") then cacheTypeRedis else cch_Type caching in
  {[ "type" := VString cacheType ]}
  |> backendParams instance caching cacheType
  |> set_some VInt "ttl" (cch_TTL caching)
  |> set_str "namespace" (cch_Namespace caching)
  |> set_strs "supported_call_types" (cch_SupportedCallTypes caching)
  |> set_if (bool_decide (cch_Mode caching = cacheModeDefaultOff)) "mode" (VString cacheModeDefaultOff).

Definition buildCachingConfig (instance : LiteLLMInstance) (caching : CachingSpec) : fields → fields :=
  ensureLiteLLMSettings (λ ls, <["cache_params" := VMap (cacheParams instance caching)]> (<["cache" := VBool true]> ls)).

(** ** Names of environment variables *)

(** The width of the first rune of a text, as [utf8.DecodeRune] reads it: one byte when the
    encoding is not valid. *)
Definition continuation (lo hi b : Z) : bool := (lo <=? b) && (b <=? hi).
Definition rune_width (l : list Z) : nat :=
  let byte i := nth i l (-1) in
  let cont b := continuation 0x80 0xBF b in
  if continuation 0xC2 0xDF (byte 0%nat) && cont (byte 1%nat) then 2%nat
  else if continuation 0xE0 0xEF (byte 0%nat) &&
          continuation (if byte 0%nat =? 0xE0 then 0xA0 else 0x80) (if byte 0%nat =? 0xED then 0x9F else 0xBF) (byte 1%nat) &&
          cont (byte 2%nat) then 3%nat
  else if continuation 0xF0 0xF4 (byte 0%nat) &&
          continuation (if byte 0%nat =? 0xF0 then 0x90 else 0x80) (if byte 0%nat =? 0xF4 then 0x8F else 0xBF) (byte 1%nat) &&
          cont (byte 2%nat) && cont (byte 3%nat) then 4%nat
  else 1%nat.

Definition is_alnum (b : Z) : bool :=
  continuation 48 57 b || continuation 65 90 b || continuation 97 122 b.

(** [sanitizeEnvVarSegment.ReplaceAllString(s, "_")]: every rune that is no ASCII letter or
    digit becomes an underscore; [fuel] is the length of [l]. *)
Fixpoint sanitize_bytes (fuel : nat) (l : list Z) : list Z :=
  match fuel, l with
  | S fuel, b :: l' =>
      if is_alnum b then b :: sanitize_bytes fuel l' else 95 :: sanitize_bytes fuel (drop (rune_width l) l)
  | _, _ => []
  end.

Definition sanitizeEnvVarSegment (s : string) : string :=
  let l := bytes_of s in string_of (sanitize_bytes (length l) l).

(** [strings.ToUpper] of ASCII text. *)
Definition to_upper (l : list Z) : list Z := (λ b, if continuation 97 122 b then b - 32 else b) <$> l.
Definition strings_ToUpper (s : string) : string := string_of (to_upper (bytes_of s)).

(** [strings.TrimLeft(s, "/")] *)
Fixpoint trim_slashes (s : string) : string :=
  match s with
  | String c s' => if byte_of_ascii c =? 47 then trim_slashes s' else s
  | EmptyString => s
  end.

Definition GuardrailEnvVarName (guardrailName : string) : string :=
  strings_ToUpper ("GUARDRAIL_" +:+ sanitizeEnvVarSegment guardrailName +:+ "_API_KEY").

Definition PassThroughEnvVarName (path headerName : string) : string :=
  strings_ToUpper ("PASSTHROUGH_" +:+ sanitizeEnvVarSegment (trim_slashes path) +:+ "_" +:+ sanitizeEnvVarSegment headerName).

Example env_1 : GuardrailEnvVarName "pii-detector" = "GUARDRAIL_PII_DETECTOR_API_KEY".
Proof. by vm_compute. Qed.

(** Two guardrails, or two endpoints, can share a variable. *)
Example env_shared : GuardrailEnvVarName "pii-eu" = GuardrailEnvVarName "PII_EU".
Proof. by vm_compute. Qed.
Example pass_through_shared :
  PassThroughEnvVarName "/v1/pay-eu" "Authorization" = PassThroughEnvVarName "/v1/pay/eu" "Authorization".
Proof. by vm_compute. Qed.

(** ** Pass-through endpoints *)

Definition headerSecretRef (ep : PassThroughEndpoint) (hs : HeaderSecretRef) : string :=
  hsr_Prefix hs +:+ "os.environ/" +:+ PassThroughEnvVarName (pte_Path ep) (hsr_HeaderName hs).

(** The static headers, then those whose value is in a Secret. *)
Definition passThroughHeaders (ep : PassThroughEndpoint) : gmap string string :=
  fold_left (λ headers hs, <[hsr_HeaderName hs := headerSecretRef ep hs]> headers) (pte_HeaderSecrets ep) (pte_Headers ep).

Definition passThroughEntry (ep : PassThroughEndpoint) : value :=
  VMap ({[ "path" := VString (pte_Path ep); "target" := VString (pte_Target ep) ]}
        |> set_some VBool "auth" (pte_Auth ep)
        |> set_some VBool "forward_headers" (pte_ForwardHeaders ep)
        |> set_some VBool "include_subpath" (pte_IncludeSubpath ep)
        |> set_strs "methods" (pte_Methods ep)
        |> set_map VString "default_query_params" (pte_DefaultQueryParams ep)
        |> set_map VString "headers" (passThroughHeaders ep)).

Definition buildPassThroughEndpointsConfig (endpoints : list PassThroughEndpoint) : fields → fields :=
  ensureGeneralSettings <["pass_through_endpoints" := VList (passThroughEntry <$> endpoints)]>.

(** ** Guardrails *)

Section Rendering.
Context `{JSONUnmarshal}.

Definition genericGuardrailStreamingKeys : list string :=
  ["streaming_transform_mode"; "streaming_sampling_rate"; "streaming_end_of_stream_only"].

(** The parameters the operator sets itself. *)
Definition guardrailParams (g : LiteLLMGuardrail) : fields :=
  let sp := Spec g in
  {[ "guardrail" := VString (if decide (grs_Provider sp = "custom_guardrail") then grs_GuardrailClass sp else grs_Provider sp);
     "mode" := VString (grs_Mode sp) ]}
  |> set_some (λ _, env_ref (GuardrailEnvVarName (grs_GuardrailName sp))) "api_key" (grs_APIKeySecretRef sp)
  |> set_str "api_base" (grs_APIBase sp)
  |> set_some VBool "default_on" (grs_DefaultOn sp)
  |> set_str "unreachable_fallback" (grs_UnreachableFallback sp).

(** [if _, reserved := params[k]; reserved { continue }; params[k] = v] *)
Definition addParam (k : string) (v : JSONValue) (params : fields) : fields :=
  match params !! k with Some _ => params | None => <[k := VJSON v]> params end.

Definition streamingParam (decoded : gmap string JSONValue) (params : fields) (k : string) : fields :=
  match decoded !! k with Some v => <[k := VJSON v]> params | None => params end.

Definition withParams (g : LiteLLMGuardrail) (params : fields) : fields :=
  let decoded := DecodeJSONParams (grs_Params (Spec g)) in
  if decide (grs_Provider (Spec g) = "generic_guardrail_api") then
    fold_left (streamingParam decoded) genericGuardrailStreamingKeys
      (set_map VJSON "additional_provider_specific_params" decoded params)
  else map_fold addParam params decoded.

Definition guardrailEntry (g : LiteLLMGuardrail) : value :=
  VMap {[ "guardrail_name" := VString (grs_GuardrailName (Spec g));
          "litellm_params" := VMap (withParams g (guardrailParams g)) ]}.

Definition buildGuardrailsList (instance : LiteLLMInstance) (guardrails : list LiteLLMGuardrail) (config : fields) : fields :=
  set_list guardrailEntry "guardrails"
    (filter (λ g : LiteLLMGuardrail, ir_Name (grs_InstanceRef (Spec g)) = Name (Meta instance)) guardrails) config.

(** ** Raw settings *)

(** One key of the loop: the section and the keys skipped so far. *)
Definition extraKey (decoded : gmap string JSONValue) (acc : fields * list string) (k : string) : fields * list string :=
  let '(section, skipped) := acc in
  match section !! k with
  | Some _ => (section, skipped ++ [k])
  | None => (<[k := VJSON (default JNull (decoded !! k))]> section, skipped)
  end.

Definition applyExtraSettings (section : fields) (extra : gmap string string) : fields * list string :=
  let decoded := DecodeJSONParams extra in
  fold_left (extraKey decoded) (sortedKeys decoded) (section, []).

Definition prefixKeys (section : string) (keys : list string) : list string := (λ k, section +:+ "." +:+ k) <$> keys.

(** The raw settings of one section, written last. *)
Definition extraSection (name : string) (extra : gmap string string) (config : fields) : fields * list string :=
  if decide (extra = ∅) then (config, [])
  else
    let '(m, skipped) := applyExtraSettings (section name config) extra in
    (<[name := VMap m]> config, prefixKeys name skipped).

Definition applyAllExtraSettings (instance : LiteLLMInstance) (config : fields) : fields * list string :=
  let '(config, c1) :=
    match is_GeneralSettings (Spec instance) with
    | Some gs => extraSection generalSettings (gs_Extra gs) config
    | None => (config, [])
    end in
  let '(config, c2) :=
    match is_LiteLLMSettings (Spec instance) with
    | Some ll => extraSection litellmSettings (lls_Extra ll) config
    | None => (config, [])
    end in
  (config, c1 ++ c2).

(** ** The whole configuration *)

Definition callbacks (c : CallbacksSpec) : fields → fields :=
  match cs2_Types c with
  | [] => id
  | types => ensureLiteLLMSettings (λ ls,
               <["failure_callback" := VStrings types]> (<["success_callback" := VStrings types]> ls))
  end.

Definition when_enabled {A} (enabled : A → bool) (f : A → fields → fields) (a : A) : fields → fields :=
  if enabled a then f a else id.

(** The configuration before the raw settings. *)
Definition derivedConfig (instance : LiteLLMInstance) (guardrails : list LiteLLMGuardrail) : fields :=
  let sp := Spec instance in
  {[ "model_list" := VList [] ]}
  |> set_section generalSettings (buildGeneralSettings (is_GeneralSettings sp))
  |> set_section routerSettings (buildRouterSettings (is_RouterSettings sp))
  |> on_some (db_ConnectionPool (is_Database sp)) (when_enabled (λ pool, 0 <? cps_MaxConnections pool)
       (λ pool, ensureGeneralSettings <["database_connection_pool_limit" := VInt (cps_MaxConnections pool)]>))
  |> buildLiteLLMSettings (is_LiteLLMSettings sp)
  |> on_some (is_Fallbacks sp) buildFallbackConfig
  |> on_some (is_SSO sp) (when_enabled sso_Enabled buildSSOConfig)
  |> on_some (is_Callbacks sp) callbacks
  |> on_some (is_Caching sp) (when_enabled cch_Enabled (buildCachingConfig instance))
  |> on_some (is_Security sp) (λ s, on_some (secu_IPAllowlist s) (when_enabled ias_Enabled buildIPAllowlistConfig))
  |> match is_PassThroughEndpoints sp with [] => id | l => buildPassThroughEndpointsConfig l end
  |> on_some (is_JWTAuth sp) (when_enabled jwt_Enabled buildJWTAuthConfig)
  |> on_some (is_OAuth2Auth sp) (when_enabled oa_Enabled buildOAuth2AuthConfig)
  |> on_some (is_RBAC sp) (when_enabled rbac_Enabled buildRBACConfig)
  |> on_some (is_DefaultCustomerBudget sp) buildDefaultCustomerBudget
  |> on_some (is_SecretManager sp) buildSecretManagerConfig
  |> on_some (is_Logging sp) buildLoggingConfig
  |> on_some (is_AdminUI sp) buildAdminUIConfig
  |> buildGuardrailsList instance guardrails.

Definition GenerateProxyConfigWithConflicts (instance : LiteLLMInstance) (guardrails : list LiteLLMGuardrail) :
    fields * list string :=
  applyAllExtraSettings instance (derivedConfig instance guardrails).

Definition GenerateProxyConfig (instance : LiteLLMInstance) (guardrails : list LiteLLMGuardrail) : fields :=
  (GenerateProxyConfigWithConflicts instance guardrails).1.

Definition ExtraSettingsConflicts (instance : LiteLLMInstance) (guardrails : list LiteLLMGuardrail) : list string :=
  (GenerateProxyConfigWithConflicts instance guardrails).2.

Definition configFileName : string := "proxy_server_config.yaml".

Definition BuildConfigMap `{YAMLMarshal} (instance : LiteLLMInstance) (labels : gmap string string)
    (guardrails : list LiteLLMGuardrail) : res ConfigMap error :=
  match yaml_Marshal (GenerateProxyConfig instance guardrails) with
  | Err err => Err err
  | Ok configYAML =>
      Ok (MkConfigMap
            (MkObjectMeta (Name (Meta instance) +:+ "-config") (Namespace (Meta instance)) "" 0 labels None [] [] None "")
            {[ configFileName := configYAML ]} ∅)
  end.
End Rendering.

(** ** What a builder writes *)

(** The keys a change of a map may touch. *)
Definition touches (keys : list string) (f : fields → fields) : Prop := ∀ m k, k ∉ keys → f m !! k = m !! k.

Definition sectionNames : list string := [generalSettings; litellmSettings; routerSettings].
Definition sections_ok (config : fields) : Prop :=
  ∀ n, n ∈ sectionNames → config !! n = None ∨ ∃ m, config !! n = Some (VMap m).

Section SetNe.
Context (k k' : string) (m : fields) (Hk : k ≠ k').
Lemma set_str_ne s : set_str k s m !! k' = m !! k'.
Proof. unfold set_str. case_decide; [done|]. by apply lookup_insert_ne. Qed.
Lemma set_strs_ne l : set_strs k l m !! k' = m !! k'.
Proof. destruct l; [done|]. by apply lookup_insert_ne. Qed.
Lemma set_some_ne {A} (f : A → value) o : set_some f k o m !! k' = m !! k'.
Proof. destruct o; [|done]. by apply lookup_insert_ne. Qed.
Lemma set_map_ne {A} (f : A → value) a : set_map f k a m !! k' = m !! k'.
Proof. unfold set_map. case_decide; [done|]. by apply lookup_insert_ne. Qed.
Lemma set_if_ne b v : set_if b k v m !! k' = m !! k'.
Proof. destruct b; [|done]. by apply lookup_insert_ne. Qed.
Lemma set_list_ne {A} (f : A → value) l : set_list f k l m !! k' = m !! k'.
Proof. destruct l; [done|]. by apply lookup_insert_ne. Qed.
End SetNe.

Ltac touches_tac :=
  let m := fresh "m" in let k' := fresh "k'" in let Hk := fresh "Hk" in
  intros m k' Hk;
  let ne := (intros <-; apply Hk; compute_done) in
  repeat first
    [ done
    | apply lookup_empty
    | apply lookup_singleton_ne; ne
    | first [ rewrite set_str_ne by ne | rewrite set_strs_ne by ne | rewrite set_some_ne by ne | rewrite set_map_ne by ne
            | rewrite set_if_ne by ne | rewrite set_list_ne by ne | rewrite lookup_insert_ne by ne ]
    | rewrite lookup_union_r
    | progress unfold id
    | case_match ].

(** From [c] to [c'] only the settings of [L] (section and key) change: the other settings keep
    their value, no other part of the configuration changes and sections stay maps. *)
Record frame (L : list (string * string)) (c c' : fields) : Prop := {
  fr_settings n k : (n, k) ∉ L → section n c' !! k = section n c !! k;
  fr_top n : n ∉ sectionNames → c' !! n = c !! n;
  fr_ok : sections_ok c → sections_ok c'
}.

#[export] Instance frame_preorder L : PreOrder (frame L).
Proof.
  split; [by split|]. intros c1 c2 c3 H1 H2. split.
  - intros n k Hk. by rewrite (fr_settings _ _ _ H2), (fr_settings _ _ _ H1).
  - intros n Hn. by rewrite (fr_top _ _ _ H2), (fr_top _ _ _ H1).
  - intros Hc. by apply (fr_ok _ _ _ H2), (fr_ok _ _ _ H1).
Qed.

Lemma section_insert n n' m config :
  section n (<[n' := VMap m]> config) = if decide (n = n') then m else section n config.
Proof.
  unfold section. case_decide as Hn; [subst; by rewrite lookup_insert_eq|]. by rewrite lookup_insert_ne by done.
Qed.

Lemma frame_write name keys L c c1 (f : fields → fields) :
  name ∈ sectionNames → (∀ k, k ∈ keys → (name, k) ∈ L) → touches keys f →
  frame L c c1 → frame L c (with_section name f c1).
Proof.
  intros Hname HL Hf Hc. etrans; [exact Hc|]. unfold with_section. split.
  - intros n k Hk. rewrite section_insert. case_decide as Hn; [|done]. subst n. apply Hf. intros Hin. by apply Hk, HL.
  - intros n Hn. rewrite lookup_insert_ne; [done|]. by intros ->.
  - intros Hok n Hn. destruct (decide (n = name)) as [->|Hne].
    + right. rewrite lookup_insert_eq. eauto.
    + rewrite lookup_insert_ne by done. by apply Hok.
Qed.

(** The settings written after those of [spec.generalSettings] and [spec.routerSettings]. *)
Definition laterGeneral : list string :=
  ["database_connection_pool_limit"; "litellm_jwtauth"; "custom_sso"; "allowed_ips"; "use_x_forwarded_for";
   "max_request_size_mb"; "max_response_size_mb"; "pass_through_endpoints"; "enable_jwt_auth"; "enable_oauth2_auth";
   "oauth2_config_mappings"; "enforce_rbac"; "admin_only_routes"; "allowed_routes"; "default_team_disabled";
   "key_generation_settings"; "role_permissions"; "key_management_system"; "key_management_settings";
   "store_audit_logs"; "maximum_spend_logs_retention_period"; "maximum_spend_logs_retention_interval";
   "ui_access_mode"; "store_model_in_db"].
Definition laterLiteLLM : list string :=
  ["json_logs"; "check_provider_endpoint"; "default_fallbacks"; "content_policy_fallbacks"; "context_window_fallbacks";
   "default_internal_user_params"; "default_team_params"; "success_callback"; "failure_callback"; "cache"; "cache_params";
   "max_end_user_budget"; "max_end_user_budget_id"; "audit_log_retention_days"; "turn_off_message_logging";
   "redact_user_api_key_info"].
Definition laterRouter : list string := ["fallbacks"; "max_fallbacks"].
Definition laterSettings : list (string * string) :=
  (pair generalSettings <$> laterGeneral) ++ (pair litellmSettings <$> laterLiteLLM) ++ (pair routerSettings <$> laterRouter).

Lemma frame_general c c1 f :
  touches laterGeneral f → frame laterSettings c c1 → frame laterSettings c (ensureGeneralSettings f c1).
Proof.
  apply (frame_write _ laterGeneral); [compute_done|].
  intros k Hk. apply elem_of_app. left. by apply list_elem_of_fmap_2.
Qed.
Lemma frame_litellm c c1 f :
  touches laterLiteLLM f → frame laterSettings c c1 → frame laterSettings c (ensureLiteLLMSettings f c1).
Proof.
  apply (frame_write _ laterLiteLLM); [compute_done|].
  intros k Hk. apply elem_of_app. right. apply elem_of_app. left. by apply list_elem_of_fmap_2.
Qed.
Lemma frame_router c c1 f :
  touches laterRouter f → frame laterSettings c c1 → frame laterSettings c (with_section routerSettings f c1).
Proof.
  apply (frame_write _ laterRouter); [compute_done|].
  intros k Hk. apply elem_of_app. right. apply elem_of_app. right. by apply list_elem_of_fmap_2.
Qed.
Lemma frame_section_some {A} (f : A → value) name k o L c c1 :
  name ∈ sectionNames → (name, k) ∈ L → frame L c c1 → frame L c (section_some f name k o c1).
Proof.
  intros Hname HL Hc. unfold section_some. destruct o as [a|]; [|done].
  apply (frame_write _ [k]); [done|by intros k' ->%list_elem_of_singleton| |done].
  intros m k' Hk. apply lookup_insert_ne. intros <-. apply Hk. by apply list_elem_of_singleton.
Qed.
Lemma frame_on_some {A} (o : option A) f L c c1 :
  (∀ a c1, frame L c c1 → frame L c (f a c1)) → frame L c c1 → frame L c (on_some o f c1).
Proof. intros Hf Hc. destruct o; [by apply Hf|done]. Qed.
Lemma frame_enabled {A} (e : A → bool) f a L c c1 :
  frame L c c1 → frame L c (f a c1) → frame L c (when_enabled e f a c1).
Proof. intros Hc Hf. unfold when_enabled. by destruct (e a). Qed.

(** A builder, whose shape is split down to the writes of sections. *)
Ltac frame_tac :=
  repeat match goal with
    | H : frame _ ?c ?c1 |- frame _ ?c ?c1 => exact H
    | |- frame _ _ (section_some _ _ _ _ _) => apply frame_section_some; [compute_done|compute_done|]
    | |- frame _ _ (ensureGeneralSettings _ _) => apply frame_general; [touches_tac|]
    | |- frame _ _ (ensureLiteLLMSettings _ _) => apply frame_litellm; [touches_tac|]
    | |- frame _ _ (with_section litellmSettings _ _) => apply frame_litellm; [touches_tac|]
    | |- frame _ _ (with_section routerSettings _ _) => apply frame_router; [touches_tac|]
    | |- frame _ _ (on_some _ _ _) => apply frame_on_some; [intros|]
    | |- frame _ _ (when_enabled _ _ _ _) => apply frame_enabled
    | |- frame _ _ (match ?x with _ => _ end) => destruct x
    | |- frame _ _ ((match ?x with _ => _ end) _) => destruct x
    | |- frame _ _ (id _) => unfold id
    end.

Definition framed (f : fields → fields) : Prop := ∀ c c1, frame laterSettings c c1 → frame laterSettings c (f c1).

Lemma framed_buildLiteLLMSettings ll : framed (buildLiteLLMSettings ll).
Proof. intros c c1 Hc. unfold buildLiteLLMSettings. frame_tac. Qed.
Lemma framed_buildFallbackConfig fb : framed (buildFallbackConfig fb).
Proof. intros c c1 Hc. unfold buildFallbackConfig. frame_tac. Qed.
Lemma framed_buildSSOConfig sso : framed (buildSSOConfig sso).
Proof. intros c c1 Hc. unfold buildSSOConfig. cbv zeta. frame_tac. Qed.
Lemma framed_callbacks cb : framed (callbacks cb).
Proof. intros c c1 Hc. unfold callbacks. frame_tac. Qed.
Lemma framed_buildCachingConfig instance caching : framed (buildCachingConfig instance caching).
Proof. intros c c1 Hc. unfold buildCachingConfig. frame_tac. Qed.
Lemma framed_buildIPAllowlistConfig a : framed (buildIPAllowlistConfig a).
Proof. intros c c1 Hc. unfold buildIPAllowlistConfig. frame_tac. Qed.
Lemma framed_buildPassThroughEndpointsConfig l : framed (buildPassThroughEndpointsConfig l).
Proof. intros c c1 Hc. unfold buildPassThroughEndpointsConfig. frame_tac. Qed.
Lemma framed_buildJWTAuthConfig jwt : framed (buildJWTAuthConfig jwt).
Proof. intros c c1 Hc. unfold buildJWTAuthConfig. cbv zeta. frame_tac. Qed.
Lemma framed_buildOAuth2AuthConfig oauth2 : framed (buildOAuth2AuthConfig oauth2).
Proof. intros c c1 Hc. unfold buildOAuth2AuthConfig. cbv zeta. frame_tac. Qed.
Lemma framed_buildRBACConfig rbac : framed (buildRBACConfig rbac).
Proof. intros c c1 Hc. unfold buildRBACConfig. frame_tac. Qed.
Lemma framed_buildDefaultCustomerBudget spec : framed (buildDefaultCustomerBudget spec).
Proof. intros c c1 Hc. unfold buildDefaultCustomerBudget. frame_tac. Qed.
Lemma framed_buildSecretManagerConfig sm : framed (buildSecretManagerConfig sm).
Proof. intros c c1 Hc. unfold buildSecretManagerConfig. cbv zeta. frame_tac. Qed.
Lemma framed_buildLoggingConfig l : framed (buildLoggingConfig l).
Proof. intros c c1 Hc. unfold buildLoggingConfig, auditLogs. frame_tac. Qed.
Lemma framed_buildAdminUIConfig ui : framed (buildAdminUIConfig ui).
Proof. intros c c1 Hc. unfold buildAdminUIConfig. frame_tac. Qed.

(** The configuration before the builders that extend it. *)
Definition baseConfig (instance : LiteLLMInstance) : fields :=
  {[ "model_list" := VList [] ]}
  |> set_section generalSettings (buildGeneralSettings (is_GeneralSettings (Spec instance)))
  |> set_section routerSettings (buildRouterSettings (is_RouterSettings (Spec instance))).

Lemma derivedConfig_frame `{JSONUnmarshal} instance guardrails :
  ∃ config, frame laterSettings (baseConfig instance) config ∧
    derivedConfig instance guardrails = buildGuardrailsList instance guardrails config.
Proof.
  eexists. split; [|reflexivity]. fold (baseConfig instance). set (sp := Spec instance).
  assert (H0 : frame laterSettings (baseConfig instance) (baseConfig instance)) by done.
  repeat match goal with
    | |- frame _ _ (buildLiteLLMSettings _ _) => apply framed_buildLiteLLMSettings
    | |- frame _ _ (buildFallbackConfig _ _) => apply framed_buildFallbackConfig
    | |- frame _ _ (buildSSOConfig _ _) => apply framed_buildSSOConfig
    | |- frame _ _ (callbacks _ _) => apply framed_callbacks
    | |- frame _ _ (buildCachingConfig _ _ _) => apply framed_buildCachingConfig
    | |- frame _ _ (buildIPAllowlistConfig _ _) => apply framed_buildIPAllowlistConfig
    | |- frame _ _ (buildPassThroughEndpointsConfig _ _) => apply framed_buildPassThroughEndpointsConfig
    | |- frame _ _ (buildJWTAuthConfig _ _) => apply framed_buildJWTAuthConfig
    | |- frame _ _ (buildOAuth2AuthConfig _ _) => apply framed_buildOAuth2AuthConfig
    | |- frame _ _ (buildRBACConfig _ _) => apply framed_buildRBACConfig
    | |- frame _ _ (buildDefaultCustomerBudget _ _) => apply framed_buildDefaultCustomerBudget
    | |- frame _ _ (buildSecretManagerConfig _ _) => apply framed_buildSecretManagerConfig
    | |- frame _ _ (buildLoggingConfig _ _) => apply framed_buildLoggingConfig
    | |- frame _ _ (buildAdminUIConfig _ _) => apply framed_buildAdminUIConfig
    | _ => progress frame_tac
    end.
Qed.

(** ** The raw settings *)

Lemma elem_of_sortedKeys {V} (m : gmap string V) k : k ∈ sortedKeys m ↔ is_Some (m !! k).
Proof.
  unfold sortedKeys, slices_Sorted. rewrite merge_sort_Permutation, list_elem_of_fmap. split.
  - intros ([k' v] & -> & Hv%elem_of_map_to_list). eauto.
  - intros [v Hv]. exists (k, v). by rewrite elem_of_map_to_list.
Qed.
Lemma NoDup_sortedKeys {V} (m : gmap string V) : NoDup (sortedKeys m).
Proof. unfold sortedKeys, slices_Sorted. rewrite merge_sort_Permutation. apply NoDup_fst_map_to_list. Qed.

(** The keys of [keys] a section already has. *)
Definition taken (section : fields) : list string → list string := filter (λ k, is_Some (section !! k)).

Lemma taken_insert k v section keys : k ∉ keys → taken (<[k := v]> section) keys = taken section keys.
Proof.
  intros Hk. apply list_filter_ext_in. intros k' Hk'. rewrite lookup_insert_ne; [done|]. by intros ->.
Qed.

Lemma extraKey_fold decoded keys section skipped :
  NoDup keys →
  fold_left (extraKey decoded) keys (section, skipped) =
    (section ∪ list_to_map ((λ k, (k, VJSON (default JNull (decoded !! k)))) <$> keys), skipped ++ taken section keys).
Proof.
  intros Hnd. revert section skipped. induction Hnd as [|k keys Hk Hnd IH]; intros section skipped.
  { cbn. by rewrite map_union_empty, app_nil_r. }
  cbn [fold_left extraKey fmap list_fmap list_to_map foldr]. destruct (section !! k) as [v|] eqn:Hv; rewrite IH.
  - unfold taken at 2. rewrite filter_cons_True by eauto. rewrite <-app_assoc. f_equal. cbn.
    apply map_eq. intros k'. rewrite !lookup_union. destruct (decide (k' = k)) as [->|].
    + rewrite Hv, lookup_insert_eq. by destruct (list_to_map _ !! k : option value).
    + by rewrite lookup_insert_ne by done.
  - unfold taken at 2. rewrite filter_cons_False by (rewrite Hv; by intros [? ?]).
    rewrite taken_insert by done. f_equal. cbn. rewrite <-insert_union_l. by rewrite insert_union_r.
Qed.

(** The raw settings are added to the section, which keeps all its values. *)
Lemma applyExtraSettings_union `{JSONUnmarshal} section extra :
  applyExtraSettings section extra =
    (section ∪ (VJSON <$> DecodeJSONParams extra), taken section (sortedKeys (DecodeJSONParams extra))).
Proof.
  unfold applyExtraSettings. set (decoded := DecodeJSONParams extra). cbv zeta.
  rewrite extraKey_fold by apply NoDup_sortedKeys. f_equal. f_equal. apply map_eq. intros k.
  rewrite lookup_fmap. destruct (decoded !! k) as [v|] eqn:Hv; cbn.
  - apply elem_of_list_to_map_1.
    + rewrite <-list_fmap_compose, list_fmap_id. apply NoDup_sortedKeys.
    + apply list_elem_of_fmap. exists k. rewrite Hv. split; [done|]. apply elem_of_sortedKeys. by rewrite Hv.
  - apply not_elem_of_list_to_map_1. rewrite <-list_fmap_compose, list_fmap_id.
    rewrite elem_of_sortedKeys, Hv. by intros [? ?].
Qed.

Lemma extraSection_union `{JSONUnmarshal} name extra config :
  section name (extraSection name extra config).1 = section name config ∪ (VJSON <$> DecodeJSONParams extra) ∧
  delete name (extraSection name extra config).1 = delete name config ∧
  (extraSection name extra config).2 = prefixKeys name (taken (section name config) (sortedKeys (DecodeJSONParams extra))).
Proof.
  unfold extraSection. case_decide as He.
  - subst extra. replace (DecodeJSONParams ∅) with (∅ : gmap string JSONValue) by reflexivity. cbn.
    by rewrite fmap_empty, map_union_empty.
  - rewrite applyExtraSettings_union. cbn. rewrite section_insert, decide_True by done.
    by rewrite delete_insert_eq.
Qed.

(** The raw settings of the two sections, as the resource has them. *)
Definition rawGeneral (instance : LiteLLMInstance) : gmap string string :=
  match is_GeneralSettings (Spec instance) with Some gs => gs_Extra gs | None => ∅ end.
Definition rawLiteLLM (instance : LiteLLMInstance) : gmap string string :=
  match is_LiteLLMSettings (Spec instance) with Some ll => lls_Extra ll | None => ∅ end.

Lemma applyAllExtraSettings_sections `{JSONUnmarshal} instance config :
  applyAllExtraSettings instance config =
    (let '(c1, k1) := extraSection generalSettings (rawGeneral instance) config in
     let '(c2, k2) := extraSection litellmSettings (rawLiteLLM instance) c1 in (c2, k1 ++ k2)).
Proof.
  unfold applyAllExtraSettings, rawGeneral, rawLiteLLM. by destruct (is_GeneralSettings _), (is_LiteLLMSettings _).
Qed.

Lemma section_delete n n' c c' : n ≠ n' → delete n' c = delete n' c' → section n c = section n c'.
Proof.
  intros Hn Hc. unfold section. by rewrite <-(lookup_delete_ne c n' n), Hc, lookup_delete_ne by done.
Qed.

(** C9: raw settings never win: a section of the configuration is what the operator derives
    for it, extended with the raw settings whose key is not taken; the reported conflicts are
    exactly the keys that were taken, sorted, with the name of their section; and nothing
    else of the configuration changes. *)
Theorem GenerateProxyConfig_extra `{JSONUnmarshal} instance guardrails :
  let derived := derivedConfig instance guardrails in
  let config := GenerateProxyConfig instance guardrails in
  let general := DecodeJSONParams (rawGeneral instance) in
  let litellm := DecodeJSONParams (rawLiteLLM instance) in
  section generalSettings config = section generalSettings derived ∪ (VJSON <$> general) ∧
  section litellmSettings config = section litellmSettings derived ∪ (VJSON <$> litellm) ∧
  delete generalSettings (delete litellmSettings config) = delete generalSettings (delete litellmSettings derived) ∧
  ExtraSettingsConflicts instance guardrails =
    prefixKeys generalSettings (taken (section generalSettings derived) (sortedKeys general)) ++
    prefixKeys litellmSettings (taken (section litellmSettings derived) (sortedKeys litellm)).
Proof.
  intros derived config general litellm. subst config.
  unfold GenerateProxyConfig, ExtraSettingsConflicts, GenerateProxyConfigWithConflicts. fold derived.
  rewrite applyAllExtraSettings_sections.
  destruct (extraSection_union generalSettings (rawGeneral instance) derived) as (Hs1 & Hd1 & Hk1).
  destruct (extraSection _ (rawGeneral _) _) as [c1 k1]. simpl in *.
  destruct (extraSection_union litellmSettings (rawLiteLLM instance) c1) as (Hs2 & Hd2 & Hk2).
  destruct (extraSection _ (rawLiteLLM _) _) as [c2 k2]. simpl in *.
  assert (section litellmSettings c1 = section litellmSettings derived) as Hl by by eapply section_delete; [|exact Hd1].
  split; [|split; [|split]].
  - etrans; [|exact Hs1]. by eapply section_delete; [|exact Hd2].
  - by rewrite Hs2, Hl.
  - by rewrite Hd2, delete_delete, Hd1, delete_delete.
  - by rewrite Hk1, Hk2, Hl.
Qed.

(** ** The sections of one specification *)

Definition specGeneral : list string :=
  ["proxy_batch_write_at"; "master_key_required"; "alert_types"; "alerting"; "alerting_threshold"; "alert_to_webhook_url";
   "background_health_checks"; "health_check_interval"; "health_check_details";
   "health_check_skip_disabled_background_models"; "custom_key_generate"; "allow_user_auth"; "max_budget";
   "budget_duration"; "global_max_parallel_requests"; "proxy_budget_rescheduler_min_time";
   "proxy_budget_rescheduler_max_time"].
Definition specRouter : list string :=
  ["routing_strategy"; "num_retries"; "timeout"; "retry_after"; "stream_timeout"; "enable_pre_call_checks";
   "model_group_alias"; "allowed_fails"; "cooldown_time"; "retry_policy"; "model_group_retry_policy";
   "enable_tag_filtering"; "tag_filtering_match_any"; "default_max_parallel_requests"; "provider_budget_config"].

Lemma buildGeneralSettings_keys spec : touches specGeneral (λ m, buildGeneralSettings spec ∪ m).
Proof. destruct spec; unfold buildGeneralSettings; touches_tac. Qed.
Lemma buildRouterSettings_keys spec : touches specRouter (λ m, buildRouterSettings spec ∪ m).
Proof. destruct spec; unfold buildRouterSettings; touches_tac. Qed.

Lemma spec_settings_kept name spec_keys (B c c' : fields) :
  touches spec_keys (union B) → Forall (λ k, (name, k) ∉ laterSettings) spec_keys →
  frame laterSettings c c' → B ⊆ section name c → B ⊆ section name c'.
Proof.
  intros HB Hkeys Hfr Hsub. apply map_subseteq_spec. intros k v Hk.
  destruct (decide (k ∈ spec_keys)) as [Hin|Hni].
  - rewrite (fr_settings _ _ _ Hfr); [by eapply lookup_weaken|]. by eapply Forall_forall in Hkeys.
  - specialize (HB ∅ k Hni). rewrite map_union_empty in HB. by rewrite HB in Hk.
Qed.

Lemma section_set_section name m config : section name config = ∅ → section name (set_section name m config) = m.
Proof.
  intros Hc. unfold set_section. case_decide as Hm; [by rewrite Hc, Hm|]. by rewrite section_insert, decide_True.
Qed.
Lemma section_set_section_ne name name' m config :
  name ≠ name' → section name (set_section name' m config) = section name config.
Proof. intros Hn. unfold set_section. case_decide; [done|]. by rewrite section_insert, decide_False. Qed.
Lemma lookup_set_section_ne name n m config : n ≠ name → set_section name m config !! n = config !! n.
Proof. intros Hn. unfold set_section. case_decide; [done|]. by apply lookup_insert_ne. Qed.

Lemma baseConfig_general instance :
  section generalSettings (baseConfig instance) = buildGeneralSettings (is_GeneralSettings (Spec instance)).
Proof. unfold baseConfig. rewrite section_set_section_ne by done. by apply section_set_section. Qed.
Lemma baseConfig_router instance :
  section routerSettings (baseConfig instance) = buildRouterSettings (is_RouterSettings (Spec instance)).
Proof. unfold baseConfig. apply section_set_section. by rewrite section_set_section_ne by done. Qed.

Lemma set_section_ok name m config : sections_ok config → sections_ok (set_section name m config).
Proof.
  intros Hc n Hn. unfold set_section. case_decide; [by apply Hc|]. destruct (decide (n = name)) as [->|].
  - right. exists m. by rewrite lookup_insert_eq.
  - rewrite lookup_insert_ne by done. by apply Hc.
Qed.
Lemma baseConfig_ok instance : sections_ok (baseConfig instance).
Proof.
  unfold baseConfig. do 2 apply set_section_ok. intros n Hn. left. apply lookup_singleton_ne.
  intros <-. revert Hn. compute_done.
Qed.
Lemma baseConfig_top instance n : n ∉ sectionNames → baseConfig instance !! n = ({[ "model_list" := VList [] ]} : fields) !! n.
Proof. intros Hn. unfold baseConfig. rewrite !lookup_set_section_ne; [done|..]; (intros ->; revert Hn; compute_done). Qed.

(** From [c] to [c'] settings are added to the sections, and nothing else changes. *)
Record grows (c c' : fields) : Prop := {
  gr_section n : section n c ⊆ section n c';
  gr_top n : n ∉ sectionNames → c' !! n = c !! n;
  gr_ok : sections_ok c → sections_ok c'
}.

Lemma grows_extraSection `{JSONUnmarshal} name extra c c' :
  name ∈ sectionNames → grows c c' → grows c (extraSection name extra c').1.
Proof.
  intros Hname [Hs Ht Hok]. unfold extraSection. case_decide; [done|]. rewrite applyExtraSettings_union. cbn. split.
  - intros n. rewrite section_insert. case_decide as Hn; [|done]. subst n. etrans; [apply Hs|]. apply map_union_subseteq_l.
  - intros n Hn. rewrite lookup_insert_ne; [by apply Ht|]. by intros ->.
  - intros Hc n Hn. destruct (decide (n = name)) as [->|].
    + right. rewrite lookup_insert_eq. eauto.
    + rewrite lookup_insert_ne by done. by apply Hok.
Qed.

Lemma grows_applyAllExtraSettings `{JSONUnmarshal} instance c : grows c (applyAllExtraSettings instance c).1.
Proof.
  rewrite applyAllExtraSettings_sections.
  assert (grows c (extraSection generalSettings (rawGeneral instance) c).1) as Hg
    by (apply grows_extraSection; [compute_done|by split]).
  destruct (extraSection _ _ c) as [c1 k1]. cbn in Hg.
  eapply (grows_extraSection litellmSettings (rawLiteLLM instance)) in Hg; [|compute_done].
  by destruct (extraSection _ _ c1).
Qed.

Section Top.
Context `{JSONUnmarshal} (instance : LiteLLMInstance) (guardrails : list LiteLLMGuardrail).

(** The guardrails bound to the instance, in the order given. *)
Definition boundGuardrails : list LiteLLMGuardrail :=
  filter (λ g : LiteLLMGuardrail, ir_Name (grs_InstanceRef (Spec g)) = Name (Meta instance)) guardrails.

Lemma GenerateProxyConfig_steps : ∃ c1,
  frame laterSettings (baseConfig instance) c1 ∧
  grows (set_list guardrailEntry "guardrails" boundGuardrails c1) (GenerateProxyConfig instance guardrails).
Proof.
  destruct (derivedConfig_frame instance guardrails) as (c1 & Hfr & Hd). exists c1. split; [done|].
  unfold GenerateProxyConfig, GenerateProxyConfigWithConflicts. rewrite Hd. apply grows_applyAllExtraSettings.
Qed.

(** The parts of the configuration that are no section. *)
Lemma GenerateProxyConfig_top n :
  n ∉ sectionNames →
  GenerateProxyConfig instance guardrails !! n =
    set_list guardrailEntry "guardrails" boundGuardrails {[ "model_list" := VList [] ]} !! n.
Proof.
  intros Hn. destruct GenerateProxyConfig_steps as (c1 & Hfr & Hgr).
  rewrite (gr_top _ _ Hgr) by done. destruct boundGuardrails as [|g l]; cbn.
  - by rewrite (fr_top _ _ _ Hfr), baseConfig_top.
  - destruct (decide (n = "guardrails")) as [->|Hg]; [by rewrite !lookup_insert_eq|].
    by rewrite !lookup_insert_ne, (fr_top _ _ _ Hfr), baseConfig_top by done.
Qed.

(** C21: the configuration is well formed: the model list is there and empty, a section is a
    map when there is one, the guardrails are a list when there are some, there is nothing
    else; and every setting rendered from [spec.generalSettings] and [spec.routerSettings]
    is in its section, whatever else the specification holds. *)
Theorem GenerateProxyConfig_typed :
  let config := GenerateProxyConfig instance guardrails in
  config !! "model_list" = Some (VList []) ∧
  Forall (λ n, config !! n = None ∨ ∃ m, config !! n = Some (VMap m)) sectionNames ∧
  (config !! "guardrails" = None ∨ ∃ l, config !! "guardrails" = Some (VList l)) ∧
  dom config ⊆ list_to_set ("model_list" :: "guardrails" :: sectionNames) ∧
  buildGeneralSettings (is_GeneralSettings (Spec instance)) ⊆ section generalSettings config ∧
  buildRouterSettings (is_RouterSettings (Spec instance)) ⊆ section routerSettings config.
Proof.
  intros config. destruct GenerateProxyConfig_steps as (c1 & Hfr & Hgr).
  assert (∀ n, n ∈ sectionNames → section n (set_list guardrailEntry "guardrails" boundGuardrails c1) = section n c1 ∧
            set_list guardrailEntry "guardrails" boundGuardrails c1 !! n = c1 !! n) as Hg.
  { intros n Hn. unfold section. rewrite set_list_ne; [done|]. intros <-. revert Hn. compute_done. }
  split; [|split; [|split; [|split; [|split]]]].
  - unfold config. rewrite GenerateProxyConfig_top by compute_done. by rewrite set_list_ne by done.
  - apply Forall_forall. apply (gr_ok _ _ Hgr). intros n Hn. rewrite (proj2 (Hg n Hn)).
    by apply (fr_ok _ _ _ Hfr); [apply baseConfig_ok|].
  - unfold config. rewrite GenerateProxyConfig_top by compute_done. destruct boundGuardrails as [|g l]; [by left|].
    right. cbn. rewrite lookup_insert_eq. eauto.
  - intros n Hn. destruct (decide (n ∈ sectionNames)) as [Hs|Hs]; [set_solver|].
    apply elem_of_dom in Hn as [v Hv]. unfold config in Hv. rewrite GenerateProxyConfig_top in Hv by done.
    destruct (decide (n = "guardrails")) as [->|Hng]; [set_solver|]. rewrite set_list_ne in Hv by done.
    apply lookup_singleton_Some in Hv as [<- _]. set_solver.
  - etrans; [|apply (gr_section _ _ Hgr)]. rewrite (proj1 (Hg generalSettings ltac:(compute_done))).
    eapply spec_settings_kept; [apply buildGeneralSettings_keys|compute_done|exact Hfr|by rewrite baseConfig_general].
  - etrans; [|apply (gr_section _ _ Hgr)]. rewrite (proj1 (Hg routerSettings ltac:(compute_done))).
    eapply spec_settings_kept; [apply buildRouterSettings_keys|compute_done|exact Hfr|by rewrite baseConfig_router].
Qed.
End Top.

(** ** Guardrails *)

Section GuardrailParams.
Context `{JSONUnmarshal}.

Definition ownParams : list string := ["guardrail"; "mode"; "api_key"; "api_base"; "default_on"; "unreachable_fallback"].

Lemma guardrailParams_keys g : touches ownParams (λ m, guardrailParams g ∪ m).
Proof. unfold guardrailParams. touches_tac. Qed.

Lemma addParam_fold (own : fields) (decoded : gmap string JSONValue) : map_fold addParam own decoded = own ∪ (VJSON <$> decoded).
Proof.
  apply (map_fold_weak_ind (λ r m, r = own ∪ (VJSON <$> m))); [by rewrite fmap_empty, map_union_empty|].
  intros k v m r Hk ->. unfold addParam. rewrite lookup_union, lookup_fmap, Hk, fmap_insert. cbn.
  destruct (own !! k) as [w|] eqn:Hw; cbn.
  - apply map_eq. intros k'. rewrite !lookup_union. destruct (decide (k' = k)) as [->|].
    + rewrite Hw, lookup_insert_eq, lookup_fmap. by destruct (m !! k).
    + by rewrite lookup_insert_ne by done.
  - by rewrite insert_union_r.
Qed.

(** What the raw parameters of a guardrail add. *)
Definition addedParams (g : LiteLLMGuardrail) : fields :=
  let decoded := DecodeJSONParams (grs_Params (Spec g)) in
  if decide (grs_Provider (Spec g) = "generic_guardrail_api") then
    (VJSON <$> filter (λ kv : string * JSONValue, kv.1 ∈ genericGuardrailStreamingKeys) decoded) ∪
    set_map VJSON "additional_provider_specific_params" decoded ∅
  else VJSON <$> decoded.

Lemma lookup_guardrailParams_other g k : k ∉ ownParams → guardrailParams g !! k = None.
Proof. intros Hk. pose proof (guardrailParams_keys g ∅ k Hk) as Hu. by rewrite map_union_empty in Hu. Qed.

Lemma streaming_fold decoded keys (m : fields) k :
  fold_left (streamingParam decoded) keys m !! k =
    (if decide (k ∈ keys) then VJSON <$> decoded !! k else None) ∪ m !! k.
Proof.
  revert m. induction keys as [|k0 keys IH]; intros m; cbn [fold_left].
  { rewrite decide_False by set_solver. by destruct (m !! k). }
  rewrite IH. unfold streamingParam. destruct (decide (k = k0)) as [->|Hne].
  - rewrite (decide_True (P := k0 ∈ k0 :: keys)) by set_solver. destruct (decoded !! k0); cbn.
    + rewrite lookup_insert_eq. by case_decide; cbn; destruct (m !! k0).
    + by case_decide; destruct (m !! k0).
  - assert (match decoded !! k0 with Some v => <[k0:=VJSON v]> m | None => m end !! k = m !! k) as ->.
    { destruct (decoded !! k0); [|done]. by rewrite lookup_insert_ne. }
    destruct (decide (k ∈ keys)).
    + by rewrite decide_True by set_solver.
    + by rewrite decide_False by set_solver.
Qed.

Lemma withParams_added g : withParams g (guardrailParams g) = guardrailParams g ∪ addedParams g.
Proof.
  unfold withParams, addedParams. cbv zeta. case_decide; [|apply addParam_fold].
  set (decoded := DecodeJSONParams _). apply map_eq. intros k. rewrite streaming_fold, !lookup_union, lookup_fmap.
  destruct (decide (k ∈ ownParams)) as [Hown|Hown].
  - assert (Forall (λ k, k ∉ genericGuardrailStreamingKeys ∧ "additional_provider_specific_params" ≠ k) ownParams) as Hd
      by compute_done.
    eapply Forall_forall in Hd as [Hs Ha]; [|exact Hown].
    rewrite decide_False, !set_map_ne, map_lookup_filter, lookup_empty by done.
    destruct (decoded !! k); cbn; [rewrite option_guard_False by done|]; cbn; by destruct (guardrailParams g !! k).
  - rewrite lookup_guardrailParams_other by done. rewrite (left_id_L None (∪)).
    clearbody decoded. unfold set_map. destruct (decide (decoded = ∅)) as [->|Hdec].
    { by rewrite map_filter_empty, lookup_guardrailParams_other, lookup_empty by done; case_decide. }
    assert (<["additional_provider_specific_params" := VMap (VJSON <$> decoded)]> (guardrailParams g) !! k =
            <["additional_provider_specific_params" := VMap (VJSON <$> decoded)]> (∅ : fields) !! k) as ->.
    { destruct (decide (k = "additional_provider_specific_params")) as [->|Hne]; [by rewrite !lookup_insert_eq|].
      by rewrite !lookup_insert_ne, lookup_guardrailParams_other by done. }
    f_equal. rewrite map_lookup_filter. destruct (decoded !! k) as [v|]; cbn; [|by case_decide].
    case_decide; [by rewrite option_guard_True|by rewrite option_guard_False].
Qed.
End GuardrailParams.

(** The guardrails of the configuration are exactly those bound to the instance, in the
    order listed, and none when there is none; in each of them the parameters the operator
    derives from the specification (the provider, the mode, the reference to the key, the
    base, ...) win over the raw ones, which only add to them: all the decoded ones, or for
    the generic provider the streaming settings and the rest under one nested key. *)
Lemma guardrails_rendered `{JSONUnmarshal} instance guardrails :
  let bound := boundGuardrails instance guardrails in
  GenerateProxyConfig instance guardrails !! "guardrails" =
    (if decide (bound = []) then None
     else Some (VList ((λ g : LiteLLMGuardrail,
       VMap {[ "guardrail_name" := VString (grs_GuardrailName (Spec g));
               "litellm_params" := VMap (guardrailParams g ∪ addedParams g) ]}) <$> bound))).
Proof.
  intros bound. rewrite GenerateProxyConfig_top by compute_done. fold bound. destruct bound as [|g l]; [done|].
  rewrite decide_False by done. unfold set_list. rewrite lookup_insert_eq. do 2 f_equal.
  apply list_fmap_ext. intros _ g' _. unfold guardrailEntry. by rewrite withParams_added.
Qed.

(** ** Environment variables *)

Definition env_byte (b : Z) : bool := continuation 48 57 b || continuation 65 90 b || (b =? 95).

Lemma sanitize_env fuel l : Forall (λ b, env_byte b = true) (to_upper (sanitize_bytes fuel l)).
Proof.
  revert l. induction fuel as [|fuel IH]; intros [|b l]; cbn -[drop rune_width]; try constructor.
  destruct (is_alnum b) eqn:Hb; cbn -[drop rune_width]; constructor; try apply IH; [|done].
  unfold is_alnum, env_byte, continuation in *. case_match; lia.
Qed.

Lemma bytes_of_app s s' : bytes_of (s +:+ s') = bytes_of s ++ bytes_of s'.
Proof. induction s as [|c s IH]; [done|]. exact (f_equal (cons (byte_of_ascii c)) IH). Qed.

Lemma bytes_of_string_of l : Forall (λ b, 0 <= b < 256) l → bytes_of (string_of l) = l.
Proof.
  unfold bytes_of, string_of. rewrite String.list_ascii_of_string_of_list_ascii, <-list_fmap_compose.
  induction 1 as [|b l Hb _ IH]; [done|]. cbn. f_equal; [|done].
  unfold byte_of_ascii, ascii_of_byte. rewrite Ascii.N_ascii_embedding; lia.
Qed.

Lemma sanitize_range fuel l : Forall (λ b, 0 <= b < 256) (sanitize_bytes fuel l).
Proof.
  revert l. induction fuel as [|fuel IH]; intros [|b l]; cbn -[drop rune_width]; try constructor.
  destruct (is_alnum b) eqn:Hb; constructor; try apply IH; [|lia]. unfold is_alnum, continuation in Hb. lia.
Qed.

Lemma strings_ToUpper_env s :
  Forall (λ b, env_byte b = true) (to_upper (bytes_of s)) → Forall (λ b, env_byte b = true) (bytes_of (strings_ToUpper s)).
Proof.
  intros Hs. unfold strings_ToUpper. rewrite bytes_of_string_of; [done|].
  eapply Forall_impl; [exact Hs|]. unfold env_byte, continuation. cbn. lia.
Qed.

Lemma to_upper_app l l' : to_upper (l ++ l') = to_upper l ++ to_upper l'.
Proof. apply fmap_app. Qed.

Lemma segment_env s : Forall (λ b, env_byte b = true) (to_upper (bytes_of (sanitizeEnvVarSegment s))).
Proof. unfold sanitizeEnvVarSegment. rewrite bytes_of_string_of by apply sanitize_range. apply sanitize_env. Qed.

(** Whatever the text of the resource (any bytes, any rune), the names of the variables
    that hold the keys of guardrails and the headers of pass-through endpoints are made of
    capital letters, digits and underscores only, and never start with a digit. *)
Lemma env_names_valid guardrailName path headerName :
  Forall (λ b, env_byte b = true) (bytes_of (GuardrailEnvVarName guardrailName)) ∧
  Forall (λ b, env_byte b = true) (bytes_of (PassThroughEnvVarName path headerName)) ∧
  String.prefix "GUARDRAIL_" (GuardrailEnvVarName guardrailName) = true ∧
  String.prefix "PASSTHROUGH_" (PassThroughEnvVarName path headerName) = true.
Proof.
  unfold GuardrailEnvVarName, PassThroughEnvVarName. split; [|split; [|split]].
  - apply strings_ToUpper_env. rewrite !bytes_of_app, !to_upper_app. repeat apply Forall_app_2; try apply segment_env; compute_done.
  - apply strings_ToUpper_env. rewrite !bytes_of_app, !to_upper_app. repeat apply Forall_app_2; try apply segment_env; compute_done.
  - unfold strings_ToUpper. simpl. by destruct (String.string_of_list_ascii _).
  - unfold strings_ToUpper. simpl. by destruct (String.string_of_list_ascii _).
Qed.
