(* ===== verification/Wire.v ===== *)
(** * The bodies of requests and responses as JSON (internal/litellm)

    What [encoding/json] makes of the structures of the client, from their tags: a class of
    encoders with an instance per request, a class of decoders with an instance per
    response, and the text of a JSON value.  The two directions of a structure follow its
    tags, field by field: [must] is a plain field, [omit] one with [omitempty].

    The parser of texts, the text of floating-point numbers and of instants are parameters.
    Objects with the same key twice are decoded as if the last value counted alone, and
    field names are compared up to ASCII case. *)

From S2P Require Import Prelude KubeTypes InstanceTypes Types Updates World Sha256 Common Rollout ProxyConfig.
From stdpp Require Import pretty.
From Stdlib Require Import SpecFloat.
Open Scope Z_scope.

(** ** Values *)

Inductive json : Type :=
| WNull
| WBool (b : bool)
| WInt (z : Z)
| WFloat (f : float64)
| WString (s : string)
| WArray (l : list json)
| WObject (l : list (string * json)).

(** What a decoded [interface{}] is encoded as. *)
Fixpoint of_value (v : JSONValue) : json :=
  match v with
  | JNull => WNull
  | JBool b => WBool b
  | JNumber f => WFloat f
  | JString s => WString s
  | JArray l => WArray (of_value <$> l)
  | JObject l => WObject (prod_map id of_value <$> l)
  end.

Definition f64_of_int (z : Z) : float64 := binary_normalize 53 1024 z 0 false.

(** What an [interface{}] is decoded to. *)
Fixpoint to_value (v : json) : JSONValue :=
  match v with
  | WNull => JNull
  | WBool b => JBool b
  | WInt z => JNumber (f64_of_int z)
  | WFloat f => JNumber f
  | WString s => JString s
  | WArray l => JArray (to_value <$> l)
  | WObject l => JObject (prod_map id to_value <$> l)
  end.

(** ** Encoding *)

Class Encode (A : Type) := encode : A → json.

#[export] Instance encode_string : Encode string := WString.
#[export] Instance encode_bool : Encode bool := WBool.
#[export] Instance encode_int : Encode Z := WInt.
#[export] Instance encode_float : Encode float64 := WFloat.
#[export] Instance encode_value : Encode JSONValue := of_value.
#[export] Instance encode_list `{Encode A} : Encode (list A) := λ l, WArray (encode <$> l).
#[export] Instance encode_map `{Encode A} : Encode (gmap string A) :=
  λ m, WObject (sortedKeys m ≫= λ k, match m !! k with Some a => [(k, encode a)] | None => [] end).

(** The value of a field with [omitempty], when it is not left out. *)
Class OmitEmpty (A : Type) := omitempty : A → option json.

#[export] Instance omit_string : OmitEmpty string := λ s, if decide (s = "") then None else Some (encode s).
#[export] Instance omit_option `{Encode A} : OmitEmpty (option A) := fmap encode.
#[export] Instance omit_list `{Encode A} : OmitEmpty (list A) :=
  λ l, match l with [] => None | _ => Some (encode l) end.
#[export] Instance omit_map `{Encode A} : OmitEmpty (gmap string A) :=
  λ m, if decide (m = ∅) then None else Some (encode m).

Definition tag : Type := string * option json.
Definition must `{Encode A} (k : string) (a : A) : tag := (k, Some (encode a)).
Definition omit `{OmitEmpty A} (k : string) (a : A) : tag := (k, omitempty a).
Definition members (l : list tag) : list (string * json) :=
  l ≫= λ t, match t.2 with Some v => [(t.1, v)] | None => [] end.
Definition struct (l : list tag) : json := WObject (members l).

#[export] Instance encode_ApiObjectPermission : Encode ApiObjectPermission := λ r, struct
  [omit "mcp_servers" (aop_MCPServers r); omit "mcp_access_groups" (aop_AccessGroups r);
   omit "vector_stores" (aop_VectorStores r); omit "agents" (aop_Agents r)].

#[export] Instance encode_ModelParams : Encode ModelParams := λ r, struct
  [must "model" (mp_Model r); omit "litellm_credential_name" (mp_LiteLLMCredentialName r);
   omit "api_base" (mp_APIBase r); omit "api_key" (mp_APIKey r); omit "api_version" (mp_APIVersion r);
   omit "rpm" (mp_RPM r); omit "tpm" (mp_TPM r); omit "timeout" (mp_Timeout r);
   omit "stream_timeout" (mp_StreamTimeout r); omit "max_retries" (mp_MaxRetries r); omit "tags" (mp_Tags r);
   omit "weight" (mp_Weight r); omit "order" (mp_Order r); omit "max_input_tokens" (mp_MaxInputTokens r);
   omit "temperature" (mp_Temperature r); omit "top_p" (mp_TopP r); omit "max_tokens" (mp_MaxTokens r);
   omit "seed" (mp_Seed r); omit "organization" (mp_Organization r); omit "aws_region_name" (mp_AWSRegionName r);
   omit "extra_headers" (mp_ExtraHeaders r); omit "drop_params" (mp_DropParams r);
   omit "vertex_project" (mp_VertexProject r); omit "vertex_location" (mp_VertexLocation r);
   omit "vertex_credentials" (mp_VertexCredentials r)].

#[export] Instance encode_ModelInfoReq : Encode ModelInfoReq := λ r, struct
  [omit "id" (mir_ID r); omit "max_tokens" (mir_MaxTokens r); omit "input_cost_per_token" (mir_InputCostPerToken r);
   omit "output_cost_per_token" (mir_OutputCostPerToken r); omit "mode" (mir_Mode r); omit "base_model" (mir_BaseModel r);
   omit "tier" (mir_Tier r); omit "region_name" (mir_RegionName r); omit "access_groups" (mir_AccessGroups r);
   omit "supported_environments" (mir_SupportedEnvironments r); omit "use_in_pass_through" (mir_UseInPassThrough r);
   omit "input_cost_per_pixel" (mir_InputCostPerPixel r); omit "input_cost_per_second" (mir_InputCostPerSecond r);
   omit "cache_read_input_token_cost" (mir_CacheReadInputTokenCost r);
   omit "cache_creation_input_token_cost" (mir_CacheCreationInputTokenCost r);
   omit "disable_background_health_check" (mir_DisableBackgroundHealthCheck r);
   omit "health_check_timeout" (mir_HealthCheckTimeout r); omit "health_check_max_tokens" (mir_HealthCheckMaxTokens r);
   omit "health_check_max_tokens_reasoning" (mir_HealthCheckMaxTokensReasoning r);
   omit "health_check_max_tokens_non_reasoning" (mir_HealthCheckMaxTokensNonReasoning r);
   omit "health_check_supports_max_tokens" (mir_HealthCheckSupportsMaxTokens r);
   omit "health_check_reasoning_effort" (mir_HealthCheckReasoningEffort r);
   omit "health_check_voice" (mir_HealthCheckVoice r); omit "health_check_model" (mir_HealthCheckModel r)].

#[export] Instance encode_ModelCreateRequest : Encode ModelCreateRequest := λ r, struct
  [must "model_name" (mcr_ModelName r); must "litellm_params" (mcr_LiteLLMParams r);
   omit "model_info" (mcr_ModelInfo r); omit "model_id" (mcr_ModelID r)].

#[export] Instance encode_MemberRequest : Encode MemberRequest := λ r, struct
  [must "user_email" (mr_UserEmail r); must "role" (mr_Role r)].

#[export] Instance encode_TeamCreateRequest : Encode TeamCreateRequest := λ r, struct
  [omit "team_id" (tcr_TeamID r); must "team_alias" (tcr_TeamAlias r); omit "organization_id" (tcr_OrganizationID r);
   omit "models" (tcr_Models r); omit "max_budget" (tcr_MaxBudget r); omit "budget_duration" (tcr_BudgetDuration r);
   omit "tpm_limit" (tcr_TPMLimit r); omit "rpm_limit" (tcr_RPMLimit r);
   omit "team_member_rpm_limit" (tcr_TeamMemberRPMLimit r); omit "team_member_tpm_limit" (tcr_TeamMemberTPMLimit r);
   omit "team_member_budget" (tcr_TeamMemberBudget r); omit "max_parallel_requests" (tcr_MaxParallelRequests r);
   omit "soft_budget" (tcr_SoftBudget r); omit "model_rpm_limit" (tcr_ModelRPMLimit r);
   omit "model_tpm_limit" (tcr_ModelTPMLimit r); omit "object_permission" (tcr_ObjectPermission r);
   omit "metadata" (tcr_Metadata r); omit "members_with_roles" (tcr_Members r); omit "tags" (tcr_Tags r);
   omit "guardrails" (tcr_Guardrails r); omit "blocked" (tcr_Blocked r)].

#[export] Instance encode_TeamUpdateRequest : Encode TeamUpdateRequest := λ r, struct
  [must "team_id" (tur_TeamID r); omit "team_alias" (tur_TeamAlias r); omit "organization_id" (tur_OrganizationID r);
   omit "models" (tur_Models r); omit "max_budget" (tur_MaxBudget r); omit "budget_duration" (tur_BudgetDuration r);
   omit "tpm_limit" (tur_TPMLimit r); omit "rpm_limit" (tur_RPMLimit r);
   omit "team_member_budget" (tur_TeamMemberBudget r); omit "max_parallel_requests" (tur_MaxParallelRequests r);
   omit "soft_budget" (tur_SoftBudget r); omit "model_rpm_limit" (tur_ModelRPMLimit r);
   omit "model_tpm_limit" (tur_ModelTPMLimit r); omit "object_permission" (tur_ObjectPermission r);
   omit "metadata" (tur_Metadata r); omit "tags" (tur_Tags r); omit "guardrails" (tur_Guardrails r);
   omit "blocked" (tur_Blocked r)].

#[export] Instance encode_TeamCallbackRequest : Encode TeamCallbackRequest := λ r, struct
  [must "callback_name" (tcbr_CallbackName r); must "callback_type" (tcbr_CallbackType r);
   must "callback_vars" (tcbr_CallbackVars r)].

#[export] Instance encode_UserTeam : Encode UserTeam := λ r, struct
  [must "team_id" (ut_TeamID r); omit "role" (ut_Role r); omit "max_budget_in_team" (ut_MaxBudgetInTeam r)].

#[export] Instance encode_UserCreateRequest : Encode UserCreateRequest := λ r, struct
  [must "user_id" (ucr_UserID r); omit "user_email" (ucr_UserEmail r); omit "user_role" (ucr_UserRole r);
   omit "max_budget" (ucr_MaxBudget r); omit "budget_duration" (ucr_BudgetDuration r); omit "models" (ucr_Models r);
   omit "teams" (ucr_Teams r); omit "tpm_limit" (ucr_TPMLimit r); omit "rpm_limit" (ucr_RPMLimit r);
   omit "soft_budget" (ucr_SoftBudget r); omit "model_rpm_limit" (ucr_ModelRPMLimit r);
   omit "model_tpm_limit" (ucr_ModelTPMLimit r); omit "object_permission" (ucr_ObjectPermission r);
   omit "metadata" (ucr_Metadata r); omit "blocked" (ucr_Blocked r); omit "auto_create_key" (ucr_AutoCreateKey r)].

(** [metav1.Time] writes itself as a text (RFC 3339). *)
Class FormatTime := format_time : Time → string.

#[export] Instance encode_KeyGenerateRequest `{FormatTime} : Encode KeyGenerateRequest := λ r, struct
  [omit "key_alias" (kgr_KeyAlias r); omit "team_id" (kgr_TeamID r); omit "user_id" (kgr_UserID r);
   omit "models" (kgr_Models r); omit "max_budget" (kgr_MaxBudget r); omit "budget_duration" (kgr_BudgetDuration r);
   omit "expires" (format_time <$> kgr_ExpiresAt r); omit "tpm_limit" (kgr_TPMLimit r); omit "rpm_limit" (kgr_RPMLimit r);
   omit "metadata" (kgr_Metadata r); omit "model_max_budget" (kgr_ModelMaxBudget r);
   omit "max_parallel_requests" (kgr_MaxParallelRequests r); omit "guardrails" (kgr_Guardrails r);
   omit "blocked" (kgr_Blocked r); omit "soft_budget" (kgr_SoftBudget r); omit "model_rpm_limit" (kgr_ModelRPMLimit r);
   omit "model_tpm_limit" (kgr_ModelTPMLimit r); omit "object_permission" (kgr_ObjectPermission r)].

#[export] Instance encode_KeyUpdateRequest : Encode KeyUpdateRequest := λ r, struct
  [must "key" (kur_Token r); omit "models" (kur_Models r); omit "max_budget" (kur_MaxBudget r);
   omit "budget_duration" (kur_BudgetDuration r); omit "tpm_limit" (kur_TPMLimit r); omit "rpm_limit" (kur_RPMLimit r);
   omit "metadata" (kur_Metadata r); omit "model_max_budget" (kur_ModelMaxBudget r);
   omit "max_parallel_requests" (kur_MaxParallelRequests r); omit "guardrails" (kur_Guardrails r);
   omit "blocked" (kur_Blocked r); omit "soft_budget" (kur_SoftBudget r); omit "model_rpm_limit" (kur_ModelRPMLimit r);
   omit "model_tpm_limit" (kur_ModelTPMLimit r); omit "object_permission" (kur_ObjectPermission r)].

#[export] Instance encode_OrganizationCreateRequest : Encode OrganizationCreateRequest := λ r, struct
  [must "organization_alias" (ocr_OrganizationAlias r); omit "models" (ocr_Models r); omit "max_budget" (ocr_MaxBudget r);
   omit "budget_duration" (ocr_BudgetDuration r); omit "tpm_limit" (ocr_TpmLimit r); omit "rpm_limit" (ocr_RpmLimit r);
   omit "soft_budget" (ocr_SoftBudget r); omit "model_rpm_limit" (ocr_ModelRPMLimit r);
   omit "model_tpm_limit" (ocr_ModelTPMLimit r); omit "object_permission" (ocr_ObjectPermission r);
   omit "metadata" (ocr_Metadata r)].

#[export] Instance encode_OrganizationUpdateRequest : Encode OrganizationUpdateRequest := λ r, struct
  [must "organization_id" (our_OrganizationID r); omit "organization_alias" (our_OrganizationAlias r);
   omit "models" (our_Models r); omit "max_budget" (our_MaxBudget r); omit "budget_duration" (our_BudgetDuration r);
   omit "tpm_limit" (our_TpmLimit r); omit "rpm_limit" (our_RpmLimit r); omit "soft_budget" (our_SoftBudget r);
   omit "model_rpm_limit" (our_ModelRPMLimit r); omit "model_tpm_limit" (our_ModelTPMLimit r);
   omit "object_permission" (our_ObjectPermission r); omit "metadata" (our_Metadata r)].

#[export] Instance encode_OrgMemberRequest : Encode OrgMemberRequest := λ r, struct
  [must "user_email" (omr_UserEmail r); must "role" (omr_Role r)].

#[export] Instance encode_OrgMemberAddRequest : Encode OrgMemberAddRequest := λ r, struct
  [must "organization_id" (omar_OrganizationID r); must "member" (omar_Member r)].

#[export] Instance encode_CustomerCreateRequest : Encode CustomerCreateRequest := λ r, struct
  [must "user_id" (ccr_UserID r); omit "alias" (ccr_Alias r); omit "max_budget" (ccr_MaxBudget r);
   omit "budget_duration" (ccr_BudgetDuration r); omit "budget_id" (ccr_BudgetID r); omit "tpm_limit" (ccr_TpmLimit r);
   omit "rpm_limit" (ccr_RpmLimit r); omit "allowed_model_region" (ccr_AllowedModelRegion r);
   omit "default_model" (ccr_DefaultModel r); omit "models" (ccr_Models r); omit "blocked" (ccr_Blocked r);
   omit "object_permission" (ccr_ObjectPermission r); omit "metadata" (ccr_Metadata r)].

#[export] Instance encode_CustomerUpdateRequest : Encode CustomerUpdateRequest := λ r, struct
  [must "user_id" (cur_UserID r); omit "alias" (cur_Alias r); omit "max_budget" (cur_MaxBudget r);
   omit "budget_duration" (cur_BudgetDuration r); omit "budget_id" (cur_BudgetID r); omit "tpm_limit" (cur_TpmLimit r);
   omit "rpm_limit" (cur_RpmLimit r); omit "allowed_model_region" (cur_AllowedModelRegion r);
   omit "default_model" (cur_DefaultModel r); omit "models" (cur_Models r); omit "blocked" (cur_Blocked r);
   omit "object_permission" (cur_ObjectPermission r); omit "metadata" (cur_Metadata r)].

#[export] Instance encode_BudgetRequest : Encode BudgetRequest := λ r, struct
  [omit "budget_id" (br_BudgetID r); omit "max_budget" (br_MaxBudget r); omit "soft_budget" (br_SoftBudget r);
   omit "budget_duration" (br_BudgetDuration r); omit "tpm_limit" (br_TPMLimit r); omit "rpm_limit" (br_RPMLimit r);
   omit "max_parallel_requests" (br_MaxParallelRequests r); omit "model_max_budget" (br_ModelMaxBudget r)].

#[export] Instance encode_CredentialPayload : Encode CredentialPayload := λ r, struct
  [must "credential_name" (cp_CredentialName r); must "credential_values" (cp_CredentialValues r);
   omit "credential_info" (cp_CredentialInfo r)].

(** ** Texts *)

(** [strconv.FormatFloat] as [encoding/json] calls it; NaN and the infinities have no text. *)
Class FormatFloat := format_float : float64 → option string.

(** A string of JSON without its quotes, the way [encoding/json] writes it: control
    characters, quotes, backslashes and the three characters of HTML are escaped, as are
    U+2028 and U+2029, and a byte that is no UTF-8 is replaced.  [fuel] is the length. *)
Definition bslash : Z := 92.
Definition unicode_escape (s : string) : list Z := bslash :: 117 :: bytes_of s.
Definition escape_ascii (b : Z) : list Z :=
  if bool_decide (b ∈ [34; 92]) then [bslash; b]
  else if b =? 8 then [bslash; 98]
  else if b =? 12 then [bslash; 102]
  else if b =? 10 then [bslash; 110]
  else if b =? 13 then [bslash; 114]
  else if b =? 9 then [bslash; 116]
  else if (b <? 32) || bool_decide (b ∈ [60; 62; 38])
  then bslash :: 117 :: 48 :: 48 :: [hex_digit (Z.shiftr b 4); hex_digit (Z.land b 15)]
  else [b].

Fixpoint escape_bytes (fuel : nat) (l : list Z) : list Z :=
  match fuel, l with
  | S fuel, b :: l' =>
      if b <? 128 then escape_ascii b ++ escape_bytes fuel l'
      else
        let n := rune_width l in
        if decide (n = 1%nat) then unicode_escape "fffd" ++ escape_bytes fuel l'
        else if bool_decide (take 3 l = [0xE2; 0x80; 0xA8]) then unicode_escape "2028" ++ escape_bytes fuel (drop n l)
        else if bool_decide (take 3 l = [0xE2; 0x80; 0xA9]) then unicode_escape "2029" ++ escape_bytes fuel (drop n l)
        else take n l ++ escape_bytes fuel (drop n l)
  | _, _ => []
  end.

Definition json_escape (s : string) : string :=
  let l := bytes_of s in string_of (escape_bytes (length l) l).
Definition json_quote (s : string) : string := dquote +:+ json_escape s +:+ dquote.

Fixpoint json_text `{FormatFloat} (v : json) : option string :=
  match v with
  | WNull => Some "null"
  | WBool b => Some (if b then "true" else "false")
  | WInt z => Some (pretty z)
  | WFloat f => format_float f
  | WString s => Some (json_quote s)
  | WArray l => texts ← mapM json_text l; Some ("[" +:+ String.concat "," texts +:+ "]")
  | WObject l =>
      texts ← mapM (λ '(k, v), t ← json_text v; Some (json_quote k +:+ ":" +:+ t)) l;
      Some ("{" +:+ String.concat "," texts +:+ "}")
  end.

Definition json_Marshal_text `{FormatFloat} `{Encode A} (a : A) : res string error :=
  match json_text (encode a) with Some s => Ok s | None => Err (ErrLib "json: unsupported value") end.

(** ** Decoding *)

(** [json.Unmarshal] into a value that is [old] so far; [None] is a mismatch of types. *)
Class Decode (A : Type) := { zero : A; decode : A → json → option A }.

#[export] Instance decode_string : Decode string :=
  {| zero := ""; decode old v := match v with WNull => Some old | WString s => Some s | _ => None end |}.
#[export] Instance decode_bool : Decode bool :=
  {| zero := false; decode old v := match v with WNull => Some old | WBool b => Some b | _ => None end |}.
(** An [int] takes a literal without fraction or exponent that fits 64 bits. *)
#[export] Instance decode_int : Decode Z :=
  {| zero := 0;
     decode old v := match v with
       | WNull => Some old
       | WInt z => if (-2 ^ 63 <=? z) && (z <? 2 ^ 63) then Some z else None
       | _ => None end |}.
#[export] Instance decode_float : Decode float64 :=
  {| zero := S754_zero false;
     decode old v := match v with
       | WNull => Some old
       | WInt z => match f64_of_int z with S754_infinity _ => None | f => Some f end
       | WFloat f => Some f
       | _ => None end |}.
#[export] Instance decode_value : Decode JSONValue :=
  {| zero := JNull; decode _ v := Some (to_value v) |}.
#[export] Instance decode_pointer `{Decode A} : Decode (option A) :=
  {| zero := None;
     decode old v := match v with WNull => Some None | _ => Some <$> decode (default zero old) v end |}.
#[export] Instance decode_slice `{Decode A} : Decode (list A) :=
  {| zero := [];
     decode _ v := match v with WNull => Some [] | WArray l => mapM (decode zero) l | _ => None end |}.
#[export] Instance decode_map `{Decode A} : Decode (gmap string A) :=
  {| zero := ∅;
     decode old v := match v with
       | WNull => Some ∅
       | WObject l => foldl (λ m '(k, v), m ← m; a ← decode zero v; Some (<[k := a]> m)) (Some old) l
       | _ => None end |}.

(** The members of an object that are decoded into the field [k]. *)
Definition field_values (k : string) (l : list (string * json)) : list json :=
  (filter (λ m : string * json, strings_ToLower m.1 = strings_ToLower k) l).*2.

Definition get `{Decode A} (k : string) (l : list (string * json)) : option A :=
  foldl (λ a v, a ← a; decode a v) (Some zero) (field_values k l).

Definition decode_struct {A} (zero_ : A) (f : list (string * json) → option A) : Decode A :=
  {| zero := zero_; decode old v := match v with WNull => Some old | WObject l => f l | _ => None end |}.

#[export] Instance decode_ModelCreateResponse : Decode ModelCreateResponse :=
  decode_struct (MkModelCreateResponse "") (λ l, id ← get "model_id" l; Some (MkModelCreateResponse id)).

#[export] Instance decode_ModelParams : Decode ModelParams :=
  decode_struct (MkModelParams "" "" "" "" "" None None None None None [] None None None None None None None "" "" ∅ None "" "" "")
  (λ l,
    model ← get "model" l; credential ← get "litellm_credential_name" l; base ← get "api_base" l; key ← get "api_key" l;
    version ← get "api_version" l; rpm ← get "rpm" l; tpm ← get "tpm" l; timeout ← get "timeout" l;
    stream ← get "stream_timeout" l; retries ← get "max_retries" l; tags ← get "tags" l; weight ← get "weight" l;
    order ← get "order" l; input ← get "max_input_tokens" l; temperature ← get "temperature" l; topP ← get "top_p" l;
    tokens ← get "max_tokens" l; seed ← get "seed" l; organization ← get "organization" l;
    region ← get "aws_region_name" l; headers ← get "extra_headers" l; drop ← get "drop_params" l;
    project ← get "vertex_project" l; location ← get "vertex_location" l; credentials ← get "vertex_credentials" l;
    Some (MkModelParams model credential base key version rpm tpm timeout stream retries tags weight order input
            temperature topP tokens seed organization region headers drop project location credentials)).

#[export] Instance decode_ModelInfoResponse : Decode ModelInfoResponse :=
  decode_struct (MkModelInfoResponse "" "" zero) (λ l,
    id ← get "model_id" l; name ← get "model_name" l; params ← get "litellm_params" l;
    Some (MkModelInfoResponse id name params)).

#[export] Instance decode_TeamCreateResponse : Decode TeamCreateResponse :=
  decode_struct (MkTeamCreateResponse "" "") (λ l,
    id ← get "team_id" l; alias ← get "team_alias" l; Some (MkTeamCreateResponse id alias)).

#[export] Instance decode_TeamInfo : Decode TeamInfo :=
  decode_struct (MkTeamInfo "" "" [] None) (λ l,
    id ← get "team_id" l; alias ← get "team_alias" l; models ← get "models" l; spend ← get "spend" l;
    Some (MkTeamInfo id alias models spend)).

#[export] Instance decode_TeamMemberInfo : Decode TeamMemberInfo :=
  decode_struct (MkTeamMemberInfo "" "") (λ l,
    email ← get "user_email" l; role ← get "role" l; Some (MkTeamMemberInfo email role)).

#[export] Instance decode_UserCreateResponse : Decode UserCreateResponse :=
  decode_struct (MkUserCreateResponse "") (λ l, id ← get "user_id" l; Some (MkUserCreateResponse id)).

#[export] Instance decode_UserInfo : Decode UserInfo :=
  decode_struct (MkUserInfo "" "" "" None []) (λ l,
    id ← get "user_id" l; email ← get "user_email" l; role ← get "user_role" l; spend ← get "spend" l;
    teams ← get "teams" l; Some (MkUserInfo id email role spend teams)).

#[export] Instance decode_KeyGenerateResponse : Decode KeyGenerateResponse :=
  decode_struct (MkKeyGenerateResponse "" "") (λ l,
    key ← get "key" l; token ← get "token" l; Some (MkKeyGenerateResponse key token)).

#[export] Instance decode_KeyInfo : Decode KeyInfo :=
  decode_struct (MkKeyInfo "" "" None false []) (λ l,
    token ← get "token" l; alias ← get "key_alias" l; spend ← get "spend" l; active ← get "key_status" l;
    models ← get "models" l; Some (MkKeyInfo token alias spend active models)).

#[export] Instance decode_OrganizationCreateResponse : Decode OrganizationCreateResponse :=
  decode_struct (MkOrganizationCreateResponse "" "") (λ l,
    id ← get "organization_id" l; alias ← get "organization_alias" l; Some (MkOrganizationCreateResponse id alias)).

#[export] Instance decode_OrgMemberInfo : Decode OrgMemberInfo :=
  decode_struct (MkOrgMemberInfo "" "" "") (λ l,
    id ← get "user_id" l; email ← get "user_email" l; role ← get "role" l; Some (MkOrgMemberInfo id email role)).

#[export] Instance decode_OrganizationInfo : Decode OrganizationInfo :=
  decode_struct (MkOrganizationInfo "" "" [] None []) (λ l,
    id ← get "organization_id" l; alias ← get "organization_alias" l; models ← get "models" l; spend ← get "spend" l;
    members ← get "members" l; Some (MkOrganizationInfo id alias models spend members)).

#[export] Instance decode_CustomerInfo : Decode CustomerInfo :=
  decode_struct (MkCustomerInfo "" "" None None "" "" None None [] false) (λ l,
    id ← get "user_id" l; alias ← get "alias" l; spend ← get "spend" l; max ← get "max_budget" l;
    duration ← get "budget_duration" l; budget ← get "budget_id" l; tpm ← get "tpm_limit" l; rpm ← get "rpm_limit" l;
    models ← get "models" l; blocked ← get "blocked" l;
    Some (MkCustomerInfo id alias spend max duration budget tpm rpm models blocked)).

#[export] Instance decode_CredentialInfoResponse : Decode CredentialInfoResponse :=
  decode_struct (MkCredentialInfoResponse "" ∅ ∅) (λ l,
    name ← get "credential_name" l; values ← get "credential_values" l; info ← get "credential_info" l;
    Some (MkCredentialInfoResponse name values info)).

#[export] Instance decode_BudgetResponse : Decode BudgetResponse :=
  decode_struct (MkBudgetResponse "") (λ l, id ← get "budget_id" l; Some (MkBudgetResponse id)).

#[export] Instance decode_BudgetInfo : Decode BudgetInfo :=
  decode_struct (MkBudgetInfo "" None None) (λ l,
    id ← get "budget_id" l; max ← get "max_budget" l; spend ← get "spend" l; Some (MkBudgetInfo id max spend)).

#[export] Instance decode_ReadinessResponse : Decode ReadinessResponse :=
  decode_struct (MkReadinessResponse "" "" "") (λ l,
    status ← get "status" l; db ← get "db" l; version ← get "litellm_version" l;
    Some (MkReadinessResponse status db version)).

#[export] Instance decode_CachePingResponse : Decode CachePingResponse :=
  decode_struct (MkCachePingResponse "" "" false "") (λ l,
    status ← get "status" l; type ← get "cache_type" l; ping ← get "ping_response" l; set ← get "set_cache_response" l;
    Some (MkCachePingResponse status type ping set)).

#[export] Instance decode_HealthEndpoint : Decode HealthEndpoint :=
  decode_struct (MkHealthEndpoint "" "" "" "" "") (λ l,
    model ← get "model" l; id ← get "model_id" l; base ← get "api_base" l; err ← get "error" l; resp ← get "response" l;
    Some (MkHealthEndpoint model id base err resp)).

#[export] Instance decode_HealthCheckResponse : Decode HealthCheckResponse :=
  decode_struct (MkHealthCheckResponse [] [] 0 0) (λ l,
    healthy ← get "healthy_endpoints" l; unhealthy ← get "unhealthy_endpoints" l; n ← get "healthy_count" l;
    m ← get "unhealthy_count" l; Some (MkHealthCheckResponse healthy unhealthy n m)).

(** [encoding/json] on a text. *)
Class JSONParse := json_parse : string → res json string.

Definition json_Unmarshal_text `{JSONParse} `{Decode A} (text : string) : res A error :=
  match json_parse text with
  | Err msg => Err (ErrLib msg)
  | Ok v => match decode zero v with
            | Some a => Ok a
            | None => Err (ErrLib "json: cannot unmarshal the value into the type of the field")
            end
  end.

(** ** A body determines its request

    An encoding is injective when those of its fields are: objects with the same keys are
    equal only if their fields are, and a field left out is told from one sent. *)

Lemma to_of_value : ∀ v, to_value (of_value v) = v.
Proof.
  fix IH 1. intros [| | | |l|l]; cbn; [done|done|done|done| |]; f_equal.
  - induction l as [|v l IHl]; cbn; [done|]. by rewrite IH, IHl.
  - induction l as [|[k v] l IHl]; cbn; [done|]. by rewrite IH, IHl.
Qed.

#[export] Instance encode_string_inj : Inj (=) (=) (encode (A:=string)).
Proof. by intros x y [=]. Qed.
#[export] Instance encode_bool_inj : Inj (=) (=) (encode (A:=bool)).
Proof. by intros x y [=]. Qed.
#[export] Instance encode_int_inj : Inj (=) (=) (@encode Z encode_int).
Proof. by intros x y [=]. Qed.
#[export] Instance encode_float_inj : Inj (=) (=) (@encode float64 encode_float).
Proof. by intros x y [=]. Qed.
#[export] Instance encode_value_inj : Inj (=) (=) (encode (A:=JSONValue)).
Proof. intros x y Heq. rewrite <-(to_of_value x), <-(to_of_value y). by f_equal. Qed.
#[export] Instance encode_list_inj `{Encode A} `{!Inj (=) (=) (encode (A:=A))} : Inj (=) (=) (encode (A:=list A)).
Proof. intros x y [= Heq]. by apply (inj _) in Heq. Qed.

Lemma encode_map_members `{Encode A} (m : gmap string A) :
  encode m = WObject ((λ k, (k, default WNull (encode <$> m !! k))) <$> sortedKeys m).
Proof.
  unfold encode at 1, encode_map. f_equal. assert (∀ k, k ∈ sortedKeys m → is_Some (m !! k)) as Hin.
  { intros k. by rewrite elem_of_sortedKeys. }
  induction (sortedKeys m) as [|k l IH]; [done|]. cbn. destruct (Hin k) as [a ->]; [by left|]. cbn. f_equal.
  apply IH. intros k' Hk'. apply Hin. by right.
Qed.

#[export] Instance encode_map_inj `{Encode A} `{!Inj (=) (=) (encode (A:=A))} : Inj (=) (=) (encode (A:=gmap string A)).
Proof.
  intros m m'. rewrite !encode_map_members. intros [= Heq].
  assert (sortedKeys m = sortedKeys m') as Hk.
  { apply (f_equal (fmap fst)) in Heq. by rewrite <-!list_fmap_compose, !list_fmap_id in Heq. }
  apply map_eq. intros k. destruct (decide (k ∈ sortedKeys m)) as [Hin|Hout].
  - rewrite Hk in Heq. assert (default WNull (encode <$> m !! k) = default WNull (encode <$> m' !! k)) as Hv.
    { rewrite Hk in Hin. clear Hk. induction (sortedKeys m') as [|k' l IH]; [by apply not_elem_of_nil in Hin|].
      injection Heq as Hh Ht. apply elem_of_cons in Hin as [->|Hin]; [done|by apply IH]. }
    pose proof (proj1 (elem_of_sortedKeys m k) Hin) as [a Ha]. rewrite Hk in Hin.
    pose proof (proj1 (elem_of_sortedKeys m' k) Hin) as [a' Ha']. rewrite Ha, Ha' in *. cbn in Hv. by apply (inj encode) in Hv as ->.
  - pose proof Hout as Hout'. rewrite Hk in Hout'. rewrite elem_of_sortedKeys, <-eq_None_not_Some in Hout, Hout'. congruence.
Qed.

#[export] Instance omit_string_inj : Inj (=) (=) (omitempty (A:=string)).
Proof. intros x y. unfold omitempty, omit_string. by repeat case_decide; intros Heq; simplify_eq. Qed.
#[export] Instance omit_option_inj `{Encode A} `{!Inj (=) (=) (encode (A:=A))} : Inj (=) (=) (omitempty (A:=option A)).
Proof. intros [x|] [y|]; [|done..]. intros [= Heq]. by apply (inj encode) in Heq as ->. Qed.
#[export] Instance omit_list_inj `{Encode A} `{!Inj (=) (=) (encode (A:=A))} : Inj (=) (=) (omitempty (A:=list A)).
Proof. intros [|x l] [|y l']; [done..|]. intros Heq. apply (inj Some) in Heq. by apply (inj (encode (A:=list A))). Qed.
#[export] Instance omit_map_inj `{Encode A} `{!Inj (=) (=) (encode (A:=A))} :
  Inj (=) (=) (omitempty (A:=gmap string A)).
Proof.
  intros m m'. unfold omitempty, omit_map. repeat case_decide; intros Heq; [by subst|done..|].
  apply (inj Some) in Heq. by apply (inj encode).
Qed.

Lemma members_cons k o l : members ((k, o) :: l) = match o with Some v => (k, v) :: members l | None => members l end.
Proof. by destruct o. Qed.

Lemma members_keys k (l : list tag) : k ∉ l.*1 → k ∉ (members l).*1.
Proof.
  induction l as [|[k' o] l IH]; [done|]. rewrite members_cons. cbn. rewrite not_elem_of_cons. intros [Hne Hout].
  destruct o; cbn; rewrite ?not_elem_of_cons; auto.
Qed.

(** The fields of an object, when their keys are distinct. *)
Lemma struct_inj (l l' : list tag) : l.*1 = l'.*1 → NoDup l.*1 → struct l = struct l' → l = l'.
Proof.
  intros Hk Hnd [= Heq]. revert l' Hk Heq. induction l as [|[k o] l IH]; intros [|[k' o'] l'] Hk Heq; [done..|].
  injection Hk as <- Hk. change (l.*1 = l'.*1) in Hk. cbn in Hnd. apply NoDup_cons in Hnd as [Hout Hnd].
  assert (k ∉ l'.*1) as Hout' by (by rewrite <-Hk). apply members_keys in Hout, Hout'. rewrite !members_cons in Heq.
  destruct o as [v|], o' as [v'|].
  - injection Heq as -> Heq. f_equal. by apply IH.
  - exfalso. apply Hout'. rewrite <-Heq. by left.
  - exfalso. apply Hout. rewrite Heq. by left.
  - f_equal. by apply IH.
Qed.

Lemma must_inj `{Encode A} `{!Inj (=) (=) (encode (A:=A))} k (a a' : A) (l l' : list tag) :
  must k a :: l = must k a' :: l' → a = a' ∧ l = l'.
Proof. intros Heq. injection Heq as Ha Hl. by apply (inj encode) in Ha. Qed.
Lemma omit_inj `{OmitEmpty A} `{!Inj (=) (=) (omitempty (A:=A))} k (a a' : A) (l l' : list tag) :
  omit k a :: l = omit k a' :: l' → a = a' ∧ l = l'.
Proof. intros Heq. injection Heq as Ha Hl. by apply (inj omitempty) in Ha. Qed.

Ltac by_tags Heq :=
  repeat lazymatch type of Heq with
         | must _ _ :: _ = _ => apply must_inj in Heq as [? Heq]
         | omit _ _ :: _ = _ => apply omit_inj in Heq as [? Heq]
         end.

Ltac by_fields :=
  intros [] [] Heq; apply struct_inj in Heq; [|reflexivity|compute_done]; by_tags Heq; cbn in *; by subst.

#[export] Instance encode_ApiObjectPermission_inj : Inj (=) (=) (encode (A:=ApiObjectPermission)).
Proof. by_fields. Qed.
#[export] Instance encode_ModelParams_inj : Inj (=) (=) (encode (A:=ModelParams)).
Proof. by_fields. Qed.
#[export] Instance encode_ModelInfoReq_inj : Inj (=) (=) (encode (A:=ModelInfoReq)).
Proof. by_fields. Qed.
#[export] Instance encode_ModelCreateRequest_inj : Inj (=) (=) (encode (A:=ModelCreateRequest)).
Proof. by_fields. Qed.
#[export] Instance encode_MemberRequest_inj : Inj (=) (=) (encode (A:=MemberRequest)).
Proof. by_fields. Qed.
#[export] Instance encode_TeamCreateRequest_inj : Inj (=) (=) (encode (A:=TeamCreateRequest)).
Proof. by_fields. Qed.
#[export] Instance encode_TeamUpdateRequest_inj : Inj (=) (=) (encode (A:=TeamUpdateRequest)).
Proof. by_fields. Qed.
#[export] Instance encode_TeamCallbackRequest_inj : Inj (=) (=) (encode (A:=TeamCallbackRequest)).
Proof. by_fields. Qed.
#[export] Instance encode_UserTeam_inj : Inj (=) (=) (encode (A:=UserTeam)).
Proof. by_fields. Qed.
#[export] Instance encode_UserCreateRequest_inj : Inj (=) (=) (encode (A:=UserCreateRequest)).
Proof. by_fields. Qed.
#[export] Instance encode_KeyUpdateRequest_inj : Inj (=) (=) (encode (A:=KeyUpdateRequest)).
Proof. by_fields. Qed.
#[export] Instance encode_OrganizationCreateRequest_inj : Inj (=) (=) (encode (A:=OrganizationCreateRequest)).
Proof. by_fields. Qed.
#[export] Instance encode_OrganizationUpdateRequest_inj : Inj (=) (=) (encode (A:=OrganizationUpdateRequest)).
Proof. by_fields. Qed.
#[export] Instance encode_OrgMemberRequest_inj : Inj (=) (=) (encode (A:=OrgMemberRequest)).
Proof. by_fields. Qed.
#[export] Instance encode_OrgMemberAddRequest_inj : Inj (=) (=) (encode (A:=OrgMemberAddRequest)).
Proof. by_fields. Qed.
#[export] Instance encode_CustomerCreateRequest_inj : Inj (=) (=) (encode (A:=CustomerCreateRequest)).
Proof. by_fields. Qed.
#[export] Instance encode_CustomerUpdateRequest_inj : Inj (=) (=) (encode (A:=CustomerUpdateRequest)).
Proof. by_fields. Qed.
#[export] Instance encode_BudgetRequest_inj : Inj (=) (=) (encode (A:=BudgetRequest)).
Proof. by_fields. Qed.
#[export] Instance encode_CredentialPayload_inj : Inj (=) (=) (encode (A:=CredentialPayload)).
Proof. by_fields. Qed.

(** An instant is written to the second: what a key request keeps of its expiry. *)
Class FormatTimeLaw `{FormatTime} : Prop :=
  format_time_seconds : ∀ t t', format_time t = format_time t' → t / time_Second = t' / time_Second.

Definition to_seconds (r : KeyGenerateRequest) : KeyGenerateRequest :=
  MkKeyGenerateRequest (kgr_KeyAlias r) (kgr_TeamID r) (kgr_UserID r) (kgr_Models r) (kgr_MaxBudget r)
    (kgr_BudgetDuration r) ((λ t, t / time_Second) <$> kgr_ExpiresAt r) (kgr_TPMLimit r) (kgr_RPMLimit r)
    (kgr_Metadata r) (kgr_ModelMaxBudget r) (kgr_MaxParallelRequests r) (kgr_Guardrails r) (kgr_Blocked r)
    (kgr_SoftBudget r) (kgr_ModelRPMLimit r) (kgr_ModelTPMLimit r) (kgr_ObjectPermission r).

Lemma encode_KeyGenerateRequest_seconds `{FormatTimeLaw} (r r' : KeyGenerateRequest) :
  encode r = encode r' → to_seconds r = to_seconds r'.
Proof.
  assert (∀ o o' : option Time, format_time <$> o = format_time <$> o' →
    (λ t, t / time_Second) <$> o = (λ t, t / time_Second) <$> o') as Htime.
  { intros [t|] [t'|] Ht; try done. cbn in *. f_equal. apply format_time_seconds. congruence. }
  unfold to_seconds. revert r r'. intros [] [] Heq; apply struct_inj in Heq; [|reflexivity|compute_done].
  by_tags Heq. cbn in *. subst. f_equal. by apply Htime.
Qed.
