(* ===== verification/Cleared.v ===== *)
(** * Fields cleared in a specification

    Update requests leave out the fields that are empty ([omitempty], Wire), and LiteLLM's
    update endpoints change the fields they are given.  Hence a field that a specification
    clears keeps its value in LiteLLM, while the operator records the specification as
    pushed.  Shown for teams, whose update leaves out every field but the identifier. *)

From S2P Require Import Prelude KubeTypes InstanceTypes Types World Sha256 Common Reconcile Team Wire.

(** The update endpoint of LiteLLM, on the fields it stores: documented to change those of the
    request and no other. *)
Class UpdateEndpoint := {
  after_update : gmap string json → json → gmap string json;
  after_update_other stored l k : k ∉ l.*1 → after_update stored (WObject l) !! k = stored !! k;
}.

Lemma sent_keys (l : list tag) k : k ∈ (members l).*1 ↔ ∃ v, (k, Some v) ∈ l.
Proof.
  unfold members. rewrite list_elem_of_fmap. split.
  - intros ([k' v] & -> & ((k0 & [v0|]) & Hin & Hl)%list_elem_of_bind); [|by apply not_elem_of_nil in Hin].
    apply list_elem_of_singleton in Hin as [= -> ->]. by exists v0.
  - intros [v Hv]. exists (k, v). split; [done|]. apply list_elem_of_bind. exists (k, Some v).
    split; [by apply list_elem_of_singleton|done].
Qed.

(** The optional fields of the update of a team, by the tags of the struct. *)
Definition team_update_fields (r : TeamUpdateRequest) : list tag :=
  [omit "team_alias" (tur_TeamAlias r); omit "organization_id" (tur_OrganizationID r);
   omit "models" (tur_Models r); omit "max_budget" (tur_MaxBudget r); omit "budget_duration" (tur_BudgetDuration r);
   omit "tpm_limit" (tur_TPMLimit r); omit "rpm_limit" (tur_RPMLimit r);
   omit "team_member_budget" (tur_TeamMemberBudget r); omit "max_parallel_requests" (tur_MaxParallelRequests r);
   omit "soft_budget" (tur_SoftBudget r); omit "model_rpm_limit" (tur_ModelRPMLimit r);
   omit "model_tpm_limit" (tur_ModelTPMLimit r); omit "object_permission" (tur_ObjectPermission r);
   omit "metadata" (tur_Metadata r); omit "tags" (tur_Tags r); omit "guardrails" (tur_Guardrails r);
   omit "blocked" (tur_Blocked r)].

Lemma team_update_sent (r : TeamUpdateRequest) :
  encode r = struct (must "team_id" (tur_TeamID r) :: team_update_fields r).
Proof. reflexivity. Qed.

Lemma team_update_keys (r : TeamUpdateRequest) :
  NoDup (must "team_id" (tur_TeamID r) :: team_update_fields r).*1.
Proof. apply (bool_decide_unpack _). vm_compute. exact I. Qed.

Section Cleared.
Context `{KubeLib} `{JSONMarshal LiteLLMTeamSpec} `{UpdateEndpoint}.

(** An update of a team that LiteLLM accepts leaves every field that is empty in the
    specification as it was in LiteLLM; the hash of the specification is recorded all the same,
    so no later pass sends the field either. *)
Lemma cleared_fields_stay cl org (team team' : LiteLLMTeam) t r :
  runs (updateTeam cl org team) t (team', r) →
  KEv (KApi cl (TeamsUpdate (teamUpdateRequest team org))) None ∈ t →
  (∃ x, KEv (KUpdate KTeam (annotate AnnotationSyncHash (computeSpecHash (Spec team)) team)) x ∈ t) ∧
  ∀ k stored, (k, None) ∈ team_update_fields (teamUpdateRequest team org) →
    after_update stored (encode (teamUpdateRequest team org)) !! k = stored !! k.
Proof.
  intros Hr Hin. split.
  - unfold updateTeam in Hr. rewrite get_bind in Hr. apply pushSpec_spec in Hr. case_decide as Hd.
    { destruct Hr as (-> & _). by apply not_elem_of_nil in Hin. }
    destruct Hr as (x & t1 & -> & Hr). apply elem_of_cons in Hin as [Heq|Hin].
    + apply Ev_inj in Heq as <-. destruct Hr as (y & t2 & -> & _). exists y. by right; left.
    + destruct x as [e|]; [by destruct Hr as [-> _]; apply not_elem_of_nil in Hin|].
      destruct Hr as (y & t2 & -> & _). exists y. by right; left.
  - intros k stored Hk. rewrite team_update_sent. apply after_update_other. rewrite sent_keys.
    intros [v Hv]. pose proof (team_update_keys (teamUpdateRequest team org)) as Hnd.
    set (l := must _ _ :: _) in *. assert ((k, None) ∈ l) as Hk' by (by right).
    apply list_elem_of_lookup in Hv as [i Hi], Hk' as [j Hj].
    assert (i = j) as -> by (eapply (NoDup_lookup l.*1); [done|by rewrite list_lookup_fmap, ?Hi, ?Hj..]).
    congruence.
Qed.
End Cleared.
