(* ===== verification/Client.v ===== *)
(** * The client of LiteLLM (internal/litellm)

    [NewClient], [do] and the methods of the services, as programs over HTTP exchanges; and
    the link with the calls of the controllers: [client] implements each [api_req] of
    [World], and [lower] replaces these calls by the exchanges in a whole program.

    A body is kept as the JSON value whose text is sent ([json_text]).  The timeout of
    [http.Client] is one of the errors of an exchange. *)

From S2P Require Import Prelude KubeTypes InstanceTypes Types Updates World Sha256 Common Rollout ProxyConfig Wire.
Open Scope Z_scope.

(** ** Exchanges *)

Record http_request := MkHttpRequest {
  hr_Method : string;
  hr_URL : string;
  hr_Header : list (string * string);
  hr_Body : option json;
  hr_RootCAs : option string (* the system's when [None] *)
}.

Record http_response := MkHttpResponse {
  resp_StatusCode : Z;
  resp_Body : res string string (* what [io.ReadAll] gives *)
}.

(** An exchange fails with an error of the transport, known by its text. *)
Definition HTTP : Sig := MkSig http_request (λ _, res http_response string).

(** What the client uses of [net/http] and [crypto/x509]: whether a URL can be parsed, and
    whether a bundle holds a certificate. *)
Class HTTPLib := {
  http_NewRequest : string → string → option string;
  AppendCertsFromPEM : string → bool
}.

(** ** The client *)

Record httpClient := MkHttpClient { hc_baseURL : string; hc_masterKey : string; hc_RootCAs : option string }.

(** [strings.TrimRight(s, "/")] *)
Fixpoint trim_right_slashes (s : string) : string :=
  match s with
  | EmptyString => ""
  | String.String c s' =>
      let r := trim_right_slashes s' in
      if decide (r = "" ∧ byte_of_ascii c = 47) then "" else String.String c r
  end.

Section Client.
Context `{HTTPLib} `{FormatFloat} `{FormatTime} `{JSONParse}.

Definition WithCACert (pem : string) (c : httpClient) : httpClient :=
  if decide (pem = "") then c
  else if AppendCertsFromPEM pem then MkHttpClient (hc_baseURL c) (hc_masterKey c) (Some pem)
  else c.

(** [NewClient(endpoint, masterKey, WithCACert(pem))] *)
Definition NewClient (cl : ApiClient) : httpClient :=
  WithCACert (ac_CACert cl) (MkHttpClient (trim_right_slashes (ac_endpoint cl)) (ac_masterKey cl) None).

Definition headers (c : httpClient) : list (string * string) :=
  [("Authorization", "Bearer " +:+ hc_masterKey c); ("Content-Type", "application/json")].

Definition lib_error (fmt msg : string) : error := Errorf fmt [] (Some (ErrLib msg)).

(** What [do] makes of the answer to its request. *)
Definition answer {A} (path : string) (result : string → res A error) (r : res http_response string) : res A error :=
  match r with
  | Err msg => Err (lib_error "execute request: %w" msg)
  | Ok resp =>
      match resp_Body resp with
      | Err msg => Err (lib_error "read response: %w" msg)
      | Ok respBody =>
          if 400 <=? resp_StatusCode resp then Err (ErrAPI (resp_StatusCode resp) respBody path)
          else match result respBody with
               | Ok a => Ok a
               | Err err => Err (Errorf "unmarshal response: %w" [] (Some err))
               end
      end
  end.

Definition http_request_of (c : httpClient) (method path : string) (body : option json) : http_request :=
  MkHttpRequest method (hc_baseURL c +:+ path) (headers c) body (hc_RootCAs c).

Definition marshals (body : option json) : bool :=
  match body with Some v => bool_decide (is_Some (json_text v)) | None => true end.

(** [do]: [body] is [None] for a nil body, [result] decodes the response. *)
Definition do {A} (c : httpClient) (method path : string) (body : option json) (result : string → res A error) :
    prog HTTP (res A error) :=
  if marshals body then
    match http_NewRequest method (hc_baseURL c +:+ path) with
    | Some msg => mret (Err (lib_error "create request: %w" msg))
    | None =>
        r ← call (S := HTTP) (http_request_of c method path body);
        mret (answer path result r)
    end
  else mret (Err (lib_error "marshal request: %w" "json: unsupported value")).

(** A call whose result is nil. *)
Definition ignore (_ : string) : res unit error := Ok tt.
Definition do_nil (c : httpClient) (method path : string) (body : option json) : prog HTTP (option error) :=
  r ← do c method path body ignore;
  mret match r with Ok _ => None | Err err => Some err end.

(** The bodies that are not a request structure. *)
Definition strings_body (l : list (string * string)) : json := WObject (prod_map id WString <$> l).
Definition ids_body (k id : string) : json := WObject [(k, WArray [WString id])].

Definition POST : string := "POST".
Definition GET : string := "GET".
Definition post {A} `{Encode A} (c : httpClient) (path : string) (a : A) : prog HTTP (option error) :=
  do_nil c POST path (Some (encode a)).
Definition post_for {A B} `{Encode A} `{Decode B} (c : httpClient) (path : string) (a : A) : prog HTTP (res B error) :=
  do c POST path (Some (encode a)) json_Unmarshal_text.
Definition get_for {B} `{Decode B} (c : httpClient) (path : string) : prog HTTP (res B error) :=
  do c GET path None json_Unmarshal_text.

(** ** Models *)

Definition modelService_Create (c : httpClient) (req : ModelCreateRequest) : prog HTTP (res ModelCreateResponse error) :=
  post_for c "/model/new" req.
Definition modelService_Update (c : httpClient) (req : ModelCreateRequest) : prog HTTP (option error) :=
  post c "/model/update" req.
Definition modelService_Delete (c : httpClient) (modelID : string) : prog HTTP (option error) :=
  do_nil c POST "/model/delete" (Some (strings_body [("id", modelID)])).
Definition modelService_Get (c : httpClient) (modelID : string) : prog HTTP (res ModelInfoResponse error) :=
  get_for c ("/model/info?litellm_model_id=" +:+ modelID).
(** The list is under the key [data]. *)
Definition data_of (text : string) : res (list ModelInfoResponse) error :=
  json_Unmarshal_text (H0 := decode_struct [] (get "data")) text.
Definition modelService_List (c : httpClient) : prog HTTP (res (list ModelInfoResponse) error) :=
  do c GET "/model/info" None data_of.

(** ** Teams *)

Definition teamService_Create (c : httpClient) (req : TeamCreateRequest) : prog HTTP (res TeamCreateResponse error) :=
  post_for c "/team/new" req.
Definition teamService_Update (c : httpClient) (req : TeamUpdateRequest) : prog HTTP (option error) :=
  post c "/team/update" req.
Definition teamService_Delete (c : httpClient) (teamID : string) : prog HTTP (option error) :=
  do_nil c POST "/team/delete" (Some (ids_body "team_ids" teamID)).
Definition teamService_Get (c : httpClient) (teamID : string) : prog HTTP (res TeamInfo error) :=
  get_for c ("/team/info?team_id=" +:+ teamID).
Definition teamService_List (c : httpClient) : prog HTTP (res (list TeamInfo) error) := get_for c "/team/list".
Definition teamService_AddMember (c : httpClient) (teamID email role : string) : prog HTTP (option error) :=
  do_nil c POST "/team/member_add"
    (Some (WObject [("member", encode (MkMemberRequest email role)); ("team_id", WString teamID)])).
Definition teamService_RemoveMember (c : httpClient) (teamID email : string) : prog HTTP (option error) :=
  do_nil c POST "/team/member_delete" (Some (strings_body [("team_id", teamID); ("user_email", email)])).
Definition members_of (text : string) : res (list TeamMemberInfo) error :=
  json_Unmarshal_text (H0 := decode_struct [] (get "members")) text.
Definition teamService_ListMembers (c : httpClient) (teamID : string) : prog HTTP (res (list TeamMemberInfo) error) :=
  do c GET ("/team/info?team_id=" +:+ teamID) None members_of.
Definition teamService_SetCallback (c : httpClient) (teamID : string) (req : TeamCallbackRequest) : prog HTTP (option error) :=
  post c ("/team/" +:+ teamID +:+ "/callback") req.
Definition teamService_DisableLogging (c : httpClient) (teamID : string) : prog HTTP (option error) :=
  do_nil c POST ("/team/" +:+ teamID +:+ "/disable_logging") None.

(** ** Organizations, customers, keys *)

Definition organizationService_Create (c : httpClient) (req : OrganizationCreateRequest) :
    prog HTTP (res OrganizationCreateResponse error) := post_for c "/organization/new" req.
Definition organizationService_Update (c : httpClient) (req : OrganizationUpdateRequest) : prog HTTP (option error) :=
  post c "/organization/update" req.
Definition organizationService_Delete (c : httpClient) (organizationID : string) : prog HTTP (option error) :=
  do_nil c POST "/organization/delete" (Some (ids_body "organization_ids" organizationID)).
Definition organizationService_Get (c : httpClient) (organizationID : string) : prog HTTP (res OrganizationInfo error) :=
  get_for c ("/organization/info?organization_id=" +:+ organizationID).
Definition organizationService_List (c : httpClient) : prog HTTP (res (list OrganizationInfo) error) :=
  get_for c "/organization/list".
Definition organizationService_AddMember (c : httpClient) (req : OrgMemberAddRequest) : prog HTTP (option error) :=
  post c "/organization/member_add" req.
Definition organizationService_DeleteMember (c : httpClient) (organizationID userID : string) : prog HTTP (option error) :=
  do_nil c POST "/organization/member_delete"
    (Some (strings_body [("organization_id", organizationID); ("user_id", userID)])).

Definition customerService_Create (c : httpClient) (req : CustomerCreateRequest) : prog HTTP (res CustomerInfo error) :=
  post_for c "/customer/new" req.
Definition customerService_Update (c : httpClient) (req : CustomerUpdateRequest) : prog HTTP (res CustomerInfo error) :=
  post_for c "/customer/update" req.
Definition customerService_Delete (c : httpClient) (customerID : string) : prog HTTP (option error) :=
  do_nil c POST "/customer/delete" (Some (ids_body "user_ids" customerID)).
Definition customerService_Get (c : httpClient) (customerID : string) : prog HTTP (res CustomerInfo error) :=
  get_for c ("/customer/info?end_user_id=" +:+ customerID).
Definition customerService_List (c : httpClient) : prog HTTP (res (list CustomerInfo) error) := get_for c "/customer/list".

Definition keyService_Generate (c : httpClient) (req : KeyGenerateRequest) : prog HTTP (res KeyGenerateResponse error) :=
  post_for c "/key/generate" req.
Definition keyService_Update (c : httpClient) (req : KeyUpdateRequest) : prog HTTP (option error) :=
  post c "/key/update" req.
Definition keyService_Delete (c : httpClient) (token : string) : prog HTTP (option error) :=
  do_nil c POST "/key/delete" (Some (ids_body "keys" token)).
Definition keyService_Get (c : httpClient) (token : string) : prog HTTP (res KeyInfo error) :=
  get_for c ("/key/info?key=" +:+ token).
Definition keyService_List (c : httpClient) : prog HTTP (res (list KeyInfo) error) := get_for c "/key/list".

(** ** Credentials, budgets, health *)

Definition credentialService_Create (c : httpClient) (payload : CredentialPayload) : prog HTTP (option error) :=
  post c "/credentials" payload.
Definition credentialService_Update (c : httpClient) (payload : CredentialPayload) : prog HTTP (option error) :=
  do_nil c "PATCH" ("/credentials/" +:+ cp_CredentialName payload) (Some (encode payload)).
Definition credentialService_Delete (c : httpClient) (credentialName : string) : prog HTTP (option error) :=
  do_nil c "DELETE" ("/credentials/" +:+ credentialName) None.
Definition credentialService_Get (c : httpClient) (credentialName : string) : prog HTTP (res CredentialInfoResponse error) :=
  get_for c ("/credentials/by_name/" +:+ credentialName).

Definition budgetService_Create (c : httpClient) (req : BudgetRequest) : prog HTTP (res BudgetResponse error) :=
  post_for c "/budget/new" req.
Definition budgetService_Update (c : httpClient) (req : BudgetRequest) : prog HTTP (option error) :=
  post c "/budget/update" req.
Definition budgetService_Delete (c : httpClient) (budgetID : string) : prog HTTP (option error) :=
  do_nil c POST "/budget/delete" (Some (strings_body [("id", budgetID)])).
(** The row of the budget among those answered; a nil pointer when there is none. *)
Definition budgetService_Get (c : httpClient) (budgetID : string) : prog HTTP (res (option BudgetInfo) error) :=
  r ← do c POST "/budget/info" (Some (ids_body "budgets" budgetID)) json_Unmarshal_text;
  mret match r with
  | Err err => Err err
  | Ok rows => Ok (head (filter (λ row, bi_BudgetID row = budgetID) rows))
  end.

Definition healthService_CheckLiveness (c : httpClient) : prog HTTP (option error) :=
  do_nil c GET "/health/liveliness" None.
Definition healthService_CheckReadiness (c : httpClient) : prog HTTP (option error) :=
  do_nil c GET "/health/readiness" None.
Definition healthService_Readiness (c : httpClient) : prog HTTP (res ReadinessResponse error) := get_for c "/health/readiness".
Definition healthService_CachePing (c : httpClient) : prog HTTP (res CachePingResponse error) := get_for c "/cache/ping".
Definition healthService_Check (c : httpClient) : prog HTTP (res HealthCheckResponse error) := get_for c "/health".

(** ** Users *)

Definition userService_Create (c : httpClient) (req : UserCreateRequest) : prog HTTP (res UserCreateResponse error) :=
  post_for c "/user/new" req.
Definition without_AutoCreateKey (r : UserCreateRequest) : UserCreateRequest :=
  MkUserCreateRequest (ucr_UserID r) (ucr_UserEmail r) (ucr_UserRole r) (ucr_MaxBudget r) (ucr_BudgetDuration r)
    (ucr_Models r) (ucr_Teams r) (ucr_TPMLimit r) (ucr_RPMLimit r) (ucr_SoftBudget r) (ucr_ModelRPMLimit r)
    (ucr_ModelTPMLimit r) (ucr_ObjectPermission r) (ucr_Metadata r) (ucr_Blocked r) None.
Definition userService_Update (c : httpClient) (req : UserCreateRequest) : prog HTTP (option error) :=
  post c "/user/update" (without_AutoCreateKey req).
Definition userService_Delete (c : httpClient) (userID : string) : prog HTTP (option error) :=
  do_nil c POST "/user/delete" (Some (ids_body "user_ids" userID)).
Definition userService_Get (c : httpClient) (userID : string) : prog HTTP (res UserInfo error) :=
  get_for c ("/user/info?user_id=" +:+ userID).
Definition userService_List (c : httpClient) : prog HTTP (res (list UserInfo) error) := get_for c "/user/list".
End Client.

(** ** Redaction *)

Section Replace.
Context {A : Type} `{EqDecision A}.

Fixpoint strip (p l : list A) : option (list A) :=
  match p, l with
  | [], _ => Some l
  | x :: p, y :: l => if decide (x = y) then strip p l else None
  | _ :: _, [] => None
  end.

(** [strings.ReplaceAll], from the left and without overlaps, for a non-empty [old]; [fuel]
    is the length of [l]. *)
Fixpoint replace_all (fuel : nat) (old new l : list A) : list A :=
  match fuel with
  | O => l
  | S fuel =>
      match strip old l with
      | Some rest => new ++ replace_all fuel old new rest
      | None => match l with [] => [] | x :: l => x :: replace_all fuel old new l end
      end
  end.
End Replace.

Definition strings_ReplaceAll (s old new : string) : string :=
  String.string_of_list_ascii (replace_all (length (chars s)) (chars old) (chars new) (chars s)).

Definition redacted : string := "[REDACTED]".

(** The JSON form of the secret is its escape: [json.Marshal] of a string never fails. *)
Definition redact (s secret : string) : string :=
  if decide (secret = "") then s
  else
    let s := strings_ReplaceAll s secret redacted in
    let inner := json_escape secret in
    if decide (inner = secret) then s else strings_ReplaceAll s inner redacted.

(** The first API error of a chain, with its message changed in place. *)
Fixpoint map_api_error (f : string → string) (e : error) : error :=
  match e with
  | ErrAPI code msg path => ErrAPI code (f msg) path
  | Errorf fmt args (Some w) => Errorf fmt args (Some (map_api_error f w))
  | _ => e
  end.

Section Calls.
Context `{HTTPLib} `{FormatFloat} `{FormatTime} `{JSONParse}.

Definition userService_SetPassword (c : httpClient) (userID password : string) : prog HTTP (option error) :=
  err ← do_nil c POST "/user/update" (Some (strings_body [("password", password); ("user_id", userID)]));
  mret match err with
  | Some err => Some (map_api_error (λ msg, redact msg password) err)
  | None => None
  end.

Definition delete_of (s : Service) (c : httpClient) (id : string) : prog HTTP (option error) :=
  match s with
  | SModels => modelService_Delete c id
  | STeams => teamService_Delete c id
  | SUsers => userService_Delete c id
  | SKeys => keyService_Delete c id
  | SOrganizations => organizationService_Delete c id
  | SCustomers => customerService_Delete c id
  | SCredentials => credentialService_Delete c id
  | SBudgets => budgetService_Delete c id
  end.

(** The method of the client behind each call of a controller. *)
Definition service (c : httpClient) (r : api_req) : prog HTTP (api_ans r) :=
  match r with
  | ModelsCreate r => modelService_Create c r
  | ModelsUpdate r => modelService_Update c r
  | ModelsList => modelService_List c
  | TeamsCreate r => teamService_Create c r
  | TeamsUpdate r => teamService_Update c r
  | TeamsGet id => teamService_Get c id
  | TeamsList => teamService_List c
  | TeamsAddMember id email role => teamService_AddMember c id email role
  | TeamsRemoveMember id email => teamService_RemoveMember c id email
  | TeamsListMembers id => teamService_ListMembers c id
  | TeamsSetCallback id r => teamService_SetCallback c id r
  | TeamsDisableLogging id => teamService_DisableLogging c id
  | UsersCreate r => userService_Create c r
  | UsersUpdate r => userService_Update c r
  | UsersSetPassword id password => userService_SetPassword c id password
  | UsersGet id => userService_Get c id
  | UsersList => userService_List c
  | KeysGenerate r => keyService_Generate c r
  | KeysUpdate r => keyService_Update c r
  | KeysGet token => keyService_Get c token
  | KeysList => keyService_List c
  | OrganizationsCreate r => organizationService_Create c r
  | OrganizationsUpdate r => organizationService_Update c r
  | OrganizationsGet id => organizationService_Get c id
  | OrganizationsList => organizationService_List c
  | OrganizationsAddMember r => organizationService_AddMember c r
  | OrganizationsDeleteMember id userID => organizationService_DeleteMember c id userID
  | CustomersCreate r => customerService_Create c r
  | CustomersUpdate r => customerService_Update c r
  | CustomersGet id => customerService_Get c id
  | CustomersList => customerService_List c
  | CredentialsCreate p => credentialService_Create c p
  | CredentialsUpdate p => credentialService_Update c p
  | CredentialsGet name => credentialService_Get c name
  | BudgetsCreate r => budgetService_Create c r
  | BudgetsUpdate r => budgetService_Update c r
  | BudgetsGet id => budgetService_Get c id
  | HealthCheck => healthService_Check c
  | HealthCheckLiveness => healthService_CheckLiveness c
  | HealthReadiness => healthService_Readiness c
  | HealthCachePing => healthService_CachePing c
  | ApiDelete s id => delete_of s c id
  end.

(** The client of the factory. *)
Definition client (cl : ApiClient) (r : api_req) : prog HTTP (api_ans r) := service (NewClient cl) r.
End Calls.
