(* ===== verification/ClientFacts.v ===== *)
(** * What the client of LiteLLM guarantees

    Each call is at most one exchange, and reports an API error exactly when the proxy
    answered with one; two different calls are two different requests; a password never
    comes back in an error. *)

From S2P Require Import Prelude KubeTypes InstanceTypes Types Updates World Sha256 Common Rollout ProxyConfig Wire Client.
Open Scope Z_scope.

(** The error of an answer. *)
Definition res_error {A} (r : res A error) : option error := match r with Ok _ => None | Err err => Some err end.

Definition api_error (r : api_req) : api_ans r → option error :=
  match r with
  | ModelsCreate _ | ModelsList | TeamsCreate _ | TeamsGet _ | TeamsList | TeamsListMembers _ | UsersCreate _
  | UsersGet _ | UsersList | KeysGenerate _ | KeysGet _ | KeysList | OrganizationsCreate _ | OrganizationsGet _
  | OrganizationsList | CustomersCreate _ | CustomersUpdate _ | CustomersGet _ | CustomersList | CredentialsGet _
  | BudgetsCreate _ | BudgetsGet _ | HealthCheck | HealthReadiness | HealthCachePing => res_error
  | _ => id
  end.

(** The first call of a program. *)
Definition first_op {S A} (p : prog S A) : option (op S) := match p with Vis c _ => Some c | Ret _ => None end.

(** ** One exchange *)

Section Exchange.
Context `{HTTPLib} `{FormatFloat} `{FormatTime} `{JSONParse}.

(** The request a call makes, when its body has a text and its URL parses. *)
Definition request (cl : ApiClient) (r : api_req) : option http_request := first_op (client cl r).

(** What the error [err] of an exchange is, [edit] being what is done to the message. *)
Definition reports (base : string) (edit : string → string) (req : http_request) (a : res http_response string)
    (err : option error) : Prop :=
  match a with
  | Ok (MkHttpResponse code (Ok body)) =>
      if 400 <=? code
      then ∃ e path, err = Some e ∧ IsAPIError e = Some (MkAPIError code (edit body) path) ∧ hr_URL req = base +:+ path
      else ∀ e, err = Some e → IsAPIError e = None
  | _ => ∃ e, err = Some e ∧ IsAPIError e = None
  end.

(** A program of at most one exchange. *)
Definition exchange {A} (c : httpClient) (edit : string → string) (error_of : A → option error) (p : prog HTTP A) : Prop :=
  ∀ t x, runs p t x →
    (t = [] ∧ first_op p = None ∧ ∃ e, error_of x = Some e ∧ IsAPIError e = None) ∨
    ∃ req a, t = [@Ev HTTP req a] ∧ first_op p = Some req ∧
             hr_Header req = headers c ∧ hr_RootCAs req = hc_RootCAs c ∧
             reports (hc_baseURL c) edit req a (error_of x).

Lemma exchange_do {A} c method path body (result : string → res A error) :
  (∀ text e, result text = Err e → IsAPIError e = None) →
  exchange c id res_error (do c method path body result).
Proof.
  intros Hres t x. unfold do. destruct (marshals body).
  2:{ intros [-> ->]. left. split; [done|]. split; [done|]. by eexists. }
  destruct (http_NewRequest _ _) as [msg|].
  { intros [-> ->]. left. split; [done|]. split; [done|]. by eexists. }
  intros (a & t' & -> & -> & ->). right. exists (http_request_of c method path body), a.
  do 4 (split; [done|]). destruct a as [[code [text|msg]]|msg]; cbn; [|by eexists..].
  destruct (400 <=? code); [by eexists _, _|]. intros e. destruct (result text) eqn:Hr; [done|].
  intros [= <-]. cbn. by apply Hres in Hr.
Qed.

Lemma first_op_map {S A B} (p : prog S A) (f : A → B) : first_op (r ← p; mret (f r)) = first_op p.
Proof. by destruct p. Qed.

Lemma exchange_map {A B} c edit edit' (error_of : A → option error) (error_of' : B → option error) (f : A → B) p :
  (∀ base req ans a, reports base edit req ans (error_of a) → reports base edit' req ans (error_of' (f a))) →
  (∀ a e, error_of a = Some e → IsAPIError e = None → ∃ e', error_of' (f a) = Some e' ∧ IsAPIError e' = None) →
  exchange c edit error_of p → exchange c edit' error_of' (r ← p; mret (f r)).
Proof.
  intros Hf Hn Hp t x Hr. apply runs_bind_inv in Hr as (t1 & t2 & a & -> & Hr & [-> ->]). rewrite app_nil_r.
  rewrite first_op_map. destruct (Hp _ _ Hr) as [(-> & Hfst & e & He & Hapi)|(req & ans & -> & Hfst & Hh & Hc & Hrep)].
  - left. split; [done|]. split; [done|]. by eapply Hn.
  - right. exists req, ans. by eauto 10.
Qed.

(** A result that only changes what a success carries. *)
Lemma exchange_same {A B} c edit (error_of : A → option error) (error_of' : B → option error) (f : A → B) p :
  (∀ a, error_of' (f a) = error_of a) →
  exchange c edit error_of p → exchange c edit error_of' (r ← p; mret (f r)).
Proof. intros Hf. apply exchange_map; intros *; rewrite Hf; eauto. Qed.

Lemma exchange_do_nil c method path body : exchange c id id (do_nil c method path body).
Proof. unfold do_nil. eapply exchange_same; [|by apply exchange_do]. by intros [|]. Qed.

Lemma Unmarshal_error `{Decode A} text e : json_Unmarshal_text (A := A) text = Err e → IsAPIError e = None.
Proof. unfold json_Unmarshal_text. destruct (json_parse text); [|by intros [= <-]]. destruct (decode _ _); [done|by intros [= <-]]. Qed.

Lemma find_map_api_error f e :
  IsAPIError (map_api_error f e) =
    match IsAPIError e with Some a => Some (MkAPIError (StatusCode a) (f (Message a)) (Path a)) | None => None end.
Proof. revert e. fix IH 1. intros e. destruct e as [| | | |fmt args [w|]]; [reflexivity..| |reflexivity]. exact (IH w). Qed.

Definition edit_of (r : api_req) : string → string :=
  match r with UsersSetPassword _ password => λ msg, redact msg password | _ => id end.

Lemma reports_map f base req a err :
  reports base id req a err →
  reports base f req a match err with Some e => Some (map_api_error f e) | None => None end.
Proof.
  assert (∀ e, err = Some e → IsAPIError e = None →
    ∃ e', match err with Some e => Some (map_api_error f e) | None => None end = Some e' ∧ IsAPIError e' = None) as Hn.
  { intros e -> He. eexists. split; [done|]. by rewrite find_map_api_error, He. }
  destruct a as [[code [text|msg]]|msg]; cbn; [|by intros (e & He & Hapi); eapply Hn..].
  destruct (400 <=? code).
  - intros (e & path & -> & He & Hu). exists (map_api_error f e), path. by rewrite find_map_api_error, He.
  - intros Hno e'. destruct err as [e|]; [|done]. intros [= <-]. by rewrite find_map_api_error, (Hno e).
Qed.

Lemma exchange_service c r : exchange c (edit_of r) (api_error r) (service c r).
Proof.
  assert (∀ A (D : Decode A) method path body,
    exchange c id res_error (do c method path body (json_Unmarshal_text (A := A)))) as Hdo.
  { intros. apply exchange_do. intros *. apply Unmarshal_error. }
  destruct r; try apply Hdo; try apply exchange_do_nil.
  - apply (exchange_map c Datatypes.id _ Datatypes.id Datatypes.id); [|clear|apply exchange_do_nil].
    + intros base req ans a. apply reports_map.
    + intros [e|] e' [= <-] He. eexists. split; [done|]. by rewrite find_map_api_error, He.
  - apply (exchange_same c Datatypes.id res_error res_error); [by intros [|]|apply Hdo].
  - destruct s; apply exchange_do_nil.
Qed.

(** C6: every call of the client is at most one exchange with the proxy it was made for,
    authenticated with its master key; and its error says what happened there: it is an
    error of the API exactly when the proxy answered a status of 400 or more, with that
    status (so that a 404 is never made up) and that body, from which only a password is
    removed; a failure of the transport or of the decoding never passes for one. *)
Theorem client_errors cl r t x :
  runs (client cl r) t x →
  (t = [] ∧ request cl r = None ∧ ∃ e, api_error r x = Some e ∧ IsAPIError e = None) ∨
  ∃ req a, t = [@Ev HTTP req a] ∧ request cl r = Some req ∧
    hr_Header req = [("Authorization", "Bearer " +:+ ac_masterKey cl); ("Content-Type", "application/json")] ∧
    reports (trim_right_slashes (ac_endpoint cl)) (edit_of r) req a (api_error r x).
Proof.
  intros Hr. destruct (exchange_service _ _ _ _ Hr) as [Hnone|(req & a & -> & Hfst & Hh & _ & Hrep)]; [by left|right].
  assert (hc_baseURL (NewClient cl) = trim_right_slashes (ac_endpoint cl) ∧
          hc_masterKey (NewClient cl) = ac_masterKey cl) as [Hb Hm].
  { unfold NewClient, WithCACert. by repeat case_match. }
  exists req, a. unfold headers in Hh. rewrite Hm in Hh. rewrite Hb in Hrep. done.
Qed.
End Exchange.

(** ** Two calls, two requests *)

(** What a request keeps of its call: the list of the members of a team is read from the
    same page as the team, an update of a user never says [auto_create_key], and an instant
    is written to the second. *)
Definition wire_form (r : api_req) : api_req :=
  match r with
  | TeamsListMembers id => TeamsGet id
  | UsersUpdate r => UsersUpdate (without_AutoCreateKey r)
  | KeysGenerate r => KeysGenerate (to_seconds r)
  | _ => r
  end.

Section Distinct.
Context `{HTTPLib} `{FormatFloat} `{FormatTime} `{JSONParse} `{!FormatTimeLaw}.

(** The method, the path and the body of a call. *)
Definition wire (r : api_req) : string * string * option json :=
  match r with
  | ModelsCreate r => (POST, "/model/new", Some (encode r))
  | ModelsUpdate r => (POST, "/model/update", Some (encode r))
  | ModelsList => (GET, "/model/info", None)
  | TeamsCreate r => (POST, "/team/new", Some (encode r))
  | TeamsUpdate r => (POST, "/team/update", Some (encode r))
  | TeamsGet id | TeamsListMembers id => (GET, "/team/info?team_id=" +:+ id, None)
  | TeamsList => (GET, "/team/list", None)
  | TeamsAddMember id email role =>
      (POST, "/team/member_add", Some (WObject [("member", encode (MkMemberRequest email role)); ("team_id", WString id)]))
  | TeamsRemoveMember id email => (POST, "/team/member_delete", Some (strings_body [("team_id", id); ("user_email", email)]))
  | TeamsSetCallback id r => (POST, "/team/" +:+ id +:+ "/callback", Some (encode r))
  | TeamsDisableLogging id => (POST, "/team/" +:+ id +:+ "/disable_logging", None)
  | UsersCreate r => (POST, "/user/new", Some (encode r))
  | UsersUpdate r => (POST, "/user/update", Some (encode (without_AutoCreateKey r)))
  | UsersSetPassword id password => (POST, "/user/update", Some (strings_body [("password", password); ("user_id", id)]))
  | UsersGet id => (GET, "/user/info?user_id=" +:+ id, None)
  | UsersList => (GET, "/user/list", None)
  | KeysGenerate r => (POST, "/key/generate", Some (encode r))
  | KeysUpdate r => (POST, "/key/update", Some (encode r))
  | KeysGet token => (GET, "/key/info?key=" +:+ token, None)
  | KeysList => (GET, "/key/list", None)
  | OrganizationsCreate r => (POST, "/organization/new", Some (encode r))
  | OrganizationsUpdate r => (POST, "/organization/update", Some (encode r))
  | OrganizationsGet id => (GET, "/organization/info?organization_id=" +:+ id, None)
  | OrganizationsList => (GET, "/organization/list", None)
  | OrganizationsAddMember r => (POST, "/organization/member_add", Some (encode r))
  | OrganizationsDeleteMember id userID =>
      (POST, "/organization/member_delete", Some (strings_body [("organization_id", id); ("user_id", userID)]))
  | CustomersCreate r => (POST, "/customer/new", Some (encode r))
  | CustomersUpdate r => (POST, "/customer/update", Some (encode r))
  | CustomersGet id => (GET, "/customer/info?end_user_id=" +:+ id, None)
  | CustomersList => (GET, "/customer/list", None)
  | CredentialsCreate p => (POST, "/credentials", Some (encode p))
  | CredentialsUpdate p => ("PATCH", "/credentials/" +:+ cp_CredentialName p, Some (encode p))
  | CredentialsGet name => (GET, "/credentials/by_name/" +:+ name, None)
  | BudgetsCreate r => (POST, "/budget/new", Some (encode r))
  | BudgetsUpdate r => (POST, "/budget/update", Some (encode r))
  | BudgetsGet id => (POST, "/budget/info", Some (ids_body "budgets" id))
  | HealthCheck => (GET, "/health", None)
  | HealthCheckLiveness => (GET, "/health/liveliness", None)
  | HealthReadiness => (GET, "/health/readiness", None)
  | HealthCachePing => (GET, "/cache/ping", None)
  | ApiDelete SModels id => (POST, "/model/delete", Some (strings_body [("id", id)]))
  | ApiDelete STeams id => (POST, "/team/delete", Some (ids_body "team_ids" id))
  | ApiDelete SUsers id => (POST, "/user/delete", Some (ids_body "user_ids" id))
  | ApiDelete SKeys id => (POST, "/key/delete", Some (ids_body "keys" id))
  | ApiDelete SOrganizations id => (POST, "/organization/delete", Some (ids_body "organization_ids" id))
  | ApiDelete SCustomers id => (POST, "/customer/delete", Some (ids_body "user_ids" id))
  | ApiDelete SCredentials name => ("DELETE", "/credentials/" +:+ name, None)
  | ApiDelete SBudgets id => (POST, "/budget/delete", Some (strings_body [("id", id)]))
  end.

Lemma first_op_do {A} c method path body (result : string → res A error) req :
  first_op (do c method path body result) = Some req → req = http_request_of c method path body.
Proof. unfold do. destruct (marshals body); [|done]. by destruct (http_NewRequest _ _); [|intros [= <-]]. Qed.

Lemma first_op_do_map {A B} c method path body (result : string → res A error) (f : res A error → B) req :
  first_op (r ← do c method path body result; mret (f r)) = Some req → req = http_request_of c method path body.
Proof. rewrite first_op_map. apply first_op_do. Qed.

Lemma first_op_do_nil c method path body req :
  first_op (do_nil c method path body) = Some req → req = http_request_of c method path body.
Proof. apply first_op_do_map. Qed.

Lemma request_wire cl r req : request cl r = Some req →
  let '(method, path, body) := wire r in req = http_request_of (NewClient cl) method path body.
Proof.
  unfold request, client. generalize (NewClient cl) as c. intros c.
  destruct r; try destruct s; cbn [wire];
    first [apply first_op_do | apply first_op_do_nil | apply first_op_do_map
          | cbn [service]; unfold userService_SetPassword; rewrite first_op_map; apply first_op_do_nil].
Qed.

(** A call whose body has a text and whose URL parses makes its request. *)
Lemma first_op_do_made {A} c method path body (result : string → res A error) :
  marshals body = true → http_NewRequest method (hc_baseURL c +:+ path) = None →
  first_op (do c method path body result) = Some (http_request_of c method path body).
Proof. intros Hm Hu. unfold do. by rewrite Hm, Hu. Qed.

Lemma first_op_do_map_made {A B} c method path body (result : string → res A error) (f : res A error → B) :
  marshals body = true → http_NewRequest method (hc_baseURL c +:+ path) = None →
  first_op (r ← do c method path body result; mret (f r)) = Some (http_request_of c method path body).
Proof. rewrite first_op_map. apply first_op_do_made. Qed.

Lemma first_op_do_nil_made c method path body :
  marshals body = true → http_NewRequest method (hc_baseURL c +:+ path) = None →
  first_op (do_nil c method path body) = Some (http_request_of c method path body).
Proof. apply first_op_do_map_made. Qed.

Lemma request_made cl r :
  let '(method, path, body) := wire r in
  marshals body = true → http_NewRequest method (hc_baseURL (NewClient cl) +:+ path) = None →
  request cl r = Some (http_request_of (NewClient cl) method path body).
Proof.
  unfold request, client. generalize (NewClient cl) as c. intros c.
  destruct r; try destruct s; cbn [wire];
    first [apply first_op_do_made | apply first_op_do_nil_made | apply first_op_do_map_made
          | cbn [service]; unfold userService_SetPassword; rewrite first_op_map; apply first_op_do_nil_made].
Qed.

Lemma wire_split (m m' p p' : string) (b b' : option json) : (m, p, b) = (m', p', b') → m = m' ∧ p = p' ∧ b = b'.
Proof. by intros [= -> -> ->]. Qed.

(** Two paths that end differently. *)
Lemma last_differs s s' : s = s' → last (chars s) = last (chars s').
Proof. by intros ->. Qed.

Ltac other_end Hp := apply last_differs in Hp; rewrite ?append_assoc, ?chars_app, ?last_app in Hp; discriminate Hp.

Lemma wire_inj r r' : wire r = wire r' → wire_form r = wire_form r'.
Proof.
  destruct r; try destruct s; destruct r'; try destruct s; cbn [wire wire_form]; intros (Hm & Hp & Hb)%wire_split;
    first [discriminate Hm | discriminate Hp | discriminate Hb | other_end Hp | reflexivity | idtac].
  all: try (apply (inj Some), (inj encode) in Hb as <-; reflexivity).
  all: try (apply append_inj_l in Hp as <-; reflexivity).
  all: try (injection Hb as; by subst).
  - apply append_inj_l, append_inj_r in Hp as <-. apply (inj Some), (inj encode) in Hb as <-. done.
  - by apply append_inj_l, append_inj_r in Hp as <-.
  - f_equal. apply (inj Some) in Hb. by apply encode_KeyGenerateRequest_seconds.
Qed.

(** C12: two different calls are two different requests: the method, the URL and the body of
    a request, as the JSON value that is then written as text, determine the call, so that
    nothing a controller asks for is lost or confused on the way (a limit of zero with no
    limit, one team's callback with another's), but for what is not sent on purpose
    ([wire_form]).  The text of the body identifies its value for strings that are valid
    UTF-8: any other byte is written as U+FFFD. *)
Theorem requests_distinct cl r r' req req' :
  request cl r = Some req → request cl r' = Some req' → wire_form r ≠ wire_form r' →
  (hr_Method req, hr_URL req, hr_Body req) ≠ (hr_Method req', hr_URL req', hr_Body req').
Proof.
  intros Hr%request_wire Hr'%request_wire Hne Heq. apply Hne, wire_inj.
  destruct (wire r) as [[m p] b], (wire r') as [[m' p'] b']. subst req req'. injection Heq as Hm Hu Hb.
  apply append_inj_l in Hu. congruence.
Qed.
End Distinct.
