(* ===== verification/Redaction.v ===== *)
(** * A password does not come back (internal/litellm/users.go)

    [redact] replaces every occurrence of a secret, raw and in the JSON form the client
    itself would write; this file proves that no occurrence is left in the error of
    [SetPassword], whatever the proxy answers, and gives a form it does miss. *)

From S2P Require Import Prelude KubeTypes InstanceTypes Types Updates World Sha256 Common Rollout ProxyConfig Wire Client ClientFacts.
Open Scope Z_scope.

(** ** Occurrences *)

Section Occurs.
Context {A : Type} `{EqDecision A}.
Implicit Types (p l old new t : list A).

Definition occurs p l : Prop := ∃ a b, l = a ++ p ++ b.

Lemma occurs_nil p : occurs p [] → p = [].
Proof. by intros ([] & [] & Heq); destruct p. Qed.

Lemma occurs_cons p x l : occurs p (x :: l) → (∃ b, x :: l = p ++ b) ∨ occurs p l.
Proof. intros ([|y a] & b & Heq); [left; by exists b|right]. injection Heq as _ ->. by exists a, b. Qed.

Lemma occurs_app_l p l l' : occurs p l → occurs p (l ++ l').
Proof. intros (a & b & ->). exists a, (b ++ l'). by rewrite <-!app_assoc. Qed.

Lemma occurs_app_r p l l' : occurs p l' → occurs p (l ++ l').
Proof. intros (a & b & ->). exists (l ++ a), b. by rewrite <-!app_assoc. Qed.

(** An occurrence does not straddle an element that it does not contain. *)
Lemma occurs_apart x p a b : x ∉ p → occurs p (a ++ x :: b) → occurs p a ∨ occurs p b.
Proof.
  intros Hx. induction a as [|y a IH]; cbn.
  - intros [[v Hv]|Hb]%occurs_cons; [|by right]. destruct p as [|z p]; [right; by exists [], b|].
    injection Hv as -> _. exfalso. apply Hx. by left.
  - intros [[v Hv]|[Ha|Hb]%IH]%occurs_cons; [|left; by apply (occurs_app_r _ [y])|by right].
    change (y :: a ++ x :: b) with ((y :: a) ++ x :: b) in Hv.
    apply app_eq_inv in Hv as [(k & Hya & Hv)|(k & -> & Hv)].
    + left. rewrite Hya. by exists [], k.
    + destruct k as [|z k]; [left; exists [], []; by rewrite !app_nil_r|].
      injection Hv as <- _. exfalso. apply Hx. set_solver.
Qed.

Lemma strip_spec p l r : strip p l = Some r ↔ l = p ++ r.
Proof.
  revert l. induction p as [|x p IH]; intros l; cbn; [naive_solver|].
  destruct l as [|y l]; [done|]. destruct (decide (x = y)) as [->|Hne]; [rewrite IH; naive_solver|]. naive_solver.
Qed.

(** ** Replacement *)

Inductive replaced old new : list A → list A → Prop :=
| replaced_none l : ¬ occurs old l → replaced old new l l
| replaced_one p rest r :
    ¬ occurs old p → replaced old new rest r → replaced old new (p ++ old ++ rest) (p ++ new ++ r).

Lemma replace_all_replaced fuel old new l :
  old ≠ [] → (length l ≤ fuel)%nat → replaced old new l (replace_all fuel old new l).
Proof.
  intros Hold. revert l. induction fuel as [|fuel IH]; intros l Hlen; cbn.
  { destruct l; [|cbn in Hlen; lia]. constructor. by intros ?%occurs_nil. }
  destruct (strip old l) as [rest|] eqn:Hstrip.
  - apply strip_spec in Hstrip as ->. apply (replaced_one _ _ []); [by intros ?%occurs_nil|]. apply IH.
    rewrite length_app in Hlen. destruct old; [done|cbn in Hlen; lia].
  - destruct l as [|x l]; [constructor; by intros ?%occurs_nil|].
    assert (∀ k, x :: l = old ++ k → False) as Hno.
    { intros k Hk%strip_spec. congruence. }
    destruct (IH l) as [l Hl|p rest r Hp Hr]; [cbn in Hlen; lia| |].
    + constructor. intros [[b Hb]|Hin]%occurs_cons; [by eapply Hno|done].
    + apply (replaced_one _ _ (x :: p)); [|done]. intros [[b Hb]|Hin]%occurs_cons; [|done].
      apply (Hno (b ++ old ++ rest)). by rewrite (app_assoc old), <-Hb.
Qed.

(** A text that cannot overlap the replacement occurs in the result only if it occurred
    outside of what was replaced. *)
Lemma replaced_clean x y mid old t l r :
  x ∉ t → y ∉ t → ¬ occurs t mid → replaced old (x :: mid ++ [y]) l r →
  t = old ∨ ¬ occurs t l → ¬ occurs t r.
Proof.
  intros Hx Hy Hmid Hrep. induction Hrep as [l Hl|p rest r Hp _ IH]; intros Ht; [by destruct Ht as [->|]|].
  change (p ++ (x :: mid ++ [y]) ++ r) with (p ++ x :: (mid ++ [y]) ++ r). rewrite <-(app_assoc mid).
  intros [Hin|[Hin|Hin]%occurs_apart]%occurs_apart; [|done| |done..].
  - destruct Ht as [->|Ht]; [done|]. apply Ht. by apply occurs_app_l.
  - revert Hin. apply IH. destruct Ht as [->|Ht]; [by left|right]. contradict Ht. by do 2 apply occurs_app_r.
Qed.
End Occurs.

(** ** Texts *)

Lemma Contains_occurs s sub : strings_Contains s sub = true ↔ occurs (chars sub) (chars s).
Proof.
  assert (∀ s p, String.prefix p s = true ↔ ∃ b, chars s = chars p ++ b) as Hprefix.
  { clear. induction s as [|c s IH]; intros [|d p]; cbn.
    - split; [by exists []|done].
    - split; [done|by intros [b ?]].
    - split; [by eexists|done].
    - destruct (Ascii.ascii_dec d c) as [->|Hne].
      + rewrite IH. split; intros [b Hb]; exists b; [by rewrite Hb|by injection Hb].
      + split; [done|]. intros [b [= ? _]]. congruence. }
  induction s as [|c s IH]; cbn [strings_Contains].
  - rewrite orb_false_r, Hprefix. split; [intros [b Hb]; by exists [], b|].
    intros ->%occurs_nil. by exists [].
  - rewrite orb_true_iff, IH, Hprefix. change (chars (String.String c s)) with (c :: chars s). split.
    + intros [[b Hb]|Hin]; [by exists [], b|by apply (occurs_app_r _ [c])].
    + by intros [Hhd|Htl]%occurs_cons; [left|right].
Qed.

Lemma chars_string_of l : chars (string_of l) = ascii_of_byte <$> l.
Proof. apply String.list_ascii_of_string_of_list_ascii. Qed.

Lemma chars_of_list l : chars (String.string_of_list_ascii l) = l.
Proof. apply String.list_ascii_of_string_of_list_ascii. Qed.

Lemma ascii_of_byte_of c : ascii_of_byte (byte_of_ascii c) = c.
Proof. unfold ascii_of_byte, byte_of_ascii. by rewrite N2Z.id, Ascii.ascii_N_embedding. Qed.

Lemma byte_of_ascii_of b : 0 ≤ b < 256 → byte_of_ascii (ascii_of_byte b) = b.
Proof. intros Hb. unfold ascii_of_byte, byte_of_ascii. rewrite Ascii.N_ascii_embedding; lia. Qed.

Lemma bytes_range s : Forall (λ b, 0 ≤ b < 256) (bytes_of s).
Proof.
  apply Forall_forall. intros b (c & -> & _)%list_elem_of_fmap. unfold byte_of_ascii.
  pose proof (Ascii.N_ascii_bounded c). lia.
Qed.

(** ** The JSON form of a text *)

Definition escape_byte (b : Z) : Prop := b = 92 ∨ 48 ≤ b ≤ 57 ∨ 97 ≤ b ≤ 122.

Lemma hex_digit_escape d : 0 ≤ d < 16 → escape_byte (hex_digit d).
Proof. unfold escape_byte, hex_digit. intros Hd. case_match; lia. Qed.

Lemma escape_ascii_cases b : 0 ≤ b < 128 →
  escape_ascii b = [b] ∧ b ≠ 92 ∨ 92 ∈ escape_ascii b ∧ ∀ x, x ∈ escape_ascii b → x = b ∨ escape_byte x.
Proof.
  intros Hb. unfold escape_ascii, bslash.
  assert (0 ≤ Z.shiftr b 4 < 16) as Hhi.
  { rewrite Z.shiftr_div_pow2 by lia. change (2 ^ 4) with 16. split; [apply Z.div_pos; lia|apply Z.div_lt_upper_bound; lia]. }
  assert (0 ≤ Z.land b 15 < 16) as Hlo.
  { change 15 with (Z.ones 4). rewrite Z.land_ones by lia. apply Z.mod_pos_bound. lia. }
  pose proof (hex_digit_escape _ Hhi). pose proof (hex_digit_escape _ Hlo).
  case_bool_decide as Hq.
  - right. split; [by left|]. intros x [->|[->|[]%not_elem_of_nil]%elem_of_cons]%elem_of_cons; [by right; left|by left].
  - repeat (case_match; [right; split; [by left|]; intros x Hx; right;
      repeat (apply elem_of_cons in Hx as [->|Hx]); try done; try (unfold escape_byte; lia); by apply not_elem_of_nil in Hx|]).
    left. split; [done|]. intros ->. apply Hq. set_solver.
Qed.

Lemma rune_width_pos l : (1 ≤ rune_width l)%nat.
Proof. unfold rune_width. repeat case_match; lia. Qed.

Lemma escape_bytes_cases fuel l :
  Forall (λ b, 0 ≤ b < 256) l → (length l ≤ fuel)%nat →
  (escape_bytes fuel l = l ∨ 92 ∈ escape_bytes fuel l) ∧
  ∀ x, x ∈ escape_bytes fuel l → x ∈ l ∨ escape_byte x.
Proof.
  assert (∀ u l' r : list Z, 92 ∈ u → (∀ x, x ∈ u → x ∈ l' ∨ escape_byte x) → (∀ x, x ∈ r → x ∈ l' ∨ escape_byte x) →
    (u ++ r = l' ∨ 92 ∈ u ++ r) ∧ ∀ x, x ∈ u ++ r → x ∈ l' ∨ escape_byte x) as Hesc.
  { intros u l' r Hu Hux Hr. split; [right; apply elem_of_app; by left|]. intros x [?|?]%elem_of_app; auto. }
  assert (∀ s x, s ∈ ["fffd"; "2028"; "2029"] → x ∈ unicode_escape s → escape_byte x) as Huni.
  { intros s x Hs Hx. assert (Forall escape_byte (unicode_escape s)) as HF; [|by eapply Forall_forall in HF].
    revert s Hs Hx. intros s Hs _. repeat (apply elem_of_cons in Hs as [->|Hs]); [..|by apply not_elem_of_nil in Hs];
      unfold escape_byte; compute_done. }
  revert l. induction fuel as [|fuel IH]; intros [|b l] Hl Hlen; cbn -[rune_width unicode_escape take drop escape_ascii];
    try (by split; [left|intros x ?%not_elem_of_nil]); [cbn in Hlen; lia|].
  apply Forall_cons in Hl as [Hb Hl]. cbn in Hlen.
  assert (∀ n, (1 ≤ n)%nat → (escape_bytes fuel (drop n (b :: l)) = drop n (b :: l) ∨ 92 ∈ escape_bytes fuel (drop n (b :: l))) ∧
    ∀ x, x ∈ escape_bytes fuel (drop n (b :: l)) → x ∈ b :: l ∨ escape_byte x) as IHn.
  { intros [|n] Hn; [lia|]. cbn [drop]. destruct (IH (drop n l)) as [Hc Hx]; [by apply Forall_drop|rewrite length_drop; lia|].
    split; [done|]. intros x [Hin|?]%Hx; [left; right; by eapply subseteq_drop|by right]. }
  destruct (b <? 128) eqn:H128.
  - destruct (escape_ascii_cases b) as [[-> _]|[H92 Hx]]; [lia| |].
    + destruct (IHn 1%nat) as [[Hc|Hc] Hx]; [lia|..]; cbn [drop app] in *; rewrite ?drop_0 in *.
      * rewrite Hc in *. split; [by left|]. intros x Hin. by left.
      * split; [right; by right|]. intros x [->|Hin]%elem_of_cons; [left; by left|by apply Hx].
    + apply Hesc; [done| |].
      * intros x [->|?]%Hx; [left; by left|by right].
      * exact (proj2 (IHn 1%nat ltac:(lia))).
  - pose proof (rune_width_pos (b :: l)) as Hn.
    repeat case_match; try (apply Hesc; [by left| |]; [intros x Hx; right; eapply Huni; [|exact Hx]; set_solver|]);
      try exact (proj2 (IHn _ Hn)); try exact (proj2 (IHn 1%nat ltac:(lia))).
    destruct (IHn _ Hn) as [[Hc|Hc] Hx].
    + rewrite Hc, take_drop. split; [by left|]. intros x Hin. by left.
    + split; [right; apply elem_of_app; by right|]. intros x [Hin|Hin]%elem_of_app; [left; by eapply subseteq_take|by apply Hx].
Qed.

(** ** The password *)

Definition open_bracket : Ascii.ascii := Ascii.ascii_of_nat 91.
Definition close_bracket : Ascii.ascii := Ascii.ascii_of_nat 93.

(** A password that cannot be mistaken for a part of the text that replaces it. *)
Definition redactable (pw : string) : Prop :=
  pw ≠ "" ∧ open_bracket ∉ chars pw ∧ close_bracket ∉ chars pw ∧ strings_Contains "REDACTED" pw = false.

Lemma json_escape_cases pw :
  json_escape pw = pw ∨
  Ascii.ascii_of_nat 92 ∈ chars (json_escape pw) ∧
  ∀ c, c ∈ chars (json_escape pw) → c ∈ chars pw ∨ escape_byte (byte_of_ascii c).
Proof.
  destruct (escape_bytes_cases (length (bytes_of pw)) (bytes_of pw)) as [[Heq|H92] Hin]; [apply bytes_range|done|left|right].
  - unfold json_escape. cbv zeta. rewrite Heq. apply chars_inj. rewrite chars_string_of. unfold bytes_of.
    rewrite <-list_fmap_compose. change (String.list_ascii_of_string pw) with (chars pw).
    induction (chars pw) as [|c l IH]; cbn; [done|]. f_equal; [apply ascii_of_byte_of|done].
  - unfold json_escape. cbv zeta. rewrite chars_string_of. split.
    + apply list_elem_of_fmap. by exists 92.
    + intros c (b & -> & Hb)%list_elem_of_fmap. destruct (Hin b Hb) as [Hpw|Hesc].
      * left. apply list_elem_of_fmap in Hpw as (c & -> & Hc). by rewrite ascii_of_byte_of.
      * right. rewrite byte_of_ascii_of; [done|]. unfold escape_byte in Hesc. lia.
Qed.

Lemma strings_ReplaceAll_clean s old t :
  old ≠ "" → open_bracket ∉ chars t → close_bracket ∉ chars t → ¬ occurs (chars t) (chars "REDACTED") →
  t = old ∨ ¬ occurs (chars t) (chars s) →
  ¬ occurs (chars t) (chars (strings_ReplaceAll s old redacted)).
Proof.
  intros Hold Ho Hc Hmid Ht. unfold strings_ReplaceAll. rewrite chars_of_list.
  apply (replaced_clean open_bracket close_bracket (chars "REDACTED") (chars old) _ (chars s)); [done..| |].
  - change (open_bracket :: chars "REDACTED" ++ [close_bracket]) with (chars redacted).
    apply replace_all_replaced; [|done]. by destruct old.
  - destruct Ht as [->|Ht]; [by left|by right].
Qed.

Lemma redact_clean msg pw : redactable pw →
  strings_Contains (redact msg pw) pw = false ∧ strings_Contains (redact msg pw) (json_escape pw) = false.
Proof.
  intros (Hne & Ho & Hc & Hmid). rewrite <-!not_true_iff_false, !Contains_occurs in *. unfold redact.
  rewrite decide_False by done. cbv zeta.
  assert (¬ occurs (chars pw) (chars (strings_ReplaceAll msg pw redacted))) as Hfirst by (apply strings_ReplaceAll_clean; auto).
  destruct (decide (json_escape pw = pw)) as [->|Hesc]; [done|].
  destruct (json_escape_cases pw) as [?|[H92 Hin]]; [done|].
  assert (∀ c, ¬ escape_byte (byte_of_ascii c) → c ∉ chars pw → c ∉ chars (json_escape pw)) as Hout.
  { intros c Hno Hpw [?|?]%Hin; done. }
  assert (json_escape pw ≠ "") as Hinner by (intros Heq; rewrite Heq in H92; by apply not_elem_of_nil in H92).
  split; apply strings_ReplaceAll_clean; auto.
  - apply Hout; [unfold escape_byte; compute_done|done].
  - apply Hout; [unfold escape_byte; compute_done|done].
  - intros (a & b & Heq). assert (Ascii.ascii_of_nat 92 ∈ chars "REDACTED") as Hbs; [|revert Hbs; compute_done].
    rewrite Heq. apply elem_of_app. right. apply elem_of_app. by left.
Qed.

(** C13: a password that can be told from the text that replaces it (not empty, without
    square brackets, not a part of REDACTED) never comes back: whatever the proxy answers to
    [SetPassword], the message of the error a controller then reports contains it neither as
    it is nor in the form in which the request wrote it. *)
Theorem SetPassword_redacts `{HTTPLib} `{FormatFloat} `{FormatTime} `{JSONParse} cl id pw t err e :
  redactable pw →
  runs (client cl (UsersSetPassword id pw)) t (Some err) →
  IsAPIError err = Some e →
  strings_Contains (Message e) pw = false ∧ strings_Contains (Message e) (json_escape pw) = false.
Proof.
  intros Hpw Hr He.
  destruct (exchange_service _ _ _ _ Hr) as [(_ & _ & e' & [= <-] & He')|(req & a & _ & _ & _ & _ & Hrep)]; [congruence|].
  destruct a as [[code [text|msg]]|msg]; cbn in Hrep.
  - destruct (400 <=? code).
    + destruct Hrep as (e' & path & [= <-] & He' & _). rewrite He in He'. injection He' as ->. by apply redact_clean.
    + by rewrite Hrep in He.
  - destruct Hrep as (e' & [= <-] & He'). congruence.
  - destruct Hrep as (e' & [= <-] & He'). congruence.
Qed.

(** The three conditions on the password are needed: the text that replaces it would make
    one that breaks them appear. *)
Lemma redactable_needed :
  strings_Contains (redact "denied" "") "" = true ∧
  strings_Contains (redact "]xx" "]x") "]x" = true ∧
  strings_Contains (redact "xx[" "x[") "x[" = true ∧
  strings_Contains (redact "denied: ACT" "ACT") "ACT" = true.
Proof. by split_and!; vm_compute. Qed.

(** Only the form the Go encoder writes is looked for.  LiteLLM is written in Python, whose
    encoder escapes quotes but not the characters of HTML: a password with both comes back
    in an answer that echoes it. *)
Definition escaped_by_python : string := "a" +:+ String.String (Ascii.ascii_of_nat 92) dquote +:+ "<b".
Lemma redact_misses_other_escapes :
  let pw := "a" +:+ dquote +:+ "<b" in
  let msg := "{" +:+ dquote +:+ "input" +:+ dquote +:+ ":" +:+ dquote +:+ escaped_by_python +:+ dquote +:+ "}" in
  redactable pw ∧ strings_Contains msg escaped_by_python = true ∧ redact msg pw = msg.
Proof. cbv zeta. split; [|by split; vm_compute]. unfold redactable. compute_done. Qed.
