(* ===== verification/Queries.v ===== *)
(** * Looking an object up by its identifier (internal/litellm)

    The client puts an identifier into the query of a URL as it is.  This file says how the
    query of a URL is read (RFC 3986 and the encoding of forms), and that the identifier
    read there is the one asked for as long as it holds none of the characters with a
    meaning of their own. *)

From S2P Require Import Prelude KubeTypes InstanceTypes Types Updates World Sha256 Common Rollout ProxyConfig Wire Client ClientFacts.
Open Scope Z_scope.

(** ** The query of a URL *)

Section Cut.
Context {A : Type} `{EqDecision A}.
Implicit Types l a b : list A.

(** The elements before the first [x], and those after it. *)
Fixpoint cut (x : A) l : list A * option (list A) :=
  match l with
  | [] => ([], None)
  | y :: l => if decide (y = x) then ([], Some l) else let '(a, b) := cut x l in (y :: a, b)
  end.

Fixpoint split_on (x : A) l : list (list A) :=
  match l with
  | [] => [[]]
  | y :: l =>
      if decide (y = x) then [] :: split_on x l
      else match split_on x l with [] => [[y]] | a :: r => (y :: a) :: r end
  end.

Lemma cut_none x l : x ∉ l → cut x l = (l, None).
Proof.
  induction l as [|y l IH]; [done|]. intros [Hne Hin]%not_elem_of_cons. cbn. rewrite decide_False by congruence. by rewrite IH.
Qed.

Lemma cut_app x a b : x ∉ a → cut x (a ++ x :: b) = (a, Some b).
Proof.
  induction a as [|y a IH]; cbn; [by rewrite decide_True|]. intros [Hne Hin]%not_elem_of_cons.
  rewrite decide_False by congruence. by rewrite IH.
Qed.

Lemma split_on_none x l : x ∉ l → split_on x l = [l].
Proof.
  induction l as [|y l IH]; [done|]. intros [Hne Hin]%not_elem_of_cons. cbn. rewrite decide_False by congruence. by rewrite IH.
Qed.
End Cut.

Definition hex_value (c : Ascii.ascii) : option Z :=
  let b := byte_of_ascii c in
  if (48 <=? b) && (b <=? 57) then Some (b - 48)
  else if (65 <=? b) && (b <=? 70) then Some (b - 55)
  else if (97 <=? b) && (b <=? 102) then Some (b - 87)
  else None.

Definition percent : Ascii.ascii := Ascii.ascii_of_nat 37.
Definition plus : Ascii.ascii := Ascii.ascii_of_nat 43.
Definition ampersand : Ascii.ascii := Ascii.ascii_of_nat 38.
Definition hash : Ascii.ascii := Ascii.ascii_of_nat 35.
Definition question : Ascii.ascii := Ascii.ascii_of_nat 63.
Definition equals : Ascii.ascii := Ascii.ascii_of_nat 61.

(** A name or a value of a form: [+] is a space, [%hh] a byte. *)
Fixpoint form_decode (l : list Ascii.ascii) : list Ascii.ascii :=
  match l with
  | [] => []
  | c :: l' =>
      if decide (c = plus) then Ascii.ascii_of_nat 32 :: form_decode l'
      else if decide (c = percent) then
        match l' with
        | h :: (k :: rest) =>
            match hex_value h, hex_value k with
            | Some x, Some y => ascii_of_byte (16 * x + y) :: form_decode rest
            | _, _ => c :: form_decode l'
            end
        | _ => c :: form_decode l'
        end
      else c :: form_decode l'
  end.

Definition form_field (l : list Ascii.ascii) : list Ascii.ascii * list Ascii.ascii :=
  let '(k, v) := cut equals l in (form_decode k, form_decode (default [] v)).

(** The first value of the parameter [key] in the query of [url]. *)
Definition query_get (key url : string) : option string :=
  let '(l, _) := cut hash (chars url) in
  let '(_, query) := cut question l in
  fields ← (λ q, form_field <$> split_on ampersand q) <$> query;
  field ← head (filter (λ f : list Ascii.ascii * list Ascii.ascii, f.1 = chars key) fields);
  Some (String.string_of_list_ascii field.2).

(** ** The identifiers of the client *)

(** The calls that look an object up, with the parameter that names it. *)
Definition looks_up (r : api_req) : option (string * string) :=
  match r with
  | TeamsGet id | TeamsListMembers id => Some ("team_id", id)
  | UsersGet id => Some ("user_id", id)
  | KeysGet token => Some ("key", token)
  | OrganizationsGet id => Some ("organization_id", id)
  | CustomersGet id => Some ("end_user_id", id)
  | _ => None
  end.

(** An identifier without the characters that have a meaning in a query. *)
Definition plain_id (id : string) : Prop := Forall (λ c, c ∉ chars id) [percent; plus; ampersand; hash].

Lemma form_decode_plain l : percent ∉ l → plus ∉ l → form_decode l = l.
Proof.
  induction l as [|c l IH]; [done|]. intros [Hp Hpl]%not_elem_of_cons [Hq Hql]%not_elem_of_cons. cbn.
  rewrite !decide_False by congruence. by rewrite IH.
Qed.

Lemma query_get_one base path key id :
  hash ∉ chars (base +:+ path) → question ∉ chars (base +:+ path) →
  Forall (λ c, c ∉ chars key) [percent; plus; ampersand; hash; equals] → plain_id id →
  query_get key (base +:+ path +:+ "?" +:+ key +:+ "=" +:+ id) = Some id.
Proof.
  intros Hh Hq Hkey Hid. unfold plain_id in Hid. rewrite Forall_forall in Hkey, Hid.
  assert (percent ∉ chars key ∧ plus ∉ chars key ∧ ampersand ∉ chars key ∧ hash ∉ chars key ∧ equals ∉ chars key)
    as (K1 & K2 & K3 & K4 & K5) by (repeat split; apply Hkey; set_solver).
  assert (percent ∉ chars id ∧ plus ∉ chars id ∧ ampersand ∉ chars id ∧ hash ∉ chars id) as (I1 & I2 & I3 & I4)
    by (repeat split; apply Hid; set_solver).
  unfold query_get. rewrite <-append_assoc, !chars_app. rewrite chars_app in Hh, Hq.
  change (chars "?") with [question]. change (chars "=") with [equals]. cbn [app].
  rewrite cut_none by (rewrite !not_elem_of_app, !not_elem_of_cons, !not_elem_of_app, not_elem_of_cons in *; naive_solver).
  rewrite cut_app by done. cbn [fmap option_fmap option_map mbind option_bind].
  rewrite split_on_none by (rewrite not_elem_of_app, not_elem_of_cons; naive_solver).
  cbn [fmap list_fmap]. unfold form_field. rewrite cut_app by done. cbn [default from_option Datatypes.id].
  rewrite !form_decode_plain by done. rewrite filter_cons, decide_True by done. cbn.
  f_equal. apply String.string_of_list_ascii_of_string.
Qed.

Section Queries.
Context `{HTTPLib} `{FormatFloat} `{FormatTime} `{JSONParse}.

Lemma trim_right_slashes_chars c s : c ∉ chars s → c ∉ chars (trim_right_slashes s).
Proof.
  induction s as [|d s IH]; [done|]. intros [Hne Hin]%not_elem_of_cons. cbn.
  destruct (decide _); [by apply not_elem_of_nil|]. apply not_elem_of_cons. auto.
Qed.

(** C37: an object is looked up by the identifier that was asked for: a server that reads
    the query of the URL finds under the parameter of the call the identifier of the call,
    when it holds none of the characters [%], [+], [&], [#].  (The client escapes none of
    them; see the examples below.) *)
Theorem lookups_address cl r key id req :
  looks_up r = Some (key, id) →
  request cl r = Some req →
  hash ∉ chars (ac_endpoint cl) → question ∉ chars (ac_endpoint cl) →
  plain_id id →
  query_get key (hr_URL req) = Some id.
Proof.
  intros Hl Hr%request_wire Hh Hq Hid.
  assert (hc_baseURL (NewClient cl) = trim_right_slashes (ac_endpoint cl)) as Hbase.
  { unfold NewClient, WithCACert. by repeat case_match. }
  assert (∀ path, hash ∉ chars path → question ∉ chars path →
    Forall (λ c, c ∉ chars key) [percent; plus; ampersand; hash; equals] →
    query_get key (trim_right_slashes (ac_endpoint cl) +:+ path +:+ "?" +:+ key +:+ "=" +:+ id) = Some id) as Hget.
  { intros path Hph Hpq Hkey. apply query_get_one; [| |done..]; rewrite chars_app, not_elem_of_app;
      (split; [by apply trim_right_slashes_chars|done]). }
  destruct r; try discriminate Hl; injection Hl as <- <-; cbn [wire] in Hr; subst req; cbn [http_request_of hr_URL]; rewrite Hbase.
  - apply (Hget "/team/info"); compute_done.
  - apply (Hget "/team/info"); compute_done.
  - apply (Hget "/user/info"); compute_done.
  - apply (Hget "/key/info"); compute_done.
  - apply (Hget "/organization/info"); compute_done.
  - apply (Hget "/customer/info"); compute_done.
Qed.
End Queries.

(** A customer whose identifier has such a character is another one for the server. *)
Example customer_of_another :
  query_get "end_user_id" ("http://litellm:4000/customer/info?end_user_id=" +:+ "acme&co") = Some "acme" ∧
  query_get "end_user_id" ("http://litellm:4000/customer/info?end_user_id=" +:+ "acme#2") = Some "acme" ∧
  query_get "end_user_id" ("http://litellm:4000/customer/info?end_user_id=" +:+ "acme%31") = Some "acme1" ∧
  query_get "end_user_id" ("http://litellm:4000/customer/info?end_user_id=" +:+ "acme+co") = Some "acme co".
Proof. by vm_compute. Qed.
