(* ===== verification/Transport.v ===== *)
(** * The controllers over HTTP

    [lower] runs a controller with every call of the client replaced by the exchange behind
    it.  The programs over [kcall] are its specification: each execution of the lowered
    program is an execution of the controller, for the answers the client makes of the
    exchanges; what is proved of the calls holds of the requests. *)

From S2P Require Import Prelude KubeTypes InstanceTypes Types Updates World Sha256 Common Rollout ProxyConfig Wire Client ClientFacts.
From Stdlib Require Import Eqdep.
Open Scope Z_scope.

(** Calls to Kubernetes and the other calls of a controller, and exchanges. *)
Definition KH : Sig := MkSig (kcall + http_request)
  (λ o, match o with inl c => kans c | inr _ => res http_response string end).

Fixpoint over_http {A} (p : prog HTTP A) : prog KH A :=
  match p with
  | Ret a => Ret a
  | Vis req k => Vis (S := KH) (inr req) (λ x, over_http (k x))
  end.

Section Transport.
Context `{HTTPLib} `{FormatFloat} `{FormatTime} `{JSONParse}.

Definition handle (c : kcall) : prog KH (kans c) :=
  match c with
  | KApi cl r => over_http (client cl r)
  | c => @call KH (inl c)
  end.

Fixpoint lower {A} (p : kprog A) : prog KH A :=
  match p with
  | Ret a => Ret a
  | Vis c k => x ← handle c; lower (k x)
  end.

(** [implements h t]: the exchanges and calls of [t] are those behind the calls of [h], with
    the answers of [h]. *)
Inductive implements : khist → hist KH → Prop :=
| implements_nil : implements [] []
| implements_call c x t h t' : runs (handle c) t x → implements h t' → implements (KEv c x :: h) (t ++ t').

Lemma implements_app h t h' t' : implements h t → implements h' t' → implements (h ++ h') (t ++ t').
Proof. induction 1; [done|]. intros Hi. rewrite <-app_assoc. cbn. constructor; auto. Qed.

Lemma lower_runs {A} (p : kprog A) t a : runs (lower p) t a ↔ ∃ h, runs p h a ∧ implements h t.
Proof.
  revert t. induction p as [b|c k IH]; intros t; cbn [lower].
  - split; [intros [-> ->]; exists []; split; [done|constructor]|]. intros (h & [-> ->] & Hi). by inversion Hi.
  - split.
    + intros (t1 & t2 & x & -> & Hx & (h & Hh & Hi)%IH)%runs_bind_inv.
      exists (KEv c x :: h). split; [by exists x, h|by constructor].
    + intros (h & (x & h' & -> & Hh) & Hi). inversion Hi as [|c' x' t1 h1 t2 Hx Hi']; subst.
      match goal with Heq : existT _ _ = existT _ _ |- _ => apply inj_pair2 in Heq as -> end.
      eapply runs_bind; [exact Hx|]. apply IH. by exists h'.
Qed.
(** What an execution cut short has done: whole calls, then a part of one. *)
Lemma handle_partial c t : partial (handle c) t →
  t = [] ∨ (∃ x, runs (handle c) t x) ∧
           (∀ e, e ∈ t → ∀ req, ev_op e = inr req → ∃ cl r, c = KApi cl r ∧ request cl r = Some req ∧ t = [e]).
Proof.
  assert (∀ (c : kcall) t, partial (@call KH (inl c)) t → t = [] ∨ ∃ x, runs (@call KH (inl c)) t x ∧ t = [@Ev KH (inl c) x]) as Hcall.
  { clear. intros c t [->|(x & t' & -> & Hp)]; [by left|right; exists x]. change (t' = []) in Hp. subst t'.
    split; [|done]. exists x, []. by repeat split. }
  destruct c; try (intros [->|(x & Hr & ->)]%Hcall; [by left|right; split; [by eexists|]];
    intros e ->%list_elem_of_singleton req; discriminate 1).
  cbn [handle]. unfold request. pose proof (exchange_service (NewClient c) r) as Hex. unfold client in *.
  destruct (service (NewClient c) r) as [a|req k] eqn:Hs; [by left|]. intros [->|(x & t' & -> & Hp)]; [by left|right].
  assert (∃ a, k x = Ret a) as [a Hk].
  { destruct (k x) as [a|req' k'] eqn:Hk; [by exists a|]. exfalso.
    destruct (runs_exists (S := HTTP) (λ _ (_ : unit), (Err "", tt)) (k' (Err "")) tt) as (t2 & a & Hr).
    assert (runs (Vis (S := HTTP) req k) (@Ev HTTP req x :: @Ev HTTP req' (Err "") :: t2) a) as Hr2.
    { exists x, (@Ev HTTP req' (Err "") :: t2). split; [done|]. rewrite Hk. by exists (Err ""), t2. }
    by destruct (Hex _ _ Hr2) as [[? _]|(? & ? & ? & _)]. }
  cbn in Hp. rewrite Hk in Hp. cbn in Hp. subst t'. split.
  - exists a. exists x, []. split; [done|]. by rewrite Hk.
  - intros e ->%list_elem_of_singleton req' [= <-]. exists c, r. by rewrite Hs.
Qed.
(** Every type of answers is inhabited. *)
Definition some_answer (c : kcall) : kans c :=
  match c with
  | KGet _ _ _ | KList _ _ | KUpdate _ _ | KStatusUpdate _ _ | KStatusPatch _ _ _ | KGetSecret _ _ | KReadSecret _ _
  | KGetConfigMap _ _ | KGetNamespace _ | KGetRes _ _ _ | KListPods _ _ | KRandom _ => Err (ErrLib "")
  | KCreateSecret _ | KUpdateSecret _ | KCreateRes _ _ | KUpdateRes _ _ => None
  | KEvent _ _ _ _ _ => tt
  | KNow => 0
  | KChoose _ => 0%nat
  | KApi _ r =>
      match r with
      | ModelsCreate _ | ModelsList | TeamsCreate _ | TeamsGet _ | TeamsList | TeamsListMembers _ | UsersCreate _
      | UsersGet _ | UsersList | KeysGenerate _ | KeysGet _ | KeysList | OrganizationsCreate _ | OrganizationsGet _
      | OrganizationsList | CustomersCreate _ | CustomersUpdate _ | CustomersGet _ | CustomersList | CredentialsGet _
      | BudgetsCreate _ | BudgetsGet _ | HealthCheck | HealthReadiness | HealthCachePing => Err (ErrLib "")
      | _ => None
      end
  end.

Lemma kalways_here {A} (G : khist → kcall → Prop) c (k : kans c → kprog A) : kalways G (@Vis K A c k) → G [] c.
Proof.
  intros Hp. apply (Hp [KEv c (some_answer c)]) with (t1 := []) (t2 := []) (e := KEv c (some_answer c)); [|done].
  right. exists (some_answer c), []. split; [done|]. by destruct (k _); [|left].
Qed.

Lemma kalways_next {A} (G : khist → kcall → Prop) c (k : kans c → kprog A) x :
  kalways G (@Vis K A c k) → kalways (λ h c', G (KEv c x :: h) c') (k x).
Proof.
  intros Hp t Ht t1 e t2 ->. apply (Hp (KEv c x :: t1 ++ e :: t2)) with (t2 := t2); [|done].
  right. by exists x, (t1 ++ e :: t2).
Qed.

Lemma lower_requests {A} (p : kprog A) G t1 req x t2 :
  kalways G p → partial (lower p) (t1 ++ @Ev KH (inr req) x :: t2) →
  ∃ h cl r, implements h t1 ∧ G h (KApi cl r) ∧ request cl r = Some req.
Proof.
  revert G t1. induction p as [b|c k IH]; intros G t1 HG Hp; cbn [lower] in Hp; [by destruct t1|].
  assert (∀ u, partial (handle c) u → @Ev KH (inr req) x ∈ u →
    ∃ cl r, c = KApi cl r ∧ request cl r = Some req ∧ u = [@Ev KH (inr req) x]) as Hone.
  { intros u [->|[_ He]]%handle_partial Hin; [by apply not_elem_of_nil in Hin|by apply (He _ Hin)]. }
  assert (∀ k', partial (handle c) (t1 ++ @Ev KH (inr req) x :: k') →
    ∃ h cl r, implements h t1 ∧ G h (KApi cl r) ∧ request cl r = Some req) as Hfirst.
  { intros k' Hu. destruct (Hone _ Hu) as (cl & r & -> & Hreq & Heq); [set_solver|].
    exists [], cl, r. split; [|split; [by eapply kalways_here|done]].
    destruct t1 as [|e t1]; [constructor|]. injection Heq as _ Heq. by destruct t1. }
  apply partial_bind_inv in Hp as [Hp|(u & u' & y & Heq & Hr & Hp)]; [by eapply Hfirst|].
  apply app_eq_inv in Heq as [(v & -> & Heq)|(v & -> & Heq)].
  - subst u'. destruct (IH y _ v (kalways_next _ _ _ y HG) Hp) as (h & cl & r & Hi & HGh & Hreq).
    exists (KEv c y :: h), cl, r. split; [by constructor|done].
  - destruct v as [|e v].
    + cbn in Heq. subst u'. rewrite app_nil_r in Hr. 
      destruct (IH y _ [] (kalways_next _ _ _ y HG) Hp) as (h & cl & r & Hi & HGh & Hreq).
      exists (KEv c y :: h), cl, r. split; [|done]. rewrite <-(app_nil_r t1). by constructor.
    + injection Heq as <- ->. eapply Hfirst. by eapply runs_partial.
Qed.

(** [req] is the request of the call [r] to the proxy [cl]: the method, the path and the body
    of the table [wire], at its endpoint, with its key. *)
Definition sent_as (cl : ApiClient) (r : api_req) (req : http_request) : Prop :=
  let '(method, path, body) := wire r in
  hr_Method req = method ∧
  hr_URL req = trim_right_slashes (ac_endpoint cl) +:+ path ∧
  hr_Header req = [("Authorization", "Bearer " +:+ ac_masterKey cl); ("Content-Type", "application/json")] ∧
  hr_Body req = body ∧
  (ac_CACert cl = "" → hr_RootCAs req = None) ∧
  (ac_CACert cl ≠ "" → AppendCertsFromPEM (ac_CACert cl) = true → hr_RootCAs req = Some (ac_CACert cl)).

Lemma sent_as_request cl r : let '(method, path, body) := wire r in
  sent_as cl r (http_request_of (NewClient cl) method path body).
Proof.
  unfold sent_as. destruct (wire r) as [[method path] body]. unfold http_request_of, headers, NewClient, WithCACert.
  repeat case_match; split_and!; try done; congruence.
Qed.

Lemma request_sent cl r req : request cl r = Some req → sent_as cl r req.
Proof.
  intros Hr%request_wire. pose proof (sent_as_request cl r) as Hs. destruct (wire r) as [[method path] body]. by subst req.
Qed.

Lemma over_http_exchanges {A} (p : prog HTTP A) t x :
  runs (over_http p) t x → ∃ t', runs p t' x ∧ t = (λ e : event HTTP, @Ev KH (inr (ev_op e)) (ev_ans e)) <$> t'.
Proof.
  revert t. induction p as [b|req k IH]; intros t; [intros [-> ->]; by exists []|].
  intros (y & t' & -> & (t0 & Hr & ->)%IH). exists (@Ev HTTP req y :: t0). split; [by exists y, t0|done].
Qed.

(** A call that can be written is one exchange, of its request. *)
Lemma handle_sends cl r t x :
  let '(method, path, body) := wire r in
  marshals body = true → http_NewRequest method (trim_right_slashes (ac_endpoint cl) +:+ path) = None →
  runs (handle (KApi cl r)) t x → ∃ req a, t = [@Ev KH (inr req) a] ∧ sent_as cl r req.
Proof.
  pose proof (request_made cl r) as Hmade. pose proof (request_sent cl r) as Hsent.
  destruct (wire r) as [[method path] body]. intros Hm Hu (t' & Hr & ->)%over_http_exchanges.
  assert (hc_baseURL (NewClient cl) = trim_right_slashes (ac_endpoint cl)) as Hb.
  { unfold NewClient, WithCACert. by repeat case_match. }
  rewrite Hb in Hmade. specialize (Hmade Hm Hu).
  destruct (exchange_service _ _ _ _ Hr) as [(_ & Hno & _)|(req & a & -> & Hfst & _)]; [unfold request, client in Hmade; congruence|].
  exists req, a. split; [done|]. by apply Hsent.
Qed.

(** C7: the traffic of a controller, run over HTTP, is that of its calls.  Every request it
    sends, also when it is cut short, is that of a call that it is allowed after what was
    exchanged before it, whatever guarantee its calls are proved to have: its method, path
    and JSON body are those the API table has for the call, the URL starts with the
    endpoint the call is for, and its headers carry the master key of that proxy.  A call
    whose body has a JSON text and whose URL parses sends exactly one request, that one;
    and the executions are those of the controller, for the answers the client makes of
    the exchanges. *)
Theorem controller_traffic {A} (p : kprog A) :
  (∀ G t1 req x t2,
    kalways G p → partial (lower p) (t1 ++ @Ev KH (inr req) x :: t2) →
    ∃ h cl r, implements h t1 ∧ G h (KApi cl r) ∧ sent_as cl r req) ∧
  (∀ cl r t x, let '(method, path, body) := wire r in
    marshals body = true → http_NewRequest method (trim_right_slashes (ac_endpoint cl) +:+ path) = None →
    runs (handle (KApi cl r)) t x → ∃ req a, t = [@Ev KH (inr req) a] ∧ sent_as cl r req) ∧
  ∀ t a, runs (lower p) t a ↔ ∃ h, runs p h a ∧ implements h t.
Proof.
  split_and!; [|intros cl r t x; apply handle_sends|intros; apply lower_runs].
  intros G t1 req x t2 HG Hp. destruct (lower_requests p G t1 req x t2 HG Hp) as (h & cl & r & Hi & HGh & Hr).
  exists h, cl, r. split_and!; [done..|]. by apply request_sent.
Qed.
End Transport.
