(* ===== verification/Mock.v ===== *)
(** * The mock client (internal/litellm/mock_client.go)

    The client the tests of the controllers use.  A service holds a function per method,
    which a test may set, and answers for itself when there is none.  A function is any
    program over the signature [S] of what the test can do. *)

From S2P Require Import Prelude KubeTypes InstanceTypes Types World Common Rollout ProxyConfig Wire Client ClientFacts Transport.
From Stdlib Require Import Eqdep.
Open Scope Z_scope.

Section Mock.
Context {S : Sig}.

(** ** Services and their functions *)

Record MockBudgetService := MkMockBudgetService {
  mb_CreateFunc : option (BudgetRequest → prog S (res BudgetResponse error));
  mb_UpdateFunc : option (BudgetRequest → prog S (option error));
  mb_DeleteFunc : option (string → prog S (option error));
  mb_GetFunc : option (string → prog S (res (option BudgetInfo) error))
}.

Record MockModelService := MkMockModelService {
  mm_CreateFunc : option (ModelCreateRequest → prog S (res ModelCreateResponse error));
  mm_UpdateFunc : option (ModelCreateRequest → prog S (option error));
  mm_DeleteFunc : option (string → prog S (option error));
  mm_GetFunc : option (string → prog S (res ModelInfoResponse error));
  mm_ListFunc : option (prog S (res (list ModelInfoResponse) error))
}.

Record MockTeamService := MkMockTeamService {
  mt_CreateFunc : option (TeamCreateRequest → prog S (res TeamCreateResponse error));
  mt_UpdateFunc : option (TeamUpdateRequest → prog S (option error));
  mt_DeleteFunc : option (string → prog S (option error));
  mt_GetFunc : option (string → prog S (res TeamInfo error));
  mt_ListFunc : option (prog S (res (list TeamInfo) error));
  mt_AddMemberFunc : option (string → string → string → prog S (option error));
  mt_RemoveMemberFunc : option (string → string → prog S (option error));
  mt_ListMembersFunc : option (string → prog S (res (list TeamMemberInfo) error));
  mt_SetCallbackFunc : option (string → TeamCallbackRequest → prog S (option error));
  mt_DisableLoggingFunc : option (string → prog S (option error))
}.

Record MockUserService := MkMockUserService {
  mu_CreateFunc : option (UserCreateRequest → prog S (res UserCreateResponse error));
  mu_UpdateFunc : option (UserCreateRequest → prog S (option error));
  mu_SetPasswordFunc : option (string → string → prog S (option error));
  mu_DeleteFunc : option (string → prog S (option error));
  mu_GetFunc : option (string → prog S (res UserInfo error));
  mu_ListFunc : option (prog S (res (list UserInfo) error))
}.

Record MockKeyService := MkMockKeyService {
  mk_GenerateFunc : option (KeyGenerateRequest → prog S (res KeyGenerateResponse error));
  mk_UpdateFunc : option (KeyUpdateRequest → prog S (option error));
  mk_DeleteFunc : option (string → prog S (option error));
  mk_GetFunc : option (string → prog S (res KeyInfo error));
  mk_ListFunc : option (prog S (res (list KeyInfo) error))
}.

Record MockOrganizationService := MkMockOrganizationService {
  mo_CreateFunc : option (OrganizationCreateRequest → prog S (res OrganizationCreateResponse error));
  mo_UpdateFunc : option (OrganizationUpdateRequest → prog S (option error));
  mo_DeleteFunc : option (string → prog S (option error));
  mo_GetFunc : option (string → prog S (res OrganizationInfo error));
  mo_ListFunc : option (prog S (res (list OrganizationInfo) error));
  mo_AddMemberFunc : option (OrgMemberAddRequest → prog S (option error));
  mo_DeleteMemberFunc : option (string → string → prog S (option error))
}.

Record MockCustomerService := MkMockCustomerService {
  mc_CreateFunc : option (CustomerCreateRequest → prog S (res CustomerInfo error));
  mc_UpdateFunc : option (CustomerUpdateRequest → prog S (res CustomerInfo error));
  mc_DeleteFunc : option (string → prog S (option error));
  mc_GetFunc : option (string → prog S (res CustomerInfo error));
  mc_ListFunc : option (prog S (res (list CustomerInfo) error))
}.

Record MockCredentialService := MkMockCredentialService {
  mcr_CreateFunc : option (CredentialPayload → prog S (option error));
  mcr_UpdateFunc : option (CredentialPayload → prog S (option error));
  mcr_DeleteFunc : option (string → prog S (option error));
  mcr_GetFunc : option (string → prog S (res CredentialInfoResponse error))
}.

Record MockHealthService := MkMockHealthService {
  mh_CheckLivenessFunc : option (prog S (option error));
  mh_CheckReadinessFunc : option (prog S (option error));
  mh_ReadinessFunc : option (prog S (res ReadinessResponse error));
  mh_CachePingFunc : option (prog S (res CachePingResponse error));
  mh_CheckFunc : option (prog S (res HealthCheckResponse error))
}.

(** ** Budgets *)

Definition MockBudgetService_Create (m : MockBudgetService) (req : BudgetRequest) : prog S (res BudgetResponse error) :=
  from_option (λ f, f req) (mret (Ok (MkBudgetResponse (if decide (br_BudgetID req = "") then "mock-budget-id" else br_BudgetID req))))
    (mb_CreateFunc m).
Definition MockBudgetService_Update (m : MockBudgetService) (req : BudgetRequest) : prog S (option error) :=
  from_option (λ f, f req) (mret None) (mb_UpdateFunc m).
Definition MockBudgetService_Delete (m : MockBudgetService) (budgetID : string) : prog S (option error) :=
  from_option (λ f, f budgetID) (mret None) (mb_DeleteFunc m).
Definition MockBudgetService_Get (m : MockBudgetService) (budgetID : string) : prog S (res (option BudgetInfo) error) :=
  from_option (λ f, f budgetID) (mret (Ok (Some (MkBudgetInfo budgetID None None)))) (mb_GetFunc m).

(** ** Models *)

Definition MockModelService_Create (m : MockModelService) (req : ModelCreateRequest) :
    prog S (res ModelCreateResponse error) :=
  from_option (λ f, f req) (mret (Ok (MkModelCreateResponse "mock-model-id"))) (mm_CreateFunc m).
Definition MockModelService_Update (m : MockModelService) (req : ModelCreateRequest) : prog S (option error) :=
  from_option (λ f, f req) (mret None) (mm_UpdateFunc m).
Definition MockModelService_Delete (m : MockModelService) (modelID : string) : prog S (option error) :=
  from_option (λ f, f modelID) (mret None) (mm_DeleteFunc m).
Definition MockModelService_Get (m : MockModelService) (modelID : string) : prog S (res ModelInfoResponse error) :=
  from_option (λ f, f modelID) (mret (Ok (MkModelInfoResponse modelID "" zero))) (mm_GetFunc m).
Definition MockModelService_List (m : MockModelService) : prog S (res (list ModelInfoResponse) error) :=
  from_option (λ f, f) (mret (Ok [])) (mm_ListFunc m).

(** ** Teams *)

Definition MockTeamService_Create (m : MockTeamService) (req : TeamCreateRequest) : prog S (res TeamCreateResponse error) :=
  from_option (λ f, f req) (mret (Ok (MkTeamCreateResponse "mock-team-id" (tcr_TeamAlias req)))) (mt_CreateFunc m).
Definition MockTeamService_Update (m : MockTeamService) (req : TeamUpdateRequest) : prog S (option error) :=
  from_option (λ f, f req) (mret None) (mt_UpdateFunc m).
Definition MockTeamService_Delete (m : MockTeamService) (teamID : string) : prog S (option error) :=
  from_option (λ f, f teamID) (mret None) (mt_DeleteFunc m).
Definition MockTeamService_Get (m : MockTeamService) (teamID : string) : prog S (res TeamInfo error) :=
  from_option (λ f, f teamID) (mret (Ok (MkTeamInfo teamID "" [] None))) (mt_GetFunc m).
Definition MockTeamService_List (m : MockTeamService) : prog S (res (list TeamInfo) error) :=
  from_option (λ f, f) (mret (Ok [])) (mt_ListFunc m).
Definition MockTeamService_AddMember (m : MockTeamService) (teamID : string) (email : string) (role : string) :
    prog S (option error) :=
  from_option (λ f, f teamID email role) (mret None) (mt_AddMemberFunc m).
Definition MockTeamService_RemoveMember (m : MockTeamService) (teamID : string) (email : string) : prog S (option error) :=
  from_option (λ f, f teamID email) (mret None) (mt_RemoveMemberFunc m).
Definition MockTeamService_ListMembers (m : MockTeamService) (teamID : string) : prog S (res (list TeamMemberInfo) error) :=
  from_option (λ f, f teamID) (mret (Ok [])) (mt_ListMembersFunc m).
Definition MockTeamService_SetCallback (m : MockTeamService) (teamID : string) (req : TeamCallbackRequest) :
    prog S (option error) :=
  from_option (λ f, f teamID req) (mret None) (mt_SetCallbackFunc m).
Definition MockTeamService_DisableLogging (m : MockTeamService) (teamID : string) : prog S (option error) :=
  from_option (λ f, f teamID) (mret None) (mt_DisableLoggingFunc m).

(** ** Users *)

Definition MockUserService_Create (m : MockUserService) (req : UserCreateRequest) : prog S (res UserCreateResponse error) :=
  from_option (λ f, f req) (mret (Ok (MkUserCreateResponse (ucr_UserID req)))) (mu_CreateFunc m).
Definition MockUserService_Update (m : MockUserService) (req : UserCreateRequest) : prog S (option error) :=
  from_option (λ f, f req) (mret None) (mu_UpdateFunc m).
Definition MockUserService_SetPassword (m : MockUserService) (userID : string) (password : string) : prog S (option error) :=
  from_option (λ f, f userID password) (mret None) (mu_SetPasswordFunc m).
Definition MockUserService_Delete (m : MockUserService) (userID : string) : prog S (option error) :=
  from_option (λ f, f userID) (mret None) (mu_DeleteFunc m).
Definition MockUserService_Get (m : MockUserService) (userID : string) : prog S (res UserInfo error) :=
  from_option (λ f, f userID) (mret (Ok (MkUserInfo userID "" "" None []))) (mu_GetFunc m).
Definition MockUserService_List (m : MockUserService) : prog S (res (list UserInfo) error) :=
  from_option (λ f, f) (mret (Ok [])) (mu_ListFunc m).

(** ** Keys *)

Definition MockKeyService_Generate (m : MockKeyService) (req : KeyGenerateRequest) :
    prog S (res KeyGenerateResponse error) :=
  from_option (λ f, f req) (mret (Ok (MkKeyGenerateResponse "sk-mock-key" "mock-token-hash"))) (mk_GenerateFunc m).
Definition MockKeyService_Update (m : MockKeyService) (req : KeyUpdateRequest) : prog S (option error) :=
  from_option (λ f, f req) (mret None) (mk_UpdateFunc m).
Definition MockKeyService_Delete (m : MockKeyService) (token : string) : prog S (option error) :=
  from_option (λ f, f token) (mret None) (mk_DeleteFunc m).
Definition MockKeyService_Get (m : MockKeyService) (token : string) : prog S (res KeyInfo error) :=
  from_option (λ f, f token) (mret (Ok (MkKeyInfo token "" None true []))) (mk_GetFunc m).
Definition MockKeyService_List (m : MockKeyService) : prog S (res (list KeyInfo) error) :=
  from_option (λ f, f) (mret (Ok [])) (mk_ListFunc m).

(** ** Organizations *)

Definition MockOrganizationService_Create (m : MockOrganizationService) (req : OrganizationCreateRequest) :
    prog S (res OrganizationCreateResponse error) :=
  from_option (λ f, f req) (mret (Ok (MkOrganizationCreateResponse "mock-org-id" (ocr_OrganizationAlias req))))
    (mo_CreateFunc m).
Definition MockOrganizationService_Update (m : MockOrganizationService) (req : OrganizationUpdateRequest) :
    prog S (option error) :=
  from_option (λ f, f req) (mret None) (mo_UpdateFunc m).
Definition MockOrganizationService_Delete (m : MockOrganizationService) (organizationID : string) : prog S (option error) :=
  from_option (λ f, f organizationID) (mret None) (mo_DeleteFunc m).
Definition MockOrganizationService_Get (m : MockOrganizationService) (organizationID : string) :
    prog S (res OrganizationInfo error) :=
  from_option (λ f, f organizationID) (mret (Ok (MkOrganizationInfo organizationID "" [] None []))) (mo_GetFunc m).
Definition MockOrganizationService_List (m : MockOrganizationService) : prog S (res (list OrganizationInfo) error) :=
  from_option (λ f, f) (mret (Ok [])) (mo_ListFunc m).
Definition MockOrganizationService_AddMember (m : MockOrganizationService) (req : OrgMemberAddRequest) :
    prog S (option error) :=
  from_option (λ f, f req) (mret None) (mo_AddMemberFunc m).
Definition MockOrganizationService_DeleteMember (m : MockOrganizationService) (organizationID : string) (userID : string) :
    prog S (option error) :=
  from_option (λ f, f organizationID userID) (mret None) (mo_DeleteMemberFunc m).

(** ** Customers *)

Definition MockCustomerService_Create (m : MockCustomerService) (req : CustomerCreateRequest) :
    prog S (res CustomerInfo error) :=
  from_option (λ f, f req) (mret (Ok (MkCustomerInfo (ccr_UserID req) (ccr_Alias req) None (ccr_MaxBudget req) "" "" None None [] false)))
    (mc_CreateFunc m).
Definition MockCustomerService_Update (m : MockCustomerService) (req : CustomerUpdateRequest) :
    prog S (res CustomerInfo error) :=
  from_option (λ f, f req) (mret (Ok (MkCustomerInfo (cur_UserID req) (cur_Alias req) None (cur_MaxBudget req) "" "" None None [] false)))
    (mc_UpdateFunc m).
Definition MockCustomerService_Delete (m : MockCustomerService) (customerID : string) : prog S (option error) :=
  from_option (λ f, f customerID) (mret None) (mc_DeleteFunc m).
Definition MockCustomerService_Get (m : MockCustomerService) (customerID : string) : prog S (res CustomerInfo error) :=
  from_option (λ f, f customerID) (mret (Ok (MkCustomerInfo customerID "" None None "" "" None None [] false)))
    (mc_GetFunc m).
Definition MockCustomerService_List (m : MockCustomerService) : prog S (res (list CustomerInfo) error) :=
  from_option (λ f, f) (mret (Ok [])) (mc_ListFunc m).

(** ** Credentials *)

Definition MockCredentialService_Create (m : MockCredentialService) (payload : CredentialPayload) : prog S (option error) :=
  from_option (λ f, f payload) (mret None) (mcr_CreateFunc m).
Definition MockCredentialService_Update (m : MockCredentialService) (payload : CredentialPayload) : prog S (option error) :=
  from_option (λ f, f payload) (mret None) (mcr_UpdateFunc m).
Definition MockCredentialService_Delete (m : MockCredentialService) (credentialName : string) : prog S (option error) :=
  from_option (λ f, f credentialName) (mret None) (mcr_DeleteFunc m).
Definition MockCredentialService_Get (m : MockCredentialService) (credentialName : string) :
    prog S (res CredentialInfoResponse error) :=
  from_option (λ f, f credentialName) (mret (Ok (MkCredentialInfoResponse credentialName ∅ ∅))) (mcr_GetFunc m).

(** ** Health *)

Definition MockHealthService_CheckLiveness (m : MockHealthService) : prog S (option error) :=
  from_option (λ f, f) (mret None) (mh_CheckLivenessFunc m).
Definition MockHealthService_CheckReadiness (m : MockHealthService) : prog S (option error) :=
  from_option (λ f, f) (mret None) (mh_CheckReadinessFunc m).
Definition MockHealthService_Readiness (m : MockHealthService) : prog S (res ReadinessResponse error) :=
  from_option (λ f, f) (mret (Ok (MkReadinessResponse "healthy" "connected" ""))) (mh_ReadinessFunc m).
Definition MockHealthService_CachePing (m : MockHealthService) : prog S (res CachePingResponse error) :=
  from_option (λ f, f) (mret (Ok (MkCachePingResponse "healthy" "redis" true "success"))) (mh_CachePingFunc m).
Definition MockHealthService_Check (m : MockHealthService) : prog S (res HealthCheckResponse error) :=
  from_option (λ f, f) (mret (Ok (MkHealthCheckResponse [] [] 0 0))) (mh_CheckFunc m).

Record MockClient := MkMockClient {
  MockModels : MockModelService;
  MockTeams : MockTeamService;
  MockUsers : MockUserService;
  MockKeys : MockKeyService;
  MockOrganizations : MockOrganizationService;
  MockCustomers : MockCustomerService;
  MockCredentials : MockCredentialService;
  MockBudgets : MockBudgetService;
  MockHealth : MockHealthService
}.

Definition NewMockClient : MockClient :=
  MkMockClient (MkMockModelService None None None None None)
    (MkMockTeamService None None None None None None None None None None)
    (MkMockUserService None None None None None None)
    (MkMockKeyService None None None None None)
    (MkMockOrganizationService None None None None None None None)
    (MkMockCustomerService None None None None None)
    (MkMockCredentialService None None None None)
    (MkMockBudgetService None None None None)
    (MkMockHealthService None None None None None).

Definition mock_delete_of (s : Service) (m : MockClient) (id : string) : prog S (option error) :=
  match s with
  | SModels => MockModelService_Delete (MockModels m) id
  | STeams => MockTeamService_Delete (MockTeams m) id
  | SUsers => MockUserService_Delete (MockUsers m) id
  | SKeys => MockKeyService_Delete (MockKeys m) id
  | SOrganizations => MockOrganizationService_Delete (MockOrganizations m) id
  | SCustomers => MockCustomerService_Delete (MockCustomers m) id
  | SCredentials => MockCredentialService_Delete (MockCredentials m) id
  | SBudgets => MockBudgetService_Delete (MockBudgets m) id
  end.

(** The method of the mock behind each call of a controller. *)
Definition mock_client (m : MockClient) (r : api_req) : prog S (api_ans r) :=
  match r with
  | ModelsCreate r => MockModelService_Create (MockModels m) r
  | ModelsUpdate r => MockModelService_Update (MockModels m) r
  | ModelsList => MockModelService_List (MockModels m)
  | TeamsCreate r => MockTeamService_Create (MockTeams m) r
  | TeamsUpdate r => MockTeamService_Update (MockTeams m) r
  | TeamsGet id => MockTeamService_Get (MockTeams m) id
  | TeamsList => MockTeamService_List (MockTeams m)
  | TeamsAddMember id email role => MockTeamService_AddMember (MockTeams m) id email role
  | TeamsRemoveMember id email => MockTeamService_RemoveMember (MockTeams m) id email
  | TeamsListMembers id => MockTeamService_ListMembers (MockTeams m) id
  | TeamsSetCallback id r => MockTeamService_SetCallback (MockTeams m) id r
  | TeamsDisableLogging id => MockTeamService_DisableLogging (MockTeams m) id
  | UsersCreate r => MockUserService_Create (MockUsers m) r
  | UsersUpdate r => MockUserService_Update (MockUsers m) r
  | UsersSetPassword id password => MockUserService_SetPassword (MockUsers m) id password
  | UsersGet id => MockUserService_Get (MockUsers m) id
  | UsersList => MockUserService_List (MockUsers m)
  | KeysGenerate r => MockKeyService_Generate (MockKeys m) r
  | KeysUpdate r => MockKeyService_Update (MockKeys m) r
  | KeysGet token => MockKeyService_Get (MockKeys m) token
  | KeysList => MockKeyService_List (MockKeys m)
  | OrganizationsCreate r => MockOrganizationService_Create (MockOrganizations m) r
  | OrganizationsUpdate r => MockOrganizationService_Update (MockOrganizations m) r
  | OrganizationsGet id => MockOrganizationService_Get (MockOrganizations m) id
  | OrganizationsList => MockOrganizationService_List (MockOrganizations m)
  | OrganizationsAddMember r => MockOrganizationService_AddMember (MockOrganizations m) r
  | OrganizationsDeleteMember id userID => MockOrganizationService_DeleteMember (MockOrganizations m) id userID
  | CustomersCreate r => MockCustomerService_Create (MockCustomers m) r
  | CustomersUpdate r => MockCustomerService_Update (MockCustomers m) r
  | CustomersGet id => MockCustomerService_Get (MockCustomers m) id
  | CustomersList => MockCustomerService_List (MockCustomers m)
  | CredentialsCreate p => MockCredentialService_Create (MockCredentials m) p
  | CredentialsUpdate p => MockCredentialService_Update (MockCredentials m) p
  | CredentialsGet name => MockCredentialService_Get (MockCredentials m) name
  | BudgetsCreate r => MockBudgetService_Create (MockBudgets m) r
  | BudgetsUpdate r => MockBudgetService_Update (MockBudgets m) r
  | BudgetsGet id => MockBudgetService_Get (MockBudgets m) id
  | HealthCheck => MockHealthService_Check (MockHealth m)
  | HealthCheckLiveness => MockHealthService_CheckLiveness (MockHealth m)
  | HealthReadiness => MockHealthService_Readiness (MockHealth m)
  | HealthCachePing => MockHealthService_CachePing (MockHealth m)
  | ApiDelete s id => mock_delete_of s m id
  end.
End Mock.
Arguments MockBudgetService : clear implicits.
Arguments MockModelService : clear implicits.
Arguments MockTeamService : clear implicits.
Arguments MockUserService : clear implicits.
Arguments MockKeyService : clear implicits.
Arguments MockOrganizationService : clear implicits.
Arguments MockCustomerService : clear implicits.
Arguments MockCredentialService : clear implicits.
Arguments MockHealthService : clear implicits.
Arguments MockClient : clear implicits.

(** ** The mock is one of the proxies *)

(** What a proxy answers, in the place of the default answers. *)
Definition reply (r : api_req) : json :=
  let fields (l : list (string * string)) := WObject (prod_map id WString <$> l) in
  match r with
  | ModelsCreate _ => fields [("model_id", "mock-model-id")]
  | ModelsList => WObject [("data", WNull)]
  | TeamsCreate r => fields [("team_id", "mock-team-id"); ("team_alias", tcr_TeamAlias r)]
  | TeamsGet id => fields [("team_id", id)]
  | TeamsListMembers _ => WObject [("members", WNull)]
  | UsersCreate r => fields [("user_id", ucr_UserID r)]
  | UsersGet id => fields [("user_id", id)]
  | KeysGenerate _ => fields [("key", "sk-mock-key"); ("token", "mock-token-hash")]
  | KeysGet token => WObject [("token", WString token); ("key_status", WBool true)]
  | OrganizationsCreate r => fields [("organization_id", "mock-org-id"); ("organization_alias", ocr_OrganizationAlias r)]
  | OrganizationsGet id => fields [("organization_id", id)]
  | CustomersCreate r => WObject ([("user_id", WString (ccr_UserID r)); ("alias", WString (ccr_Alias r))] ++
      match ccr_MaxBudget r with Some f => [("max_budget", WFloat f)] | None => [] end)
  | CustomersUpdate r => WObject ([("user_id", WString (cur_UserID r)); ("alias", WString (cur_Alias r))] ++
      match cur_MaxBudget r with Some f => [("max_budget", WFloat f)] | None => [] end)
  | CustomersGet id => fields [("user_id", id)]
  | CredentialsGet name => fields [("credential_name", name)]
  | BudgetsCreate r => fields [("budget_id", if decide (br_BudgetID r = "") then "mock-budget-id" else br_BudgetID r)]
  | BudgetsGet id => WArray [fields [("budget_id", id)]]
  | HealthCheck => WObject []
  | HealthReadiness => fields [("status", "healthy"); ("db", "connected")]
  | HealthCachePing => WObject [("status", WString "healthy"); ("cache_type", WString "redis");
                                ("ping_response", WBool true); ("set_cache_response", WString "success")]
  | _ => WNull
  end.

Section Realistic.
Context `{HTTPLib} `{FormatFloat} `{FormatTime} `{JSONParse}.

(** The proxy accepts the request, with a text of the reply. *)
Definition accepts (r : api_req) (a : res http_response string) : Prop :=
  ∃ text, a = Ok (MkHttpResponse 200 (Ok text)) ∧ json_parse text = Ok (reply r).

Lemma do_accepted {A} c method path body (result : string → res A error) req text a :
  first_op (do c method path body result) = Some req → result text = Ok a →
  runs (do c method path body result) [@Ev HTTP req (Ok (MkHttpResponse 200 (Ok text)))] (Ok a).
Proof.
  unfold do. destruct (marshals body); [|done]. destruct (http_NewRequest _ _); [done|].
  intros [= <-] Hres. eexists _, []. split; [done|]. split; [done|]. cbn. by rewrite Hres.
Qed.

Lemma do_nil_accepted c method path body req text :
  first_op (do_nil c method path body) = Some req →
  runs (do_nil c method path body) [@Ev HTTP req (Ok (MkHttpResponse 200 (Ok text)))] None.
Proof.
  unfold do_nil. rewrite first_op_map. intros Hreq. rewrite <-(app_nil_r [@Ev HTTP req _]).
  eapply runs_bind; [by eapply (do_accepted _ _ _ _ ignore _ text tt)|]. done.
Qed.

Lemma mock_accepts_all {S : Sig} cl r req text :
  request cl r = Some req → json_parse text = Ok (reply r) →
  ∃ x, mock_client (S := S) (NewMockClient (S := S)) r = mret x ∧
       runs (client cl r) [@Ev HTTP req (Ok (MkHttpResponse 200 (Ok text)))] x.
Proof.
  unfold request, client. intros Hreq Htext.
  destruct r; try match goal with s : Service |- _ => destruct s end.
  all: (eexists; split; [reflexivity|]); cbn [service delete_of] in *.
  all: try by apply do_nil_accepted.
  all: try (apply do_accepted; [done|]; unfold json_Unmarshal_text; rewrite Htext; try reflexivity).
  - apply do_accepted; [done|]. unfold data_of, json_Unmarshal_text. by rewrite Htext.
  - apply do_accepted; [done|]. unfold members_of, json_Unmarshal_text. by rewrite Htext.
  - unfold userService_SetPassword in *. rewrite first_op_map in Hreq. rewrite <-(app_nil_r [@Ev HTTP req _]).
    eapply runs_bind; [by apply do_nil_accepted|done].
  - cbn [reply]. by destruct (ccr_MaxBudget r).
  - cbn [reply]. by destruct (cur_MaxBudget r).
  - unfold budgetService_Get in *. rewrite first_op_map in Hreq. rewrite <-(app_nil_r [@Ev HTTP req _]).
    eapply runs_bind with (a := Ok [MkBudgetInfo id None None]).
    + apply do_accepted; [done|]. unfold json_Unmarshal_text. rewrite Htext. reflexivity.
    + cbn. by rewrite decide_True.
Qed.

(** The answer of an event, when it is a call of LiteLLM, is the one of the mock, and its
    request can be sent and its reply written. *)
Definition mocked (e : event K) : Prop :=
  match e with
  | Ev c x =>
      match c return kans c → Prop with
      | KApi cl r => λ x,
          runs (mock_client (S := HTTP) (NewMockClient (S := HTTP)) r) [] x ∧
          ∃ req text, request cl r = Some req ∧ json_parse text = Ok (reply r)
      | _ => λ _, True
      end x
  end.

(** An exchange in which the proxy accepts. *)
Definition accepted (e : event KH) : Prop :=
  match e with
  | Ev o x =>
      match o return ar KH o → Prop with
      | inl _ => λ _, True
      | inr req => λ x, ∃ cl r, request cl r = Some req ∧ accepts r x
      end x
  end.

Definition via_http (e : event HTTP) : event KH := @Ev KH (inr (ev_op e)) (ev_ans e).

Lemma over_http_runs {A} (p : prog HTTP A) t a :
  runs p t a → runs (over_http p) (via_http <$> t) a.
Proof.
  revert t. induction p as [b|req k IH]; intros t; [by intros [-> ->]|].
  intros (x & t' & -> & Hr). exists x, (via_http <$> t'). split; [done|]. by apply IH.
Qed.

Lemma mocked_implements h : Forall mocked h → ∃ t, implements h t ∧ Forall accepted t.
Proof.
  induction 1 as [|[c x] h He _ (t & Hi & Ht)]; [by exists []; split; constructor|].
  assert (∃ t0, runs (handle c) t0 x ∧ Forall accepted t0) as (t0 & Hr & Ht0).
  { destruct c; try (eexists [@Ev KH (inl _) x]; split; [by exists x, []|by repeat constructor]).
    destruct He as (Hx & req & text & Hreq & Htext). destruct (mock_accepts_all (S := HTTP) c r req text Hreq Htext) as (x' & Hm & Hr).
    rewrite Hm in Hx. destruct Hx as [_ ->]. apply over_http_runs in Hr. eexists. split; [exact Hr|].
    constructor; [|by constructor]. exists c, r. split; [done|]. by exists text. }
  exists (t0 ++ t). split; [by constructor|by apply Forall_app].
Qed.

(** C38: what the tests exercise happens: an execution of a controller against the default
    answers of the mock is an execution over HTTP, in which the proxy accepts every request
    with a status of 200; no default answer is one the client could not give. *)
Theorem mock_realistic {A} (p : kprog A) h a :
  runs p h a → Forall mocked h →
  ∃ t, runs (lower p) t a ∧ implements h t ∧ Forall accepted t.
Proof.
  intros Hp (t & Hi & Ht)%mocked_implements. exists t. split; [|done]. apply lower_runs. by exists h.
Qed.
End Realistic.
