(* ===== verification/Workload.v ===== *)
(** * The pods of an instance (internal/resources/deployment.go and migration_job.go)

    The Deployment of the proxy and the Job that migrates its database: their environment,
    volumes, probes and placement, built from the specification of the instance and the
    guardrails bound to it. *)

From S2P Require Import Prelude KubeTypes InstanceTypes Types Updates World Sha256 Common Reconcile.
From S2P Require Import Rollout ProxyConfig.
From stdpp Require Import pretty.
Open Scope Z_scope.

Definition defaultImageRepo : string := "ghcr.io/berriai/litellm".
Definition nonRootImageRepo : string := "ghcr.io/berriai/litellm-non_root".
Definition configMountDir : string := "/app/config".
Definition configFilePath : string := configMountDir +:+ "/" +:+ configFileName.
Definition volumeNameColorTheme : string := "color-theme".
Definition volumeNameCustomSSO : string := "custom-sso-handler".
Definition customSSOMountDir : string := "/app/custom_sso_handlers".
Definition volumeNameTLSServer : string := "tls-server".
Definition tlsServerMountDir : string := "/etc/litellm/tls/server".
Definition volumeNameTLSCA : string := "tls-ca".
Definition tlsCAMountDir : string := "/etc/litellm/tls/ca".
Definition volumeNameTLSClient : string := "tls-client".
Definition tlsClientMountDir : string := "/etc/litellm/tls/client".
Definition tlsCertKey : string := "tls.crt".
Definition tlsKeyKey : string := "tls.key".
Definition volumeNameDBTLSCA : string := "db-tls-ca".
Definition dbTLSCAMountDir : string := "/etc/litellm/db-tls/ca".
Definition volumeNameDBTLSClient : string := "db-tls-client".
Definition dbTLSClientMountDir : string := "/etc/litellm/db-tls/client".
Definition tlsCertKeyCA : string := "ca.crt".

Definition caSecretKey (ref : CASecretRef) : string := if decide (ca_Key ref = "") then tlsCertKeyCA else ca_Key ref.

Definition serveTLS (instance : LiteLLMInstance) : bool :=
  match is_TLS (Spec instance) with
  | Some tls => bool_decide (is_Some (tls_ServerCertSecretRef tls))
  | None => false
  end.

Definition podSecurityContext (nonRoot : bool) : PodSecurityContext :=
  if nonRoot then MkPodSecurityContext (Some true) (Some 65534) (Some 65534) else MkPodSecurityContext None None None.

(** ** Environment variables *)

Definition plainEnv (name value : string) : EnvVar := MkEnvVar name value None.
Definition secretEnv (name secret key : string) : EnvVar :=
  MkEnvVar name "" (Some (MkEnvVarSource (Some (MkKeySelector secret key)) None JNull)).
Definition envFromSecret (envName : string) (ref : SecretKeyRef) : EnvVar := secretEnv envName (skr_Name ref) (skr_Key ref).

(** [if value != "" { vars = append(vars, ...) }] *)
Definition envIfSet (name value : string) : list EnvVar := if decide (value = "") then [] else [plainEnv name value].
Definition envs_of {A} (o : option A) (f : A → list EnvVar) : list EnvVar := match o with Some a => f a | None => [] end.

Definition masterKeyEnv (instance : LiteLLMInstance) : list EnvVar :=
  match mk_SecretRef (is_MasterKey (Spec instance)) with
  | Some ref => [envFromSecret "LITELLM_MASTER_KEY" ref]
  | None =>
      if mk_AutoGenerate (is_MasterKey (Spec instance))
      then [secretEnv "LITELLM_MASTER_KEY" (Name (Meta instance) +:+ "-master-key") "master-key"] else []
  end.

Definition saltKeyEnv (instance : LiteLLMInstance) : list EnvVar :=
  envs_of (is_SaltKey (Spec instance)) (λ salt,
    match salt_SecretRef salt with
    | Some ref => [envFromSecret "LITELLM_SALT_KEY" ref]
    | None =>
        if salt_AutoGenerate salt
        then [secretEnv "LITELLM_SALT_KEY" (Name (Meta instance) +:+ "-salt-key") "salt-key"] else []
    end).

(** Shared by the proxy and the migration Job. *)
Definition databaseEnv (instance : LiteLLMInstance) : list EnvVar :=
  let db := is_Database (Spec instance) in
  match db_External db, db_CloudNativePG db, db_Managed db with
  | Some ext, _, _ => [envFromSecret "DATABASE_URL" (es_ConnectionSecretRef ext)]
  | None, Some cnpg, _ => [secretEnv "DATABASE_URL" (cnpg_ClusterName cnpg +:+ "-app") "uri"]
  | None, None, Some managed =>
      if ms2_Enabled managed then [secretEnv "DATABASE_URL" (Name (Meta instance) +:+ "-db") "database-url"] else []
  | None, None, None => []
  end.

Definition redisEnv (instance : LiteLLMInstance) : list EnvVar :=
  envs_of (is_Redis (Spec instance)) (λ redis,
    if negb (rd_Enabled redis) then []
    else
      match rd_ConnectionSecretRef redis with
      | Some ref => [envFromSecret "REDIS_URL" ref]
      | None =>
          if decide (rd_Host redis = "") then []
          else
            let port := if rd_Port redis =? 0 then 6379 else rd_Port redis in
            [plainEnv "REDIS_HOST" (rd_Host redis); plainEnv "REDIS_PORT" (pretty port);
             plainEnv "REDIS_URL" ("redis://" +:+ rd_Host redis +:+ ":" +:+ pretty port)] ++
            envs_of (rd_PasswordSecretRef redis) (λ ref, [envFromSecret "REDIS_PASSWORD" ref])
      end).

Definition proxyBaseURL (instance : LiteLLMInstance) : string :=
  let sp := Spec instance in
  let service :=
    let port := if svc_Port (is_Service sp) =? 0 then 4000 else svc_Port (is_Service sp) in
    let scheme := if serveTLS instance then "https" else "http" in
    scheme +:+ "://" +:+ Name (Meta instance) +:+ "." +:+ Namespace (Meta instance) +:+ ".svc:" +:+ pretty port in
  match is_Ingress sp with
  | Some ingress =>
      if ing_Enabled ingress && bool_decide (ing_Host ingress ≠ "") then
        (match ing_TLS ingress with Some tls => if is2_Enabled tls then "https" else "http" | None => "http" end)
        +:+ "://" +:+ ing_Host ingress
      else service
  | None => service
  end.

Definition ssoEndpoints (sso : SSOSpec) : list EnvVar :=
  envIfSet "GENERIC_AUTHORIZATION_ENDPOINT" (sso_AuthorizationEndpoint sso) ++
  envIfSet "GENERIC_TOKEN_ENDPOINT" (sso_TokenEndpoint sso) ++
  envIfSet "GENERIC_USERINFO_ENDPOINT" (sso_UserinfoEndpoint sso).

Definition ssoProviderEnv (sso : SSOSpec) : list EnvVar :=
  let p := sso_Provider sso in
  if decide (p = "azure-entra") then
    [envFromSecret "MICROSOFT_CLIENT_ID" (sso_ClientID sso); envFromSecret "MICROSOFT_CLIENT_SECRET" (sso_ClientSecret sso)] ++
    envIfSet "MICROSOFT_TENANT" (sso_TenantID sso)
  else if decide (p = "okta") then ssoEndpoints sso
  else if decide (p = "google") then
    [envFromSecret "GOOGLE_CLIENT_ID" (sso_ClientID sso); envFromSecret "GOOGLE_CLIENT_SECRET" (sso_ClientSecret sso)]
  else if decide (p = "generic-oidc") then
    ssoEndpoints sso ++
    match sso_Scopes sso with [] => [] | l => [plainEnv "GENERIC_SCOPE" (String.concat " " l)] end
  else [].

Definition ssoEnvVars (instance : LiteLLMInstance) : list EnvVar :=
  envs_of (is_SSO (Spec instance)) (λ sso,
    if negb (sso_Enabled sso) then []
    else
      [envFromSecret "GENERIC_CLIENT_ID" (sso_ClientID sso); envFromSecret "GENERIC_CLIENT_SECRET" (sso_ClientSecret sso);
       plainEnv "PROXY_BASE_URL" (proxyBaseURL instance)] ++
      envIfSet "PROXY_LOGOUT_URL" (sso_LogoutURL sso) ++
      ssoProviderEnv sso ++
      envs_of (sso_UserAttributeMappings sso) (λ m,
        envIfSet "GENERIC_USER_ID_ATTRIBUTE" (uam_UserID m) ++
        envIfSet "GENERIC_USER_EMAIL_ATTRIBUTE" (uam_Email m) ++
        envIfSet "GENERIC_USER_DISPLAY_NAME_ATTRIBUTE" (uam_DisplayName m) ++
        envIfSet "GENERIC_USER_FIRST_NAME_ATTRIBUTE" (uam_FirstName m) ++
        envIfSet "GENERIC_USER_LAST_NAME_ATTRIBUTE" (uam_LastName m) ++
        envIfSet "GENERIC_USER_ROLE_ATTRIBUTE" (uam_Role m))).

Definition scimEnv (instance : LiteLLMInstance) : list EnvVar :=
  envs_of (is_SCIM (Spec instance)) (λ scim,
    if negb (scim_Enabled scim) then []
    else
      plainEnv "SCIM_ENABLED" "true" ::
      match scim_TokenSecretRef scim with
      | Some ref => [envFromSecret "SCIM_TOKEN" ref]
      | None =>
          let generated := scim_GeneratedTokenSecretName scim in
          [secretEnv "SCIM_TOKEN" (if decide (generated = "") then "litellm-scim-token" else generated) "token"]
      end).

Definition secretManagerEnvVars (instance : LiteLLMInstance) : list EnvVar :=
  envs_of (is_SecretManager (Spec instance)) (λ sm,
    envs_of (sm_AWS sm) (λ aws,
      plainEnv "AWS_REGION_NAME" (asmc_Region aws) ::
      envIfSet "aws_role_name" (asmc_RoleARN aws) ++
      envIfSet "aws_session_name" (asmc_SessionName aws) ++
      envIfSet "aws_web_identity_token" (asmc_WebIdentityTokenPath aws) ++
      envIfSet "AWS_STS_ENDPOINT" (asmc_STSEndpoint aws)) ++
    envs_of (sm_Azure sm) (λ azure,
      [plainEnv "AZURE_KEY_VAULT_URI" (akvc_VaultURI azure); plainEnv "AZURE_TENANT_ID" (akvc_TenantID azure)]) ++
    envs_of (sm_Vault sm) (λ vault,
      plainEnv "HCP_VAULT_ADDR" (vc_Address vault) ::
      envIfSet "HCP_VAULT_NAMESPACE" (vc_Namespace vault) ++
      envIfSet "HCP_VAULT_MOUNT_NAME" (vc_MountName vault) ++
      envIfSet "HCP_VAULT_PATH_PREFIX" (vc_PathPrefix vault) ++
      envs_of (vc_RefreshInterval vault) (λ i, [plainEnv "HCP_VAULT_REFRESH_INTERVAL" (pretty i)]))).

Definition cachingEnvVars (instance : LiteLLMInstance) : list EnvVar :=
  envs_of (is_Caching (Spec instance)) (λ caching,
    if negb (cch_Enabled caching) then []
    else
      let cacheType := if decide (cch_Type caching = "") then cacheTypeRedis else cch_Type caching in
      if decide (cacheType = cacheTypeRedis ∨ cacheType = cacheTypeRedisSemantic) then
        envs_of (cch_Redis caching) (λ redis,
          envs_of (crs2_PasswordSecretRef redis) (λ ref, [envFromSecret "CACHE_REDIS_PASSWORD" ref]))
      else if decide (cacheType = cacheTypeS3) then
        envs_of (cch_S3 caching) (λ s3,
          envs_of (css2_CredentialsSecretRef s3) (λ ref,
            [secretEnv "CACHE_S3_ACCESS_KEY_ID" (skr_Name ref) "aws_access_key_id";
             secretEnv "CACHE_S3_SECRET_ACCESS_KEY" (skr_Name ref) "aws_secret_access_key"]))
      else if decide (cacheType = cacheTypeGCS) then
        envs_of (cch_GCS caching) (λ gcs,
          envs_of (cs3_CredentialsSecretRef gcs) (λ ref, [envFromSecret "CACHE_GCS_SERVICE_ACCOUNT_JSON" ref]))
      else if decide (cacheType = cacheTypeQdrant) then
        envs_of (cch_Qdrant caching) (λ qdrant,
          envs_of (cqs_APIKeySecretRef qdrant) (λ ref, [envFromSecret "CACHE_QDRANT_API_KEY" ref]))
      else []).

Definition passThroughEnvVars (instance : LiteLLMInstance) : list EnvVar :=
  is_PassThroughEndpoints (Spec instance) ≫= λ ep,
    (λ hs, envFromSecret (PassThroughEnvVarName (pte_Path ep) (hsr_HeaderName hs)) (hsr_SecretRef hs)) <$>
      pte_HeaderSecrets ep.

Definition adminUIEnvVars (instance : LiteLLMInstance) : list EnvVar :=
  envs_of (is_AdminUI (Spec instance)) (λ ui,
    (match aui_Disabled ui with Some true => [plainEnv "DISABLE_ADMIN_UI" "True"] | _ => [] end) ++
    envIfSet "LITELLM_UI_API_DOC_BASE_URL" (aui_APIDocBaseURL ui) ++
    envIfSet "DOCS_URL" (aui_DocsURL ui) ++
    envIfSet "ROOT_REDIRECT_URL" (aui_RootRedirectURL ui) ++
    envIfSet "UI_LOGO_PATH" (aui_LogoURL ui) ++
    envIfSet "EMAIL_LOGO_URL" (aui_EmailLogoURL ui) ++
    envIfSet "EMAIL_SUPPORT_CONTACT" (aui_EmailSupportContact ui)).

Definition jwtAuthEnvVars (instance : LiteLLMInstance) : list EnvVar :=
  envs_of (is_JWTAuth (Spec instance)) (λ jwt,
    if negb (jwt_Enabled jwt) then []
    else
      envIfSet "JWT_PUBLIC_KEY_URL" (jwt_PublicKeyURL jwt) ++
      envIfSet "JWT_ISSUER" (jwt_Issuer jwt) ++
      envIfSet "JWT_AUDIENCE" (jwt_Audience jwt)).

Definition tlsEnvVars (instance : LiteLLMInstance) : list EnvVar :=
  envs_of (is_TLS (Spec instance)) (λ tls,
    envs_of (tls_ServerCertSecretRef tls) (λ _,
      [plainEnv "SSL_CERTFILE_PATH" (tlsServerMountDir +:+ "/" +:+ tlsCertKey);
       plainEnv "SSL_KEYFILE_PATH" (tlsServerMountDir +:+ "/" +:+ tlsKeyKey)]) ++
    envs_of (tls_TrustedCASecretRef tls) (λ ref,
      [plainEnv "SSL_CERT_FILE" (tlsCAMountDir +:+ "/" +:+ caSecretKey ref)]) ++
    envs_of (tls_ClientCertSecretRef tls) (λ _,
      [plainEnv "SSL_CERTIFICATE" (tlsClientMountDir +:+ "/" +:+ tlsCertKey)])).

Definition buildEnvVars (instance : LiteLLMInstance) (licenseSecretName : string) : list EnvVar :=
  [plainEnv "CONFIG_FILE_PATH" configFilePath; plainEnv "STORE_MODEL_IN_DB" "True"] ++
  masterKeyEnv instance ++ saltKeyEnv instance ++ databaseEnv instance ++ redisEnv instance ++
  ssoEnvVars instance ++ scimEnv instance ++ secretManagerEnvVars instance ++ cachingEnvVars instance ++
  passThroughEnvVars instance ++
  envs_of (is_Callbacks (Spec instance)) cs2_EnvVars ++
  adminUIEnvVars instance ++ jwtAuthEnvVars instance ++ tlsEnvVars instance ++
  (if decide (licenseSecretName = "") then [] else [secretEnv "LITELLM_LICENSE" licenseSecretName "license-key"]).

(** One entry of a loop that keeps the first variable of every name: the variables so far and
    the names seen. *)
Definition addUnseen (acc : list EnvVar * gset string) (e : EnvVar) : list EnvVar * gset string :=
  if decide (env_Name e ∈ acc.2) then acc else (acc.1 ++ [e], {[ env_Name e ]} ∪ acc.2).

(** The variables of one guardrail: its key, then those it lists. *)
Definition guardrailCandidates (g : LiteLLMGuardrail) : list EnvVar :=
  envs_of (grs_APIKeySecretRef (Spec g)) (λ ref, [envFromSecret (GuardrailEnvVarName (grs_GuardrailName (Spec g))) ref]) ++
  grs_EnvVars (Spec g).

Definition guardrailEnvVars (instance : LiteLLMInstance) (guardrails : list LiteLLMGuardrail) : list EnvVar :=
  (fold_left (λ acc g,
     if decide (ir_Name (grs_InstanceRef (Spec g)) = Name (Meta instance))
     then fold_left addUnseen (guardrailCandidates g) acc else acc) guardrails ([], ∅)).1.

(** One entry of the operator in [mergeEnvVars]. *)
Definition overrideEnv (byName : gmap string EnvVar) (acc : list EnvVar * gset string) (e : EnvVar) :
    list EnvVar * gset string :=
  match byName !! env_Name e with
  | Some override => (acc.1 ++ [override], {[ env_Name e ]} ∪ acc.2)
  | None => (acc.1 ++ [e], acc.2)
  end.

Definition mergeEnvVars (operator user : list EnvVar) : list EnvVar :=
  match user with
  | [] => operator
  | _ =>
      let byName := fold_left (λ m e, <[env_Name e := e]> m) user ∅ in
      (fold_left addUnseen user (fold_left (overrideEnv byName) operator ([], ∅))).1
  end.

Definition secretManagerEnvFrom (instance : LiteLLMInstance) : list EnvFromSource :=
  match is_SecretManager (Spec instance) with
  | Some sm =>
      match sm_CredentialsSecretRef sm with
      | Some ref => [MkEnvFromSource (Some (sr_Name ref)) None JNull]
      | None => []
      end
  | None => []
  end.

(** ** Volumes *)

Definition readOnlyMount (name path : string) : VolumeMount := MkVolumeMount name path "" true JNull.
Definition configMapVolume (name configMap : string) : Volume :=
  MkVolume name None (Some (MkVolumeObject configMap [] JNull)) None JNull.
Definition secretVolume (name secretName : string) : Volume :=
  MkVolume name (Some (MkVolumeObject secretName [] JNull)) None None JNull.
Definition option_list {A B} (o : option A) (f : A → B) : list B := match o with Some a => [f a] | None => [] end.

(** The name of the mounted ConfigMap of the custom SSO handler. *)
Definition customSSOConfigMapName (instance : LiteLLMInstance) : string :=
  match is_SSO (Spec instance) with
  | Some sso =>
      if sso_Enabled sso then
        match sso_CustomSSOHandler sso with
        | Some handler => match chs_ConfigMapRef handler with Some ref => chcmr_Name ref | None => "" end
        | None => ""
        end
      else ""
  | None => ""
  end.

Definition colorThemeRef (instance : LiteLLMInstance) : option ConfigMapRef :=
  match is_AdminUI (Spec instance) with Some ui => aui_ColorThemeConfigMapRef ui | None => None end.

Definition tlsVolumeMounts (instance : LiteLLMInstance) : list VolumeMount :=
  match is_TLS (Spec instance) with
  | None => []
  | Some tls =>
      option_list (tls_ServerCertSecretRef tls) (λ _, readOnlyMount volumeNameTLSServer tlsServerMountDir) ++
      option_list (tls_TrustedCASecretRef tls) (λ _, readOnlyMount volumeNameTLSCA tlsCAMountDir) ++
      option_list (tls_ClientCertSecretRef tls) (λ _, readOnlyMount volumeNameTLSClient tlsClientMountDir)
  end.

Definition tlsVolumes (instance : LiteLLMInstance) : list Volume :=
  match is_TLS (Spec instance) with
  | None => []
  | Some tls =>
      option_list (tls_ServerCertSecretRef tls) (λ r, secretVolume volumeNameTLSServer (sr_Name r)) ++
      option_list (tls_TrustedCASecretRef tls) (λ r, secretVolume volumeNameTLSCA (ca_Name r)) ++
      option_list (tls_ClientCertSecretRef tls) (λ r, secretVolume volumeNameTLSClient (sr_Name r))
  end.

Definition dbTLSVolumeMounts (instance : LiteLLMInstance) : list VolumeMount :=
  match db_TLS (is_Database (Spec instance)) with
  | None => []
  | Some tls =>
      option_list (dbtls_CASecretRef tls) (λ _, readOnlyMount volumeNameDBTLSCA dbTLSCAMountDir) ++
      option_list (dbtls_ClientCertSecretRef tls) (λ _, readOnlyMount volumeNameDBTLSClient dbTLSClientMountDir)
  end.

Definition dbTLSVolumes (instance : LiteLLMInstance) : list Volume :=
  match db_TLS (is_Database (Spec instance)) with
  | None => []
  | Some tls =>
      option_list (dbtls_CASecretRef tls) (λ r, secretVolume volumeNameDBTLSCA (ca_Name r)) ++
      option_list (dbtls_ClientCertSecretRef tls) (λ r, secretVolume volumeNameDBTLSClient (sr_Name r))
  end.

Definition buildVolumeMounts (instance : LiteLLMInstance) : list VolumeMount :=
  [readOnlyMount "config" configMountDir; MkVolumeMount "tmp" "/tmp" "" false JNull] ++
  option_list (colorThemeRef instance) (λ _,
    MkVolumeMount volumeNameColorTheme "/app/enterprise/enterprise_ui/enterprise_colors.json" "enterprise_colors.json" true JNull) ++
  (if decide (customSSOConfigMapName instance = "") then []
   else [readOnlyMount volumeNameCustomSSO customSSOMountDir]) ++
  tlsVolumeMounts instance ++ dbTLSVolumeMounts instance ++ is_ExtraVolumeMounts (Spec instance).

Definition emptyDirVolume (name : string) : Volume := MkVolume name None None None (JObject [("emptyDir", JObject [])]).

Definition buildVolumes (instance : LiteLLMInstance) : list Volume :=
  [configMapVolume "config" (Name (Meta instance) +:+ "-config"); emptyDirVolume "tmp"] ++
  option_list (colorThemeRef instance) (λ r, configMapVolume volumeNameColorTheme (cmr_Name r)) ++
  (if decide (customSSOConfigMapName instance = "") then []
   else [configMapVolume volumeNameCustomSSO (customSSOConfigMapName instance)]) ++
  tlsVolumes instance ++ dbTLSVolumes instance ++ is_ExtraVolumes (Spec instance).

(** ** The Deployment *)

(** [healthCheckInitialDelay] for the two names it is called with. *)
Definition healthCheckInitialDelay (instance : LiteLLMInstance) (probe : string) : Z :=
  let default_ := if decide (probe = "liveness") then 15 else 10 in
  match is_HealthCheck (Spec instance) with
  | None => default_
  | Some hc =>
      if decide (probe = "liveness") then
        if 0 <? hcs_LivenessInitialDelay hc then hcs_LivenessInitialDelay hc else default_
      else if decide (probe = "readiness") then
        if 0 <? hcs_ReadinessInitialDelay hc then hcs_ReadinessInitialDelay hc else default_
      else default_
  end.

Definition startupFailureThreshold (instance : LiteLLMInstance) : Z :=
  match is_HealthCheck (Spec instance) with
  | Some hc => if 0 <? hcs_StartupFailureThreshold hc then hcs_StartupFailureThreshold hc else 30
  | None => 30
  end.

Definition runsAsNonRoot (instance : LiteLLMInstance) : bool :=
  match is_Security (Spec instance) with
  | Some s => match secu_RunAsNonRoot s with Some b => b | None => false end
  | None => false
  end.

Definition or_default (s default_ : string) : string := if decide (s = "") then default_ else s.

(** The repository of the proxy image. *)
Definition proxyRepository (instance : LiteLLMInstance) : string :=
  or_default (img_Repository (is_Image (Spec instance)))
    (if runsAsNonRoot instance then nonRootImageRepo else defaultImageRepo).
Definition proxyTag (instance : LiteLLMInstance) : string := or_default (img_Tag (is_Image (Spec instance))) "latest".

Definition defaultResources : JSONValue :=
  JObject [("requests", JObject [("cpu", JString "250m"); ("memory", JString "512Mi")]);
           ("limits", JObject [("cpu", JString "2"); ("memory", JString "2Gi")])].

Definition deploymentStrategy (instance : LiteLLMInstance) : DeploymentStrategy :=
  match is_Upgrade (Spec instance) with
  | Some u =>
      if decide (upg_Strategy u = "recreate") then MkDeploymentStrategy "Recreate" None
      else MkDeploymentStrategy "RollingUpdate" (Some (upg_MaxUnavailable u, upg_MaxSurge u))
  | None => MkDeploymentStrategy "RollingUpdate" (Some (None, None))
  end.

(** The environment of the proxy. *)
Definition proxyEnv (instance : LiteLLMInstance) (licenseSecretName : string) (guardrails : list LiteLLMGuardrail) :
    list EnvVar :=
  mergeEnvVars (buildEnvVars instance licenseSecretName ++ guardrailEnvVars instance guardrails)
    (is_ExtraEnvVars (Spec instance)).

Definition proxyContainer (instance : LiteLLMInstance) (licenseSecretName : string) (guardrails : list LiteLLMGuardrail) :
    Container :=
  let scheme := if serveTLS instance then "HTTPS" else "HTTP" in
  let sp := Spec instance in
  {| ctr_Name := "litellm";
     ctr_Image := proxyRepository instance +:+ ":" +:+ proxyTag instance;
     ctr_ImagePullPolicy := or_default (img_PullPolicy (is_Image sp)) "IfNotPresent";
     ctr_Command := [];
     ctr_Ports := [("http", 4000, "TCP")];
     ctr_Env := proxyEnv instance licenseSecretName guardrails;
     ctr_EnvFrom := secretManagerEnvFrom instance ++ is_ExtraEnvFrom sp;
     ctr_VolumeMounts := buildVolumeMounts instance;
     ctr_LivenessProbe :=
       Some (MkHTTPProbe "/health/liveliness" 4000 scheme (healthCheckInitialDelay instance "liveness") 15 5 0);
     ctr_ReadinessProbe :=
       Some (MkHTTPProbe "/health/readiness" 4000 scheme (healthCheckInitialDelay instance "readiness") 10 5 0);
     ctr_StartupProbe := Some (MkHTTPProbe "/health/liveliness" 4000 scheme 0 5 0 (startupFailureThreshold instance));
     ctr_AllowPrivilegeEscalation := Some false;
     ctr_Resources := default defaultResources (is_Resources sp);
     ctr_Rest := JNull |}.

Definition BuildDeployment (instance : LiteLLMInstance) (labels : gmap string string) (licenseSecretName : string)
    (guardrails : list LiteLLMGuardrail) : Deployment :=
  let sp := Spec instance in
  let annotations := match is_Deployment sp with Some d => dps_Annotations d | None => ∅ end in
  let sched := is_PodScheduling sp in
  let pod :=
    {| pod_ServiceAccountName := Name (Meta instance);
       pod_RestartPolicy := "";
       pod_ImagePullSecrets := sr_Name <$> img_PullSecrets (is_Image sp);
       pod_Containers := [proxyContainer instance licenseSecretName guardrails];
       pod_InitContainers := [];
       pod_Volumes := buildVolumes instance;
       pod_SecurityContext := Some (podSecurityContext (runsAsNonRoot instance));
       pod_NodeSelector := match sched with Some s => psch_NodeSelector s | None => ∅ end;
       pod_Tolerations := match sched with Some s => psch_Tolerations s | None => [] end;
       pod_Affinity := match sched with Some s => psch_Affinity s | None => None end;
       pod_TopologySpreadConstraints := is_TopologySpreadConstraints sp;
       pod_Rest := JNull |} in
  MkDeployment
    (MkObjectMeta (Name (Meta instance)) (Namespace (Meta instance)) "" 0 labels
       (if decide (annotations = ∅) then None else Some annotations) [] [] None "")
    (MkDeploymentSpec (Some (if is_Replicas sp =? 0 then 1 else is_Replicas sp)) labels
       (MkPodTemplate labels None pod) (deploymentStrategy instance) JNull)
    (MkDeploymentStatus 0 0 0 []).

(** ** The migration Job *)

Definition migrationPodSecurityContext (useDBImage runAsNonRoot : bool) : PodSecurityContext :=
  if useDBImage then MkPodSecurityContext (Some true) (Some 65532) (Some 65532) else podSecurityContext runAsNonRoot.

Definition defaultDatabaseImageRepo : string := "ghcr.io/berriai/litellm-migrations".

Definition migrateDeployCommand : string :=
  "python3 -c " +:+ dquote +:+
  "import sys; from litellm_proxy_extras.utils import ProxyExtrasDBManager; sys.exit(0 if ProxyExtrasDBManager.setup_database(use_migrate=True, use_v2_resolver=True) else 1)"
  +:+ dquote.

(** The JSON of the three fields of the placement, which are those of its specification. *)
Definition podSchedulingSeed `{JSONMarshal PodSchedulingSpec} (scheduling : option PodSchedulingSpec) : string :=
  match scheduling with
  | None => ""
  | Some s =>
      if bool_decide (psch_NodeSelector s = ∅) && (match psch_Tolerations s with [] => true | _ => false end) &&
         (match psch_Affinity s with None => true | _ => false end)
      then "" else json_Marshal s
  end.

(** Image, command, seed of the name and pull policy. *)
Record MigrationImage := MkMigrationImage {
  mi_Image : string;
  mi_Command : list string;
  mi_Seed : string;
  mi_PullPolicy : string
}.

Definition useDatabaseImage (instance : LiteLLMInstance) : bool :=
  match db_Migration (is_Database (Spec instance)) with Some m => mig_UseDatabaseImage m | None => false end.

Definition migrationImage (instance : LiteLLMInstance) : MigrationImage :=
  let img := is_Image (Spec instance) in
  let gatewayTag := or_default (img_Tag img) "latest" in
  if useDatabaseImage instance then
    let dis := match db_Migration (is_Database (Spec instance)) with Some m => mig_DatabaseImage m | None => None end in
    let field f default_ := match dis with Some d => or_default (f d) default_ | None => default_ end in
    let image := field dis_Repository defaultDatabaseImageRepo +:+ ":" +:+ field dis_Tag gatewayTag in
    MkMigrationImage image [] ("db-image|" +:+ image) (field dis_PullPolicy (img_PullPolicy img))
  else
    let image := proxyRepository instance +:+ ":" +:+ gatewayTag in
    MkMigrationImage image ["sh"; "-c"; migrateDeployCommand]
      ("gateway|" +:+ image +:+ "|" +:+ migrateDeployCommand) (img_PullPolicy img).

Definition jobHashSeed `{JSONMarshal PodSchedulingSpec} (instance : LiteLLMInstance) : string :=
  let seed := podSchedulingSeed (is_PodScheduling (Spec instance)) in
  mi_Seed (migrationImage instance) +:+ (if decide (seed = "") then "" else "|scheduling=" +:+ seed).

Definition jobName `{JSONMarshal PodSchedulingSpec} (instance : LiteLLMInstance) : string :=
  Name (Meta instance) +:+ "-migrate-" +:+
  hex_EncodeToString (take 4 (sha256_Sum256 (bytes_of (jobHashSeed instance)))).

Definition BuildMigrationJob `{JSONMarshal PodSchedulingSpec} (instance : LiteLLMInstance) (labels : gmap string string) :
    Job :=
  let sp := Spec instance in
  let sched := is_PodScheduling sp in
  let mi := migrationImage instance in
  let container :=
    {| ctr_Name := "migrate";
       ctr_Image := mi_Image mi;
       ctr_ImagePullPolicy := mi_PullPolicy mi;
       ctr_Command := mi_Command mi;
       ctr_Ports := [];
       ctr_Env := databaseEnv instance;
       ctr_EnvFrom := [];
       ctr_VolumeMounts := dbTLSVolumeMounts instance;
       ctr_LivenessProbe := None;
       ctr_ReadinessProbe := None;
       ctr_StartupProbe := None;
       ctr_AllowPrivilegeEscalation := Some false;
       ctr_Resources := JNull;
       ctr_Rest := JNull |} in
  let pod :=
    {| pod_ServiceAccountName := "";
       pod_RestartPolicy := "OnFailure";
       pod_ImagePullSecrets := sr_Name <$> img_PullSecrets (is_Image sp);
       pod_Containers := [container];
       pod_InitContainers := [];
       pod_Volumes := dbTLSVolumes instance;
       pod_SecurityContext :=
         Some (migrationPodSecurityContext (useDatabaseImage instance) (useDatabaseImage instance || runsAsNonRoot instance));
       pod_NodeSelector := match sched with Some s => psch_NodeSelector s | None => ∅ end;
       pod_Tolerations := match sched with Some s => psch_Tolerations s | None => [] end;
       pod_Affinity := match sched with Some s => psch_Affinity s | None => None end;
       pod_TopologySpreadConstraints := [];
       pod_Rest := JNull |} in
  MkJob
    (MkObjectMeta (jobName instance) (Namespace (Meta instance)) "" 0 labels None [] [] None "")
    (Some 3) (Some 600) (MkPodTemplate labels None pod) JNull 0 0.

(** ** What the proxy sees of its environment *)

(** Of several variables of a name the last one counts. *)
Definition env_value (name : string) (l : list EnvVar) : option EnvVar := last (filter (λ e, env_Name e = name) l).
(** The first variable of a name. *)
Definition env_first (name : string) (l : list EnvVar) : option EnvVar := head (filter (λ e, env_Name e = name) l).

Lemma env_value_app name l l' :
  env_value name (l ++ l') = match env_value name l' with Some e => Some e | None => env_value name l end.
Proof.
  unfold env_value. rewrite filter_app, last_app. by destruct (last (filter _ l')).
Qed.

Lemma env_value_snoc name l e :
  env_value name (l ++ [e]) = if decide (env_Name e = name) then Some e else env_value name l.
Proof.
  rewrite env_value_app. unfold env_value at 1. rewrite filter_cons, filter_nil. by destruct (decide (env_Name e = name)).
Qed.

Lemma env_value_None name l : env_value name l = None ↔ name ∉ env_Name <$> l.
Proof.
  unfold env_value. rewrite last_None, list_elem_of_fmap. split.
  - intros Hl (e & -> & He). assert (e ∈ filter (λ e', env_Name e' = env_Name e) l) as Hin by by apply list_elem_of_filter.
    rewrite Hl in Hin. by apply not_elem_of_nil in Hin.
  - intros Hn. destruct (filter _ l) as [|e l'] eqn:Hl; [done|]. exfalso. apply Hn. exists e.
    assert (e ∈ filter (λ e', env_Name e' = name) l) as [He Hin]%list_elem_of_filter by (rewrite Hl; by left). done.
Qed.

(** Where names are unique, first and last coincide. *)
Lemma env_first_value name l : NoDup (env_Name <$> l) → env_first name l = env_value name l.
Proof.
  unfold env_first, env_value. induction l as [|e l IH]; intros Hnd; [done|]. cbn in Hnd. apply NoDup_cons in Hnd as [Hni Hnd].
  destruct (decide (env_Name e = name)) as [<-|Hne].
  - rewrite !filter_cons_True by done. assert (filter (λ e', env_Name e' = env_Name e) l = []) as ->; [|done].
    apply elem_of_nil_inv. intros e' [Heq He']%list_elem_of_filter. apply Hni. rewrite <-Heq. by apply list_elem_of_fmap_2.
  - rewrite !filter_cons_False by done. by apply IH.
Qed.

(** *** The loop that keeps the first variable of every name *)

Lemma addUnseen_fold l acc :
  (∀ n, n ∈ acc.2 ↔ n ∈ env_Name <$> acc.1) →
  let r := fold_left addUnseen l acc in
  (∀ n, n ∈ r.2 ↔ n ∈ env_Name <$> r.1) ∧
  (NoDup (env_Name <$> acc.1) → NoDup (env_Name <$> r.1)) ∧
  ∀ name, env_first name r.1 = env_first name (acc.1 ++ l).
Proof.
  revert acc. induction l as [|e l IH]; intros [vars seen] Hseen r; cbn [fst snd] in *.
  { subst r. cbn. by setoid_rewrite app_nil_r. }
  subst r. cbn [fold_left]. assert (addUnseen (vars, seen) e = if decide (env_Name e ∈ seen) then (vars, seen)
      else (vars ++ [e], {[ env_Name e ]} ∪ seen)) as -> by done. case_decide as He.
  - destruct (IH (vars, seen)) as (H1 & H2 & H3); [done|]. split; [done|]. split; [done|]. intros name. rewrite H3.
    cbn [fst]. unfold env_first. rewrite !filter_app. destruct (filter _ vars) as [|e' l'] eqn:Hf; [|done].
    rewrite !app_nil_l, filter_cons_False; [done|]. intros <-. apply Hseen, list_elem_of_fmap in He as (e' & Hn & Hin).
    assert (e' ∈ filter (λ e', env_Name e' = env_Name e) vars) as Hin' by by apply list_elem_of_filter.
    rewrite Hf in Hin'. by apply not_elem_of_nil in Hin'.
  - destruct (IH (vars ++ [e], {[ env_Name e ]} ∪ seen)) as (H1 & H2 & H3).
    { intros n. cbn. rewrite fmap_app. specialize (Hseen n). set_solver. }
    split; [done|]. split.
    + intros Hnd. apply H2. cbn. rewrite fmap_app. apply NoDup_app. split; [done|]. split; [|apply NoDup_singleton].
      intros n Hn Hn'%list_elem_of_singleton. subst n. by apply He, Hseen.
    + intros name. rewrite H3. cbn. by rewrite <-app_assoc.
Qed.

Lemma guardrailEnvVars_fold instance guardrails acc :
  fold_left (λ acc g, if decide (ir_Name (grs_InstanceRef (Spec g)) = Name (Meta instance))
                      then fold_left addUnseen (guardrailCandidates g) acc else acc) guardrails acc =
  fold_left addUnseen (boundGuardrails instance guardrails ≫= guardrailCandidates) acc.
Proof.
  unfold boundGuardrails. revert acc. induction guardrails as [|g l IH]; intros acc; [done|].
  cbn [fold_left]. rewrite IH. case_decide as Hg.
  - rewrite filter_cons_True by done. cbn. by rewrite fold_left_app.
  - by rewrite filter_cons_False.
Qed.

(** The variables of the bound guardrails, the first of every name. *)
Lemma guardrailEnvVars_first instance guardrails :
  NoDup (env_Name <$> guardrailEnvVars instance guardrails) ∧
  ∀ name, env_first name (guardrailEnvVars instance guardrails) =
          env_first name (boundGuardrails instance guardrails ≫= guardrailCandidates).
Proof.
  unfold guardrailEnvVars. rewrite guardrailEnvVars_fold.
  destruct (addUnseen_fold (boundGuardrails instance guardrails ≫= guardrailCandidates) ([], ∅)) as (_ & Hnd & Hf).
  { intros n. set_solver. }
  split; [apply Hnd, NoDup_nil_2|exact Hf].
Qed.

(** *** The variables of the user *)

Definition byName (user : list EnvVar) : gmap string EnvVar := fold_left (λ m e, <[env_Name e := e]> m) user ∅.

Lemma lookup_byName user n : byName user !! n = env_value n user.
Proof.
  unfold byName, env_value. induction user as [|e user IH] using rev_ind; [done|].
  rewrite fold_left_app, filter_app, last_app. cbn [fold_left].
  destruct (decide (env_Name e = n)) as [<-|Hne].
  - rewrite lookup_insert_eq, filter_cons_True by done. done.
  - rewrite lookup_insert_ne, filter_cons_False by done. by rewrite IH.
Qed.

(** The variable of the user for [e], if there is one. *)
Definition overriding (user : list EnvVar) (e : EnvVar) : EnvVar := default e (env_value (env_Name e) user).

Lemma overrideEnv_fold user operator vars seen :
  fold_left (overrideEnv (byName user)) operator (vars, seen) =
    (vars ++ (overriding user <$> operator),
     list_to_set (filter (λ n, is_Some (env_value n user)) (env_Name <$> operator)) ∪ seen).
Proof.
  revert vars seen. induction operator as [|e l IH]; intros vars seen; cbn [fold_left].
  { f_equal; [by rewrite app_nil_r|set_solver]. }
  unfold overrideEnv at 2. rewrite lookup_byName. destruct (env_value (env_Name e) user) as [o|] eqn:Ho; cbn [fst snd]; rewrite IH.
  - rewrite !fmap_cons, filter_cons_True by eauto. change (overriding user e) with (default e (env_value (env_Name e) user)). rewrite Ho. cbn. rewrite <-app_assoc. f_equal. set_solver.
  - rewrite !fmap_cons, filter_cons_False by (rewrite Ho; by intros [? ?]). change (overriding user e) with (default e (env_value (env_Name e) user)). rewrite Ho. cbn. by rewrite <-app_assoc.
Qed.

Lemma addUnseen_NoDup l vars seen :
  NoDup (env_Name <$> l) → (fold_left addUnseen l (vars, seen)).1 = vars ++ filter (λ e, env_Name e ∉ seen) l.
Proof.
  revert vars seen. induction l as [|e l IH]; intros vars seen Hnd; cbn [fold_left]; [by rewrite app_nil_r|].
  rewrite fmap_cons in Hnd. apply NoDup_cons in Hnd as [Hni Hnd]. unfold addUnseen at 2. cbn [fst snd]. case_decide as He.
  - rewrite IH, filter_cons_False by tauto. done.
  - rewrite IH, filter_cons_True, <-app_assoc by done. cbn. do 2 f_equal. apply list_filter_ext_in. intros e' He'.
    assert (env_Name e' ≠ env_Name e) by (intros Heq; apply Hni; rewrite <-Heq; by apply list_elem_of_fmap_2). set_solver.
Qed.

(** The merge, in closed form. *)
Lemma mergeEnvVars_closed operator user :
  NoDup (env_Name <$> user) →
  mergeEnvVars operator user =
    (overriding user <$> operator) ++ filter (λ e, env_Name e ∉ env_Name <$> operator) user.
Proof.
  intros Hnd. destruct user as [|u user0] eqn:Hu.
  { cbn. rewrite app_nil_r. induction operator as [|e l IH]; [done|]. rewrite fmap_cons, <-IH. done. }
  rewrite <-Hu in *. assert (mergeEnvVars operator user =
    (fold_left addUnseen user (fold_left (overrideEnv (byName user)) operator ([], ∅))).1) as -> by by rewrite Hu.
  rewrite overrideEnv_fold, addUnseen_NoDup by done. cbn [app]. f_equal. apply list_filter_ext_in. intros e He.
  assert (is_Some (env_value (env_Name e) user)) as Hs.
  { destruct (env_value (env_Name e) user) eqn:Hn; [eauto|]. apply env_value_None in Hn. exfalso. apply Hn.
    by apply list_elem_of_fmap_2. }
  rewrite (right_id_L ∅ (∪)), elem_of_list_to_set, list_elem_of_filter. naive_solver.
Qed.

Lemma overriding_name user e : env_Name (overriding user e) = env_Name e.
Proof.
  unfold overriding, env_value. destruct (last _) as [o|] eqn:Ho; [|done]. cbn.
  apply last_Some_elem_of in Ho. by apply list_elem_of_filter in Ho as [-> _].
Qed.

Lemma env_value_overriding user name l :
  env_value name (overriding user <$> l) = overriding user <$> env_value name l.
Proof.
  induction l as [|e l IH] using rev_ind; [done|].
  rewrite fmap_app. change (overriding user <$> [e]) with [overriding user e].
  rewrite !env_value_snoc, overriding_name, IH. by case_decide.
Qed.

Lemma env_value_filter_in name (P : EnvVar → Prop) `{∀ e, Decision (P e)} l :
  (∀ e, env_Name e = name → P e) → env_value name (filter P l) = env_value name l.
Proof. intros HP. unfold env_value. rewrite list_filter_filter. f_equal. apply list_filter_ext_in. naive_solver. Qed.
Lemma env_value_filter_out name (P : EnvVar → Prop) `{∀ e, Decision (P e)} l :
  (∀ e, env_Name e = name → ¬ P e) → env_value name (filter P l) = None.
Proof.
  intros HP. unfold env_value. rewrite last_None. apply elem_of_nil_inv.
  intros e [Hn [He _]%list_elem_of_filter]%list_elem_of_filter. by apply (HP e).
Qed.

Lemma env_value_merge operator user name :
  NoDup (env_Name <$> user) →
  env_value name (mergeEnvVars operator user) =
    match env_value name user with Some e => Some e | None => env_value name operator end.
Proof.
  intros Hnd. rewrite mergeEnvVars_closed, env_value_app by done.
  rewrite env_value_overriding. destruct (env_value name operator) as [e|] eqn:He.
  2:{ apply env_value_None in He. rewrite env_value_filter_in by by intros e ->. by destruct (env_value name user). }
  - rewrite env_value_filter_out.
    2:{ intros e' -> Hn. apply env_value_None in Hn. by rewrite Hn in He. }
    assert (env_Name e = name) as <-.
    { apply last_Some_elem_of in He. by apply list_elem_of_filter in He as [? _]. }
    cbn. unfold overriding. by destruct (env_value (env_Name e) user).
Qed.

Lemma addUnseen_tail l vars seen :
  ∃ tail, (fold_left addUnseen l (vars, seen)).1 = vars ++ tail ∧ ∀ e, e ∈ tail → e ∈ l ∧ env_Name e ∉ seen.
Proof.
  revert vars seen. induction l as [|e l IH]; intros vars seen; cbn [fold_left]; [exists []; by rewrite app_nil_r; set_solver|].
  unfold addUnseen at 2. cbn [fst snd]. case_decide as He.
  - destruct (IH vars seen) as (tail & -> & Ht). exists tail. set_solver.
  - destruct (IH (vars ++ [e]) ({[env_Name e]} ∪ seen)) as (tail & -> & Ht). exists (e :: tail).
    rewrite <-app_assoc. split; [done|]. set_solver.
Qed.

(** A variable of the operator, whatever the user's list: the user's of that name, if any. *)
Lemma env_value_merge_operator operator user name :
  name ∈ env_Name <$> operator →
  env_value name (mergeEnvVars operator user) =
    match env_value name user with Some e => Some e | None => env_value name operator end.
Proof.
  intros Hname. destruct user as [|u user0] eqn:Hu; [done|]. rewrite <-Hu in *.
  assert (mergeEnvVars operator user =
    (fold_left addUnseen user (fold_left (overrideEnv (byName user)) operator ([], ∅))).1) as -> by by rewrite Hu.
  rewrite overrideEnv_fold. destruct (addUnseen_tail user ([] ++ (overriding user <$> operator))
    (list_to_set (filter (λ n, is_Some (env_value n user)) (env_Name <$> operator)) ∪ ∅)) as (tail & -> & Ht).
  assert (env_value name tail = None) as Htail.
  { apply env_value_None. intros (e & -> & He)%list_elem_of_fmap. destruct (Ht e He) as [Hin Hn]. apply Hn.
    rewrite (right_id_L ∅ (∪)), elem_of_list_to_set, list_elem_of_filter. split; [|done].
    destruct (env_value (env_Name e) user) eqn:Hv; [eauto|]. apply env_value_None in Hv. exfalso. apply Hv.
    by apply list_elem_of_fmap_2. }
  cbn [app]. rewrite env_value_app, Htail, env_value_overriding.
  destruct (env_value name operator) as [e|] eqn:He; [|by apply env_value_None in He].
  assert (env_Name e = name) as <- by (apply last_Some_elem_of in He; by apply list_elem_of_filter in He as [? _]).
  cbn. unfold overriding. by destruct (env_value (env_Name e) user).
Qed.

(** The variables of the user win over those of the operator, in place and in order: the
    merge is the operator's list with every overridden variable replaced, then the user's
    other variables; so a container sees the user's variable of a name if there is one, and
    the operator's otherwise.  (The API server keeps the names of the user's list unique.) *)
Lemma mergeEnvVars_spec operator user :
  NoDup (env_Name <$> user) →
  mergeEnvVars operator user =
    (overriding user <$> operator) ++ filter (λ e, env_Name e ∉ env_Name <$> operator) user ∧
  ∀ name, env_value name (mergeEnvVars operator user) =
    match env_value name user with Some e => Some e | None => env_value name operator end.
Proof. intros Hnd. split; [by apply mergeEnvVars_closed|]. intros name. by apply env_value_merge. Qed.

(** ** The keys of guardrails *)

Lemma guardrailParams_key (g : LiteLLMGuardrail) ref :
  grs_APIKeySecretRef (Spec g) = Some ref →
  guardrailParams g !! "api_key" = Some (env_ref (GuardrailEnvVarName (grs_GuardrailName (Spec g)))).
Proof.
  intros Href. unfold guardrailParams. cbv zeta. rewrite !set_str_ne, set_some_ne, set_str_ne, Href by done.
  cbn. by rewrite lookup_insert_eq.
Qed.

Section Wiring.
Context (instance : LiteLLMInstance) (licenseSecretName : string) (guardrails : list LiteLLMGuardrail).

(** What the proxy sees: the user's variable, else the first one of the bound guardrails, else
    that of the instance. *)
Lemma env_value_proxyEnv name :
  NoDup (env_Name <$> is_ExtraEnvVars (Spec instance)) →
  env_value name (proxyEnv instance licenseSecretName guardrails) =
    match env_value name (is_ExtraEnvVars (Spec instance)) with
    | Some e => Some e
    | None =>
        match env_first name (boundGuardrails instance guardrails ≫= guardrailCandidates) with
        | Some e => Some e
        | None => env_value name (buildEnvVars instance licenseSecretName)
        end
    end.
Proof.
  intros Hnd. unfold proxyEnv. rewrite env_value_merge, env_value_app by done.
  destruct (guardrailEnvVars_first instance guardrails) as [Hg Hf]. by rewrite <-(env_first_value name (guardrailEnvVars instance guardrails)), Hf.
Qed.

Lemma env_first_unique name e l :
  e ∈ l → env_Name e = name → (∀ e', e' ∈ l → env_Name e' = name → e' = e) → env_first name l = Some e.
Proof.
  intros He Hn Hu. unfold env_first.
  assert (e ∈ filter (λ e', env_Name e' = name) l) as Hin by by apply list_elem_of_filter.
  destruct (filter _ l) as [|e' l'] eqn:Hl; [by apply not_elem_of_nil in Hin|]. cbn. f_equal.
  assert (e' ∈ filter (λ e', env_Name e' = name) l) as [Hn' Hin']%list_elem_of_filter by (rewrite Hl; by left).
  by apply Hu.
Qed.

(** A variable the container sees is one of its variables. *)
Lemma env_value_elem name e l : env_value name l = Some e → e ∈ l ∧ env_Name e = name.
Proof. intros He%last_Some_elem_of. by apply list_elem_of_filter in He as [? ?]. Qed.

Lemma env_value_candidate name :
  is_Some (env_first name (boundGuardrails instance guardrails ≫= guardrailCandidates)) →
  env_value name (proxyEnv instance licenseSecretName guardrails) =
    match env_value name (is_ExtraEnvVars (Spec instance)) with
    | Some e => Some e
    | None => env_first name (boundGuardrails instance guardrails ≫= guardrailCandidates)
    end.
Proof.
  intros Hs. destruct (guardrailEnvVars_first instance guardrails) as [Hg Hf].
  assert (env_value name (guardrailEnvVars instance guardrails) =
    env_first name (boundGuardrails instance guardrails ≫= guardrailCandidates)) as Hv by (by rewrite <-env_first_value, Hf).
  unfold proxyEnv. rewrite env_value_merge_operator, env_value_app, Hv.
  - by destruct Hs as [e ->].
  - rewrite fmap_app, elem_of_app. right. destruct Hs as [e He]. rewrite He in Hv.
    apply last_Some_elem_of, list_elem_of_filter in Hv as [<- Hin]. by apply list_elem_of_fmap_2.
Qed.

Lemma env_first_claimed name e l : e ∈ l → env_Name e = name → is_Some (env_first name l).
Proof.
  intros He Hn. unfold env_first. assert (e ∈ filter (λ e', env_Name e' = name) l) as Hin by by apply list_elem_of_filter.
  destruct (filter _ l); [by apply not_elem_of_nil in Hin|]. cbn. eauto.
Qed.

(** C10: where the key of a bound guardrail comes from.  The configuration refers to the variable
    of the guardrail, whatever its raw parameters say.  The container of the Deployment reads
    that variable from the instance's extra variable of the name if there is one, else from the
    first bound guardrail that claims the name.  So when the name is not taken, neither by an
    extra variable nor, with another source, by a variable of a bound guardrail, it is the key
    the guardrail names (see [guardrail_keys_collide] for what happens otherwise), and whenever
    it is that key, the digest on the pod template covers it, so that rotating it rolls the
    pods. *)
Theorem guardrail_key_injected `{JSONUnmarshal} labels (g : LiteLLMGuardrail) ref :
  let v := GuardrailEnvVarName (grs_GuardrailName (Spec g)) in
  let pod := pt_Spec (ds_Template (dep_Spec (BuildDeployment instance labels licenseSecretName guardrails))) in
  let extra := is_ExtraEnvVars (Spec instance) in
  let claims := boundGuardrails instance guardrails ≫= guardrailCandidates in
  g ∈ boundGuardrails instance guardrails →
  grs_APIKeySecretRef (Spec g) = Some ref →
  withParams g (guardrailParams g) !! "api_key" = Some (env_ref v) ∧
  ∃ c e, pod_Containers pod = [c] ∧ env_value v (ctr_Env c) = Some e ∧
    (env_value v extra = Some e ∨ env_value v extra = None ∧ env_first v claims = Some e) ∧
    (v ∉ env_Name <$> extra → (∀ e', e' ∈ claims → env_Name e' = v → e' = envFromSecret v ref) →
     e = envFromSecret v ref) ∧
    (e = envFromSecret v ref → skr_Name ref ≠ "" → covered (podSpecSecretRefs pod) (skr_Name ref) (Some (skr_Key ref))).
Proof.
  intros v pod extra claims Hg Href.
  assert (envFromSecret v ref ∈ claims) as Hc.
  { apply list_elem_of_bind. exists g. split; [|done]. unfold guardrailCandidates. rewrite Href. by left. }
  destruct (env_first_claimed v _ _ Hc eq_refl) as [e1 He1].
  pose proof (env_value_candidate v (mk_is_Some _ _ He1)) as Henv. fold extra claims in Henv. rewrite He1 in Henv.
  split; [rewrite withParams_added; by apply lookup_union_Some_l, (guardrailParams_key g ref Href)|].
  exists (proxyContainer instance licenseSecretName guardrails), (default e1 (env_value v extra)). split_and!.
  - done.
  - change (ctr_Env _) with (proxyEnv instance licenseSecretName guardrails). rewrite Henv. by destruct (env_value v extra).
  - destruct (env_value v extra); [by left|by right].
  - intros Hv Hu. rewrite (proj2 (env_value_None v _) Hv). cbn.
    rewrite (env_first_unique v _ claims Hc eq_refl Hu) in He1. by injection He1.
  - intros He Hne. apply podSpecRefs_consumes. split; [done|].
    apply (consumes_env _ _ _ _ pod _ (proxyContainer instance licenseSecretName guardrails) (envFromSecret v ref)
             (MkEnvVarSource (Some (MkKeySelector (skr_Name ref) (skr_Key ref))) None JNull)
             (MkKeySelector (skr_Name ref) (skr_Key ref))); [by left| |done|done|done].
    rewrite <-He. apply (env_value_elem v). change (ctr_Env _) with (proxyEnv instance licenseSecretName guardrails).
    rewrite Henv. by destruct (env_value v extra).
Qed.
End Wiring.

(** ** The variables the configuration refers to *)

(** The parameters of a cache that hold a secret. *)
Definition secretParams : list string := ["password"; "s3_aws_access_key_id"; "s3_aws_secret_access_key"; "qdrant_api_key"].

(** The instance gives Redis both a connection Secret and a host with a password. *)
Definition redisAmbiguous (instance : LiteLLMInstance) : Prop :=
  match is_Redis (Spec instance) with
  | Some redis => is_Some (rd_ConnectionSecretRef redis) ∧ rd_Host redis ≠ "" ∧ is_Some (rd_PasswordSecretRef redis)
  | None => False
  end.

Lemma cacheParams_backend (instance : LiteLLMInstance) caching k :
  k ∈ secretParams →
  cacheParams instance caching !! k =
    backendParams instance caching (if decide (cch_Type caching = "") then cacheTypeRedis else cch_Type caching)
      {[ "type" := VString (if decide (cch_Type caching = "") then cacheTypeRedis else cch_Type caching) ]} !! k.
Proof.
  intros Hk. unfold cacheParams. cbv zeta.
  assert (Forall (λ k', "ttl" ≠ k' ∧ "namespace" ≠ k' ∧ "supported_call_types" ≠ k' ∧ "mode" ≠ k') secretParams) as Hd
    by compute_done.
  eapply Forall_forall in Hd as (H1 & H2 & H3 & H4); [|exact Hk].
  by rewrite set_if_ne, set_strs_ne, set_str_ne, set_some_ne by done.
Qed.

Ltac lookup_set H :=
  repeat first
    [ rewrite set_str_ne in H by done | rewrite set_some_ne in H by done | rewrite set_if_ne in H by done
    | rewrite lookup_insert_ne in H by done | rewrite lookup_singleton_ne in H by done | rewrite lookup_insert_eq in H ].

(** The four secret parameters, one by one. *)
Ltac secret_cases Hk := (repeat (apply elem_of_cons in Hk as [->|Hk]); [..|by apply not_elem_of_nil in Hk]).

(** The parameters of Redis: the password of the cache, or else that of the instance. *)
Lemma buildRedisCacheParams_secret (instance : LiteLLMInstance) caching ty k v :
  k ∈ secretParams → buildRedisCacheParams instance caching {[ "type" := VString ty ]} !! k = Some v →
  (v = env_ref "CACHE_REDIS_PASSWORD" ∧ ∃ r ref, cch_Redis caching = Some r ∧ crs2_PasswordSecretRef r = Some ref) ∨
  (v = env_ref "REDIS_PASSWORD" ∧ cch_Redis caching = None ∧ ∃ redis ref, is_Redis (Spec instance) = Some redis ∧
     rd_Enabled redis = true ∧ rd_Host redis ≠ "" ∧ rd_PasswordSecretRef redis = Some ref).
Proof.
  intros Hk Hv. unfold buildRedisCacheParams in Hv. destruct (cch_Redis caching) as [r|] eqn:Hr.
  - left. destruct (crs2_PasswordSecretRef r) as [ref|] eqn:Hp;
      secret_cases Hk; cbn [set_some] in Hv; lookup_set Hv; try done.
    split; [congruence|eauto].
  - right. destruct (is_Redis (Spec instance)) as [redis|] eqn:Hre;
      [|secret_cases Hk; by lookup_set Hv].
    destruct (rd_Enabled redis) eqn:Hen; cbn [andb] in Hv;
      [|secret_cases Hk; by lookup_set Hv].
    case_bool_decide;
      [|secret_cases Hk; by lookup_set Hv].
    destruct (rd_PasswordSecretRef redis) as [ref|] eqn:Hp;
      secret_cases Hk; cbn [set_some] in Hv; lookup_set Hv; try done.
    split; [congruence|naive_solver].
Qed.

(** A secret parameter of the cache refers to a variable of the environment, unless Redis is
    configured both ways. *)
Lemma cacheParams_defined (instance : LiteLLMInstance) caching k v :
  is_Caching (Spec instance) = Some caching → cch_Enabled caching = true →
  k ∈ secretParams → cacheParams instance caching !! k = Some v →
  ∃ n, v = env_ref n ∧
    (n ∈ env_Name <$> redisEnv instance ++ cachingEnvVars instance ∨ (n = "REDIS_PASSWORD" ∧ redisAmbiguous instance)).
Proof.
  intros Hc He Hk Hv. rewrite cacheParams_backend in Hv by done.
  unfold cachingEnvVars. rewrite Hc. cbn [envs_of]. rewrite He. cbn [negb]. cbv zeta.
  set (ty := if decide (cch_Type caching = "") then cacheTypeRedis else cch_Type caching) in *. clearbody ty.
  unfold backendParams in Hv. case_decide as Hredis.
  { apply buildRedisCacheParams_secret in Hv as [(-> & r & ref & Hr & Hp)|(-> & Hr & redis & ref & Hre & Hen & Hh & Hp)]; [| |done].
    - exists "CACHE_REDIS_PASSWORD". split; [done|]. left. rewrite Hr. cbn. rewrite Hp, fmap_app. set_solver.
    - exists "REDIS_PASSWORD". split; [done|]. unfold redisEnv, redisAmbiguous. rewrite Hre. cbn [envs_of]. rewrite Hen. cbn [negb].
      destruct (rd_ConnectionSecretRef redis) as [cref|]; [right; rewrite Hp; by eauto|].
      left. rewrite decide_False, Hp by done. cbn. set_solver. }
  case_decide as Hs3.
  { destruct (cch_S3 caching) as [s3|]; cbn [on_some] in Hv; [|by secret_cases Hk; lookup_set Hv].
    unfold s3CacheParams in Hv. cbn [envs_of]. destruct (css2_CredentialsSecretRef s3) as [ref|];
      secret_cases Hk; cbn [set_some] in Hv; lookup_set Hv; try done; simplify_eq.
    - exists "CACHE_S3_ACCESS_KEY_ID". split; [done|]. left. rewrite fmap_app. set_solver.
    - exists "CACHE_S3_SECRET_ACCESS_KEY". split; [done|]. left. rewrite fmap_app. set_solver. }
  case_decide as Hgcs.
  { destruct (cch_GCS caching) as [gcs|]; cbn [on_some] in Hv; [|by secret_cases Hk; lookup_set Hv].
    unfold gcsCacheParams in Hv. cbn [envs_of]. destruct (cs3_CredentialsSecretRef gcs) as [ref|];
      secret_cases Hk; cbn [set_some] in Hv; lookup_set Hv; try done; simplify_eq.
    exists "CACHE_GCS_SERVICE_ACCOUNT_JSON". split; [done|]. left. rewrite fmap_app. set_solver. }
  case_decide as Hq.
  { destruct (cch_Qdrant caching) as [q|]; cbn [on_some] in Hv; [|by secret_cases Hk; lookup_set Hv].
    unfold qdrantCacheParams in Hv. cbn [envs_of]. destruct (cqs_APIKeySecretRef q) as [ref|];
      secret_cases Hk; cbn [set_some] in Hv; lookup_set Hv; try done; simplify_eq.
    exists "CACHE_QDRANT_API_KEY". split; [done|]. left. rewrite fmap_app. set_solver. }
  secret_cases Hk; unfold id in Hv; by lookup_set Hv.
Qed.

Lemma addUnseen_extends l acc e : e ∈ acc.1 → e ∈ (fold_left addUnseen l acc).1.
Proof.
  revert acc. induction l as [|x l IH]; intros acc He; [done|]. cbn. apply IH. unfold addUnseen.
  case_decide; [done|]. cbn. set_solver.
Qed.

(** The variable of a bound guardrail is there. *)
Lemma guardrailEnvVars_key instance guardrails (g : LiteLLMGuardrail) ref :
  g ∈ boundGuardrails instance guardrails → grs_APIKeySecretRef (Spec g) = Some ref →
  GuardrailEnvVarName (grs_GuardrailName (Spec g)) ∈ env_Name <$> guardrailEnvVars instance guardrails.
Proof.
  intros Hg Href. set (v := GuardrailEnvVarName _). destruct (guardrailEnvVars_first instance guardrails) as [Hnd Hf].
  destruct (env_value v (guardrailEnvVars instance guardrails)) as [e|] eqn:He.
  { apply env_value_elem in He as [? <-]. by apply list_elem_of_fmap_2. }
  rewrite <-env_first_value, Hf in He by done. unfold env_first in He. rewrite head_None in He.
  assert (envFromSecret v ref ∈ filter (λ e, env_Name e = v) (boundGuardrails instance guardrails ≫= guardrailCandidates)) as Hin.
  { apply list_elem_of_filter. split; [done|]. apply list_elem_of_bind. exists g. split; [|done].
    unfold guardrailCandidates. rewrite Href. by left. }
  rewrite He in Hin. by apply not_elem_of_nil in Hin.
Qed.

(** A name of the operator is still there after the merge, as are the candidates of guardrails. *)
Lemma mergeEnvVars_names operator user n : n ∈ env_Name <$> operator → n ∈ env_Name <$> mergeEnvVars operator user.
Proof.
  intros Hn. destruct user as [|u user0] eqn:Hu; [done|]. rewrite <-Hu.
  assert (mergeEnvVars operator user =
    (fold_left addUnseen user (fold_left (overrideEnv (byName user)) operator ([], ∅))).1) as -> by by rewrite Hu.
  rewrite overrideEnv_fold. apply list_elem_of_fmap in Hn as (e & -> & He).
  apply list_elem_of_fmap. exists (overriding user e). rewrite overriding_name. split; [done|].
  apply addUnseen_extends. cbn. by apply list_elem_of_fmap_2.
Qed.

(** A variable the rendered configuration refers to for a secret of the specification. *)
Inductive refers `{JSONUnmarshal} (instance : LiteLLMInstance) (guardrails : list LiteLLMGuardrail) (n : string) : Prop :=
| refers_guardrail (g : LiteLLMGuardrail) ref :
    g ∈ boundGuardrails instance guardrails → grs_APIKeySecretRef (Spec g) = Some ref →
    withParams g (guardrailParams g) !! "api_key" = Some (env_ref n) → refers instance guardrails n
| refers_header ep hs :
    ep ∈ is_PassThroughEndpoints (Spec instance) → hs ∈ pte_HeaderSecrets ep →
    headerSecretRef ep hs = hsr_Prefix hs +:+ "os.environ/" +:+ n → refers instance guardrails n
| refers_cache caching k :
    is_Caching (Spec instance) = Some caching → cch_Enabled caching = true →
    k ∈ secretParams → cacheParams instance caching !! k = Some (env_ref n) → refers instance guardrails n.

Lemma env_ref_inj n n' : env_ref n = env_ref n' → n = n'.
Proof.
  intros Heq. apply (f_equal (λ v, match v with VString s => s | _ => "" end)) in Heq. exact (append_inj_l _ _ _ Heq).
Qed.

(** C11: every variable the rendered configuration refers to for a secret (the key of a bound
    guardrail, a header of a pass-through endpoint, the password or credentials of the
    cache) is a variable of the proxy's container, with one exception: the Redis password
    of the instance, when Redis is given by a connection Secret as well as by a host. *)
Theorem references_defined `{JSONUnmarshal} instance licenseSecretName guardrails n :
  refers instance guardrails n →
  n ∈ env_Name <$> proxyEnv instance licenseSecretName guardrails ∨ (n = "REDIS_PASSWORD" ∧ redisAmbiguous instance).
Proof.
  intros Hn. unfold proxyEnv. destruct Hn as [g ref Hg Href Hn|ep hs Hep Hhs Hn|caching k Hc He Hk Hn].
  - left. apply mergeEnvVars_names. rewrite fmap_app. apply elem_of_app. right.
    rewrite withParams_added, (lookup_union_Some_l _ _ _ _ (guardrailParams_key g ref Href)) in Hn.
    apply (inj Some), env_ref_inj in Hn as <-. by apply (guardrailEnvVars_key instance guardrails g ref).
  - left. apply mergeEnvVars_names. unfold headerSecretRef in Hn. apply append_inj_l, append_inj_l in Hn as <-.
    assert (PassThroughEnvVarName (pte_Path ep) (hsr_HeaderName hs) ∈ env_Name <$> passThroughEnvVars instance) as Hin.
    { apply list_elem_of_fmap. eexists. split; [|apply list_elem_of_bind; exists ep; split; [apply list_elem_of_fmap_2, Hhs|done]]. done. }
    unfold buildEnvVars. rewrite !fmap_app. rewrite !elem_of_app. tauto.
  - destruct (cacheParams_defined instance caching k _ Hc He Hk Hn) as (n' & Heq%env_ref_inj & [Hin|Hamb]); subst n'; [|by right].
    left. apply mergeEnvVars_names. unfold buildEnvVars. rewrite !fmap_app, !elem_of_app in *. tauto.
Qed.

(** The password of a Redis configured both ways: referred to, and not defined by the instance. *)
Lemma redis_password_undefined `{JSONUnmarshal} (instance : LiteLLMInstance) guardrails caching redis ref :
  is_Caching (Spec instance) = Some caching → cch_Enabled caching = true → cch_Type caching = "" → cch_Redis caching = None →
  is_Redis (Spec instance) = Some redis → rd_Enabled redis = true → redisAmbiguous instance →
  rd_PasswordSecretRef redis = Some ref →
  refers instance guardrails "REDIS_PASSWORD" ∧ "REDIS_PASSWORD" ∉ env_Name <$> redisEnv instance ++ cachingEnvVars instance.
Proof.
  intros Hc He Ht Hcr Hr Hen Hamb Hp. unfold redisAmbiguous in Hamb. rewrite Hr in Hamb. destruct Hamb as ([cref Hcref] & Hh & _).
  split.
  - apply (refers_cache _ _ _ caching "password"); [done|done|compute_done|].
    rewrite cacheParams_backend by compute_done. rewrite Ht. unfold backendParams. rewrite decide_True by by left.
    unfold buildRedisCacheParams. rewrite Hcr, Hr, Hen, bool_decide_true by done. cbn [andb]. rewrite Hp. cbn [set_some].
    by rewrite lookup_insert_eq.
  - unfold redisEnv, cachingEnvVars. rewrite Hr, Hc. cbn [envs_of]. rewrite Hen, He, Hcref. cbn [negb]. cbv zeta. rewrite Ht.
    rewrite decide_True by by left. rewrite Hcr. cbn. rewrite list_elem_of_singleton. done.
Qed.

(** ** Volumes *)

(** The volumes the operator adds itself. *)
Definition ownVolumes (instance : LiteLLMInstance) : list string :=
  ["config"; "tmp"] ++ option_list (colorThemeRef instance) (λ _, volumeNameColorTheme) ++
  (if decide (customSSOConfigMapName instance = "") then [] else [volumeNameCustomSSO]) ++
  (vol_Name <$> tlsVolumes instance) ++ (vol_Name <$> dbTLSVolumes instance).

Lemma tls_volumes_mounts (instance : LiteLLMInstance) :
  vm_Name <$> tlsVolumeMounts instance = vol_Name <$> tlsVolumes instance ∧
  vm_Name <$> dbTLSVolumeMounts instance = vol_Name <$> dbTLSVolumes instance.
Proof.
  unfold tlsVolumeMounts, tlsVolumes, dbTLSVolumeMounts, dbTLSVolumes.
  by destruct (is_TLS (Spec instance)) as [[[?|] [?|] [?|]]|], (db_TLS (is_Database (Spec instance))) as [[[?|] [?|]]|].
Qed.

Lemma ownVolumes_NoDup (instance : LiteLLMInstance) : NoDup (ownVolumes instance).
Proof.
  unfold ownVolumes, tlsVolumes, dbTLSVolumes.
  destruct (colorThemeRef instance), (decide (customSSOConfigMapName instance = "")),
    (is_TLS (Spec instance)) as [[[?|] [?|] [?|]]|], (db_TLS (is_Database (Spec instance))) as [[[?|] [?|]]|]; compute_done.
Qed.

(** Every mount the operator adds has its volume and every volume its mount, each name
    once, before those of the user; and the configuration the proxy is pointed to is the
    file of the ConfigMap the instance renders: the variable names the mount directory of
    the volume and the key under which the text is stored. *)
Lemma volumes_mounted `{JSONUnmarshal} `{YAMLMarshal} (instance : LiteLLMInstance) labels license guardrails :
  NoDup (ownVolumes instance) ∧
  vm_Name <$> buildVolumeMounts instance = ownVolumes instance ++ (vm_Name <$> is_ExtraVolumeMounts (Spec instance)) ∧
  vol_Name <$> buildVolumes instance = ownVolumes instance ++ (vol_Name <$> is_ExtraVolumes (Spec instance)) ∧
  match BuildConfigMap instance labels guardrails with
  | Err _ => True
  | Ok cm =>
      ∃ v m dir file, v ∈ buildVolumes instance ∧ m ∈ buildVolumeMounts instance ∧ vol_Name v = vm_Name m ∧
        vol_ConfigMap v = Some (MkVolumeObject (Name (cm_meta cm)) [] JNull) ∧ vm_MountPath m = dir ∧
        is_Some (cm_Data cm !! file) ∧
        plainEnv "CONFIG_FILE_PATH" (dir +:+ "/" +:+ file) ∈ buildEnvVars instance license
  end.
Proof.
  destruct (tls_volumes_mounts instance) as [Ht Hd]. split; [apply ownVolumes_NoDup|]. split; [|split].
  - unfold buildVolumeMounts, ownVolumes. rewrite !fmap_app, Ht, Hd, <-!app_assoc. f_equal. f_equal; [by destruct (colorThemeRef _)|].
    f_equal. by case_decide.
  - unfold buildVolumes, ownVolumes. rewrite !fmap_app, <-!app_assoc. f_equal. f_equal; [by destruct (colorThemeRef _)|].
    f_equal. by case_decide.
  - unfold BuildConfigMap. destruct (yaml_Marshal _) as [y|]; [|done].
    exists (configMapVolume "config" (Name (Meta instance) +:+ "-config")), (readOnlyMount "config" configMountDir), configMountDir, configFileName.
    split; [by left|]. split; [by left|]. split; [done|]. split; [done|]. split; [done|]. split; [|by left].
    exists y. apply (lookup_singleton_eq (M := gmap string) configFileName y).
Qed.

(** ** The name of the migration Job *)

Definition no_bar (s : string) : Prop := Z.of_nat 124 ∉ bytes_of s.

Lemma no_bar_cons c s : no_bar (String.String c s) → no_bar s ∧ c ≠ Ascii.ascii_of_nat 124.
Proof.
  unfold no_bar. intros Hs. change (bytes_of (String.String c s)) with (byte_of_ascii c :: bytes_of s) in Hs.
  apply not_elem_of_cons in Hs as [Hc Hs]. split; [done|]. intros ->. by apply Hc.
Qed.

Lemma bar_split s1 s2 r1 r2 : no_bar s1 → no_bar s2 → s1 +:+ "|" +:+ r1 = s2 +:+ "|" +:+ r2 → s1 = s2 ∧ r1 = r2.
Proof.
  revert s2. induction s1 as [|c1 s1 IH]; intros [|c2 s2] H1 H2 Heq; simpl in Heq.
  - by simplify_eq.
  - apply no_bar_cons in H2 as [_ Hc]. simplify_eq; by destruct Hc.
  - apply no_bar_cons in H1 as [_ Hc]. simplify_eq; by destruct Hc.
  - apply no_bar_cons in H1 as [H1 _], H2 as [H2 _]. injection Heq as -> Heq. by destruct (IH s2 H1 H2 Heq) as [-> ->].
Qed.

Lemma no_bar_end s s' r : no_bar s → s ≠ s' +:+ "|" +:+ r.
Proof.
  revert s. induction s' as [|c s' IH]; intros [|c' s] Hs Heq; simpl in Heq; try done; apply no_bar_cons in Hs as [Hs Hc].
  - change (String.String c' s = String.String (Ascii.ascii_of_nat 124) r) in Heq. by injection Heq.
  - injection Heq as _ Heq. by apply (IH s).
Qed.

Section JobName.
Context `{JSONMarshal PodSchedulingSpec}.

(** The suffix that the placement adds to the seed. *)
Definition placementSuffix (seed : string) : string := if decide (seed = "") then "" else "|scheduling=" +:+ seed.

Lemma placementSuffix_inj s s' : placementSuffix s = placementSuffix s' → s = s'.
Proof.
  unfold placementSuffix. intros Heq.
  destruct (decide (s = "")), (decide (s' = "")); [congruence|discriminate|discriminate|by apply append_inj_l in Heq].
Qed.

(** An image and a placement can be read back from the end of the seed. *)
Lemma image_suffix_inj img img' r r' :
  no_bar img → no_bar img' → img +:+ placementSuffix r = img' +:+ placementSuffix r' → img = img' ∧ r = r'.
Proof.
  intros Hi Hi' Heq. enough (img = img') as ->.
  { apply append_inj_l, placementSuffix_inj in Heq. done. }
  unfold placementSuffix in Heq. destruct (decide (r = "")), (decide (r' = "")); rewrite ?append_nil_r in Heq.
  - done.
  - by apply (no_bar_end img img' ("scheduling=" +:+ r')) in Hi.
  - by apply (no_bar_end img' img ("scheduling=" +:+ r)) in Hi'.
  - by apply (bar_split img img' ("scheduling=" +:+ r) ("scheduling=" +:+ r')) in Heq as [-> _].
Qed.

Lemma jobHashSeed_unfold (instance : LiteLLMInstance) :
  jobHashSeed instance =
    (if useDatabaseImage instance then "db-image|" +:+ mi_Image (migrationImage instance)
     else "gateway|" +:+ mi_Image (migrationImage instance) +:+ "|" +:+ migrateDeployCommand) +:+
    placementSuffix (podSchedulingSeed (is_PodScheduling (Spec instance))).
Proof. unfold jobHashSeed, migrationImage. by destruct (useDatabaseImage instance). Qed.

(** The name of the migration Job is 17 bytes longer than that of the instance, and the
    bytes it is a digest of determine the kind of image, the image and the placement: a
    change of any of them asks for another Job, whose template the API server would not let
    the operator change. *)
Lemma jobName_identifies (instance instance' : LiteLLMInstance) :
  no_bar (mi_Image (migrationImage instance)) → no_bar (mi_Image (migrationImage instance')) →
  String.length (jobName instance) = (String.length (Name (Meta instance)) + 17)%nat ∧
  (jobHashSeed instance = jobHashSeed instance' ↔
     useDatabaseImage instance = useDatabaseImage instance' ∧
     mi_Image (migrationImage instance) = mi_Image (migrationImage instance') ∧
     podSchedulingSeed (is_PodScheduling (Spec instance)) = podSchedulingSeed (is_PodScheduling (Spec instance'))).
Proof.
  intros Hi Hi'. split.
  { unfold jobName. rewrite !length_append, hex_length, length_take. unfold sha256_Sum256. rewrite sum256_length. cbn. lia. }
  rewrite !jobHashSeed_unfold. split; [|by intros (-> & -> & ->)].
  destruct (useDatabaseImage instance), (useDatabaseImage instance'); rewrite ?append_assoc; intros Heq.
  - apply append_inj_l, image_suffix_inj in Heq as [-> ->]; done.
  - discriminate.
  - discriminate.
  - apply append_inj_l in Heq. rewrite ?append_assoc in Heq. apply bar_split in Heq as [-> Heq]; [|done|done].
    by apply append_inj_l, placementSuffix_inj in Heq as ->.
Qed.
End JobName.
