(* ===== verification/Manifests.v ===== *)
(** * The other objects of an instance (internal/resources)

    The Service, the ServiceAccount and the optional objects around the proxy.  A structure
    of Kubernetes is given by its metadata and the JSON of its other fields. *)

From S2P Require Import Prelude KubeTypes InstanceTypes Types Updates World Sha256 Common Reconcile.
From S2P Require Import ProxyConfig Workload.
Open Scope Z_scope.

(** Metadata with a name, labels and annotations. *)
Definition metaOf (instance : LiteLLMInstance) (name : string) (labels : gmap string string)
    (annotations : option (gmap string string)) : ObjectMeta :=
  MkObjectMeta name (Namespace (Meta instance)) "" 0 labels annotations [] [] None "".

(** The object of the name of the instance. *)
Definition objectOf (instance : LiteLLMInstance) (labels : gmap string string)
    (annotations : option (gmap string string)) (spec : list (string * JSONValue)) : KObject :=
  MkKObject (metaOf instance (Name (Meta instance)) labels annotations) (JObject [("spec", JObject spec)]).

Definition optionalMap (m : gmap string string) : option (gmap string string) := if decide (m = ∅) then None else Some m.

(** A field with [omitempty]. *)
Definition omitEmpty {A} (k : string) (o : option A) (f : A → JSONValue) : list (string * JSONValue) :=
  match o with Some a => [(k, f a)] | None => [] end.
Definition omitString (k s : string) : list (string * JSONValue) := if decide (s = "") then [] else [(k, JString s)].

Definition servicePort (instance : LiteLLMInstance) : Z :=
  let port := svc_Port (is_Service (Spec instance)) in if port =? 0 then 4000 else port.

(** ** Service and ServiceAccount *)

Definition BuildService (instance : LiteLLMInstance) (labels : gmap string string) : KService :=
  MkKService (metaOf instance (Name (Meta instance)) labels None)
    (MkKServiceSpec (or_default (svc_Type (is_Service (Spec instance))) "ClusterIP") labels
       [MkServicePort "http" "TCP" (servicePort instance) 4000 0 JNull] JNull).

Definition BuildServiceAccount (instance : LiteLLMInstance) (labels : gmap string string) : KObject :=
  let '(labels, annotations) :=
    match is_ServiceAccount (Spec instance) with
    | Some sa => (sa_Labels sa ∪ labels, optionalMap (sa_Annotations sa))
    | None => (labels, None)
    end in
  MkKObject (metaOf instance (Name (Meta instance)) labels annotations) (JObject []).

(** ** Scaling and disruption *)

Definition resourceMetric (name : string) (utilization : Z) : JSONValue :=
  JObject [("type", JString "Resource");
           ("resource", JObject [("name", JString name);
              ("target", JObject [("type", JString "Utilization"); ("averageUtilization", JInt utilization)])])].

Definition BuildHPA (instance : LiteLLMInstance) (labels : gmap string string) : option KObject :=
  match is_Autoscaling (Spec instance) with
  | Some a =>
      if as_Enabled a then
        let metrics :=
          match as_TargetCPUUtilization a with Some u => [resourceMetric "cpu" u] | None => [] end ++
          match as_TargetMemoryUtilization a with Some u => [resourceMetric "memory" u] | None => [] end in
        Some (objectOf instance labels None
          ([("scaleTargetRef", JObject [("kind", JString "Deployment"); ("name", JString (Name (Meta instance)));
                                        ("apiVersion", JString "apps/v1")]);
            ("minReplicas", JInt (if as_MinReplicas a =? 0 then 1 else as_MinReplicas a));
            ("maxReplicas", JInt (as_MaxReplicas a))] ++
           match metrics with [] => [] | _ => [("metrics", JArray metrics)] end))
      else None
  | None => None
  end.

Definition matchLabels (labels : gmap string string) : JSONValue := JObject [("matchLabels", JStrings labels)].

Definition BuildPDB (instance : LiteLLMInstance) (labels : gmap string string) : option KObject :=
  match is_PodDisruptionBudget (Spec instance) with
  | Some p =>
      if pdb_Enabled p then
        Some (objectOf instance labels None
          [match pdb_MinAvailable p, pdb_MaxUnavailable p with
           | Some n, _ => ("minAvailable", JInt n)
           | None, Some n => ("maxUnavailable", JInt n)
           | None, None => ("minAvailable", JInt 1)
           end;
           ("selector", matchLabels labels)])
      else None
  | None => None
  end.

(** ** Network *)

Definition BuildNetworkPolicy (instance : LiteLLMInstance) (labels : gmap string string) : option KObject :=
  match is_Security (Spec instance) with
  | Some s =>
      match secu_NetworkPolicy s with
      | Some np =>
          if np_Enabled np then
            let peer ns :=
              JObject [("namespaceSelector", matchLabels {[ "kubernetes.io/metadata.name" := ns ]})] in
            Some (objectOf instance labels None
              [("podSelector", matchLabels labels);
               ("ingress", JArray [JObject (("ports", JArray [JObject [("port", JInt 4000)]]) ::
                  match np_AllowedNamespaces np with [] => [] | l => [("from", JArray (peer <$> l))] end)]);
               ("policyTypes", JArray [JString "Ingress"])])
          else None
      | None => None
      end
  | None => None
  end.

Definition BuildIngress (instance : LiteLLMInstance) (labels : gmap string string) : option KObject :=
  match is_Ingress (Spec instance) with
  | Some i =>
      if ing_Enabled i then
        let backend := JObject [("service", JObject [("name", JString (Name (Meta instance)));
          ("port", JObject [("number", JInt (servicePort instance))])])] in
        let tls :=
          match ing_TLS i with
          | Some tls =>
              if is2_Enabled tls then
                [("tls", JArray [JObject (("hosts", JArray [JString (ing_Host i)]) :: omitString "secretName" (is2_SecretName tls))])]
              else []
          | None => []
          end in
        Some (objectOf instance labels (optionalMap (ing_Annotations i))
          (omitEmpty "ingressClassName" (ing_IngressClassName i) JString ++ tls ++
           [("rules", JArray [JObject (omitString "host" (ing_Host i) ++
              [("http", JObject [("paths", JArray [JObject [("path", JString "/"); ("pathType", JString "Prefix");
                                                            ("backend", backend)]])])])])]))
      else None
  | None => None
  end.

Definition BuildRoute (instance : LiteLLMInstance) (labels : gmap string string) : option KObject :=
  match is_Route (Spec instance) with
  | Some r =>
      if route_Enabled r then
        Some (objectOf instance labels None
          ([("to", JObject [("kind", JString "Service"); ("name", JString (Name (Meta instance))); ("weight", JInt 100)]);
            ("port", JObject [("targetPort", JInt (servicePort instance))]);
            ("tls", JObject [("termination", JString (or_default (route_TLSTermination r) "edge"))])] ++
           omitString "host" (route_Host r)))
      else None
  | None => None
  end.

Definition parentRef (ref : GatewayParentRef) : JSONValue :=
  JObject (omitString "namespace" (gpr_Namespace ref) ++ [("name", JString (gpr_Name ref))] ++
           omitString "sectionName" (gpr_SectionName ref)).

Definition BuildHTTPRoute (instance : LiteLLMInstance) (labels : gmap string string) : option KObject :=
  match is_GatewayHTTPRoute (Spec instance) with
  | Some g =>
      if ghr_Enabled g then
        Some (objectOf instance labels (optionalMap (ghr_Annotations g))
          (match ghr_ParentRefs g with [] => [] | l => [("parentRefs", JArray (parentRef <$> l))] end ++
           (if decide (ghr_Host g = "") then [] else [("hostnames", JArray [JString (ghr_Host g)])]) ++
           [("rules", JArray [JObject
              [("matches", JArray [JObject [("path", JObject [("type", JString "PathPrefix"); ("value", JString "/")])]]);
               ("backendRefs", JArray [JObject [("name", JString (Name (Meta instance)));
                                                ("port", JInt (servicePort instance))]])]])]))
      else None
  | None => None
  end.

(** ** Monitoring *)

(** The Secret and key that hold the bearer credentials. *)
Definition resolveMasterKeyCredentials (instance : LiteLLMInstance) (override : option SecretKeyRef) : string * string :=
  let complete (ref : SecretKeyRef) := bool_decide (skr_Name ref ≠ "" ∧ skr_Key ref ≠ "") in
  let master :=
    match mk_SecretRef (is_MasterKey (Spec instance)) with
    | Some ref => if complete ref then (skr_Name ref, skr_Key ref)
                  else (Name (Meta instance) +:+ "-master-key", "master-key")
    | None => (Name (Meta instance) +:+ "-master-key", "master-key")
    end in
  match override with
  | Some ref => if complete ref then (skr_Name ref, skr_Key ref) else master
  | None => master
  end.

Definition buildServiceMonitorAuthorization (instance : LiteLLMInstance) (auth : option ServiceMonitorAuthorization) :
    option JSONValue :=
  match auth with
  | None => None
  | Some auth =>
      let '(name, key) := resolveMasterKeyCredentials instance (sma_Credentials auth) in
      if decide (name = "" ∨ key = "") then None
      else Some (JObject [("type", JString (or_default (sma_Type auth) "Bearer"));
                          ("credentials", JObject [("name", JString name); ("key", JString key)])])
  end.

Definition BuildServiceMonitor (instance : LiteLLMInstance) (labels : gmap string string) : option KObject :=
  match is_Observability (Spec instance) with
  | Some o =>
      match obs_ServiceMonitor o with
      | Some sm =>
          if smon_Enabled sm then
            let endpoint :=
              JObject ([("port", JString "http"); ("interval", JString (or_default (smon_Interval sm) "30s"));
                        ("path", JString (or_default (smon_Path sm) "/metrics"))] ++
                       omitEmpty "authorization" (buildServiceMonitorAuthorization instance (smon_Authorization sm)) id) in
            Some (objectOf instance (smon_Labels sm ∪ labels) None
              [("selector", matchLabels labels);
               ("namespaceSelector", JObject [("matchNames", JArray [JString (Namespace (Meta instance))])]);
               ("endpoints", JArray [endpoint])])
          else None
      | None => None
      end
  | None => None
  end.

(** [k="v"] *)
Definition promLabel (k v : string) : string := k +:+ "=" +:+ dquote +:+ v +:+ dquote.

Record alertDef := MkAlertDef {
  al_name : string;
  al_expr : string;
  al_forDuration : string;
  al_severity : string;
  al_summary : string;
  al_description : string;
  al_runbook : string
}.

Definition runbookBase : string := "https://github.com/PalenaAI/litellm-operator/blob/main/docs/RUNBOOKS.md".

Definition alerts (ns name : string) : list alertDef :=
  let deployment := "{" +:+ promLabel "namespace" ns +:+ "," +:+ promLabel "deployment" name +:+ "}" in
  let container := "{" +:+ promLabel "namespace" ns +:+ "," +:+ promLabel "container" "litellm" +:+ "}" in
  let instance := promLabel "namespace" ns +:+ "," +:+ promLabel "instance" name in
  let id := ns +:+ "/" +:+ name in
  [ MkAlertDef "LiteLLMInstanceDown"
      ("kube_deployment_status_replicas_available" +:+ deployment +:+ " == 0") "5m" "critical"
      ("LiteLLM instance " +:+ id +:+ " has no available replicas")
      "All replicas are down. No requests can be served." (runbookBase +:+ "#litellminstancedown");
    MkAlertDef "LiteLLMInstanceDegraded"
      ("kube_deployment_status_replicas_available" +:+ deployment +:+
               " < kube_deployment_spec_replicas" +:+ deployment) "10m" "warning"
      ("LiteLLM instance " +:+ id +:+ " has fewer replicas than desired")
      "Some replicas are not available. Capacity may be reduced." (runbookBase +:+ "#litellminstancedegraded");
    MkAlertDef "LiteLLMPodRestarting"
      ("increase(kube_pod_container_status_restarts_total" +:+ container +:+ "[1h]) > 3") "15m" "warning"
      ("LiteLLM pod in " +:+ ns +:+ " is restarting frequently")
      "A LiteLLM pod has restarted more than 3 times in the last hour." (runbookBase +:+ "#litellmpodrestarting");
    MkAlertDef "LiteLLMPodNotReady"
      ("kube_pod_status_ready{" +:+ promLabel "namespace" ns +:+ "," +:+ promLabel "condition" "true" +:+
               "} * on(pod) kube_pod_labels{" +:+ promLabel "label_app_kubernetes_io_name" "litellm" +:+ "} == 0") "10m" "warning"
      ("LiteLLM pod in " +:+ ns +:+ " is not ready")
      "A LiteLLM pod has been not ready for more than 10 minutes." (runbookBase +:+ "#litellmpodnotready");
    MkAlertDef "LiteLLMHighMemoryUsage"
      ("container_memory_working_set_bytes" +:+ container +:+ " / container_spec_memory_limit_bytes" +:+
               container +:+ " > 0.9") "15m" "warning"
      ("LiteLLM instance " +:+ id +:+ " is using over 90% of memory limit")
      "Memory usage is critically high. The pod may be OOM killed." (runbookBase +:+ "#litellmhighmemoryusage");
    MkAlertDef "LiteLLMHighCPUUsage"
      ("rate(container_cpu_usage_seconds_total" +:+ container +:+ "[5m]) / container_spec_cpu_quota" +:+
               container +:+ " * 100000 > 0.9") "15m" "warning"
      ("LiteLLM instance " +:+ id +:+ " is using over 90% of CPU limit")
      "CPU usage is critically high. Requests may be throttled." (runbookBase +:+ "#litellmhighcpuusage");
    MkAlertDef "LiteLLMRedisDisconnected"
      ("litellm_redis_connection_status{" +:+ instance +:+ "} == 0") "5m" "warning"
      ("LiteLLM instance " +:+ id +:+ " lost Redis connectivity")
      "Redis is configured for caching / rate limiting but the proxy reports it as disconnected."
      (runbookBase +:+ "#litellmredisdisconnected");
    MkAlertDef "LiteLLMHighErrorRate"
      ("sum(rate(litellm_requests_total{" +:+ instance +:+ ",status=~" +:+ dquote +:+ "5.." +:+ dquote +:+
               "}[5m])) / sum(rate(litellm_requests_total{" +:+ instance +:+ "}[5m])) > 0.05") "10m" "critical"
      ("LiteLLM instance " +:+ id +:+ " error rate exceeds 5%")
      "More than 5% of requests are returning 5xx errors over the last 5 minutes."
      (runbookBase +:+ "#litellmhigherrorrate") ].

Definition alertRule (ns name : string) (a : alertDef) : JSONValue :=
  JObject [("alert", JString (al_name a)); ("expr", JString (al_expr a)); ("for", JString (al_forDuration a));
           ("labels", JObject [("severity", JString (al_severity a)); ("namespace", JString ns); ("instance", JString name)]);
           ("annotations", JObject [("summary", JString (al_summary a)); ("description", JString (al_description a));
                                    ("runbook_url", JString (al_runbook a))])].

Definition enabledAlerts (pr : PrometheusRuleSpec) (ns name : string) : list alertDef :=
  filter (λ a, al_name a ∉ prule_DisabledAlerts pr) (alerts ns name).

Definition BuildPrometheusRule (instance : LiteLLMInstance) (labels : gmap string string) : option KObject :=
  match is_Observability (Spec instance) with
  | Some o =>
      match obs_PrometheusRule o with
      | Some pr =>
          if prule_Enabled pr then
            let ns := Namespace (Meta instance) in
            let name := Name (Meta instance) in
            Some (MkKObject (metaOf instance (name +:+ "-alerts") (prule_Labels pr ∪ labels) None)
              (JObject [("spec", JObject [("groups", JArray [JObject
                 [("name", JString ("litellm-" +:+ name +:+ ".rules"));
                  ("rules", JArray (alertRule ns name <$> enabledAlerts pr ns name))]])])]))
          else None
      | None => None
      end
  | None => None
  end.

Definition BuildCNPGScheduledBackup (instance : LiteLLMInstance) (labels : gmap string string) : option KObject :=
  match db_CloudNativePG (is_Database (Spec instance)) with
  | Some cnpg =>
      match cnpg_Backup cnpg with
      | Some backup =>
          if cnpgb_Enabled backup then
            Some (MkKObject (metaOf instance (Name (Meta instance) +:+ "-backup") labels None)
              (JObject [("spec", JObject
                 [("schedule", JString (or_default (cnpgb_Schedule backup) "0 0 * * *"));
                  ("suspend", JBool (cnpgb_Suspend backup)); ("immediate", JBool true);
                  ("method", JString (or_default (cnpgb_Method backup) "snapshot"));
                  ("cluster", JObject [("name", JString (cnpg_ClusterName cnpg))]);
                  ("backupOwnerReference", JString "self")])]))
          else None
      | None => None
      end
  | None => None
  end.

(** ** The dashboard *)

(** A literal of the template, with single quotes for the double ones. *)
Fixpoint doubled (s : string) : string :=
  match s with
  | EmptyString => EmptyString
  | String.String c s => String.String (if byte_of_ascii c =? 39 then Ascii.ascii_of_nat 34 else c) (doubled s)
  end.

Definition grafanaDashboardJSON (namespace instanceName : string) : string :=
  let q := doubled in
  String.concat ""
    [q "{
  'annotations': {'list': []},
  'editable': true,
  'fiscalYearStartMonth': 0,
  'graphTooltip': 1,
  'links': [],
  'panels': [
    {
      'title': 'Ready Replicas',
      'type': 'stat',
      'gridPos': {'h': 4, 'w': 6, 'x': 0, 'y': 0},
      'targets': [{'expr': 'kube_deployment_status_replicas_available{namespace=\'"; namespace; q "\',deployment=\'"; instanceName;
     q "\'}', 'legendFormat': 'Ready'}],
      'fieldConfig': {'defaults': {'thresholds': {'steps': [{'color': 'red', 'value': 0}, {'color': 'green', 'value': 1}]}}}
    },
    {
      'title': 'Desired Replicas',
      'type': 'stat',
      'gridPos': {'h': 4, 'w': 6, 'x': 6, 'y': 0},
      'targets': [{'expr': 'kube_deployment_spec_replicas{namespace=\'"; namespace; q "\',deployment=\'"; instanceName;
     q "\'}', 'legendFormat': 'Desired'}]
    },
    {
      'title': 'Pod Restarts (1h)',
      'type': 'stat',
      'gridPos': {'h': 4, 'w': 6, 'x': 12, 'y': 0},
      'targets': [{'expr': 'sum(increase(kube_pod_container_status_restarts_total{namespace=\'"; namespace; q "\',container=\'litellm\'}[1h]))', 'legendFormat': 'Restarts'}],
      'fieldConfig': {'defaults': {'thresholds': {'steps': [{'color': 'green', 'value': 0}, {'color': 'orange', 'value': 1}, {'color': 'red', 'value': 5}]}}}
    },
    {
      'title': 'Container Uptime',
      'type': 'stat',
      'gridPos': {'h': 4, 'w': 6, 'x': 18, 'y': 0},
      'targets': [{'expr': 'min(time() - kube_pod_start_time{namespace=\'"; namespace; q "\'} * on(pod) kube_pod_labels{label_app_kubernetes_io_name=\'litellm\'})', 'legendFormat': 'Uptime'}],
      'fieldConfig': {'defaults': {'unit': 's'}}
    },
    {
      'title': 'CPU Usage',
      'type': 'timeseries',
      'gridPos': {'h': 8, 'w': 12, 'x': 0, 'y': 4},
      'targets': [
        {'expr': 'rate(container_cpu_usage_seconds_total{namespace=\'"; namespace; q "\',container=\'litellm\'}[5m])', 'legendFormat': '{{pod}} usage'},
        {'expr': 'container_spec_cpu_quota{namespace=\'"; namespace; q "\',container=\'litellm\'} / 100000', 'legendFormat': '{{pod}} limit'}
      ],
      'fieldConfig': {'defaults': {'unit': 'short'}}
    },
    {
      'title': 'Memory Usage',
      'type': 'timeseries',
      'gridPos': {'h': 8, 'w': 12, 'x': 12, 'y': 4},
      'targets': [
        {'expr': 'container_memory_working_set_bytes{namespace=\'"; namespace; q "\',container=\'litellm\'}', 'legendFormat': '{{pod}} usage'},
        {'expr': 'container_spec_memory_limit_bytes{namespace=\'"; namespace; q "\',container=\'litellm\'}', 'legendFormat': '{{pod}} limit'}
      ],
      'fieldConfig': {'defaults': {'unit': 'bytes'}}
    },
    {
      'title': 'Network I/O',
      'type': 'timeseries',
      'gridPos': {'h': 8, 'w': 12, 'x': 0, 'y': 12},
      'targets': [
        {'expr': 'rate(container_network_receive_bytes_total{namespace=\'"; namespace; q "\'}[5m]) * on(pod) kube_pod_labels{label_app_kubernetes_io_name=\'litellm\'}', 'legendFormat': '{{pod}} rx'},
        {'expr': 'rate(container_network_transmit_bytes_total{namespace=\'"; namespace; q "\'}[5m]) * on(pod) kube_pod_labels{label_app_kubernetes_io_name=\'litellm\'}', 'legendFormat': '{{pod}} tx'}
      ],
      'fieldConfig': {'defaults': {'unit': 'Bps'}}
    },
    {
      'title': 'Deployment Conditions',
      'type': 'table',
      'gridPos': {'h': 8, 'w': 12, 'x': 12, 'y': 12},
      'targets': [{'expr': 'kube_deployment_status_condition{namespace=\'"; namespace; q "\',deployment=\'"; instanceName;
     q "\'}', 'legendFormat': '', 'format': 'table', 'instant': true}],
      'transformations': [{'id': 'organize', 'options': {'excludeByName': {'Time': true, '__name__': true, 'job': true, 'instance': true}}}]
    }
  ],
  'schemaVersion': 39,
  'tags': ['litellm', 'ai-gateway', 'kubernetes'],
  'templating': {'list': []},
  'time': {'from': 'now-1h', 'to': 'now'},
  'timepicker': {},
  'timezone': 'browser',
  'title': 'LiteLLM - "; instanceName;
     q "',
  'uid': 'litellm-"; instanceName;
     q "',
  'version': 1
}"].

Definition BuildGrafanaDashboardConfigMap (instance : LiteLLMInstance) (labels : gmap string string) : option ConfigMap :=
  match is_Observability (Spec instance) with
  | Some o =>
      match obs_GrafanaDashboard o with
      | Some gd =>
          if gd_Enabled gd then
            let name := Name (Meta instance) in
            Some (MkConfigMap
              (metaOf instance (name +:+ "-grafana-dashboard")
                 (<["grafana_dashboard" := "1"]> (gd_Labels gd ∪ labels))
                 (Some {[ "grafana_folder" := or_default (gd_Folder gd) "LiteLLM" ]}))
              {[ "litellm-dashboard.json" := grafanaDashboardJSON (Namespace (Meta instance)) name ]} ∅)
          else None
      | None => None
      end
  | None => None
  end.

(** ** JSON texts

    A recognizer of JSON, byte by byte, with the open brackets as a stack.  It knows the
    numbers without exponent and the escapes other than [\u]; what it accepts is JSON. *)

Inductive jmode : Type :=
  | JVal (or_end : bool)      (* a value, or the end of an empty array *)
  | JKey (or_end : bool)      (* a key, or the end of an empty object *)
  | JColon                    (* after a key *)
  | JSep                      (* after a value *)
  | JStr (key : bool)         (* inside a string *)
  | JEsc (key : bool)         (* after a backslash *)
  | JLit (rest : list Z)      (* inside true, false or null *)
  | JMinus | JZero | JDigits | JPoint | JFraction.

Record jstate := MkJState { js_mode : jmode; js_open : list bool (* true for an object *) }.

Definition is_digit (b : Z) : bool := (48 <=? b) && (b <=? 57).
Definition is_space (b : Z) : bool := bool_decide (b ∈ [32; 10; 13; 9]).

(** The start of a value. *)
Definition jvalue (open : list bool) (b : Z) : option jstate :=
  if b =? 123 then Some (MkJState (JKey true) (true :: open))
  else if b =? 91 then Some (MkJState (JVal true) (false :: open))
  else if b =? 34 then Some (MkJState (JStr false) open)
  else if b =? 116 then Some (MkJState (JLit (bytes_of "rue")) open)
  else if b =? 102 then Some (MkJState (JLit (bytes_of "alse")) open)
  else if b =? 110 then Some (MkJState (JLit (bytes_of "ull")) open)
  else if b =? 45 then Some (MkJState JMinus open)
  else if b =? 48 then Some (MkJState JZero open)
  else if is_digit b then Some (MkJState JDigits open)
  else None.

(** What may follow a value. *)
Definition jsep (open : list bool) (b : Z) : option jstate :=
  if is_space b then Some (MkJState JSep open)
  else match open with
       | true :: o => if b =? 44 then Some (MkJState (JKey false) open) else if b =? 125 then Some (MkJState JSep o) else None
       | false :: o => if b =? 44 then Some (MkJState (JVal false) open) else if b =? 93 then Some (MkJState JSep o) else None
       | [] => None
       end.

Definition jstring_end (key : bool) : jmode := if key then JColon else JSep.

Definition jstep (s : jstate) (b : Z) : option jstate :=
  let open := js_open s in
  match js_mode s with
  | JVal or_end =>
      if is_space b then Some s
      else match or_end, open with
           | true, false :: o => if b =? 93 then Some (MkJState JSep o) else jvalue open b
           | _, _ => jvalue open b
           end
  | JKey or_end =>
      if is_space b then Some s
      else if b =? 34 then Some (MkJState (JStr true) open)
      else match or_end, open with
           | true, true :: o => if b =? 125 then Some (MkJState JSep o) else None
           | _, _ => None
           end
  | JColon => if is_space b then Some s else if b =? 58 then Some (MkJState (JVal false) open) else None
  | JSep => jsep open b
  | JStr key =>
      if b =? 34 then Some (MkJState (jstring_end key) open)
      else if b =? 92 then Some (MkJState (JEsc key) open)
      else if b <? 32 then None else Some s
  | JEsc key => if bool_decide (b ∈ [34; 92; 47; 98; 102; 110; 114; 116]) then Some (MkJState (JStr key) open) else None
  | JLit [] => jsep open b
  | JLit (c :: rest) => if b =? c then Some (MkJState (match rest with [] => JSep | _ => JLit rest end) open) else None
  | JMinus => if b =? 48 then Some (MkJState JZero open) else if is_digit b then Some (MkJState JDigits open) else None
  | JZero => if b =? 46 then Some (MkJState JPoint open) else jsep open b
  | JDigits => if is_digit b then Some s else if b =? 46 then Some (MkJState JPoint open) else jsep open b
  | JPoint => if is_digit b then Some (MkJState JFraction open) else None
  | JFraction => if is_digit b then Some s else jsep open b
  end.

Definition jrun (s : option jstate) (l : list Z) : option jstate := fold_left (λ s b, s ≫= λ s, jstep s b) l s.

(** The text of one JSON object. *)
Definition is_json (text : string) : Prop :=
  String.prefix "{" text = true ∧ jrun (Some (MkJState (JVal false) [])) (bytes_of text) = Some (MkJState JSep []).

Example json_accepted : is_json (doubled "{'a': [1, -2.50, true, {}], 'b\'': null}").
Proof. by split; vm_compute. Qed.
Example json_refused : ¬ is_json (doubled "{'a': [1,]}") ∧ ¬ is_json (doubled "{'a': 'b'") ∧ ¬ is_json (doubled "{'a' 01}").
Proof. split; [|split]; intros [_ H]; vm_compute in H; discriminate. Qed.

(** Bytes that may stand in a JSON string: what the names of Kubernetes are made of, and
    everything else but quotes, backslashes and control characters. *)
Definition json_plain (s : string) : Prop := Forall (λ b, 32 ≤ b ∧ b ≠ 34 ∧ b ≠ 92) (bytes_of s).

Lemma jrun_app s l l' : jrun s (l ++ l') = jrun (jrun s l) l'.
Proof. apply fold_left_app. Qed.

Lemma jrun_plain key open s : json_plain s →
  jrun (Some (MkJState (JStr key) open)) (bytes_of s) = Some (MkJState (JStr key) open).
Proof.
  unfold json_plain, jrun. induction 1 as [|b l (Hb & Hq & Hs) _ IH]; [done|]. cbn.
  apply Z.eqb_neq in Hq as ->. apply Z.eqb_neq in Hs as ->. destruct (Z.ltb_spec b 32); [lia|]. exact IH.
Qed.

Lemma jrun_concat l s : jrun s (bytes_of (String.concat "" l)) = fold_left (λ s t, jrun s (bytes_of t)) l s.
Proof.
  revert s. induction l as [|t [|t' l] IH]; intros s; [done|done|].
  change (String.concat "" (t :: t' :: l)) with (t +:+ String.concat "" (t' :: l)).
  by rewrite bytes_of_app, jrun_app, IH.
Qed.

(** The dashboard of an instance is a JSON text, whatever the namespace and the name of
    the instance, as long as they can stand in a JSON string (every name of Kubernetes
    can): no panel, query or threshold of the template is malformed. *)
Lemma grafanaDashboardJSON_valid namespace instanceName :
  json_plain namespace → json_plain instanceName → is_json (grafanaDashboardJSON namespace instanceName).
Proof.
  intros Hns Hn. split; [done|]. unfold grafanaDashboardJSON. rewrite jrun_concat. cbn [fold_left].
  repeat first
    [ rewrite jrun_plain by assumption
    | match goal with
      | |- context [jrun (Some ?s) (bytes_of (doubled ?t))] =>
          let r := eval vm_compute in (jrun (Some s) (bytes_of (doubled t))) in
          replace (jrun (Some s) (bytes_of (doubled t))) with r by (vm_compute; reflexivity)
      end ].
  reflexivity.
Qed.
