(* ===== verification/Wiring.v ===== *)
(** * How the objects of an instance fit together (internal/resources)

    Each builder is given the labels of the instance and refers to the others by name, port
    or selector.  This file follows the references from object to object, down to the ports
    the proxy listens on. *)

From S2P Require Import Prelude KubeTypes InstanceTypes Types Updates World Sha256 Common Reconcile.
From S2P Require Import ProxyConfig Workload Manifests.
Open Scope Z_scope.

(** ** References inside an object *)

Inductive jstep := Field (k : string) | Item (n : nat).

Definition jfield (k : string) (l : list (string * JSONValue)) : option JSONValue :=
  snd <$> head (filter (λ f : string * JSONValue, f.1 = k) l).

Fixpoint jat (path : list jstep) (v : JSONValue) : option JSONValue :=
  match path with
  | [] => Some v
  | Field k :: path => match v with JObject l => jfield k l ≫= jat path | _ => None end
  | Item n :: path => match v with JArray l => (l !! n) ≫= jat path | _ => None end
  end.

(** What the specification of an object says at a path. *)
Definition spec_at (o : KObject) (path : list jstep) : option JSONValue := jat (Field "spec" :: path) (ko_Rest o).

(** Holds of an object if it is built. *)
Definition built {A} (o : option A) (P : A → Prop) : Prop := match o with Some a => P a | None => True end.

(** A selector finds the objects that carry its labels. *)
Definition selects (selector labels : gmap string string) : Prop := selector ⊆ labels.

(** A port of a Service. *)
Definition serves (svc : KService) (name : string) (port : Z) : Prop :=
  name = Name (ksvc_meta svc) ∧ port ∈ sp_Port <$> kss_Ports (ksvc_Spec svc).

Section Wiring.
Context `{JSONMarshal PodSchedulingSpec}.
Variables (instance : LiteLLMInstance) (licenseSecretName : string) (guardrails : list LiteLLMGuardrail).

Let labels : gmap string string := labelsForInstance (Name (Meta instance)).
Let deployment : Deployment := BuildDeployment instance labels licenseSecretName guardrails.
Let service : KService := BuildService instance labels.
Let template : PodTemplate := ds_Template (dep_Spec deployment).
Let job : Job := BuildMigrationJob instance labels.

(** A port some container of the pods declares. *)
Definition listens (pod : PodTemplate) (port : Z) : Prop :=
  Exists (λ c, Exists (λ p, p.1.2 = port) (ctr_Ports c)) (pod_Containers (pt_Spec pod)).

(** An object that sends traffic to the Service: its backend has the name and the port of
    the Service. *)
Definition backed_at (o : KObject) (name_path port_path : list jstep) : Prop :=
  ∃ name port, spec_at o name_path = Some (JString name) ∧ spec_at o port_path = Some (JInt port) ∧ serves service name port.

(** An object that selects the pods by labels. *)
Definition selects_pods (o : KObject) (path : list jstep) : Prop :=
  ∃ selector, spec_at o path = Some (matchLabels selector) ∧ selects selector (pt_Labels template).

Lemma selects_labels a b : selects (labelsForInstance a) (labelsForInstance b) ↔ a = b.
Proof.
  unfold selects. split; [|by intros ->]. intros Hsub.
  assert (labelsForInstance b !! LabelInstanceName = Some a) as Hb.
  { eapply lookup_weaken; [|exact Hsub]. by unfold labelsForInstance; simplify_map_eq. }
  unfold labelsForInstance in Hb. simplify_map_eq. congruence.
Qed.

Lemma listens_4000 port : listens template port ↔ port = 4000.
Proof.
  unfold listens. cbn. split; [|intros ->; by repeat constructor].
  intros Hc. apply Exists_cons in Hc as [Hp|Hc]; [|by apply Exists_nil in Hc]. cbn in Hp.
  apply Exists_cons in Hp as [Hp|Hp]; [done|by apply Exists_nil in Hp].
Qed.

Lemma serves_itself : serves service (Name (Meta instance)) (servicePort instance).
Proof. split; [done|]. by left. Qed.

Lemma selects_own o path : spec_at o path = Some (matchLabels labels) → selects_pods o path.
Proof. intros Ho. exists labels. split; [done|]. by apply selects_labels. Qed.

Definition ingress_backend : list jstep :=
  [Field "rules"; Item 0; Field "http"; Field "paths"; Item 0; Field "backend"; Field "service"].
Definition httproute_backend : list jstep := [Field "rules"; Item 0; Field "backendRefs"; Item 0].

Lemma ingress_backed : built (BuildIngress instance labels) (λ o,
  backed_at o (ingress_backend ++ [Field "name"]) (ingress_backend ++ [Field "port"; Field "number"])).
Proof.
  unfold BuildIngress, built. destruct (is_Ingress (Spec instance)) as [i|]; [|done]. destruct (ing_Enabled i); [|done].
  exists (Name (Meta instance)), (servicePort instance). split; [|split; [|apply serves_itself]].
  all: destruct (ing_IngressClassName i), (ing_TLS i) as [tls|]; try destruct (is2_Enabled tls).
  all: unfold omitString; cbn [app omitEmpty]; destruct (decide (ing_Host i = "")); reflexivity.
Qed.

Lemma httproute_backed : built (BuildHTTPRoute instance labels) (λ o,
  backed_at o (httproute_backend ++ [Field "name"]) (httproute_backend ++ [Field "port"])).
Proof.
  unfold BuildHTTPRoute, built. destruct (is_GatewayHTTPRoute (Spec instance)) as [g|]; [|done]. destruct (ghr_Enabled g); [|done].
  exists (Name (Meta instance)), (servicePort instance). split; [|split; [|apply serves_itself]].
  all: destruct (ghr_ParentRefs g), (decide (ghr_Host g = "")); reflexivity.
Qed.

Lemma pdb_selects : built (BuildPDB instance labels) (λ o, selects_pods o [Field "selector"]).
Proof.
  unfold BuildPDB, built. destruct (is_PodDisruptionBudget (Spec instance)) as [p|]; [|done]. destruct (pdb_Enabled p); [|done].
  apply selects_own. by destruct (pdb_MinAvailable p), (pdb_MaxUnavailable p).
Qed.

Lemma network_policy_fits : built (BuildNetworkPolicy instance labels) (λ o,
  selects_pods o [Field "podSelector"] ∧
  ∃ port, spec_at o [Field "ingress"; Item 0; Field "ports"; Item 0; Field "port"] = Some (JInt port) ∧ listens template port).
Proof.
  unfold BuildNetworkPolicy, built. destruct (is_Security (Spec instance)) as [s|]; [|done].
  destruct (secu_NetworkPolicy s) as [np|]; [|done]. destruct (np_Enabled np); [|done].
  split; [by apply selects_own|]. exists 4000. split; [done|by apply listens_4000].
Qed.

Lemma hpa_scales : built (BuildHPA instance labels) (λ o,
  spec_at o [Field "scaleTargetRef"; Field "kind"] = Some (JString "Deployment") ∧
  spec_at o [Field "scaleTargetRef"; Field "name"] = Some (JString (Name (dep_meta deployment)))).
Proof.
  unfold BuildHPA, built. destruct (is_Autoscaling (Spec instance)) as [a|]; [|done]. by destruct (as_Enabled a).
Qed.

Lemma route_backed : built (BuildRoute instance labels) (λ o,
  spec_at o [Field "to"; Field "name"] = Some (JString (Name (ksvc_meta service))) ∧
  ∃ port, spec_at o [Field "port"; Field "targetPort"] = Some (JInt port) ∧ serves service (Name (ksvc_meta service)) port ∧
          (listens template port ↔ port = 4000)).
Proof.
  unfold BuildRoute, built. destruct (is_Route (Spec instance)) as [r|]; [|done]. destruct (route_Enabled r); [|done].
  split; [done|]. exists (servicePort instance). split; [done|]. split; [apply serves_itself|apply listens_4000].
Qed.

Lemma monitor_fits : built (BuildServiceMonitor instance labels) (λ o,
  (∃ selector, spec_at o [Field "selector"] = Some (matchLabels selector) ∧ selects selector (Labels (ksvc_meta service))) ∧
  spec_at o [Field "namespaceSelector"; Field "matchNames"; Item 0] = Some (JString (Namespace (ksvc_meta service))) ∧
  ∃ port, spec_at o [Field "endpoints"; Item 0; Field "port"] = Some (JString port) ∧
          port ∈ sp_Name <$> kss_Ports (ksvc_Spec service)).
Proof.
  unfold BuildServiceMonitor, built. destruct (is_Observability (Spec instance)) as [o|]; [|done].
  destruct (obs_ServiceMonitor o) as [sm|]; [|done]. destruct (smon_Enabled sm); [|done].
  split; [exists labels; split; [done|by apply selects_labels]|]. split; [done|]. exists "http". split; [done|]. by left.
Qed.

(** C22: the objects of an instance refer to each other as they are built, two defects apart.  The
    Deployment selects the pods of its template; the Service of an instance selects the pods of
    a Deployment exactly when the Deployment is that of the instance (the Services of other
    instances do not), forwards to a port those pods listen on, and they are probed there; the
    pods run under the service account built for them; the ingress and the HTTP route lead to the
    Service, at its port; the autoscaler scales the Deployment; the disruption budget and the
    network policy cover the pods; the monitor finds the Service.  The two defects: the Route
    leads to the Service, but its [targetPort], a port of the pods, is the port of the Service, so
    the proxy listens on it only when that is 4000; and the Service also selects the pods of the
    migration Job, which listen on no port. *)
Theorem objects_fit other :
  selects (ds_Selector (dep_Spec deployment)) (pt_Labels template) ∧
  (selects (kss_Selector (ksvc_Spec (BuildService other (labelsForInstance (Name (Meta other)))))) (pt_Labels template) ↔
   Name (Meta other) = Name (Meta instance)) ∧
  Forall (λ p, listens template (sp_TargetPort p)) (kss_Ports (ksvc_Spec service)) ∧
  Forall (λ c, Forall (λ p, listens template (prb_Port p))
                 (omap id [ctr_LivenessProbe c; ctr_ReadinessProbe c; ctr_StartupProbe c])) (pod_Containers (pt_Spec template)) ∧
  pod_ServiceAccountName (pt_Spec template) = Name (ko_meta (BuildServiceAccount instance labels)) ∧
  built (BuildIngress instance labels) (λ o,
    backed_at o (ingress_backend ++ [Field "name"]) (ingress_backend ++ [Field "port"; Field "number"])) ∧
  built (BuildHTTPRoute instance labels) (λ o,
    backed_at o (httproute_backend ++ [Field "name"]) (httproute_backend ++ [Field "port"])) ∧
  built (BuildHPA instance labels) (λ o,
    spec_at o [Field "scaleTargetRef"; Field "kind"] = Some (JString "Deployment") ∧
    spec_at o [Field "scaleTargetRef"; Field "name"] = Some (JString (Name (dep_meta deployment)))) ∧
  built (BuildPDB instance labels) (λ o, selects_pods o [Field "selector"]) ∧
  built (BuildNetworkPolicy instance labels) (λ o,
    selects_pods o [Field "podSelector"] ∧
    ∃ port, spec_at o [Field "ingress"; Item 0; Field "ports"; Item 0; Field "port"] = Some (JInt port) ∧ listens template port) ∧
  built (BuildServiceMonitor instance labels) (λ o,
    (∃ selector, spec_at o [Field "selector"] = Some (matchLabels selector) ∧ selects selector (Labels (ksvc_meta service))) ∧
    spec_at o [Field "namespaceSelector"; Field "matchNames"; Item 0] = Some (JString (Namespace (ksvc_meta service))) ∧
    ∃ port, spec_at o [Field "endpoints"; Item 0; Field "port"] = Some (JString port) ∧
            port ∈ sp_Name <$> kss_Ports (ksvc_Spec service)) ∧
  built (BuildRoute instance labels) (λ o,
    spec_at o [Field "to"; Field "name"] = Some (JString (Name (ksvc_meta service))) ∧
    ∃ port, spec_at o [Field "port"; Field "targetPort"] = Some (JInt port) ∧ serves service (Name (ksvc_meta service)) port ∧
            (listens template port ↔ port = 4000)) ∧
  (selects (kss_Selector (ksvc_Spec service)) (pt_Labels (job_Template job)) ∧
   ∀ port, ¬ listens (job_Template job) port).
Proof.
  split; [by apply selects_labels|]. split; [apply selects_labels|].
  split; [by apply Forall_singleton, listens_4000|]. split; [apply Forall_singleton; repeat constructor|].
  split; [by unfold BuildServiceAccount; destruct (is_ServiceAccount _)|].
  split_and!; [apply ingress_backed|apply httproute_backed|apply hpa_scales|apply pdb_selects|apply network_policy_fits
              |apply monitor_fits|apply route_backed|by apply selects_labels|].
  intros port Hl. by apply Exists_cons in Hl as [Hl|Hl%Exists_nil]; [apply Exists_nil in Hl|].
Qed.
End Wiring.
