(* ===== verification/PodHealth.v ===== *)
(** * Pod health (internal/controller/litellminstance_controller.go)

    What an instance reports of its unhealthy pods: [summarizePodHealth] decides
    whether a pod is faulty and why, [inspectPodHealth] keeps the first few. *)

From S2P Require Import Prelude KubeTypes InstanceTypes Types Updates World Sha256 Common.
From stdpp Require Import pretty.
Open Scope Z_scope.

(** ** [strings.TrimSpace] *)

(** The UTF-8 encodings of the white space characters of Go's [unicode.IsSpace]. *)
Definition whitespace : list (list Z) :=
  [[9]; [10]; [11]; [12]; [13]; [32]; [0xC2; 0x85]; [0xC2; 0xA0]; [0xE1; 0x9A; 0x80]] ++
  ((λ b, [0xE2; 0x80; b]) <$> [0x80; 0x81; 0x82; 0x83; 0x84; 0x85; 0x86; 0x87; 0x88; 0x89; 0x8A;
                               0xA8; 0xA9; 0xAF]) ++
  [[0xE2; 0x81; 0x9F]; [0xE3; 0x80; 0x80]].

Definition starts_with (l p : list Z) : bool := bool_decide (take (length p) l = p).

(** Drops the leading elements of [ws]; [fuel] is the length of [l]. *)
Fixpoint trim_left (ws : list (list Z)) (fuel : nat) (l : list Z) : list Z :=
  match fuel with
  | O => l
  | S fuel =>
      match List.find (starts_with l) ws with
      | Some p => trim_left ws fuel (drop (length p) l)
      | None => l
      end
  end.

Definition trim_bytes (l : list Z) : list Z :=
  let l := trim_left whitespace (length l) l in
  rev (trim_left (@rev Z <$> whitespace) (length l) (rev l)).

Definition strings_TrimSpace (s : string) : string := string_of (trim_bytes (bytes_of s)).

(** ** Status messages *)

Definition podHealthMaxReported : nat := 3.
Definition statusMessageMaxLen : nat := 512.

Definition truncateStatusMessage (msg : string) : string :=
  let msg := strings_TrimSpace msg in
  if (String.length msg <=? statusMessageMaxLen)%nat then msg
  else String.substring 0 (statusMessageMaxLen - 3) msg +:+ "...".

(** ** Faults *)

(** Startup states that are no faults. *)
Definition waitingFault (cs : ContainerStatus) : option ContainerStateWaiting :=
  match ctst_Waiting cs with
  | Some w =>
      if decide (csw_Reason w ≠ "" ∧ csw_Reason w ≠ "ContainerCreating" ∧ csw_Reason w ≠ "PodInitializing")
      then Some w else None
  | None => None
  end.

Definition terminatedFault (cs : ContainerStatus) : option ContainerStateTerminated :=
  match ctst_Terminated cs with
  | Some t => if term_ExitCode t =? 0 then None else Some t
  | None => None
  end.

Definition orElse (reason fallback : string) : string :=
  if decide (reason = "") then fallback else reason.

(** The loop over the containers: [inr] when it returns a fault, [inl] the summary so far. *)
Fixpoint summarizeContainers (out : UnhealthyPod) (l : list ContainerStatus) : UnhealthyPod + UnhealthyPod :=
  match l with
  | [] => inl out
  | cs :: l =>
      let out := MkUnhealthyPod (up_Name out) (up_Phase out) (up_Reason out) (up_Message out)
                   (ctst_RestartCount cs) in
      let fault reason msg :=
        inr (MkUnhealthyPod (up_Name out) (up_Phase out) reason (truncateStatusMessage msg) (up_RestartCount out)) in
      match waitingFault cs with
      | Some w =>
          match ctst_LastTerminated cs with
          | Some lt =>
              fault (csw_Reason w) ("last exit code " +:+ pretty (term_ExitCode lt) +:+ " (" +:+
                term_Reason lt +:+ ") " +:+ term_Message lt)
          | None => fault (csw_Reason w) (csw_Message w)
          end
      | None =>
          match terminatedFault cs with
          | Some t =>
              fault (orElse (term_Reason t) "ContainerTerminated")
                ("exit code " +:+ pretty (term_ExitCode t) +:+ " " +:+ term_Message t)
          | None => summarizeContainers out l
          end
      end
  end.

Definition unscheduled (c : PodCondition) : bool :=
  bool_decide (pc_Type c = "PodScheduled" ∧ pc_Status c = ConditionFalse).

Definition summarizePodHealth (pod : Pod) : UnhealthyPod * bool :=
  let out := MkUnhealthyPod (Name (pod_meta pod)) (pod_Phase pod) "" "" 0 in
  match summarizeContainers out (pod_ContainerStatuses pod) with
  | inr out => (out, true)
  | inl out =>
      let fault reason msg :=
        (MkUnhealthyPod (up_Name out) (up_Phase out) reason msg (up_RestartCount out), true) in
      if decide (pod_Phase pod = "Failed") then
        fault (orElse (pod_Reason pod) "PodFailed") (truncateStatusMessage (pod_Message pod))
      else if decide (pod_Phase pod = "Pending") then
        match List.find unscheduled (pod_Conditions pod) with
        | Some c => fault (pc_Reason c) (truncateStatusMessage (pc_Message c))
        | None => fault "Pending" (up_Message out)
        end
      else (out, false)
  end.

(** The loop over the pods, with its [break]. *)
Fixpoint collectUnhealthy (unhealthy : list UnhealthyPod) (pods : list Pod) : list UnhealthyPod :=
  match pods with
  | [] => unhealthy
  | pod :: pods =>
      let '(u, bad) := summarizePodHealth pod in
      if bad then
        let unhealthy := unhealthy ++ [u] in
        if (podHealthMaxReported <=? length unhealthy)%nat then unhealthy
        else collectUnhealthy unhealthy pods
      else collectUnhealthy unhealthy pods
  end.

Definition inspectPodHealth (instance : LiteLLMInstance) : kprog (list UnhealthyPod) :=
  pods ← kcallp (KListPods (Namespace (Meta instance)) (labelsForInstance (Name (Meta instance))));
  match pods with
  | Err _ => mret []
  | Ok pods => mret (collectUnhealthy [] pods)
  end.

Example trim_1 : strings_TrimSpace "  a b   " = "a b".
Proof. vm_compute. reflexivity. Qed.

Example crash_loop :
  let terminated := MkContainerStateTerminated 3 "Error" "Application startup failed" in
  summarizePodHealth (MkPod (MkObjectMeta "crash" "" "" 0 ∅ None [] [] None "") "Running" "" "" []
    [MkContainerStatus 7 (Some (MkContainerStateWaiting "CrashLoopBackOff" "back-off 5m0s")) None (Some terminated)]) =
  (MkUnhealthyPod "crash" "Running" "CrashLoopBackOff" "last exit code 3 (Error) Application startup failed" 7, true).
Proof. vm_compute. reflexivity. Qed.

(** ** What is reported *)

(** A pod with a fault: failed, pending, or with a container waiting for a reason other
    than its start or terminated with an error. *)
Definition faulty (pod : Pod) : Prop :=
  pod_Phase pod = "Failed" ∨ pod_Phase pod = "Pending" ∨
  ∃ cs, cs ∈ pod_ContainerStatuses pod ∧ (is_Some (waitingFault cs) ∨ is_Some (terminatedFault cs)).

(** A report that fits in the status and says why, unless the scheduler did not. *)
Definition report_ok (pod : Pod) (u : UnhealthyPod) : Prop :=
  up_Name u = Name (pod_meta pod) ∧
  (String.length (up_Message u) ≤ statusMessageMaxLen)%nat ∧
  (up_Reason u = "" → ∃ c, c ∈ pod_Conditions pod ∧ unscheduled c = true ∧ pc_Reason c = "").

Lemma length_substring n m s : (String.length (String.substring n m s) ≤ m)%nat.
Proof.
  revert n m. induction s as [|a s IH]; intros [|n] [|m]; simpl; try lia.
  - specialize (IH 0%nat m). lia.
  - exact (IH n 0%nat).
  - exact (IH n (S m)).
Qed.

Lemma truncateStatusMessage_length msg : (String.length (truncateStatusMessage msg) ≤ statusMessageMaxLen)%nat.
Proof.
  unfold truncateStatusMessage. destruct (Nat.leb_spec (String.length (strings_TrimSpace msg)) statusMessageMaxLen);
    [done|].
  rewrite length_append. pose proof (length_substring 0 (statusMessageMaxLen - 3) (strings_TrimSpace msg)).
  change (String.length "...") with 3%nat. unfold statusMessageMaxLen in *. lia.
Qed.

Lemma orElse_nonempty reason fallback : fallback ≠ "" → orElse reason fallback ≠ "".
Proof. unfold orElse. by case_decide. Qed.

Lemma waitingFault_reason cs w : waitingFault cs = Some w → csw_Reason w ≠ "".
Proof. unfold waitingFault. case_match; [|done]. case_decide; naive_solver. Qed.

Lemma summarizeContainers_spec out l :
  match summarizeContainers out l with
  | inl out' => up_Name out' = up_Name out ∧ up_Message out' = up_Message out ∧
      ∀ cs, cs ∈ l → waitingFault cs = None ∧ terminatedFault cs = None
  | inr u => up_Name u = up_Name out ∧ (String.length (up_Message u) ≤ statusMessageMaxLen)%nat ∧ up_Reason u ≠ "" ∧
      ∃ cs, cs ∈ l ∧ (is_Some (waitingFault cs) ∨ is_Some (terminatedFault cs))
  end.
Proof.
  revert out. induction l as [|cs l IH]; intros out; cbn [summarizeContainers].
  { split_and!; [done..|set_solver]. }
  destruct (waitingFault cs) as [w|] eqn:Hw.
  { pose proof (waitingFault_reason _ _ Hw).
    destruct (ctst_LastTerminated cs) as [lt|]; (split_and!; [done|apply truncateStatusMessage_length|done|]);
      exists cs; rewrite Hw; split; [set_solver|by left; eauto|set_solver|by left; eauto]. }
  destruct (terminatedFault cs) as [t|] eqn:Ht.
  { split_and!; [done|apply truncateStatusMessage_length|by apply orElse_nonempty|].
    exists cs. rewrite Ht. split; [set_solver|by right; eauto]. }
  match goal with |- context [summarizeContainers ?o l] => specialize (IH o) end. simpl in IH.
  destruct (summarizeContainers _ l) as [out'|u].
  - destruct IH as (-> & -> & Hl). split_and!; [done..|]. intros cs' [->|?]%elem_of_cons; eauto.
  - destruct IH as (-> & ? & ? & cs' & ? & ?). split_and!; [done..|]. exists cs'. split; [set_solver|done].
Qed.

Lemma summarizePodHealth_spec pod :
  ((summarizePodHealth pod).2 = true ↔ faulty pod) ∧
  ((summarizePodHealth pod).2 = true → report_ok pod (summarizePodHealth pod).1).
Proof.
  unfold summarizePodHealth, faulty, report_ok. cbv zeta.
  pose proof (summarizeContainers_spec (MkUnhealthyPod (Name (pod_meta pod)) (pod_Phase pod) "" "" 0)
                (pod_ContainerStatuses pod)) as Hc.
  destruct (summarizeContainers _ _) as [out|u]; simpl in Hc.
  - destruct Hc as (Hn & Hm & Hl).
    assert (¬ ∃ cs, cs ∈ pod_ContainerStatuses pod ∧ (is_Some (waitingFault cs) ∨ is_Some (terminatedFault cs))) as Hno.
    { intros (cs & Hin & Hor). destruct (Hl cs Hin) as [Hw Ht]. rewrite Hw, Ht in Hor.
      destruct Hor as [[? [=]]|[? [=]]]. }
    destruct (decide (pod_Phase pod = "Failed")) as [Hf|Hf]; simpl.
    { split; [naive_solver|]. intros _. split_and!; [done|apply truncateStatusMessage_length|].
      intros Hr. by destruct (orElse_nonempty (pod_Reason pod) "PodFailed"). }
    destruct (decide (pod_Phase pod = "Pending")) as [Hp|Hp]; simpl; [|naive_solver].
    destruct (List.find unscheduled (pod_Conditions pod)) as [c|] eqn:Hfind; simpl.
    + split; [naive_solver|]. intros _. split_and!; [done|apply truncateStatusMessage_length|].
      intros Hr. apply List.find_some in Hfind as [Hin%list_elem_of_In ?]. by exists c.
    + split; [naive_solver|]. intros _. split_and!; [done| |done]. rewrite Hm. simpl. lia.
  - destruct Hc as (? & ? & ? & ?). split; [naive_solver|]. intros _. by split_and!.
Qed.

#[export] Instance faulty_dec pod : Decision (faulty pod).
Proof.
  refine (cast_if (decide ((summarizePodHealth pod).2 = true))); abstract (by rewrite <- (proj1 (summarizePodHealth_spec pod))).
Defined.

(** The faulty pods, with their reports. *)
Definition reports (pods : list Pod) : list (Pod * UnhealthyPod) :=
  (λ pod, (pod, (summarizePodHealth pod).1)) <$> filter faulty pods.

#[local] Opaque podHealthMaxReported.

Lemma collectUnhealthy_spec unhealthy pods :
  (length unhealthy < podHealthMaxReported)%nat →
  collectUnhealthy unhealthy pods = take podHealthMaxReported (unhealthy ++ (reports pods).*2).
Proof.
  unfold reports. revert unhealthy. induction pods as [|pod pods IH]; intros unhealthy Hlt; cbn [collectUnhealthy].
  { simpl. rewrite app_nil_r. by rewrite take_ge by lia. }
  pose proof (proj1 (summarizePodHealth_spec pod)) as Hf. destruct (summarizePodHealth pod) as [u bad] eqn:Hs.
  rewrite filter_cons. destruct bad; simpl in Hf.
  - rewrite decide_True by naive_solver. simpl. rewrite Hs. simpl.
    destruct (Nat.leb_spec podHealthMaxReported (length (unhealthy ++ [u]))) as [Hge|Hlt'].
    + rewrite length_app in Hge. simpl in Hge.
      assert (podHealthMaxReported = length (unhealthy ++ [u])) as -> by (rewrite length_app; simpl; lia).
      symmetry. etrans; [|by apply (take_app_length (unhealthy ++ [u]))]. by rewrite <- app_assoc.
    + rewrite IH by lia. by rewrite <- app_assoc.
  - rewrite decide_False by naive_solver. by rewrite IH.
Qed.

#[local] Transparent podHealthMaxReported.

(** C39: an unready instance reports the first three of its faulty pods, in the order the
    API server lists them, and no healthy one; each report names its pod, has a message
    of at most 512 bytes and has a reason, unless the scheduler gave none; when the pods
    cannot be listed, nothing is reported. *)
Theorem inspectPodHealth_spec instance t l :
  runs (inspectPodHealth instance) t l →
  ∃ r, t = [KEv (KListPods (Namespace (Meta instance)) (labelsForInstance (Name (Meta instance)))) r] ∧
    match r with
    | Err _ => l = []
    | Ok pods => ∃ ps,
        ps = take podHealthMaxReported (filter faulty pods) ∧ Forall2 report_ok ps l
    end.
Proof.
  unfold inspectPodHealth. intros (r & t' & -> & Hr). exists r. destruct r as [pods|e]; destruct Hr as [-> ->]; [|done].
  split; [done|]. eexists. split; [reflexivity|].
  rewrite collectUnhealthy_spec by (unfold podHealthMaxReported; simpl; lia). unfold reports. simpl.
  rewrite <- list_fmap_compose. simpl.
  apply Forall2_take. apply Forall2_fmap_r, Forall_Forall2_diag, Forall_forall. intros pod Hin.
  apply list_elem_of_filter in Hin as [Hf _]. simpl. apply (proj2 (summarizePodHealth_spec pod)).
  by apply (proj1 (summarizePodHealth_spec pod)).
Qed.
