(* ===== verification/Main.v ===== *)
(** * The entry point (cmd/main.go)

    [parse_flags] is the [flag] package on the flags of the operator, [main] sets the manager
    up call by call and ends with the exit status.  Slices of TLS options live in a heap of
    arrays ([append] writes in place when there is room), because three of them start as one
    slice.  Logging is left out; the calls are to controller-runtime and to the environment. *)

From S2P Require Import Prelude Password PodHealth.
From Stdlib Require Import Ascii.
Open Scope Z_scope.

(** ** Flags *)

Record Flags := MkFlags {
  metricsAddr : string;
  metricsCertPath : string; metricsCertName : string; metricsCertKey : string;
  webhookCertPath : string; webhookCertName : string; webhookCertKey : string;
  enableLeaderElection : bool;
  probeAddr : string;
  secureMetrics : bool;
  enableHTTP2 : bool;
  watchNamespaces : string
}.

Definition defaultFlags : Flags :=
  MkFlags "0" "" "tls.crt" "tls.key" "" "tls.crt" "tls.key" false ":8081" true false "".

Definition flag_setter (A : Type) : Type := A → Flags → Flags.

(** [flag.StringVar] *)
Definition stringFlag (name : string) : option (flag_setter string) :=
  match name with
  | "metrics-bind-address" => Some (λ v f, MkFlags v (metricsCertPath f) (metricsCertName f) (metricsCertKey f)
      (webhookCertPath f) (webhookCertName f) (webhookCertKey f) (enableLeaderElection f) (probeAddr f) (secureMetrics f)
      (enableHTTP2 f) (watchNamespaces f))
  | "health-probe-bind-address" => Some (λ v f, MkFlags (metricsAddr f) (metricsCertPath f) (metricsCertName f)
      (metricsCertKey f) (webhookCertPath f) (webhookCertName f) (webhookCertKey f) (enableLeaderElection f) v
      (secureMetrics f) (enableHTTP2 f) (watchNamespaces f))
  | "webhook-cert-path" => Some (λ v f, MkFlags (metricsAddr f) (metricsCertPath f) (metricsCertName f)
      (metricsCertKey f) v (webhookCertName f) (webhookCertKey f) (enableLeaderElection f) (probeAddr f)
      (secureMetrics f) (enableHTTP2 f) (watchNamespaces f))
  | "webhook-cert-name" => Some (λ v f, MkFlags (metricsAddr f) (metricsCertPath f) (metricsCertName f)
      (metricsCertKey f) (webhookCertPath f) v (webhookCertKey f) (enableLeaderElection f) (probeAddr f)
      (secureMetrics f) (enableHTTP2 f) (watchNamespaces f))
  | "webhook-cert-key" => Some (λ v f, MkFlags (metricsAddr f) (metricsCertPath f) (metricsCertName f)
      (metricsCertKey f) (webhookCertPath f) (webhookCertName f) v (enableLeaderElection f) (probeAddr f)
      (secureMetrics f) (enableHTTP2 f) (watchNamespaces f))
  | "metrics-cert-path" => Some (λ v f, MkFlags (metricsAddr f) v (metricsCertName f) (metricsCertKey f)
      (webhookCertPath f) (webhookCertName f) (webhookCertKey f) (enableLeaderElection f) (probeAddr f)
      (secureMetrics f) (enableHTTP2 f) (watchNamespaces f))
  | "metrics-cert-name" => Some (λ v f, MkFlags (metricsAddr f) (metricsCertPath f) v (metricsCertKey f)
      (webhookCertPath f) (webhookCertName f) (webhookCertKey f) (enableLeaderElection f) (probeAddr f)
      (secureMetrics f) (enableHTTP2 f) (watchNamespaces f))
  | "metrics-cert-key" => Some (λ v f, MkFlags (metricsAddr f) (metricsCertPath f) (metricsCertName f) v
      (webhookCertPath f) (webhookCertName f) (webhookCertKey f) (enableLeaderElection f) (probeAddr f)
      (secureMetrics f) (enableHTTP2 f) (watchNamespaces f))
  | "watch-namespaces" => Some (λ v f, MkFlags (metricsAddr f) (metricsCertPath f) (metricsCertName f)
      (metricsCertKey f) (webhookCertPath f) (webhookCertName f) (webhookCertKey f) (enableLeaderElection f) (probeAddr f)
      (secureMetrics f) (enableHTTP2 f) v)
  | _ => None
  end.

(** [flag.BoolVar] *)
Definition boolFlag (name : string) : option (flag_setter bool) :=
  match name with
  | "leader-elect" => Some (λ v f, MkFlags (metricsAddr f) (metricsCertPath f) (metricsCertName f)
      (metricsCertKey f) (webhookCertPath f) (webhookCertName f) (webhookCertKey f) v (probeAddr f)
      (secureMetrics f) (enableHTTP2 f) (watchNamespaces f))
  | "metrics-secure" => Some (λ v f, MkFlags (metricsAddr f) (metricsCertPath f) (metricsCertName f)
      (metricsCertKey f) (webhookCertPath f) (webhookCertName f) (webhookCertKey f) (enableLeaderElection f) (probeAddr f)
      v (enableHTTP2 f) (watchNamespaces f))
  | "enable-http2" => Some (λ v f, MkFlags (metricsAddr f) (metricsCertPath f) (metricsCertName f)
      (metricsCertKey f) (webhookCertPath f) (webhookCertName f) (webhookCertKey f) (enableLeaderElection f) (probeAddr f)
      (secureMetrics f) v (watchNamespaces f))
  | _ => None
  end.

(** The flags of other packages: those of [zap.Options.BindFlags] and the [kubeconfig] of
    controller-runtime. [other_flag name] says whether there is one and whether it is a
    boolean, [other_set name value] whether it takes the value. *)
Class OtherFlags := {
  other_flag : string → option bool;
  other_set : string → string → bool
}.

(** [strconv.ParseBool] *)
Definition strconv_ParseBool (s : string) : option bool :=
  if decide (s ∈ ["1"; "t"; "T"; "TRUE"; "true"; "True"]) then Some true
  else if decide (s ∈ ["0"; "f"; "F"; "FALSE"; "false"; "False"]) then Some false
  else None.

(** The outcome of [flag.Parse] under [flag.ExitOnError]: the flags, or the exit status. *)
Section Parse.
Context `{OtherFlags}.

Definition isBoolFlag (name : string) : option bool :=
  match boolFlag name, stringFlag name with
  | Some _, _ => Some true
  | None, Some _ => Some false
  | None, None => other_flag name
  end.

Definition flag_Set (name value : string) (f : Flags) : res Flags Z :=
  match boolFlag name, stringFlag name with
  | Some set, _ => match strconv_ParseBool value with Some b => Ok (set b f) | None => Err 2 end
  | None, Some set => Ok (set value f)
  | None, None => if other_set name value then Ok f else Err 2
  end.

(** [name=value], split at the first equals sign after the first character. *)
Fixpoint cut_value (s : string) : string * option string :=
  match s with
  | EmptyString => ("", None)
  | String.String c s' =>
      if decide (c = "="%char) then ("", Some s')
      else let '(name, value) := cut_value s' in (String.String c name, value)
  end.

(** The name after one or two dashes; [None] ends the flags. *)
Definition dashed (arg : string) : option string :=
  match arg with
  | String.String "-" (String.String "-" s) => if decide (s = "") then None else Some s
  | String.String "-" EmptyString => None
  | String.String "-" s => Some s
  | _ => None
  end.

Definition bad_syntax (s : string) : bool :=
  match s with
  | EmptyString | String.String "-" _ | String.String "=" _ => true
  | _ => false
  end.

Fixpoint parse_flags (args : list string) (f : Flags) : res Flags Z :=
  match args with
  | [] => Ok f
  | arg :: args =>
      match dashed arg with
      | None => Ok f
      | Some s =>
          if bad_syntax s then Err 2
          else
            let '(name, value) := cut_value s in
            match isBoolFlag name, value with
            | None, _ => if decide (name = "help" ∨ name = "h") then Err 0 else Err 2
            | Some _, Some v => match flag_Set name v f with Ok f => parse_flags args f | Err e => Err e end
            | Some true, None => match flag_Set name "true" f with Ok f => parse_flags args f | Err e => Err e end
            | Some false, None =>
                match args with
                | [] => Err 2
                | v :: args => match flag_Set name v f with Ok f => parse_flags args f | Err e => Err e end
                end
            end
      end
  end.
End Parse.

(** ** Strings *)

(** [strings.Split(s, sep)] for a separator of one byte. *)
Definition strings_Split (s : string) (sep : ascii) : list string :=
  String.string_of_list_ascii <$> split_on sep (String.list_ascii_of_string s).

Definition comma : ascii := ",".

(** [filepath.Clean] (of a Unix system) on the elements of a path, [stack] being those kept so
    far, the last one first. *)
Fixpoint clean_elements (rooted : bool) (stack elements : list string) : list string :=
  match elements with
  | [] => rev stack
  | e :: elements =>
      if decide (e = "" ∨ e = ".") then clean_elements rooted stack elements
      else if decide (e = "..") then
        match stack with
        | top :: stack' =>
            if decide (top = "..") then clean_elements rooted (e :: stack) elements
            else clean_elements rooted stack' elements
        | [] => clean_elements rooted (if rooted then [] else [e]) elements
        end
      else clean_elements rooted (e :: stack) elements
  end.

Definition filepath_Clean (path : string) : string :=
  let rooted := match path with String.String "/" _ => true | _ => false end in
  let out := String.concat "/" (clean_elements rooted [] (strings_Split path "/")) in
  if rooted then "/" +:+ out else if decide (out = "") then "." else out.

(** [filepath.Join(dir, file)] *)
Definition filepath_Join (dir file : string) : string :=
  if decide (dir = "") then if decide (file = "") then "" else filepath_Clean file
  else filepath_Clean (dir +:+ "/" +:+ file).

(** [cacheOptions.DefaultNamespaces]: every namespace when [None]. *)
Definition watchedNamespaces (s : string) : option (gset string) :=
  if decide (s = "") then None
  else
    let defaultNamespaces : gset string :=
      list_to_set (filter (λ ns, ns ≠ "") (strings_TrimSpace <$> strings_Split s comma)) in
    if decide (defaultNamespaces = ∅) then None else Some defaultNamespaces.

(** ** Slices *)

Record slice := MkSlice { sl_array : nat; sl_len : nat; sl_cap : nat }.
Definition nil_slice : slice := MkSlice 0 0 0.

(** The capacity the runtime gives to an array when [append] has no room. *)
Class GoRuntime := growslice : nat → nat → nat.

Section Slices.
Context {A : Type} `{GoRuntime}.

Definition heap : Type := list (list (option A)).

Definition elements_of (h : heap) (s : slice) : list A :=
  omap id (take (sl_len s) (default [] (h !! sl_array s))).

Definition go_append (h : heap) (s : slice) (x : A) : heap * slice :=
  let array := default [] (h !! sl_array s) in
  if (sl_len s <? sl_cap s)%nat
  then (<[sl_array s := <[sl_len s := Some x]> array]> h, MkSlice (sl_array s) (S (sl_len s)) (sl_cap s))
  else
    let cap := growslice (sl_cap s) (S (sl_len s)) in
    (h ++ [take (sl_len s) array ++ [Some x] ++ replicate (cap - S (sl_len s))%nat None],
     MkSlice (length h) (S (sl_len s)) cap).
End Slices.
Arguments heap : clear implicits.

(** ** The calls *)

(** A [certwatcher.CertWatcher], known by its files. *)
Record Watcher := MkWatcher { w_certPath : string; w_keyPath : string }.

Inductive TLSOpt := DisableHTTP2 | ServeCertificate (w : Watcher).

(** What the options change of a [tls.Config]. *)
Record TLSConfig := MkTLSConfig { NextProtos : list string; GetCertificate : option Watcher }.

Definition apply_TLSOpt (c : TLSConfig) (o : TLSOpt) : TLSConfig :=
  match o with
  | DisableHTTP2 => MkTLSConfig ["http/1.1"] (GetCertificate c)
  | ServeCertificate w => MkTLSConfig (NextProtos c) (Some w)
  end.

(** The configuration a server makes of its base one. *)
Definition configured (base : TLSConfig) (opts : list TLSOpt) : TLSConfig := fold_left apply_TLSOpt opts base.

(** [ctrl.Options], with the webhook server and the metrics options in it; the slices of
    options as the servers find them. *)
Record ManagerOptions := MkManagerOptions {
  mo_DefaultNamespaces : option (gset string);
  mo_MetricsBindAddress : string;
  mo_SecureServing : bool;
  mo_FilterProvider : bool (* WithAuthenticationAndAuthorization *);
  mo_MetricsTLSOpts : list TLSOpt;
  mo_WebhookTLSOpts : list TLSOpt;
  mo_HealthProbeBindAddress : string;
  mo_LeaderElection : bool;
  mo_LeaderElectionID : string
}.

Record Reconciler := MkReconciler { rec_Name : string; rec_Recorder : string; rec_LiteLLMClientFactory : bool }.

#[export] Instance Watcher_eq_dec : EqDecision Watcher.
Proof. solve_decision. Defined.
#[export] Instance TLSOpt_eq_dec : EqDecision TLSOpt.
Proof. solve_decision. Defined.
#[export] Instance ManagerOptions_eq_dec : EqDecision ManagerOptions.
Proof. solve_decision. Defined.
#[export] Instance Reconciler_eq_dec : EqDecision Reconciler.
Proof. solve_decision. Defined.

Inductive os_call :=
| AddToScheme (group : string)
| CertwatcherNew (w : Watcher)
| Getenv (name : string)
| GetConfig
| NewManager (o : ManagerOptions)
| SetupWithManager (r : Reconciler)
| AddWatcher (w : Watcher)
| AddHealthzCheck (name : string)
| AddReadyzCheck (name : string)
| StartManager.

(** An error by its text. *)
Definition os_ans (c : os_call) : Type := match c with Getenv _ => string | _ => option string end.
Definition OS : Sig := MkSig os_call os_ans.

(** ** [main] *)

Definition reconcilers : list Reconciler :=
  [MkReconciler "LiteLLMInstance" "litellminstance-controller" true;
   MkReconciler "LiteLLMModel" "litellmmodel-controller" true;
   MkReconciler "LiteLLMTeam" "litellmteam-controller" true;
   MkReconciler "LiteLLMUser" "litellmuser-controller" true;
   MkReconciler "LiteLLMVirtualKey" "litellmvirtualkey-controller" true;
   MkReconciler "LiteLLMOrganization" "litellmorganization-controller" true;
   MkReconciler "LiteLLMCustomer" "litellmcustomer-controller" true;
   MkReconciler "LiteLLMCredential" "litellmcredential-controller" true;
   MkReconciler "LiteLLMGuardrail" "litellmguardrail-controller" false;
   MkReconciler "LiteLLMBudget" "litellmbudget-controller" true;
   MkReconciler "ConfigSync" "configsync-controller" true].

Section Main.
Context `{OtherFlags} `{GoRuntime}.

(** A handler over the heap, which ends with an exit status. *)
Abbreviation go A := (M OS (heap TLSOpt) Z A).

(** [os.Exit(1)] after an error; [utilruntime.Must] panics instead, with status 2. *)
Definition must_ok (c : OS.(op)) (code : Z) : go unit :=
  match c as c return go unit with
  | Getenv _ => mret tt
  | c => check (lift (@call OS c : prog OS (option string))) (λ _, code)
  end.

Definition append (s : slice) (o : TLSOpt) : go slice := λ h, let '(h, s) := go_append h s o in Ret (h, inr s).

(** [init] *)
Definition init_scheme : go unit :=
  must_ok (AddToScheme "client-go") 2 ;;
  must_ok (AddToScheme "litellm.palena.ai/v1alpha1") 2 ;;
  must_ok (AddToScheme "gateway.networking.k8s.io/v1") 2.

(** [certwatcher.New], when a directory is given, and the option that uses the watcher. *)
Definition certWatcher (path name key : string) (opts : slice) : go (option Watcher * slice) :=
  if decide (path = "") then mret (None, opts)
  else
    let w := MkWatcher (filepath_Join path name) (filepath_Join path key) in
    must_ok (CertwatcherNew w) 1 ;;
    opts ← append opts (ServeCertificate w);
    mret (Some w, opts).

Definition add_watcher (w : option Watcher) : go unit :=
  match w with Some w => must_ok (AddWatcher w) 1 | None => mret tt end.

(** The TLS options of the webhook server and of the metrics server. *)
Definition server_options (f : Flags) : go ((option Watcher * slice) * (option Watcher * slice)) :=
  tlsOpts ← (if enableHTTP2 f then mret nil_slice else append nil_slice DisableHTTP2);
  webhook ← certWatcher (webhookCertPath f) (webhookCertName f) (webhookCertKey f) tlsOpts;
  metrics ← certWatcher (metricsCertPath f) (metricsCertName f) (metricsCertKey f) tlsOpts;
  mret (webhook, metrics).

(** The flag takes precedence over the variable. *)
Definition resolve_namespaces (f : Flags) : go string :=
  if decide (watchNamespaces f = "") then lift (@call OS (Getenv "WATCH_NAMESPACE")) else mret (watchNamespaces f).

Definition manager_options (f : Flags) (namespaces : string) (webhookTLSOpts metricsTLSOpts : list TLSOpt) : ManagerOptions :=
  MkManagerOptions (watchedNamespaces namespaces) (metricsAddr f) (secureMetrics f) (secureMetrics f) metricsTLSOpts
    webhookTLSOpts (probeAddr f) (enableLeaderElection f) "d0253d00.palena.ai".

(** [main] after [flag.Parse] *)
Definition run_manager (f : Flags) : go Z :=
  '((webhookCertWatcher, webhookTLSOpts), (metricsCertWatcher, metricsTLSOpts)) ← server_options f;
  namespaces ← resolve_namespaces f;
  must_ok GetConfig 1 ;;
  h ← get;
  must_ok (NewManager (manager_options f namespaces (elements_of h webhookTLSOpts) (elements_of h metricsTLSOpts))) 1 ;;
  for_each reconcilers (λ r, must_ok (SetupWithManager r) 1) ;;
  add_watcher metricsCertWatcher ;;
  add_watcher webhookCertWatcher ;;
  must_ok (AddHealthzCheck "healthz") 1 ;;
  must_ok (AddReadyzCheck "readyz") 1 ;;
  must_ok StartManager 1 ;;
  mret 0.

(** The process: its exit status. *)
Definition main (args : list string) : prog OS Z :=
  r ← run_M (init_scheme ;; match parse_flags args defaultFlags with Ok f => run_manager f | Err code => exit code end) [];
  mret r.2.
End Main.

#[global] Arguments must_ok : simpl never.

(** ** Splitting and joining *)

Lemma split_on_nonempty sep l : split_on sep l ≠ [].
Proof. destruct l as [|c l]; [done|]. cbn. destruct (Ascii.eqb c sep); [done|]. by destruct (split_on sep l). Qed.

Lemma concat_cons sep a l : l ≠ [] → String.concat sep (a :: l) = a +:+ sep +:+ String.concat sep l.
Proof. by destruct l. Qed.

(** The elements are those of the text, and hold no separator. *)
Lemma strings_Split_spec s sep :
  String.concat (String.String sep "") (strings_Split s sep) = s ∧
  Forall (λ e, sep ∉ chars e) (strings_Split s sep).
Proof.
  unfold strings_Split, chars. rewrite <-(String.string_of_list_ascii_of_string s) at 2.
  generalize (String.list_ascii_of_string s). clear s. intros l. induction l as [|c l [IHc IHf]].
  { split; [done|]. constructor; [by apply not_elem_of_nil|done]. }
  cbn. destruct (Ascii.eqb_spec c sep) as [->|Hne].
  - rewrite fmap_cons, concat_cons by (intros ?%fmap_nil_inv; by eapply split_on_nonempty). rewrite IHc.
    split; [done|]. constructor; [by apply not_elem_of_nil|done].
  - destruct (split_on sep l) as [|w ws] eqn:Hw; [by apply split_on_nonempty in Hw|].
    rewrite fmap_cons in *. apply Forall_cons in IHf as [Hf IHf]. split.
    + destruct ws; cbn in *; by rewrite <-IHc.
    + constructor; [|done]. cbn. apply not_elem_of_cons. split; [congruence|exact Hf].
Qed.

Lemma watchedNamespaces_spec s :
  match watchedNamespaces s with
  | None => Forall (λ e, strings_TrimSpace e = "") (strings_Split s comma)
  | Some watched =>
      watched ≠ ∅ ∧ ∀ ns, ns ∈ watched ↔ ns ≠ "" ∧ ∃ e, e ∈ strings_Split s comma ∧ ns = strings_TrimSpace e
  end.
Proof.
  unfold watchedNamespaces. destruct (decide (s = "")) as [->|_]; [by vm_compute; repeat constructor|]. cbv zeta.
  set (m := list_to_set _ : gset string).
  assert (∀ ns, ns ∈ m ↔ ns ≠ "" ∧ ∃ e, e ∈ strings_Split s comma ∧ ns = strings_TrimSpace e) as Hm.
  { intros ns. unfold m. rewrite elem_of_list_to_set, list_elem_of_filter, list_elem_of_fmap. set_solver. }
  case_decide as Hempty; [|done]. apply Forall_forall. intros e He.
  destruct (decide (strings_TrimSpace e = "")) as [|Hne]; [done|].
  assert (strings_TrimSpace e ∈ m) as Hin by (apply Hm; eauto). rewrite Hempty in Hin. by apply elem_of_empty in Hin.
Qed.

(** ** What starts, and how *)

Definition failed (e : event OS) : bool :=
  match e with
  | Ev c x =>
      match c return os_ans c → bool with
      | Getenv _ => λ _, false
      | _ => λ x, bool_decide (is_Some x)
      end x
  end.

Definition watcher_of (path name key : string) : option Watcher :=
  if decide (path = "") then None else Some (MkWatcher (filepath_Join path name) (filepath_Join path key)).
Definition webhookWatcher (f : Flags) : option Watcher := watcher_of (webhookCertPath f) (webhookCertName f) (webhookCertKey f).
Definition metricsWatcher (f : Flags) : option Watcher := watcher_of (metricsCertPath f) (metricsCertName f) (metricsCertKey f).

(** The options each server should have: those of its own watcher. *)
Definition own_options (f : Flags) (w : option Watcher) : list TLSOpt :=
  (if enableHTTP2 f then [] else [DisableHTTP2]) ++ match w with Some w => [ServeCertificate w] | None => [] end.

(** The watcher whose certificate the webhook server serves.  Both lists of options extend the
    one slice that disables HTTP/2: where the runtime left room in its array, the option of the
    metrics server, appended last, overwrites that of the webhook server. *)
Definition webhookServed `{GoRuntime} (f : Flags) : option Watcher :=
  match webhookWatcher f, metricsWatcher f with
  | Some w, Some m => if enableHTTP2 f then Some w else if (growslice 0 1 <=? 1)%nat then Some w else Some m
  | w, _ => w
  end.

(** The calls behind [name w], when there is a watcher. *)
Definition watcher_calls (call : Watcher → os_call) (w : option Watcher) : list os_call :=
  match w with Some w => [call w] | None => [] end.

Definition done (h : hist OS) (c : os_call) : Prop := ∃ x, Ev (S := OS) c x ∈ h.

(** All that has to precede the start of the manager. *)
Definition before_start (f : Flags) (o : ManagerOptions) : list os_call :=
  NewManager o :: (SetupWithManager <$> reconcilers) ++ [AddHealthzCheck "healthz"; AddReadyzCheck "readyz"] ++
  watcher_calls CertwatcherNew (webhookWatcher f) ++ watcher_calls CertwatcherNew (metricsWatcher f) ++
  watcher_calls AddWatcher (webhookWatcher f) ++ watcher_calls AddWatcher (metricsWatcher f).

Section Facts.
Context `{OtherFlags} `{GoRuntime}.

(** What holds of a call after the history [h]: nothing has failed, the manager is made with
    the options of the flags, and started when everything is in place. *)
Definition orderly (f : Flags) (h : hist OS) (c : os_call) : Prop :=
  Forall (λ e, failed e = false) h ∧
  (∀ o, c = NewManager o → ∃ namespaces,
     o = manager_options f namespaces (own_options f (webhookServed f)) (own_options f (metricsWatcher f)) ∧
     (namespaces = watchNamespaces f ∧ watchNamespaces f ≠ "" ∨
      watchNamespaces f = "" ∧ Ev (S := OS) (Getenv "WATCH_NAMESPACE") namespaces ∈ h)) ∧
  (c = StartManager → ∃ o, Forall (done h) (before_start f o)).

(** Nothing has failed, and the manager has not been started. *)
Definition not_start (e : event OS) : Prop := ev_op (S := OS) e ≠ StartManager.
Abbreviation calm h := (Forall (λ e : event OS, failed e = false ∧ not_start e) h).

(** At the end of a part of [main]: it went on after calls that succeeded, or ended with a
    status that is not zero. *)
Definition went_on {A} (h : hist OS) (calls : list os_call) (Q : A → Prop) (h' : hist OS) (r : Z + A) : Prop :=
  match r with
  | inl code => code ≠ 0 ∧ Forall not_start h'
  | inr a => calm h' ∧ h ⊆ h' ∧ Forall (done h') calls ∧ Q a
  end.

Definition plain_call (c : os_call) : bool :=
  match c with Getenv _ | NewManager _ | StartManager => false | _ => true end.

Lemma wpM_calm_call f c code s h (Q : hist OS → heap TLSOpt → Z + unit → Prop) :
  match c with Getenv _ | StartManager => False | _ => True end → code ≠ 0 → calm h → orderly f h c →
  (∀ r h', went_on h [c] (λ _, True) h' r → Q h' s r) →
  wpM (orderly f) any_answer (must_ok c code) s h Q.
Proof.
  intros Hc Hcode Hh HG HQ. destruct c; try done.
  all: apply wpM_check, wpM_lift; split; [exact HG|].
  all: intros [msg|] _; apply HQ; cbn.
  all: try (split; [done|]; apply Forall_app; split; [by eapply Forall_impl; [exact Hh|intros ? []]|by constructor]).
  all: split; [by apply Forall_app; split; [|constructor]|]; split; [set_solver|]; split; [|done].
  all: constructor; [|by constructor]; eexists; apply elem_of_app; right; by apply list_elem_of_singleton.
Qed.

Lemma orderly_plain f h c : plain_call c = true → calm h → orderly f h c.
Proof.
  intros Hc Hh. split; [by eapply Forall_impl; [exact Hh|intros ? []]|]. split; intros; by subst c.
Qed.

Lemma wpM_plain f c code s h (Q : hist OS → heap TLSOpt → Z + unit → Prop) :
  plain_call c = true → code ≠ 0 → calm h →
  (∀ r h', went_on h [c] (λ _, True) h' r → Q h' s r) →
  wpM (orderly f) any_answer (must_ok c code) s h Q.
Proof. intros Hc Hcode Hh. apply wpM_calm_call; [by destruct c|done..|by apply orderly_plain]. Qed.

Lemma done_mono h h' c : h ⊆ h' → done h c → done h' c.
Proof. intros Hsub [x Hx]. exists x. by apply Hsub. Qed.

Lemma Forall_done_mono h h' l : h ⊆ h' → Forall (done h) l → Forall (done h') l.
Proof. intros Hsub Hl. eapply Forall_impl; [exact Hl|]. intros c. by apply done_mono. Qed.

Lemma init_scheme_wp f s :
  wpM (orderly f) any_answer init_scheme s [] (λ h' s' r, s' = s ∧ went_on [] [] (λ _, True) h' r).
Proof.
  unfold init_scheme. repeat wp_step.
  apply wpM_plain; [done..|]. intros [code|[]] h1; [done|]. intros (? & Hs1 & _). repeat wp_step.
  apply wpM_plain; [done..|]. intros [code|[]] h2; [done|]. intros (? & Hs2 & _). repeat wp_step.
  apply wpM_plain; [done..|]. intros [code|[]] h3; [done|]. intros (? & Hs3 & _). split; [done|]. split; [done|]. split; [set_solver|done].
Qed.

Lemma reconcilers_wp f l s h (Q : hist OS → heap TLSOpt → Z + unit → Prop) :
  calm h → (∀ r h', went_on h (SetupWithManager <$> l) (λ _, True) h' r → Q h' s r) →
  wpM (orderly f) any_answer (for_each l (λ r, must_ok (SetupWithManager r) 1)) s h Q.
Proof.
  revert h Q. induction l as [|r l IH]; intros h Q Hh HQ; cbn.
  - apply wpM_ret, HQ. by repeat split.
  - wp_step. apply wpM_plain; [done..|]. intros [code|[]] h1 Hw1; [by apply HQ|]. destruct Hw1 as (Hh1 & Hs1 & Hd1 & _).
    apply IH; [done|]. intros [code|[]] h2 Hw2; apply HQ; [done|]. destruct Hw2 as (Hh2 & Hs2 & Hd2 & _).
    split; [done|]. split; [set_solver|]. split; [|done]. cbn. constructor; [|done].
    eapply done_mono; [exact Hs2|]. by apply Forall_inv in Hd1.
Qed.

Lemma add_watcher_wp f w s h (Q : hist OS → heap TLSOpt → Z + unit → Prop) :
  calm h → (∀ r h', went_on h (watcher_calls AddWatcher w) (λ _, True) h' r → Q h' s r) →
  wpM (orderly f) any_answer (add_watcher w) s h Q.
Proof.
  intros Hh HQ. destruct w as [w|]; [by apply wpM_plain|]. apply wpM_ret, HQ. by repeat split.
Qed.

Lemma wpM_append G s o st h (Q : hist OS → heap TLSOpt → Z + slice → Prop) :
  Q h (go_append st s o).1 (inr (go_append st s o).2) → wpM G any_answer (append s o) st h Q.
Proof. unfold wpM, append. by destruct (go_append st s o). Qed.

(** Through calls that do not need an argument of their own. *)
Ltac calm_step Hg :=
  first [ wp_step | apply wpM_append; cbn; rewrite ?Hg; cbn
        | apply wpM_plain; [done|done|assumption|]; intros [?|[]] ?h; [done|intros (? & ? & ? & _)] ].

(** An [append] of a watcher makes an array of its own, or writes into the one both lists share. *)
Lemma server_options_wp f h :
  calm h →
  wpM (orderly f) any_answer (server_options f) [] h (λ h' s r,
    went_on h (watcher_calls CertwatcherNew (webhookWatcher f) ++ watcher_calls CertwatcherNew (metricsWatcher f))
      (λ '((w, ws), (m, ms)), w = webhookWatcher f ∧ m = metricsWatcher f ∧
         elements_of s ws = own_options f (webhookServed f) ∧ elements_of s ms = own_options f m) h' r).
Proof.
  intros Hh. unfold server_options, webhookServed, webhookWatcher, metricsWatcher, watcher_of, certWatcher, own_options.
  destruct (growslice 0 1) as [|[|room]] eqn:Hg,
    (enableHTTP2 f), (decide (webhookCertPath f = "")), (decide (metricsCertPath f = "")).
  all: repeat calm_step Hg.
  all: cbn; decompose_Forall_hyps; split_and!; try done; try set_solver.
  all: repeat constructor; eauto using done_mono.
Qed.

Lemma resolve_namespaces_wp f s h :
  calm h →
  wpM (orderly f) any_answer (resolve_namespaces f) s h (λ h' s' r,
    s' = s ∧ ∃ namespaces, r = inr namespaces ∧ calm h' ∧ h ⊆ h' ∧
      (namespaces = watchNamespaces f ∧ watchNamespaces f ≠ "" ∨
       watchNamespaces f = "" ∧ Ev (S := OS) (Getenv "WATCH_NAMESPACE") namespaces ∈ h')).
Proof.
  intros Hh. unfold resolve_namespaces. destruct (decide _); [|wp_step; eauto 10].
  apply wpM_lift. split; [split; [|by split]; eapply Forall_impl; [exact Hh|by intros ? []]|]. intros ns _.
  split; [done|]. exists ns. split; [done|]. split; [by apply Forall_app; split; [|constructor]|]. split; [set_solver|].
  right. split; [done|]. apply elem_of_app. right. by apply list_elem_of_singleton.
Qed.

(** Ending: the status is zero exactly when the manager was started and ended well. *)
Definition ended (h : hist OS) (code : Z) : Prop :=
  code = 0 ↔ Ev (S := OS) StartManager None ∈ h.

Lemma not_started_ended h code : Forall not_start h → code ≠ 0 → ended h code.
Proof.
  intros Hh Hcode. split; [done|]. intros Hin. eapply Forall_forall in Hh; [|exact Hin]. done.
Qed.

Lemma start_wp f o s h :
  calm h → Forall (done h) (before_start f o) →
  wpM (orderly f) any_answer (must_ok StartManager 1 ;; mret 0 : M OS (heap TLSOpt) Z Z) s h
    (λ h' _ r, ended h' match r with inl code | inr code => code end).
Proof.
  intros Hh Ho. wp_step. apply wpM_check, wpM_lift. split.
  - split; [by eapply Forall_impl; [exact Hh|intros ? []]|]. split; [done|]. by exists o.
  - assert (Ev (S := OS) StartManager None ∉ h) as Hn.
    { intros Hin. eapply Forall_forall in Hh; [|exact Hin]. by destruct Hh. }
    intros [msg|] _; split; try done; rewrite ?elem_of_app, ?list_elem_of_singleton.
    + intros [|Heq%(Ev_inj (S := OS) StartManager)]; done.
    + by right.
Qed.

Lemma run_manager_wp f h :
  calm h →
  wpM (orderly f) any_answer (run_manager f) [] h (λ h' _ r, ended h' match r with inl code | inr code => code end).
Proof.
  intros Hh. unfold run_manager. wp_step. eapply wpM_mono; [by apply server_options_wp|].
  intros h1 s1 [code|[[w ws] [m ms]]]; [intros [? ?]; by apply not_started_ended|].
  intros (Hh1 & Hs1 & Hd1 & -> & -> & Hws & Hms). cbv beta iota. wp_step. eapply wpM_mono; [by apply resolve_namespaces_wp|].
  intros h2 s2 r (-> & ns & -> & Hh2 & Hs2 & Hns). wp_step.
  apply wpM_plain; [done..|]. intros [code|[]] h3; [intros [? ?]; by apply not_started_ended|].
  intros (Hh3 & Hs3 & _). repeat wp_step. rewrite Hws, Hms. set (o := manager_options _ _ _ _).
  apply wpM_calm_call; [done..| |].
  { split; [by eapply Forall_impl; [exact Hh3|intros ? []]|]. split; [|done]. intros ? [= <-].
    exists ns. split; [done|]. destruct Hns as [?|[? ?]]; [by left|right]. split; [done|]. by apply Hs3. }
  intros [code|[]] h4; [intros [? ?]; by apply not_started_ended|]. intros (Hh4 & Hs4 & Hd4 & _). wp_step.
  apply reconcilers_wp; [done|]. intros [code|[]] h5; [intros [? ?]; by apply not_started_ended|].
  intros (Hh5 & Hs5 & Hd5 & _). wp_step.
  apply add_watcher_wp; [done|]. intros [code|[]] h6; [intros [? ?]; by apply not_started_ended|].
  intros (Hh6 & Hs6 & Hd6 & _). wp_step.
  apply add_watcher_wp; [done|]. intros [code|[]] h7; [intros [? ?]; by apply not_started_ended|].
  intros (Hh7 & Hs7 & Hd7 & _). wp_step.
  apply wpM_plain; [done..|]. intros [code|[]] h8; [intros [? ?]; by apply not_started_ended|].
  intros (Hh8 & Hs8 & Hd8 & _). wp_step.
  apply wpM_plain; [done..|]. intros [code|[]] h9; [intros [? ?]; by apply not_started_ended|].
  intros (Hh9 & Hs9 & Hd9 & _).
  apply (start_wp f o); [done|]. unfold before_start. apply Forall_app in Hd1 as [Hd1 Hd1'].
  assert (∀ l k, k ⊆ h9 → Forall (done k) l → Forall (done h9) l) as Hmono by (intros; by eapply Forall_done_mono).
  assert (h8 ⊆ h9 ∧ h7 ⊆ h9 ∧ h6 ⊆ h9 ∧ h5 ⊆ h9 ∧ h4 ⊆ h9 ∧ h1 ⊆ h9) as (? & ? & ? & ? & ? & ?) by set_solver.
  rewrite Forall_cons, !Forall_app. apply Forall_inv in Hd4, Hd8, Hd9. split_and!; eauto using done_mono.
Qed.

Lemma main_wp args f :
  parse_flags args defaultFlags = Ok f → wp (orderly f) any_answer (main args) [] ended.
Proof.
  intros Hf. unfold main. rewrite Hf. wp_step. apply wp_run_M. repeat wp_step. eapply wpM_mono; [apply init_scheme_wp|].
  intros h s [code|[]]; [intros [_ [? ?]]; by apply not_started_ended|]. intros (-> & Hh & _).
  eapply wpM_mono; [by apply run_manager_wp|]. by intros h' s' [].
Qed.

Lemma main_always args f : parse_flags args defaultFlags = Ok f → always (orderly f) (main args).
Proof. intros Hf. eapply wp_always, main_wp, Hf. Qed.

Lemma manager_made args f t1 o x t2 :
  parse_flags args defaultFlags = Ok f → partial (main args) (t1 ++ Ev (S := OS) (NewManager o) x :: t2) →
  ∃ namespaces,
    o = manager_options f namespaces (own_options f (webhookServed f)) (own_options f (metricsWatcher f)) ∧
    (namespaces = watchNamespaces f ∧ watchNamespaces f ≠ "" ∨
     watchNamespaces f = "" ∧ Ev (S := OS) (Getenv "WATCH_NAMESPACE") namespaces ∈ t1).
Proof. intros Hf Ht. destruct (main_always args f Hf _ Ht _ _ _ eq_refl) as (_ & Ho & _). by apply Ho. Qed.

Lemma configured_own base f w :
  configured base (own_options f w) =
  MkTLSConfig (if enableHTTP2 f then NextProtos base else ["http/1.1"])
    match w with Some w => Some w | None => GetCertificate base end.
Proof. unfold own_options. destruct base, (enableHTTP2 f), w; reflexivity. Qed.

Lemma served_spec f base :
  match webhookServed f with Some w => Some w | None => GetCertificate base end =
  match webhookWatcher f, metricsWatcher f with
  | Some w, Some m => if negb (enableHTTP2 f) && (1 <? growslice 0 1)%nat then Some m else Some w
  | Some w, None => Some w
  | None, _ => GetCertificate base
  end.
Proof.
  unfold webhookServed. destruct (webhookWatcher f), (metricsWatcher f), (enableHTTP2 f); try done. by destruct (growslice 0 1) as [|[|]].
Qed.

(** C15: the operator starts in order and stops at the first error: no call follows one that
    failed; the manager is started only when its options are set, all its controllers, its
    probes and the watchers of its certificates are in place; and the exit status is zero
    exactly when the manager was started and ended without an error. *)
Theorem main_starts args f :
  parse_flags args defaultFlags = Ok f →
  (∀ t1 e t2, partial (main args) (t1 ++ e :: t2) → failed e = true → t2 = []) ∧
  (∀ t1 x t2, partial (main args) (t1 ++ Ev (S := OS) StartManager x :: t2) →
     Forall (λ e, failed e = false) t1 ∧ ∃ o, Forall (done t1) (before_start f o)) ∧
  ∀ t code, runs (main args) t code → (code = 0 ↔ Ev (S := OS) StartManager None ∈ t).
Proof.
  intros Hf. pose proof (main_always args f Hf) as Ha. split; [|split].
  - intros t1 e [|e2 t2] Ht Hfail; [done|]. replace (t1 ++ e :: e2 :: t2) with ((t1 ++ [e]) ++ e2 :: t2) in Ht by by rewrite <-app_assoc.
    destruct (Ha _ Ht _ _ _ eq_refl) as [Hh _]. apply Forall_app in Hh as [_ Hh]. apply Forall_inv in Hh. congruence.
  - intros t1 x t2 Ht. destruct (Ha _ Ht _ _ _ eq_refl) as (? & _ & Hs). split; [done|]. by apply Hs.
  - intros t code Hr. by eapply (wp_runs_any _ _ ended), Hr; apply main_wp.
Qed.

(** C16: the manager is made as the flags ask, whatever room the runtime leaves in the arrays of
    [append].  Each server does HTTP/2 only when asked for; the metrics server serves its own
    certificate, and the webhook server its own unless both have one, HTTP/2 is disabled and
    the runtime gave the array of one option more room than it needs: then it serves that of the
    metrics.  The metrics are behind authentication whenever they are served over TLS.  The cache is
    restricted to the namespaces of the list given by the flag, or else by the variable: to
    the entries between its commas, trimmed, that are not blank; when there is none it is not
    restricted at all. *)
Theorem manager_configured args f t1 o x t2 base :
  parse_flags args defaultFlags = Ok f →
  partial (main args) (t1 ++ Ev (S := OS) (NewManager o) x :: t2) →
  let protocols := if enableHTTP2 f then NextProtos base else ["http/1.1"] in
  configured base (mo_WebhookTLSOpts o) =
    MkTLSConfig protocols
      match webhookWatcher f, metricsWatcher f with
      | Some w, Some m => if negb (enableHTTP2 f) && (1 <? growslice 0 1)%nat then Some m else Some w
      | Some w, None => Some w
      | None, _ => GetCertificate base
      end ∧
  configured base (mo_MetricsTLSOpts o) =
    MkTLSConfig protocols match metricsWatcher f with Some w => Some w | None => GetCertificate base end ∧
  mo_SecureServing o = secureMetrics f ∧ mo_FilterProvider o = mo_SecureServing o ∧
  ∃ text entries,
    (text = watchNamespaces f ∧ watchNamespaces f ≠ "" ∨
     watchNamespaces f = "" ∧ Ev (S := OS) (Getenv "WATCH_NAMESPACE") text ∈ t1) ∧
    String.concat "," entries = text ∧ Forall (λ e, comma ∉ chars e) entries ∧
    match mo_DefaultNamespaces o with
    | None => Forall (λ e, strings_TrimSpace e = "") entries
    | Some watched => watched ≠ ∅ ∧ ∀ ns, ns ∈ watched ↔ ns ≠ "" ∧ ∃ e, e ∈ entries ∧ ns = strings_TrimSpace e
    end.
Proof.
  intros Hf Ht. destruct (manager_made _ _ _ _ _ _ Hf Ht) as (text & -> & Htext).
  destruct (strings_Split_spec text comma) as [Hc Hn].
  cbv zeta. rewrite <-served_spec. split_and!; [apply configured_own|apply configured_own|done|done|].
  exists text, (strings_Split text comma).
  split_and!; [done..|]. cbn [manager_options mo_DefaultNamespaces]. apply watchedNamespaces_spec.
Qed.
End Facts.
