(* ===== verification/InstanceResources.v ===== *)
(** * The objects an instance owns (internal/controller/litellminstance_controller.go)

    The functions that create and update the Secrets, the workload and the other
    objects of an instance.  Their manifests are rendered by ProxyConfig.v, Workload.v and
    Manifests.v. *)

From S2P Require Import Prelude KubeTypes InstanceTypes Types Updates World Sha256 Common Reconcile.
From S2P Require Import VirtualKey Rollout ProxyConfig Workload Manifests.
Open Scope Z_scope.

(** [equality.Semantic.DeepEqual]. *)
Class SemanticDeepEqual (A : Type) := Semantic_DeepEqual : A → A → bool.
Class SemanticDeepEqualLaws (A : Type) `{SemanticDeepEqual A} : Prop :=
  Semantic_DeepEqual_refl : ∀ a : A, Semantic_DeepEqual a a = true.

(** On Deployments: the numbers behind two equal pointers are equal, and so are maps, but that a
    nil map equals an empty one. *)
Class DeploymentSpecEqual `{SemanticDeepEqual DeploymentSpec} : Prop := {
  equal_Replicas a b : Semantic_DeepEqual a b = true → ds_Replicas a = ds_Replicas b;
  equal_Annotations a b : Semantic_DeepEqual a b = true →
    default ∅ (pt_Annotations (ds_Template a)) = default ∅ (pt_Annotations (ds_Template b))
}.

(** On maps of strings it takes a nil and an empty map as equal. *)
Definition maps_DeepEqual (a b : option (gmap string string)) : bool :=
  bool_decide (default ∅ a = default ∅ b).

(** [time.Time.Format(time.RFC3339)]. *)
Class TimeFormat := Format_RFC3339 : Time → string.

(** ** Metadata *)

Definition set_ResourceVersion (v : string) (m : ObjectMeta) : ObjectMeta :=
  MkObjectMeta (Name m) (Namespace m) (UID m) (Generation m) (Labels m) (Annotations m) (Finalizers m)
    (OwnerReferences m) (DeletionTimestamp m) v.

(** [mergeStringMaps] on maps that may be nil: the result is nil when both are empty. *)
Definition mergeOptionMaps (existing desired : option (gmap string string)) : option (gmap string string) :=
  match existing with
  | Some m => Some (mergeStringMaps m (default ∅ desired))
  | None => if decide (default ∅ desired = ∅) then None else Some (default ∅ desired)
  end.

Definition autoRollbackPodTemplateAnnotation : string := "litellm.palena.ai/auto-rollback".

Definition operatorManagedPodTemplateAnnotations : list string :=
  [autoRollbackPodTemplateAnnotation; AnnotationSecretHash; AnnotationConfigHash].

(** One iteration of the loop over [existing]. *)
Definition preserveAnnotation (key value : string) (desired : option (gmap string string)) :
    option (gmap string string) :=
  if decide (key ∈ operatorManagedPodTemplateAnnotations) then desired
  else
    let desired := default ∅ desired in
    Some (match desired !! key with Some _ => desired | None => <[key := value]> desired end).

Definition preserveExternalPodTemplateAnnotations (existing desired : option (gmap string string)) :
    option (gmap string string) :=
  map_fold preserveAnnotation desired (default ∅ existing).

(** [if hash != "" { template.Annotations[key] = hash }]. *)
Definition stampAnnotation (key hash : string) (t : PodTemplate) : PodTemplate :=
  if decide (hash = "") then t
  else MkPodTemplate (pt_Labels t) (Some (<[key := hash]> (default ∅ (pt_Annotations t)))) (pt_Spec t).

Definition set_template (t : PodTemplate) (d : Deployment) : Deployment :=
  MkDeployment (dep_meta d)
    (MkDeploymentSpec (ds_Replicas (dep_Spec d)) (ds_Selector (dep_Spec d)) t (ds_Strategy (dep_Spec d)) (ds_Rest (dep_Spec d))) (dep_Status d).

Definition map_template (f : PodTemplate → PodTemplate) (d : Deployment) : Deployment :=
  set_template (f (ds_Template (dep_Spec d))) d.

Section Resources.
Context `{KubeLib} `{JSONUnmarshal} `{YAMLMarshal} `{JSONMarshal PodSchedulingSpec} `{SemanticDeepEqual DeploymentSpec} `{SemanticDeepEqual KServiceSpec} `{TimeFormat}.

(** ** Creation and update *)

Definition createOrUpdate {r} (desired : res_ty r) : kprog (option error) :=
  existing ← kcallp (KGetRes r (Namespace (res_meta desired)) (Name (res_meta desired)));
  match existing with
  | Err err => if apierrors_IsNotFound err then kcallp (KCreateRes r desired) else mret (Some err)
  | Ok existing =>
      kcallp (KUpdateRes r
        (set_res_meta (set_ResourceVersion (ResourceVersion (res_meta existing)) (res_meta desired)) desired))
  end.

(** [controllerutil.SetControllerReference(instance, desired, r.Scheme)]. *)
Definition own {r} (instance : LiteLLMInstance) (desired : res_ty r) : res (res_ty r) error :=
  match SetControllerReference (Meta instance) (res_meta desired) with
  | Ok m => Ok (set_res_meta m desired)
  | Err err => Err err
  end.

(** The body of [reconcileIngress], [reconcileHPA], ...; for the unstructured kinds the code
    repeats [createOrUpdate] in place. *)
Definition reconcileOwned (r : Res) (instance : LiteLLMInstance) (desired : option (res_ty r)) : kprog (option error) :=
  match desired with
  | None => mret None
  | Some desired =>
      match own instance desired with
      | Err err => mret (Some err)
      | Ok desired => createOrUpdate desired
      end
  end.

Definition reconcileIngress instance labels :=
  reconcileOwned (ROther "networking.k8s.io/Ingress") instance (BuildIngress instance labels).
Definition reconcileHPA instance labels :=
  reconcileOwned (ROther "autoscaling/HorizontalPodAutoscaler") instance (BuildHPA instance labels).
Definition reconcilePDB instance labels :=
  reconcileOwned (ROther "policy/PodDisruptionBudget") instance (BuildPDB instance labels).
Definition reconcileNetworkPolicy instance labels :=
  reconcileOwned (ROther "networking.k8s.io/NetworkPolicy") instance (BuildNetworkPolicy instance labels).
Definition reconcileRoute instance labels :=
  reconcileOwned (ROther "route.openshift.io/Route") instance (BuildRoute instance labels).
Definition reconcileHTTPRoute instance labels :=
  reconcileOwned (ROther "gateway.networking.k8s.io/HTTPRoute") instance (BuildHTTPRoute instance labels).
Definition reconcileServiceMonitor instance labels :=
  reconcileOwned (ROther "monitoring.coreos.com/ServiceMonitor") instance (BuildServiceMonitor instance labels).
Definition reconcilePrometheusRule instance labels :=
  reconcileOwned (ROther "monitoring.coreos.com/PrometheusRule") instance (BuildPrometheusRule instance labels).
Definition reconcileGrafanaDashboard instance labels :=
  reconcileOwned RConfigMap instance (BuildGrafanaDashboardConfigMap instance labels).
Definition reconcileCNPGBackup instance labels :=
  reconcileOwned (ROther "postgresql.cnpg.io/ScheduledBackup") instance (BuildCNPGScheduledBackup instance labels).

(** [strings.Join]. *)
Definition strings_Join (l : list string) (sep : string) : string := String.concat sep l.

Definition reconcileConfigMap (instance : LiteLLMInstance) (labels : gmap string string)
    (guardrails : list LiteLLMGuardrail) : kprog (option error) :=
  match BuildConfigMap instance labels guardrails with
  | Err err => mret (Some err)
  | Ok desired =>
      let ignored := ExtraSettingsConflicts instance guardrails in
      _ ← (if decide (length ignored = 0%nat) then mret tt
           else emitEvent (k := KInstance) instance EventTypeWarning EventReasonExtraSettingsIgnored
                  "Ignored %d extra setting(s) the operator derives from the spec: %s"
                  [FInt (Z.of_nat (length ignored)); FStr (strings_Join ignored ", ")]);
      reconcileOwned RConfigMap instance (Some desired)
  end.

(** ** Generated Secrets *)

(** [crypto/rand.Read] never fails (it fills the buffer or crashes the program); the
    ignored error would leave the zeros of [make]. *)
Definition generateRandomToken (length : nat) : kprog string :=
  b ← kcallp (KRandom length);
  mret (hex_EncodeToString match b with Ok b => b | Err _ => replicate length 0 end).

Definition generatedSecret (instance : LiteLLMInstance) (name key token : string) : Secret :=
  MkSecret
    (MkObjectMeta name (Namespace (Meta instance)) "" 0 (labelsForInstance (Name (Meta instance))) None [] [] None "")
    "Opaque" ∅ {[ key := "sk-" +:+ token ]}.

Definition ensureGeneratedSecret (instance : LiteLLMInstance) (name key : string) : kprog (option error) :=
  existing ← kcallp (KGetSecret (Namespace (Meta instance)) name);
  match existing with
  | Ok _ => mret None
  | Err err =>
      if apierrors_IsNotFound err then
        token ← generateRandomToken 32;
        let secret := generatedSecret instance name key token in
        match SetControllerReference (Meta instance) (sec_meta secret) with
        | Err err => mret (Some err)
        | Ok m => kcallp (KCreateSecret (MkSecret m (sec_Type secret) (sec_Data secret) (sec_StringData secret)))
        end
      else mret (Some err)
  end.

Definition reconcileSecrets (instance : LiteLLMInstance) : kprog (option error) :=
  let name suffix := Name (Meta instance) +:+ suffix in
  m ← (if mk_AutoGenerate (is_MasterKey (Spec instance))
       then ensureGeneratedSecret instance (name "-master-key") "master-key" else mret None);
  match m with
  | Some err => mret (Some (Errorf "auto-generate master key: %w" [] (Some err)))
  | None =>
      let auto := match is_SaltKey (Spec instance) with Some s => salt_AutoGenerate s | None => false end in
      s ← (if auto then ensureGeneratedSecret instance (name "-salt-key") "salt-key" else mret None);
      match s with
      | Some err => mret (Some (Errorf "auto-generate salt key: %w" [] (Some err)))
      | None => mret None
      end
  end.

(** ** The workload *)

Definition reconcileServiceAccount (instance : LiteLLMInstance) (labels : gmap string string) : kprog (option error) :=
  match own (r := RServiceAccount) instance (BuildServiceAccount instance labels) with
  | Err err => mret (Some err)
  | Ok desired =>
      existing ← kcallp (KGetRes RServiceAccount (Namespace (ko_meta desired)) (Name (ko_meta desired)));
      match existing with
      | Err err =>
          if apierrors_IsNotFound err then kcallp (KCreateRes RServiceAccount desired) else mret (Some err)
      | Ok existing =>
          let mergedLabels := mergeStringMaps (Labels (ko_meta existing)) (Labels (ko_meta desired)) in
          let mergedAnnotations := mergeOptionMaps (Annotations (ko_meta existing)) (Annotations (ko_meta desired)) in
          if bool_decide (Labels (ko_meta existing) = mergedLabels) &&
             maps_DeepEqual (Annotations (ko_meta existing)) mergedAnnotations then mret None
          else
            kcallp (KUpdateRes RServiceAccount
              (set_res_meta (r := RServiceAccount)
                 (set_labels_annotations mergedLabels mergedAnnotations (ko_meta existing)) existing))
      end
  end.

(** The answer [(bool, error)] of [reconcileMigrationJob]. *)
Definition reconcileMigrationJob (instance : LiteLLMInstance) (labels : gmap string string) :
    kprog (bool * option error) :=
  match own (r := RJob) instance (BuildMigrationJob instance labels) with
  | Err err => mret (false, Some err)
  | Ok desired =>
      existing ← kcallp (KGetRes RJob (Namespace (job_meta desired)) (Name (job_meta desired)));
      match existing with
      | Err err =>
          if apierrors_IsNotFound err then (r ← kcallp (KCreateRes RJob desired); mret (false, r))
          else mret (false, Some err)
      | Ok existing =>
          if 0 <? job_Succeeded existing then mret (true, None)
          else
            let exhausted := match job_BackoffLimit existing with Some l => l <=? job_Failed existing | None => false end in
            if (0 <? job_Failed existing) && exhausted then
              mret (false, Some (Errorf "migration job %s failed after %d attempts"
                                   [FStr (Name (job_meta desired)); FInt (job_Failed existing)] None))
            else mret (false, None)
      end
  end.

(** The rendered Deployment with the digests of what its pods consume. *)
Definition stampDigests (desired : Deployment) : kprog (res Deployment error) :=
  let ns := Namespace (dep_meta desired) in
  let pod := pt_Spec (ds_Template (dep_Spec desired)) in
  secretHash ← podTemplateSecretHash ns pod;
  match secretHash with
  | Err err => mret (Err err)
  | Ok secretHash =>
      let desired := map_template (stampAnnotation AnnotationSecretHash secretHash) desired in
      configHash ← podTemplateConfigMapHash ns pod;
      match configHash with
      | Err err => mret (Err err)
      | Ok configHash => mret (Ok (map_template (stampAnnotation AnnotationConfigHash configHash) desired))
      end
  end.

(** The live Deployment with the fields the controller owns. *)
Definition mergeDeployment (existing desired : Deployment) : Deployment :=
  let template := ds_Template (dep_Spec desired) in
  let template := MkPodTemplate (pt_Labels template)
    (preserveExternalPodTemplateAnnotations (pt_Annotations (ds_Template (dep_Spec existing))) (pt_Annotations template))
    (pt_Spec template) in
  MkDeployment
    (set_labels_annotations (Labels (dep_meta existing))
       (mergeOptionMaps (Annotations (dep_meta existing)) (Annotations (dep_meta desired))) (dep_meta existing))
    (MkDeploymentSpec (ds_Replicas (dep_Spec desired)) (ds_Selector (dep_Spec existing)) template
       (ds_Strategy (dep_Spec desired)) (ds_Rest (dep_Spec existing)))
    (dep_Status existing).

(** [reconcileDeployment] from the read of the live Deployment on. *)
Definition applyDeployment (desired : Deployment) : kprog (option error) :=
  existing ← kcallp (KGetRes RDeployment (Namespace (dep_meta desired)) (Name (dep_meta desired)));
  match existing with
  | Err err =>
      if apierrors_IsNotFound err then kcallp (KCreateRes RDeployment desired) else mret (Some err)
  | Ok existing =>
      let updated := mergeDeployment existing desired in
      if Semantic_DeepEqual (dep_Spec existing) (dep_Spec updated) &&
         maps_DeepEqual (Annotations (dep_meta existing)) (Annotations (dep_meta updated)) then mret None
      else kcallp (KUpdateRes RDeployment updated)
  end.

Definition reconcileDeployment (instance : LiteLLMInstance) (labels : gmap string string)
    (licenseSecretName : string) (guardrails : list LiteLLMGuardrail) : kprog (option error) :=
  match own (r := RDeployment) instance (BuildDeployment instance labels licenseSecretName guardrails) with
  | Err err => mret (Some err)
  | Ok desired =>
      desired ← stampDigests desired;
      match desired with
      | Err err => mret (Some err)
      | Ok desired => applyDeployment desired
      end
  end.

Definition same_port (p q : ServicePort) : bool :=
  bool_decide (sp_Name p = sp_Name q) && (sp_Port p =? sp_Port q) && bool_decide (sp_Protocol p = sp_Protocol q).

(** The node port the API server has allocated to the same port. *)
Definition keepNodePort (existing : list ServicePort) (p : ServicePort) : ServicePort :=
  match List.find (same_port p) existing with
  | Some q => MkServicePort (sp_Name p) (sp_Protocol p) (sp_Port p) (sp_TargetPort p) (sp_NodePort q) (sp_Rest p)
  | None => p
  end.

Definition mergeService (existing desired : KService) : KService :=
  MkKService
    (set_labels_annotations (mergeStringMaps (Labels (ksvc_meta existing)) (Labels (ksvc_meta desired)))
       (Annotations (ksvc_meta existing)) (ksvc_meta existing))
    (MkKServiceSpec (kss_Type (ksvc_Spec desired)) (kss_Selector (ksvc_Spec desired))
       (keepNodePort (kss_Ports (ksvc_Spec existing)) <$> kss_Ports (ksvc_Spec desired))
       (kss_Rest (ksvc_Spec existing))).

Definition reconcileService (instance : LiteLLMInstance) (labels : gmap string string) : kprog (option error) :=
  match own (r := RService) instance (BuildService instance labels) with
  | Err err => mret (Some err)
  | Ok desired =>
      existing ← kcallp (KGetRes RService (Namespace (ksvc_meta desired)) (Name (ksvc_meta desired)));
      match existing with
      | Err err => if apierrors_IsNotFound err then kcallp (KCreateRes RService desired) else mret (Some err)
      | Ok existing =>
          let updated := mergeService existing desired in
          if bool_decide (Labels (ksvc_meta existing) = Labels (ksvc_meta updated)) &&
             Semantic_DeepEqual (ksvc_Spec existing) (ksvc_Spec updated) then mret None
          else kcallp (KUpdateRes RService updated)
      end
  end.
End Resources.

(** ** Annotations and updates that converge *)

(** The annotations of a map that the operator does not manage. *)
Definition external (m : option (gmap string string)) : gmap string string :=
  filter (λ kv, kv.1 ∉ operatorManagedPodTemplateAnnotations) (default ∅ m).

(** The loop carries over the external annotations the rendering does not set, and nothing else. *)
Lemma preserveExternal_spec existing desired :
  preserveExternalPodTemplateAnnotations existing desired =
  if decide (external existing = ∅) then desired else Some (default ∅ desired ∪ external existing).
Proof.
  unfold preserveExternalPodTemplateAnnotations.
  replace (external existing) with (external (Some (default ∅ existing))) by done.
  set (P := λ (r : option (gmap string string)) (m : gmap string string),
    r = if decide (external (Some m) = ∅) then desired else Some (default ∅ desired ∪ external (Some m))).
  apply (map_fold_weak_ind P); unfold P; clear P.
  { unfold external. simpl. by rewrite map_filter_empty, decide_True. }
  intros k v m r Hk ->. unfold preserveAnnotation. destruct (decide (k ∈ _)) as [Hin|Hnin].
  { unfold external. simpl. by rewrite map_filter_insert_not by (simpl; naive_solver). }
  assert (external (Some (<[k:=v]> m)) = <[k:=v]> (external (Some m))) as ->.
  { unfold external. simpl. by rewrite map_filter_insert_True. }
  assert (external (Some m) !! k = None) as Hf by (by apply map_lookup_filter_None; left).
  rewrite (decide_False (P := <[k:=v]> (external (Some m)) = ∅)) by apply insert_non_empty.
  replace (default ∅ (if decide (external (Some m) = ∅) then desired else Some (default ∅ desired ∪ external (Some m))))
    with (default ∅ desired ∪ external (Some m)) by (case_decide as He; [by rewrite He, map_union_empty|done]).
  f_equal. rewrite lookup_union, Hf. destruct (default ∅ desired !! k) as [x|] eqn:Hd; simpl.
  - apply map_eq. intros j. destruct (decide (j = k)) as [->|Hne].
    + by rewrite !lookup_union, lookup_insert_eq, Hd, Hf.
    + by rewrite !lookup_union, lookup_insert_ne.
  - by rewrite insert_union_r.
Qed.

Lemma external_lookup m k :
  external m !! k = if decide (k ∈ operatorManagedPodTemplateAnnotations) then None else default ∅ m !! k.
Proof. unfold external. rewrite map_lookup_filter. destruct (default ∅ m !! k); simpl; repeat case_guard; case_decide; naive_solver. Qed.

(** An annotation of the merged template is the rendered one, else the live one unless the
    operator manages it: a stale digest never survives. *)
Lemma preserveExternal_lookup existing desired k :
  default ∅ (preserveExternalPodTemplateAnnotations existing desired) !! k =
  match default ∅ desired !! k with
  | Some v => Some v
  | None => if decide (k ∈ operatorManagedPodTemplateAnnotations) then None else default ∅ existing !! k
  end.
Proof.
  rewrite preserveExternal_spec, <- external_lookup.
  case_decide as He; [rewrite He, lookup_empty; by destruct (default ∅ desired !! k)|].
  simpl. rewrite lookup_union. destruct (default ∅ desired !! k), (external existing !! k); done.
Qed.

Lemma option_map_eq (a b : option (gmap string string)) :
  (a = None ↔ b = None) → default ∅ a = default ∅ b → a = b.
Proof. destruct a, b; naive_solver. Qed.

Lemma preserveExternal_idemp existing desired :
  preserveExternalPodTemplateAnnotations (preserveExternalPodTemplateAnnotations existing desired) desired =
  preserveExternalPodTemplateAnnotations existing desired.
Proof.
  apply option_map_eq.
  - rewrite !preserveExternal_spec. destruct desired as [d|]; [by repeat case_decide|].
    case_decide as H1; [|by case_decide].
    case_decide as H2; [done|]. exfalso. apply H2. apply map_eq. intros k.
    apply (f_equal (.!! k)) in H1. rewrite external_lookup in H1 |- *. simpl in H1.
    rewrite lookup_empty in *. case_decide; [done|].
    rewrite <- H1. rewrite left_id_L by apply _. rewrite external_lookup. by rewrite decide_False.
  - apply map_eq. intros k. rewrite !preserveExternal_lookup.
    destruct (default ∅ desired !! k); [done|]. by case_decide.
Qed.

Lemma preserveExternal_self desired :
  preserveExternalPodTemplateAnnotations desired desired = desired.
Proof.
  apply option_map_eq.
  - rewrite preserveExternal_spec. destruct desired as [d|]; [by case_decide|].
    rewrite decide_True; [done|]. unfold external. apply map_filter_empty.
  - apply map_eq. intros k. rewrite preserveExternal_lookup. destruct (default ∅ desired !! k); [done|]. by case_decide.
Qed.

Lemma mergeOptionMaps_default a b : default ∅ (mergeOptionMaps a b) = mergeStringMaps (default ∅ a) (default ∅ b).
Proof.
  unfold mergeOptionMaps, mergeStringMaps. destruct a as [a|]; simpl; [done|].
  case_decide as Hb; simpl; [by rewrite Hb, map_union_empty|by rewrite map_union_empty].
Qed.

Section Convergence.
Context `{KubeLib} `{SemanticDeepEqual DeploymentSpec} `{!SemanticDeepEqualLaws DeploymentSpec} `{!DeploymentSpecEqual}.

(** The defaults the API server gives the fields a Deployment leaves out, field by field: the
    number of replicas, the pod, the strategy and the rest.  Filling in twice is filling in once. *)
Record api_defaults := MkDefaults {
  df_Replicas : option Z → option Z;
  df_Pod : PodSpec → PodSpec;
  df_Strategy : DeploymentStrategy → DeploymentStrategy;
  df_Rest : JSONValue → JSONValue;
  df_Rest_idemp r : df_Rest (df_Rest r) = df_Rest r
}.

Definition defaulted (D : api_defaults) (s : DeploymentSpec) : DeploymentSpec :=
  MkDeploymentSpec (df_Replicas D (ds_Replicas s)) (ds_Selector s)
    (MkPodTemplate (pt_Labels (ds_Template s)) (pt_Annotations (ds_Template s)) (df_Pod D (pt_Spec (ds_Template s))))
    (df_Strategy D (ds_Strategy s)) (df_Rest D (ds_Rest s)).

Context (D : api_defaults).

(** The API server keeps the Deployment [d] it is sent as [l]. *)
Definition stored (d l : Deployment) : Prop :=
  dep_Spec l = defaulted D (dep_Spec d) ∧
  default ∅ (Annotations (dep_meta l)) = default ∅ (Annotations (dep_meta d)).

(** Two Deployments that differ in their status and in other metadata only. *)
Definition same_Deployment (l l' : Deployment) : Prop :=
  dep_Spec l = dep_Spec l' ∧ default ∅ (Annotations (dep_meta l)) = default ∅ (Annotations (dep_meta l')).

#[local] Instance same_Deployment_equiv : Equivalence same_Deployment.
Proof. unfold same_Deployment. split; [done|by intros ?? [-> ->]|by intros ??? [-> ->]]. Qed.

(** What a call does to the Deployment of the cluster: a read answers with it, an accepted
    creation or update stores what it carries, a refused one leaves it. *)
Definition deployment_step (e : event K) (w w' : option Deployment) : Prop :=
  match ev_op e as c return kans c → Prop with
  | KGetRes r _ _ =>
      match r as r0 return res (res_ty r0) error → Prop with
      | RDeployment => λ a, w' = w ∧
          match a with Ok l => w = Some l | Err err => apierrors_IsNotFound err = true → w = None end
      | _ => λ _, w' = w
      end
  | KCreateRes r o =>
      match r as r0 return res_ty r0 → option error → Prop with
      | RDeployment => λ d a, match a with None => w = None ∧ ∃ l, w' = Some l ∧ stored d l | Some _ => w' = w end
      | _ => λ _ _, w' = w
      end o
  | KUpdateRes r o =>
      match r as r0 return res_ty r0 → option error → Prop with
      | RDeployment => λ d a, match a with None => is_Some w ∧ ∃ l, w' = Some l ∧ stored d l | Some _ => w' = w end
      | _ => λ _ _, w' = w
      end o
  | _ => λ _, w' = w
  end (ev_ans e).

(** A history of calls; between them the status and other metadata may change. *)
Fixpoint deployment_steps (h : khist) (w w' : option Deployment) : Prop :=
  match h with
  | [] => option_Forall2 same_Deployment w w'
  | e :: h => ∃ w1 w2, option_Forall2 same_Deployment w w1 ∧ deployment_step e w1 w2 ∧ deployment_steps h w2 w'
  end.

(** Passes with the rendering [desired], one after the other, and what each returns. *)
Fixpoint deployment_passes (desired : Deployment) (ts : list (khist * option error)) (w w' : option Deployment) : Prop :=
  match ts with
  | [] => w' = w
  | (t, out) :: ts =>
      ∃ w1, runs (applyDeployment desired) t out ∧ deployment_steps t w w1 ∧ deployment_passes desired ts w1 w'
  end.

(** The Deployment [live] is the one rendered, over the one [was] that the cluster had: the
    replicas, the pod and the strategy are the rendered ones, with the defaults of the API
    server, or equal to them for [Semantic.DeepEqual]; an annotation of the pod template or of
    the Deployment is the rendered one, else the one there was, and a digest or a rollback mark
    of the pod template that is not rendered is gone; the selector is kept. *)
Definition brought_up (was : option Deployment) (desired live : Deployment) : Prop :=
  let from := default desired was in
  let template := ds_Template (dep_Spec desired) in
  (∃ s, (dep_Spec live = defaulted D s ∨ Semantic_DeepEqual (dep_Spec live) s = true) ∧
    ds_Replicas s = ds_Replicas (dep_Spec desired) ∧ ds_Strategy s = ds_Strategy (dep_Spec desired) ∧
    pt_Labels (ds_Template s) = pt_Labels template ∧ pt_Spec (ds_Template s) = pt_Spec template ∧
    ds_Selector s = ds_Selector (dep_Spec from) ∧ ds_Rest s = ds_Rest (dep_Spec from)) ∧
  (ds_Replicas (dep_Spec live) = ds_Replicas (dep_Spec desired) ∨
   ds_Replicas (dep_Spec live) = df_Replicas D (ds_Replicas (dep_Spec desired))) ∧
  (∀ k, default ∅ (pt_Annotations (ds_Template (dep_Spec live))) !! k =
     match default ∅ (pt_Annotations template) !! k with
     | Some v => Some v
     | None => if decide (k ∈ operatorManagedPodTemplateAnnotations) then None
               else default ∅ (pt_Annotations (ds_Template (dep_Spec from))) !! k
     end) ∧
  ∀ k, default ∅ (Annotations (dep_meta live)) !! k =
     match default ∅ (Annotations (dep_meta desired)) !! k with
     | Some v => Some v
     | None => default ∅ (Annotations (dep_meta from)) !! k
     end.

(** A pass would find nothing to write, or write what is stored as it is already. *)
Definition up_to_date (desired live : Deployment) : bool :=
  Semantic_DeepEqual (dep_Spec live) (dep_Spec (mergeDeployment live desired)) &&
  maps_DeepEqual (Annotations (dep_meta live)) (Annotations (dep_meta (mergeDeployment live desired))).
Definition settled (desired live : Deployment) : Prop :=
  up_to_date desired live = true ∨ stored (mergeDeployment live desired) live.

Lemma merge_annotations l desired :
  default ∅ (Annotations (dep_meta (mergeDeployment l desired))) =
  mergeStringMaps (default ∅ (Annotations (dep_meta l))) (default ∅ (Annotations (dep_meta desired))).
Proof. unfold mergeDeployment. simpl. apply mergeOptionMaps_default. Qed.

#[local] Instance merge_same : Proper (same_Deployment ==> eq ==> same_Deployment) mergeDeployment.
Proof.
  intros l l' [Hs Ha] desired ? <-. split; [|by rewrite !merge_annotations, Ha].
  unfold mergeDeployment. simpl. by rewrite Hs.
Qed.

#[local] Instance up_to_date_same desired : Proper (same_Deployment ==> eq) (up_to_date desired).
Proof.
  intros l l' Hl. destruct (merge_same _ _ Hl desired _ eq_refl) as [Hs Ha].
  unfold up_to_date, maps_DeepEqual. rewrite Hs, Ha. destruct Hl as [-> ->]. done.
Qed.

#[local] Instance stored_same : Proper (same_Deployment ==> same_Deployment ==> iff) stored.
Proof. intros d d' [Hd Ha] l l' [Hl Ha']. unfold stored. by rewrite Hd, Hl, Ha, Ha'. Qed.

#[local] Instance settled_same desired : Proper (same_Deployment ==> iff) (settled desired).
Proof. intros l l' Hl. unfold settled. by rewrite Hl. Qed.

(** What is stored of a rendering, and of a rendering merged into a live Deployment, is settled:
    merging again gives what was sent but for the fields that keep their defaults. *)
Lemma stored_settled desired d l :
  d = desired ∨ (∃ live, d = mergeDeployment live desired) → stored d l → settled desired l.
Proof.
  intros Hd [Hs Ha]. right. unfold stored. rewrite merge_annotations, Ha.
  destruct Hd as [->|[live ->]]; split.
  - unfold mergeDeployment. simpl. rewrite Hs. unfold defaulted. simpl. by rewrite preserveExternal_self, df_Rest_idemp.
  - unfold mergeStringMaps. by rewrite map_union_idemp.
  - unfold mergeDeployment. simpl. rewrite Hs. unfold defaulted. simpl. by rewrite preserveExternal_idemp, df_Rest_idemp.
  - rewrite merge_annotations. by rewrite mergeStringMaps_idemp.
Qed.

(** A call that found the cluster at [w]. *)
Definition pass_spec (desired : Deployment) (w : option Deployment) (t : khist) (out : option error)
    (w' : option Deployment) : Prop :=
  (option_Forall2 same_Deployment w w' ∧ (∀ e, e ∈ t → benign (ev_op e) = true) ∧
     (out = None → ∃ l, w' = Some l ∧ up_to_date desired l = true))
  ∨ (option_Forall2 same_Deployment w w' ∧ is_Some out ∧ ∀ l, w = Some l → up_to_date desired l = false)
  ∨ ∃ d l, out = None ∧ w' = Some l ∧ stored d l ∧
      ((w = None ∧ d = desired) ∨
       ∃ l0 l1, w = Some l0 ∧ same_Deployment l0 l1 ∧ up_to_date desired l0 = false ∧ d = mergeDeployment l1 desired).

Lemma pass_does desired w t out w' :
  runs (applyDeployment desired) t out → deployment_steps t w w' → pass_spec desired w t out w'.
Proof.
  intros (x & t' & -> & Hr) (w1 & w2 & Hd & (-> & Hx) & Ht). destruct x as [l|err].
  - simpl in Hx. subst w1. inversion Hd as [l0 ? Hl|]; subst. cbn -[mergeDeployment] in Hr.
    change (Semantic_DeepEqual (dep_Spec l) (dep_Spec (mergeDeployment l desired)) && _)%bool
      with (up_to_date desired l) in Hr.
    destruct (up_to_date desired l) eqn:Hu.
    + destruct Hr as [-> ->]. left. inversion Ht as [? l' Hl'|]; subst.
      split_and!; [constructor; by etrans|by intros e ->%list_elem_of_singleton|]. intros _. exists l'. split; [done|]. by rewrite <- Hl'.
    + destruct Hr as (a & ? & -> & -> & ->). destruct Ht as (w3 & w4 & Hd' & Ha & Ht).
      inversion Hd' as [? l' Hl'|]; subst. cbn -[mergeDeployment] in Ha. destruct a as [e|].
      * simpl in Ha. subst w4. right. left. inversion Ht as [? l'' Hl''|]; subst. split_and!; [|by eauto|].
        { constructor. by rewrite Hl, Hl', Hl''. }
        intros ? [= <-]. by rewrite Hl.
      * destruct Ha as (_ & ls & -> & Hs). inversion Ht as [? l'' Hl''|]; subst. right. right.
        exists (mergeDeployment l desired), l''. split_and!; [done..|by rewrite <- Hl''|].
        right. exists l0, l. split_and!; [done..|by rewrite Hl|done].
  - simpl in Hr. destruct (apierrors_IsNotFound err) eqn:Hnf.
    + simpl in Hx. rewrite (Hx Hnf) in *. inversion Hd; subst. destruct Hr as (a & ? & -> & -> & ->).
      destruct Ht as (w3 & w4 & Hd' & Ha & Ht). inversion Hd'; subst. cbn in Ha. destruct a as [e|].
      * subst w4. right. left. split_and!; [done|by eauto|done].
      * destruct Ha as (_ & ls & -> & Hs). inversion Ht as [? l'' Hl''|]; subst. right. right.
        exists desired, l''. split_and!; [done..|by rewrite <- Hl''|by left].
    + destruct Hr as [-> ->]. left. split_and!; [|by intros e ->%list_elem_of_singleton|done].
      simpl in Ht. destruct Hd as [l0 l1 Hl|]; [|done]. inversion Ht as [? l' Hl'|]; subst. constructor. by etrans.
Qed.

Lemma pass_keeps_settled desired w t out w' live :
  w = Some live → settled desired live → runs (applyDeployment desired) t out → deployment_steps t w w' →
  ∃ live', w' = Some live' ∧ same_Deployment live live' ∧
    (up_to_date desired live = true → ∀ e, e ∈ t → benign (ev_op e) = true).
Proof.
  intros -> Hset Hr Ht. destruct (pass_does _ _ _ _ _ Hr Ht) as [(Hsame & Hb & _)|[(Hsame & _ & Hu)|Hst]].
  - inversion Hsame as [? l' Hl|]; subst. by exists l'.
  - inversion Hsame as [? l' Hl|]; subst. exists l'. split_and!; [done..|]. by rewrite (Hu _ eq_refl).
  - destruct Hst as (d & l & -> & -> & Hs & [[[=] _]|(l0 & l1 & [= <-] & Hl1 & Hu & ->)]). exists l.
    split_and!; [done| |by rewrite Hu]. destruct Hset as [Hu'|Hset]; [by rewrite Hu' in Hu|].
    rewrite <- Hl1 in Hs. destruct Hset as [Hq Ha], Hs as [Hs' Ha']. split; [by rewrite Hq at 1|by rewrite Ha'].
Qed.

Lemma passes_keep_settled desired ts w w' live :
  w = Some live → settled desired live → deployment_passes desired ts w w' →
  ∃ live', w' = Some live' ∧ same_Deployment live live' ∧
    (up_to_date desired live = true → ∀ p, p ∈ ts → ∀ e, e ∈ p.1 → benign (ev_op e) = true).
Proof.
  revert w live. induction ts as [|[t out] ts IH]; intros w live Hw Hset; simpl.
  { intros ->. exists live. split_and!; [done..|set_solver]. }
  intros (w1 & Hr & Ht & Hp). destruct (pass_keeps_settled _ _ _ _ _ _ Hw Hset Hr Ht) as (l1 & -> & Hl1 & Hb).
  destruct (IH _ l1 eq_refl) as (l' & -> & Hl' & Hb'); [by rewrite <- Hl1|done|]. rewrite <- Hl1 in Hl', Hb'.
  exists l'. split_and!; [done..|]. intros Hu p [->|Hin]%elem_of_cons; [by apply Hb|by apply Hb'].
Qed.

Lemma brought_up_stored desired w d live :
  stored d live →
  (w = None ∧ d = desired) ∨ (∃ l0 l1, w = Some l0 ∧ same_Deployment l0 l1 ∧ d = mergeDeployment l1 desired) →
  brought_up w desired live.
Proof.
  intros [Hs Ha] [[-> ->]|(l0 & l1 & -> & [Hl Hla] & ->)].
  - split_and!; [exists (dep_Spec desired); by split_and!; [left|..]|right; by rewrite Hs|..]; intros k; rewrite ?Hs, ?Ha; simpl.
    + destruct (_ !! k) as [v|]; [done|]. by case_decide.
    + by destruct (_ !! k).
  - split_and!; [exists (dep_Spec (mergeDeployment l1 desired)); split_and!; [by left|done..|simpl; by rewrite Hl|simpl; by rewrite Hl]
                |right; by rewrite Hs|..]; intros k.
    + rewrite Hs. simpl. by rewrite preserveExternal_lookup, Hl.
    + rewrite Ha, merge_annotations, <- Hla. unfold mergeStringMaps. rewrite lookup_union.
      simpl. by destruct (default ∅ (Annotations (dep_meta desired)) !! k), (_ !! k).
Qed.

Lemma brought_up_idle desired w live l0 :
  w = Some l0 → same_Deployment l0 live → up_to_date desired live = true → brought_up w desired live.
Proof.
  intros -> [Hs Ha] [Hu Hm]%andb_prop. apply bool_decide_eq_true in Hm.
  split_and!; [exists (dep_Spec (mergeDeployment live desired)); split_and!; [by right|done..|simpl; by rewrite Hs|simpl; by rewrite Hs]
              |left; exact (equal_Replicas _ _ Hu)|..]; intros k.
  - rewrite (equal_Annotations _ _ Hu). simpl. by rewrite preserveExternal_lookup, Hs.
  - rewrite Hm, merge_annotations, <- Ha. unfold mergeStringMaps. rewrite lookup_union.
    simpl. by destruct (default ∅ (Annotations (dep_meta desired)) !! k), (_ !! k).
Qed.

(** Where the API server fills nothing in, what is stored is what the next pass would send. *)
Lemma undefaulted_up_to_date desired live :
  df_Replicas D (ds_Replicas (dep_Spec desired)) = ds_Replicas (dep_Spec desired) →
  df_Pod D (pt_Spec (ds_Template (dep_Spec desired))) = pt_Spec (ds_Template (dep_Spec desired)) →
  df_Strategy D (ds_Strategy (dep_Spec desired)) = ds_Strategy (dep_Spec desired) →
  stored (mergeDeployment live desired) live → up_to_date desired live = true.
Proof.
  intros Hrep Hpod Hstr [Hs Ha]. unfold up_to_date, maps_DeepEqual.
  assert (dep_Spec live = dep_Spec (mergeDeployment live desired)) as <-; [|by rewrite Semantic_DeepEqual_refl, bool_decide_true].
  unfold mergeDeployment, defaulted in Hs. simpl in Hs. rewrite Hrep, Hpod, Hstr in Hs.
  pose proof (f_equal ds_Rest Hs) as Hrest. simpl in Hrest. rewrite <- Hrest in Hs. exact Hs.
Qed.

Lemma pass_brings_up desired w t w1 :
  runs (applyDeployment desired) t None → deployment_steps t w w1 →
  ∃ live, w1 = Some live ∧ brought_up w desired live ∧
    (up_to_date desired live = true ∨ stored (mergeDeployment live desired) live).
Proof.
  intros Hr Ht. destruct (pass_does _ _ _ _ _ Hr Ht) as [(Hsame & _ & Hu)|[(_ & [? [=]] & _)|Hst]].
  - destruct (Hu eq_refl) as (l & -> & Hl). inversion Hsame as [l0 ? Hl0|]; subst. exists l. split_and!; [done| |by left].
    by eapply brought_up_idle.
  - destruct Hst as (d & l & _ & -> & Hs & Hd). exists l. split_and!; [done| |].
    + eapply brought_up_stored; [done|]. destruct Hd as [?|(l0 & l1 & ? & ? & _ & ->)]; [by left|right]. by exists l0, l1.
    + apply (stored_settled desired d); [|done]. destruct Hd as [[_ ->]|(? & l1 & _ & _ & _ & ->)]; [by left|by right; exists l1].
Qed.

(** C20: the Deployment converges, although what the API server stores is what it was sent with
    its defaults filled in, as long as no other client writes its specification or
    annotations: a pass that returns no error leaves the Deployment as rendered over
    the one there was, annotations of others kept and stale digests gone; whatever passes
    with the same rendering follow, failed ones included, the specification and annotations of the
    Deployment stay as they are, so no pod is replaced again.  Those passes only send writes
    that change nothing, and where the server fills in nothing of what is rendered, none at
    all. *)
Theorem applyDeployment_converges desired w t w1 rest w2 :
  runs (applyDeployment desired) t None → deployment_steps t w w1 → deployment_passes desired rest w1 w2 →
  ∃ live live', w1 = Some live ∧ w2 = Some live' ∧ brought_up w desired live ∧ same_Deployment live live' ∧
    (df_Replicas D (ds_Replicas (dep_Spec desired)) = ds_Replicas (dep_Spec desired) →
     df_Pod D (pt_Spec (ds_Template (dep_Spec desired))) = pt_Spec (ds_Template (dep_Spec desired)) →
     df_Strategy D (ds_Strategy (dep_Spec desired)) = ds_Strategy (dep_Spec desired) →
     ∀ p, p ∈ rest → ∀ e, e ∈ p.1 → benign (ev_op e) = true).
Proof.
  intros Hr Ht Hp. destruct (pass_brings_up _ _ _ _ Hr Ht) as (live & Hw1 & Hup & Hset).
  destruct (passes_keep_settled _ _ _ _ _ Hw1 Hset Hp) as (live' & -> & Hsame & Hidle).
  exists live, live'. split_and!; [done..|]. intros Hrep Hpod Hstr. apply Hidle.
  destruct Hset as [?|Hs]; [done|]. by apply undefaulted_up_to_date.
Qed.
End Convergence.

(** ** Generated Secrets against a store *)

(** An API server that stores Secrets: [st_get] and [st_create] are the documented answers
    of a read and of a creation; [st_stored] is what it keeps of a Secret (it moves
    [StringData] to [Data]). *)
Record secret_store (W : Type) := MkSecretStore {
  st_srv : ∀ c : kcall, W → kans c * W;
  st_secrets : W → gmap (string * string) Secret;
  st_stored : Secret → Secret;
  st_get ns name w :
    match st_secrets w !! (ns, name) with
    | Some s => st_srv (KGetSecret ns name) w = (Ok s, w)
    | None => ∃ e, apierrors_IsNotFound e = true ∧ st_srv (KGetSecret ns name) w = (Err e, w)
    end;
  st_create s w :
    let key := (Namespace (sec_meta s), Name (sec_meta s)) in
    match st_secrets w !! key with
    | Some _ => ∃ e w', st_srv (KCreateSecret s) w = (Some e, w') ∧ st_secrets w' = st_secrets w
    | None => ∃ w', st_srv (KCreateSecret s) w = (None, w') ∧ st_secrets w' = <[key := st_stored s]> (st_secrets w)
    end;
  st_random n w : st_secrets (st_srv (KRandom n) w).2 = st_secrets w
}.
Arguments st_srv {W}.
Arguments st_secrets {W}.
Arguments st_stored {W}.

Section SecretStore.
Context `{KubeLib} `{!KubeLibLaws} {W : Type} (S : secret_store W).

Abbreviation run p w := (interp (S := K) (st_srv S) p w).

(** A Secret generated for the instance, with the key [key]. *)
Definition generated_for (instance : LiteLLMInstance) (name key : string) (s : Secret) : Prop :=
  ∃ token m, SetControllerReference (Meta instance) (sec_meta (generatedSecret instance name key token)) = Ok m ∧
    s = st_stored S (MkSecret m "Opaque" ∅ {[ key := "sk-" +:+ token ]}).

(** One generated Secret: an existing one is kept, an absent one is created or the store is
    left as it was. *)
Lemma ensureGeneratedSecret_store instance name key w t out w' :
  run (ensureGeneratedSecret instance name key) w = (t, out, w') →
  match st_secrets S w !! (Namespace (Meta instance), name) with
  | Some _ => out = None ∧ w' = w ∧ (∀ e, e ∈ t → benign (ev_op e) = true)
  | None =>
      match out with
      | Some _ => st_secrets S w' = st_secrets S w
      | None => ∃ s, generated_for instance name key s ∧
          st_secrets S w' = <[(Namespace (Meta instance), name) := s]> (st_secrets S w)
      end
  end.
Proof.
  unfold ensureGeneratedSecret. rewrite interp_bind. simpl.
  pose proof (st_get _ S (Namespace (Meta instance)) name w) as Hget.
  destruct (st_secrets S w !! _) as [s|] eqn:Hs.
  - rewrite Hget. simpl. intros [= <- <- <-]. split_and!; [done..|]. by intros e ->%list_elem_of_singleton.
  - destruct Hget as (e & Hnf & ->). rewrite Hnf. simpl.
    pose proof (st_random _ S 32 w) as Hrand. destruct (st_srv S (KRandom 32) w) as [b w1]. simpl in *.
    destruct (SetControllerReference _ _) as [m|err] eqn:Hm; simpl; [|by intros [= <- <- <-]].
    destruct (Name_SetController _ _ _ Hm) as [Hname Hns]. simpl in Hname, Hns.
    match goal with |- context [st_srv S (KCreateSecret ?s) w1] =>
      pose proof (st_create _ S s w1) as Hcreate; simpl in Hcreate end.
    rewrite Hname, Hns, Hrand, Hs in Hcreate. destruct Hcreate as (w2 & -> & Hw2). simpl. intros [= <- <- <-].
    eexists. split; [|exact Hw2]. eexists _, m. split; [exact Hm|done].
Qed.

(** The Secrets [reconcileSecrets] generates: their names and keys. *)
Definition generatedSecrets (instance : LiteLLMInstance) : list (string * string) :=
  let name suffix := Name (Meta instance) +:+ suffix in
  (if mk_AutoGenerate (is_MasterKey (Spec instance)) then [(name "-master-key", "master-key")] else []) ++
  match is_SaltKey (Spec instance) with
  | Some s => if salt_AutoGenerate s then [(name "-salt-key", "salt-key")] else []
  | None => []
  end.

(** The specification of a pass: every Secret is kept as it is, what is new was generated for
    the instance. *)
Definition secrets_kept (instance : LiteLLMInstance) (wanted : list (string * string))
    (m m' : gmap (string * string) Secret) : Prop :=
  m ⊆ m' ∧ ∀ k s, m' !! k = Some s → m !! k = Some s ∨
    ∃ name key, (name, key) ∈ wanted ∧ k = (Namespace (Meta instance), name) ∧ generated_for instance name key s.

Lemma ensure_kept instance name key w t out w' :
  run (ensureGeneratedSecret instance name key) w = (t, out, w') →
  secrets_kept instance [(name, key)] (st_secrets S w) (st_secrets S w') ∧
  (out = None → is_Some (st_secrets S w' !! (Namespace (Meta instance), name))).
Proof.
  intros Hr%ensureGeneratedSecret_store. unfold secrets_kept.
  destruct (st_secrets S w !! _) as [s|] eqn:Hs.
  { destruct Hr as (-> & -> & _). rewrite Hs. split_and!; [done|by left|by eauto]. }
  destruct out as [err|].
  { rewrite Hr. split_and!; [done|by left|done]. }
  destruct Hr as (s & Hgen & ->). split_and!.
  - by apply insert_subseteq.
  - intros k s' [[<- <-]|[Hne Hk]]%lookup_insert_Some; [|by left]. right. exists name, key.
    split_and!; [set_solver|done|done].
  - intros _. rewrite lookup_insert_eq. eauto.
Qed.

Lemma secrets_kept_trans instance l1 l2 m1 m2 m3 :
  secrets_kept instance l1 m1 m2 → secrets_kept instance l2 m2 m3 → secrets_kept instance (l1 ++ l2) m1 m3.
Proof.
  intros [H1 N1] [H2 N2]. split; [by etrans|]. intros k s [Hk|(n & key & Hin & ? & ?)]%N2.
  - apply N1 in Hk as [?|(n & key & Hin & ? & ?)]; [by left|]. right. exists n, key. split; [set_solver|done].
  - right. exists n, key. split; [set_solver|done].
Qed.

Lemma secrets_kept_refl instance m : secrets_kept instance [] m m.
Proof. split; [done|]. by left. Qed.
(** A generation step of [reconcileSecrets], when it is asked for. *)
Definition ensure_if (b : bool) (instance : LiteLLMInstance) (name key : string) : kprog (option error) :=
  if b then ensureGeneratedSecret instance name key else mret None.

Definition if_wanted (b : bool) (name key : string) : list (string * string) := if b then [(name, key)] else [].

Lemma ensure_if_kept b instance name key w t out w' :
  run (ensure_if b instance name key) w = (t, out, w') →
  secrets_kept instance (if_wanted b name key) (st_secrets S w) (st_secrets S w') ∧
  (out = None → ∀ n k, (n, k) ∈ if_wanted b name key → is_Some (st_secrets S w' !! (Namespace (Meta instance), n))).
Proof.
  unfold ensure_if, if_wanted. destruct b; simpl.
  - intros [Hk Hs]%ensure_kept. split; [done|]. intros Hout n k [= -> ->]%list_elem_of_singleton. auto.
  - intros [= <- <- <-]. split; [apply secrets_kept_refl|]. by intros _ n k ?%not_elem_of_nil.
Qed.

Lemma ensure_if_idle b instance name key w :
  (∀ n k, (n, k) ∈ if_wanted b name key → is_Some (st_secrets S w !! (Namespace (Meta instance), n))) →
  ∃ t, run (ensure_if b instance name key) w = (t, None, w) ∧ ∀ e, e ∈ t → benign (ev_op e) = true.
Proof.
  unfold ensure_if, if_wanted. destruct b; simpl; intros Hw.
  - destruct (run (ensureGeneratedSecret instance name key) w) as [[t out] w'] eqn:Hr.
    pose proof (ensureGeneratedSecret_store _ _ _ _ _ _ _ Hr) as Hst. destruct (Hw name key) as [s Hs]; [set_solver|].
    rewrite Hs in Hst. destruct Hst as (-> & -> & Ht). by exists t.
  - exists []. split; [done|]. by intros e ?%not_elem_of_nil.
Qed.

Lemma reconcileSecrets_eq instance :
  let salt := match is_SaltKey (Spec instance) with Some s => salt_AutoGenerate s | None => false end in
  let master := mk_AutoGenerate (is_MasterKey (Spec instance)) in
  let name suffix := Name (Meta instance) +:+ suffix in
  generatedSecrets instance =
    if_wanted master (name "-master-key") "master-key" ++ if_wanted salt (name "-salt-key") "salt-key" ∧
  reconcileSecrets instance =
    (m ← ensure_if master instance (name "-master-key") "master-key";
     match m with
     | Some err => mret (Some (Errorf "auto-generate master key: %w" [] (Some err)))
     | None =>
         s ← ensure_if salt instance (name "-salt-key") "salt-key";
         match s with
         | Some err => mret (Some (Errorf "auto-generate salt key: %w" [] (Some err)))
         | None => mret None
         end
     end).
Proof.
  split.
  - unfold generatedSecrets, if_wanted. by destruct (is_SaltKey _).
  - unfold reconcileSecrets, ensure_if. destruct (is_SaltKey _); done.
Qed.

(** C19: the generated Secrets of an instance implement an insert-if-absent store: against an
    API server that stores Secrets, a pass never changes nor removes a Secret; what it adds
    is one of the wanted Secrets, generated for the instance and owned by it; when it succeeds
    every wanted Secret is there, and the next pass only reads. *)
Theorem reconcileSecrets_refines instance w t out w' :
  run (reconcileSecrets instance) w = (t, out, w') →
  secrets_kept instance (generatedSecrets instance) (st_secrets S w) (st_secrets S w') ∧
  (out = None →
     (∀ name key, (name, key) ∈ generatedSecrets instance →
        is_Some (st_secrets S w' !! (Namespace (Meta instance), name))) ∧
     ∃ t', run (reconcileSecrets instance) w' = (t', None, w') ∧ ∀ e, e ∈ t' → benign (ev_op e) = true).
Proof.
  destruct (reconcileSecrets_eq instance) as [-> ->].
  set (master := mk_AutoGenerate _). set (salt := match is_SaltKey _ with Some _ => _ | None => _ end).
  rewrite interp_bind. destruct (run (ensure_if master _ _ _) w) as [[t1 m] w1] eqn:H1.
  destruct (ensure_if_kept _ _ _ _ _ _ _ _ H1) as [K1 N1]. destruct m as [err|]; simpl.
  { intros [= <- <- <-]. split; [|done]. rewrite <- (app_nil_r (if_wanted master _ _)).
    destruct K1 as [? HN]. split; [done|]. intros k s [?|(n & key & Hin & ?)]%HN; [by left|].
    right. exists n, key. split; [set_solver|done]. }
  rewrite interp_bind. destruct (run (ensure_if salt _ _ _) w1) as [[t2 s] w2] eqn:H2.
  destruct (ensure_if_kept _ _ _ _ _ _ _ _ H2) as [K2 N2].
  pose proof (secrets_kept_trans _ _ _ _ _ _ K1 K2) as K12.
  destruct s as [err|]; simpl; intros [= <- <- <-]; (split; [exact K12|]); [done|]. intros _.
  assert (∀ n k, (n, k) ∈ if_wanted master (Name (Meta instance) +:+ "-master-key") "master-key" →
    is_Some (st_secrets S w2 !! (Namespace (Meta instance), n))) as N1'.
  { intros n k Hin. destruct (N1 eq_refl n k Hin) as [s Hs]. exists s. destruct K2 as [Hsub _]. by eapply lookup_weaken. }
  split; [intros n k [?|?]%elem_of_app; eauto|].
  destruct (ensure_if_idle master _ _ "master-key" w2 N1') as (ta & Ha & Hta).
  destruct (ensure_if_idle salt _ _ "salt-key" w2 (N2 eq_refl)) as (tb & Hb & Htb).
  exists (ta ++ tb ++ []). split; [|intros e; rewrite !elem_of_app; set_solver].
  eapply interp_bind_eq; [exact Ha|]. eapply interp_bind_eq; [exact Hb|]. done.
Qed.
End SecretStore.
