(* ===== verification/InstanceStatus.v ===== *)
(** * The status of an instance (internal/controller/litellminstance_controller.go)

    License detection, the migration Job, the rollback of a failed rollout, pod health,
    the health probes of the proxy, and the conditions written with the status. *)

From S2P Require Import Prelude KubeTypes InstanceTypes Types Updates World Sha256 Common Reconcile.
From S2P Require Import Rollout ProxyConfig Workload Manifests PodHealth InstanceResources.
From stdpp Require Import pretty.
Open Scope Z_scope.

Section InstanceStatus.
Context `{KubeLib} `{JSONUnmarshal} `{YAMLMarshal} `{JSONMarshal PodSchedulingSpec} `{TimeFormat}.

#[local] Notation InstM := (M K LiteLLMInstance Ret_t).
#[local] Notation get := (@get K LiteLLMInstance _).
#[local] Notation modify := (@modify K LiteLLMInstance _).
#[local] Notation m_api := (@m_api KInstance _).
#[local] Notation m_event := (@m_event KInstance _).

(** A string as the text of a condition. *)
Definition string_text (s : string) : text := Sprintf "%s" [FStr s].

Definition with_condition (type status reason : string) (msg : text) (instance : LiteLLMInstance) : LiteLLMInstance :=
  map_status (λ st, with_ist_Conditions (SetStatusCondition (ist_Conditions st)
    (MkCondition type status reason msg (Generation (Meta instance)))) st) instance.

Definition without_condition (type : string) (instance : LiteLLMInstance) : LiteLLMInstance :=
  map_status (λ st, with_ist_Conditions (RemoveStatusCondition (ist_Conditions st) type) st) instance.

(** [meta.SetStatusCondition(&instance.Status.Conditions, ...)] and its removal. *)
Definition setCondition (type status reason : string) (msg : text) : InstM unit :=
  modify (with_condition type status reason msg).
Definition removeCondition (type : string) : InstM unit := modify (without_condition type).

(** [meta.IsStatusConditionTrue]. *)
Definition isConditionTrue (cs : list Condition) (type : string) : bool :=
  match FindStatusCondition cs type with
  | Some c => bool_decide (cond_Status c = ConditionTrue)
  | None => false
  end.

(** ** License *)

Definition namespaceLicense : string := "litellm-license".
Definition licenseSuffix : string := "-license".
Definition licenseSecretNames (instance : LiteLLMInstance) : list string :=
  [Name (Meta instance) +:+ licenseSuffix; namespaceLicense].

(** The loop over the names: the first Secret that holds a license key. *)
Fixpoint findLicense (ns : string) (names : list string) : kprog (option string) :=
  match names with
  | [] => mret None
  | name :: names =>
      secret ← kcallp (KGetSecret ns name);
      match secret with
      | Ok secret =>
          match sec_Data secret !! "license-key" with
          | Some _ => mret (Some name)
          | None => findLicense ns names
          end
      | Err _ => findLicense ns names
      end
  end.

Definition reconcileLicense : InstM string :=
  instance ← get;
  found ← lift (findLicense (Namespace (Meta instance)) (licenseSecretNames instance));
  match found with
  | Some name =>
      modify (map_status (with_ist_License (Some (MkLicenseStatus true name)))) ;;
      mret name
  | None =>
      modify (map_status (with_ist_License (Some (MkLicenseStatus false "")))) ;;
      mret ""
  end.

(** ** Migration *)

Definition migrationEnabled (instance : LiteLLMInstance) : bool :=
  match db_Migration (is_Database (Spec instance)) with Some m => mig_Enabled m | None => false end.

Definition reconcileMigrationStatus (labels : gmap string string) : InstM unit :=
  instance ← get;
  if workloadManaged instance then
    if migrationEnabled instance then
      '(done, err) ← lift (reconcileMigrationJob instance labels);
      match err with
      | Some err => setCondition ConditionDatabaseReady ConditionFalse "MigrationFailed" (err_text err)
      | None =>
          if done : bool then
            setCondition ConditionDatabaseReady ConditionTrue "MigrationComplete"
              (lit "Database migration completed successfully")
          else
            setCondition ConditionDatabaseReady ConditionFalse "MigrationRunning"
              (lit "Database migration is in progress")
      end
    else
      setCondition ConditionDatabaseReady ConditionTrue "MigrationSkipped"
        (lit "Database migration not enabled; LiteLLM handles migrations on startup")
  else
    setCondition ConditionDatabaseReady ConditionTrue "WorkloadUnmanaged"
      (lit (if migrationEnabled instance
            then "spec.database.migration is ignored while workload.managed is false; schema is owned by the externally-managed proxy"
            else "Schema is owned by the externally-managed proxy")).

(** ** Rollback *)

Definition revisionAnnotation : string := "deployment.kubernetes.io/revision".

Definition currentRevision (dep : Deployment) : string :=
  map_get_str (default ∅ (Annotations (dep_meta dep))) revisionAnnotation.

Definition healthyDeployment (dep : Deployment) : bool :=
  (dst_AvailableReplicas (dep_Status dep) =? dst_Replicas (dep_Status dep)) && (0 <? dst_Replicas (dep_Status dep)).

Definition progressDeadlineExceeded (c : DeploymentCondition) : bool :=
  bool_decide (dc_Type c = "Progressing" ∧ dc_Status c = ConditionFalse ∧ dc_Reason c = "ProgressDeadlineExceeded").

(** [dep.Spec.Template.Annotations[autoRollbackPodTemplateAnnotation] = now]. *)
Definition restartAnnotated (now : Time) (dep : Deployment) : Deployment :=
  map_template (λ t, MkPodTemplate (pt_Labels t)
    (Some (<[autoRollbackPodTemplateAnnotation := Format_RFC3339 now]> (default ∅ (pt_Annotations t)))) (pt_Spec t)) dep.

Definition autoRollbackEnabled (instance : LiteLLMInstance) : bool :=
  match is_Upgrade (Spec instance) with Some u => upg_AutoRollback u | None => false end.

Definition triggerRollback (dep : Deployment) (lastGood : string) : InstM unit :=
  now ← lift (kcallp KNow);
  r ← lift (kcallp (KUpdateRes RDeployment (restartAnnotated now dep)));
  match r with
  | Some _ => mret tt
  | None =>
      setCondition ConditionReady ConditionFalse "AutoRollback"
        (Sprintf "Auto-rollback triggered from revision %s (last successful: %s)"
           [FStr (currentRevision dep); FStr lastGood])
  end.

Definition reconcileAutoRollback : InstM unit :=
  instance ← get;
  when (autoRollbackEnabled instance) (
    dep ← lift (kcallp (KGetRes RDeployment (Namespace (Meta instance)) (Name (Meta instance))));
    match dep with
    | Err _ => mret tt
    | Ok dep =>
        let revision := currentRevision dep in
        let lastGood := ist_LastSuccessfulRevision (Status instance) in
        if healthyDeployment dep then
          when (bool_decide (lastGood ≠ revision))
            (modify (map_status (with_ist_LastSuccessfulRevision revision)))
        else
          when (bool_decide (lastGood ≠ "" ∧ lastGood ≠ revision) &&
                existsb progressDeadlineExceeded (dst_Conditions (dep_Status dep)))
            (triggerRollback dep lastGood)
    end).

(** ** Pods *)

Definition podsMessage (unhealthy : list UnhealthyPod) (first : UnhealthyPod) : string :=
  let msg := pretty (Z.of_nat (length unhealthy)) +:+ " unhealthy pod(s); " +:+ up_Name first +:+ ": " +:+ up_Reason first in
  if decide (up_Message first = "") then msg else truncateStatusMessage (msg +:+ " — " +:+ up_Message first).

Definition setPodsHealthyCondition : InstM unit :=
  instance ← get;
  if ist_Ready (Status instance) then
    modify (map_status (with_ist_UnhealthyPods [])) ;;
    setCondition ConditionPodsHealthy ConditionTrue "AllPodsHealthy" (lit "Proxy pods are running")
  else
    let prev := FindStatusCondition (ist_Conditions (Status instance)) ConditionPodsHealthy in
    unhealthy ← lift (inspectPodHealth instance);
    modify (map_status (with_ist_UnhealthyPods unhealthy)) ;;
    match unhealthy with
    | [] =>
        setCondition ConditionPodsHealthy ConditionFalse "PodsNotReady" (lit "Waiting for proxy pods to become ready")
    | first :: _ =>
        setCondition ConditionPodsHealthy ConditionFalse (up_Reason first) (string_text (podsMessage unhealthy first)) ;;
        when (match prev with Some c => bool_decide (cond_Reason c ≠ up_Reason first) | None => true end)
          (m_event EventTypeWarning EventReasonHealthDegraded "Proxy pod %s: %s %s"
             [FStr (up_Name first); FStr (up_Reason first); FStr (up_Message first)])
    end.

(** ** Probes of the proxy

    The client factory of a running manager is set (cmd/main.go); a timeout of a probe is
    one of its errors. *)

(** The client of the proxy at [status.endpoint], when the master key can be read. *)
Definition proxyClient (instance : LiteLLMInstance) : kprog (option ApiClient) :=
  match masterKeyRef instance with
  | None => mret None
  | Some ref =>
      masterKey ← getSecretValue (Namespace (Meta instance)) (Some ref);
      match masterKey with
      | Err _ => mret None
      | Ok masterKey =>
          caCert ← operatorProxyCACert instance;
          mret (Some (MkApiClient (ist_Endpoint (Status instance)) masterKey caCert))
      end
  end.

Definition proxyReachable (instance : LiteLLMInstance) : kprog bool :=
  cl ← proxyClient instance;
  match cl with
  | None => mret false
  | Some cl =>
      r ← api cl HealthCheckLiveness;
      mret (match r with None => true | Some _ => false end)
  end.

Definition isRedisBackedCaching (instance : LiteLLMInstance) : bool :=
  match is_Caching (Spec instance) with
  | None => false
  | Some c => cch_Enabled c && bool_decide (cch_Type c ∈ [""; "redis"; "redis-semantic"])
  end.

(** [strings.EqualFold(s, t)], for a [t] of lower-case letters other than i, k and s. *)
Definition strings_EqualFold (s t : string) : bool := bool_decide (strings_ToLower s = t).

Definition redisConnected (ping : res CachePingResponse error) : bool :=
  match ping with
  | Ok ping => cpr_PingResponse ping || strings_EqualFold (cpr_Status ping) "healthy"
  | Err _ => false
  end.

Definition redisEnabled (instance : LiteLLMInstance) : bool :=
  match is_Redis (Spec instance) with Some r => rd_Enabled r | None => false end.

Definition probeRedisHealth (cl : ApiClient) : InstM unit :=
  instance ← get;
  if redisEnabled instance then
    let prevConnected := match ist_Redis (Status instance) with Some r => rdst_Connected r | None => false end in
    if isRedisBackedCaching instance then
      ping ← m_api cl HealthCachePing;
      let connected := redisConnected ping in
      modify (map_status (with_ist_Redis (Some (MkRedisStatus connected)))) ;;
      if connected then
        setCondition ConditionRedisReady ConditionTrue "RedisConnected" (lit "Redis connection is healthy") ;;
        when (negb prevConnected)
          (m_event EventTypeNormal EventReasonRedisConnected "Redis connection restored" [])
      else
        setCondition ConditionRedisReady ConditionFalse "RedisDisconnected"
          (match ping with
           | Err err => Sprintf "Redis cache ping failed: %v" [FErr err]
           | Ok _ => lit "Redis connection is not healthy"
           end) ;;
        when prevConnected
          (m_event EventTypeWarning EventReasonRedisDisconnected "Redis connection lost" [])
    else
      modify (map_status (with_ist_Redis (Some (MkRedisStatus true)))) ;;
      setCondition ConditionRedisReady ConditionTrue "RedisConfigured"
        (lit "Redis is configured; enable Redis response caching to surface runtime connectivity checks")
  else
    modify (map_status (with_ist_Redis None)) ;;
    removeCondition ConditionRedisReady.

(** What a failed probe leaves: Ready is false, with an event when it was true. *)
Definition probeFailed (reason fmt : string) (previouslyHealthy : bool) (err : error) : InstM unit :=
  setCondition ConditionReady ConditionFalse reason (Sprintf fmt [FErr err]) ;;
  when previouslyHealthy (m_event EventTypeWarning EventReasonHealthDegraded fmt [FErr err]).

Definition probeInstanceHealth : InstM unit :=
  instance ← get;
  cl ← lift (proxyClient instance);
  match cl with
  | None => mret tt
  | Some cl =>
      let previouslyHealthy := isConditionTrue (ist_Conditions (Status instance)) ConditionReady in
      live ← m_api cl HealthCheckLiveness;
      match live with
      | Some err => probeFailed "LivenessProbeFailed" "LiteLLM liveness probe failed: %v" previouslyHealthy err
      | None =>
          readiness ← m_api cl HealthReadiness;
          match readiness with
          | Err err => probeFailed "ReadinessProbeFailed" "LiteLLM readiness probe failed: %v" previouslyHealthy err
          | Ok readiness =>
              when (negb (workloadManaged instance) && bool_decide (rr_LiteLLMVersion readiness ≠ ""))
                (modify (map_status (with_ist_Version (rr_LiteLLMVersion readiness)))) ;;
              when (negb previouslyHealthy)
                (m_event EventTypeNormal EventReasonHealthRestored "LiteLLM instance is healthy again" []) ;;
              probeRedisHealth cl
          end
      end
  end.
End InstanceStatus.
