(* ===== verification/Instance.v ===== *)
(** * The instance controller (internal/controller/litellminstance_controller.go)

    [updateInstanceStatus], [reconcileResources], [ReconcileInstance] and the watches,
    composed from [InstanceResources] and [InstanceStatus]. *)

From S2P Require Import Prelude KubeTypes InstanceTypes Types Updates World Sha256 Common Reconcile.
From S2P Require Import VirtualKey Rollout ProxyConfig Workload Manifests PodHealth InstanceResources InstanceStatus.
Open Scope Z_scope.

Section Instance.
Context `{KubeLib} `{JSONUnmarshal} `{YAMLMarshal} `{JSONMarshal PodSchedulingSpec} `{SemanticDeepEqual DeploymentSpec} `{SemanticDeepEqual KServiceSpec} `{TimeFormat}.

#[local] Notation InstM := (M K LiteLLMInstance Ret_t).
#[local] Notation get := (@get K LiteLLMInstance _).
#[local] Notation modify := (@modify K LiteLLMInstance _).
#[local] Notation m_event := (@m_event KInstance _).

(** ** Validation *)

Definition reconcileSecretManagerStatus : InstM unit :=
  instance ← get;
  match is_SecretManager (Spec instance) with
  | None => modify (map_status (with_ist_SecretManager None))
  | Some sm =>
      modify (map_status (with_ist_SecretManager (Some (MkSecretManagerStatus true (sm_Provider sm))))) ;;
      match sm_CredentialsSecretRef sm with
      | None => mret tt
      | Some ref =>
          secret ← lift (kcallp (KGetSecret (Namespace (Meta instance)) (sr_Name ref)));
          match secret with
          | Ok _ => mret tt
          | Err _ =>
              modify (map_status (with_ist_SecretManager (Some (MkSecretManagerStatus false (sm_Provider sm))))) ;;
              m_event EventTypeWarning EventReasonSecretNotFound
                "Secret manager credentials Secret %q not found" [FStr (sr_Name ref)]
          end
      end
  end.

Definition requireSecretKeys (name field : string) (keys : list string) : InstM unit :=
  instance ← get;
  secret ← lift (kcallp (KGetSecret (Namespace (Meta instance)) name));
  match secret with
  | Err _ =>
      m_event EventTypeWarning EventReasonSecretNotFound "%s: Secret %q not found" [FStr field; FStr name]
  | Ok secret =>
      for_each keys (λ k,
        match sec_Data secret !! k with
        | Some _ => mret tt
        | None =>
            m_event EventTypeWarning EventReasonSecretKeyMissing "%s: Secret %q is missing key %q"
              [FStr field; FStr name; FStr k]
        end)
  end.

Definition for_some {A} (o : option A) (f : A → InstM unit) : InstM unit :=
  match o with Some a => f a | None => mret tt end.

Definition caKey (ref : CASecretRef) : string := if decide (ca_Key ref = "") then caCrtKey else ca_Key ref.

Definition validateTLSSecrets : InstM unit :=
  instance ← get;
  for_some (is_TLS (Spec instance)) (λ tls,
    for_some (tls_ServerCertSecretRef tls) (λ ref,
      requireSecretKeys (sr_Name ref) "spec.tls.serverCertSecretRef" ["tls.crt"; "tls.key"] ;;
      ca ← lift (operatorProxyCACert instance);
      when (bool_decide (ca = ""))
        (m_event EventTypeWarning EventReasonValidationFailed
           "spec.tls.serverCertSecretRef: serving HTTPS but no CA is resolvable for operator->proxy calls; add ca.crt to the server cert Secret or set spec.tls.trustedCASecretRef (a publicly-trusted cert needs neither)" [])) ;;
    for_some (tls_ClientCertSecretRef tls) (λ ref,
      requireSecretKeys (sr_Name ref) "spec.tls.clientCertSecretRef" ["tls.crt"; "tls.key"]) ;;
    for_some (tls_TrustedCASecretRef tls) (λ ref,
      requireSecretKeys (ca_Name ref) "spec.tls.trustedCASecretRef" [caKey ref])) ;;
  for_some (db_TLS (is_Database (Spec instance))) (λ dbTLS,
    for_some (dbtls_CASecretRef dbTLS) (λ ref,
      requireSecretKeys (ca_Name ref) "spec.database.tls.caSecretRef" [caKey ref]) ;;
    for_some (dbtls_ClientCertSecretRef dbTLS) (λ ref,
      requireSecretKeys (sr_Name ref) "spec.database.tls.clientCertSecretRef" ["tls.crt"; "tls.key"])).

Definition enterpriseFeatures (instance : LiteLLMInstance) : list string :=
  match is_JWTAuth (Spec instance) with
  | Some jwt => if jwt_Enabled jwt then ["JWT auth"] else []
  | None => []
  end ++
  match is_OAuth2Auth (Spec instance) with
  | Some oa => if oa_Enabled oa then ["OAuth2 auth"] else []
  | None => []
  end ++
  match is_RBAC (Spec instance) with
  | Some rbac =>
      if rbac_Enabled rbac && (bool_decide (is_Some (rbac_KeyGeneration rbac)) ||
                               negb (bool_decide (rbac_RolePermissions rbac = ∅)))
      then ["RBAC (key_generation_settings, role_permissions)"] else []
  | None => []
  end.

Definition enterpriseCondition : string := "EnterpriseFeaturesConfigured".

Definition checkEnterpriseFeaturesWarning : InstM unit :=
  instance ← get;
  let hasLicense := match ist_License (Status instance) with Some l => lic_Active l | None => false end in
  let features := enterpriseFeatures instance in
  if bool_decide (features ≠ []) && negb hasLicense then
    let msg := strings_Join features ", " +:+ " requires a LiteLLM Enterprise license" in
    setCondition enterpriseCondition ConditionTrue "EnterpriseFeaturesConfigured" (string_text msg) ;;
    m_event EventTypeWarning EventReasonEnterpriseRequired msg []
  else removeCondition enterpriseCondition.

(** ** The status *)

Definition updateReadiness : InstM unit :=
  instance ← get;
  if workloadManaged instance then
    dep ← lift (kcallp (KGetRes RDeployment (Namespace (Meta instance)) (Name (Meta instance))));
    match dep with
    | Ok dep =>
        modify (map_status (λ st,
          with_ist_Ready (0 <? dst_ReadyReplicas (dep_Status dep))
            (with_ist_ReadyReplicas (dst_ReadyReplicas (dep_Status dep))
              (with_ist_Replicas (dst_Replicas (dep_Status dep)) st))))
    | Err _ => mret tt
    end ;;
    setPodsHealthyCondition
  else
    ready ← lift (proxyReachable instance);
    modify (map_status (λ st,
      with_ist_UnhealthyPods [] (with_ist_ReadyReplicas 0 (with_ist_Replicas 0 (with_ist_Ready ready st))))) ;;
    removeCondition ConditionPodsHealthy.

Definition updateVersion : InstM unit :=
  instance ← get;
  when (workloadManaged instance)
    (modify (map_status (with_ist_Version
      (if decide (img_Tag (is_Image (Spec instance)) = "") then "latest" else img_Tag (is_Image (Spec instance)))))).

Definition updateIgnoredSections : InstM unit :=
  instance ← get;
  let ignored := ignoredConfigSections instance in
  if negb (workloadManaged instance) && bool_decide (ignored ≠ []) then
    setCondition ConditionWorkloadUnmanaged ConditionTrue "ConfigSettingsIgnored"
      (Sprintf "Ignored while workload.managed is false; the proxy owns its own configuration: %s"
         [FStr (strings_Join ignored ", ")])
  else removeCondition ConditionWorkloadUnmanaged.

Definition updateSSO : InstM unit :=
  instance ← get;
  for_some (is_SSO (Spec instance)) (λ sso,
    when (sso_Enabled sso) (modify (map_status (with_ist_SSO (Some (MkSSOStatus true (sso_Provider sso))))))).

(** The Ready condition, before the proxy is probed. *)
Definition updateReadyCondition (reconcileErr : option error) : InstM unit :=
  instance ← get;
  match reconcileErr with
  | Some err =>
      setCondition ConditionReady ConditionFalse "ReconcileError" (err_text err) ;;
      m_event EventTypeWarning EventReasonReconcileFailed "Reconcile failed: %v" [FErr err]
  | None =>
      let endpoint := ist_Endpoint (Status instance) in
      if ist_Ready (Status instance) then
        if workloadManaged instance then
          setCondition ConditionReady ConditionTrue "AllResourcesReady" (lit "All managed resources are ready")
        else
          setCondition ConditionReady ConditionTrue "ProxyReachable"
            (Sprintf "Attached to externally-managed proxy at %s" [FStr endpoint])
      else
        if workloadManaged instance then
          setCondition ConditionReady ConditionFalse "DeploymentNotReady" (lit "Waiting for deployment to become ready")
        else
          setCondition ConditionReady ConditionFalse "ProxyNotReachable"
            (Sprintf "Externally-managed proxy at %s did not answer" [FStr endpoint])
  end.

(** [updateInstanceStatus] up to the Ready condition, and from it on. *)
Definition updateBeforeReady : InstM unit :=
  modify (λ instance : LiteLLMInstance, map_status (with_ist_Endpoint (instanceEndpoint instance)) instance) ;;
  updateReadiness ;;
  updateVersion ;;
  updateIgnoredSections ;;
  updateSSO ;;
  checkEnterpriseFeaturesWarning ;;
  reconcileSecretManagerStatus ;;
  validateTLSSecrets.

Definition updateReady (reconcileErr : option error) : InstM unit :=
  updateReadyCondition reconcileErr ;;
  instance ← get;
  when (ist_Ready (Status instance)) probeInstanceHealth ;;
  instance ← get;
  _ ← lift (kcallp (KStatusUpdate KInstance instance));
  mret tt.

Definition updateInstanceStatus (reconcileErr : option error) : InstM unit :=
  updateBeforeReady ;; updateReady reconcileErr.

(** ** The objects of the instance *)

(** [if err := m(); err != nil { reconcileErr = err }] *)
Definition also (reconcileErr : option error) (m : InstM (option error)) : InstM (option error) :=
  r ← m; mret (match r with Some err => Some err | None => reconcileErr end).

(** [if enabled { ... }] around it. *)
Definition also_if (enabled : bool) (reconcileErr : option error) (m : InstM (option error)) : InstM (option error) :=
  if enabled then also reconcileErr m else mret reconcileErr.

(** [p != nil && p.Enabled]. *)
Definition enabled {A} (p : option A) (f : A → bool) : bool :=
  match p with Some a => f a | None => false end.

Definition reconcileNetworkingResources (labels : gmap string string) : InstM (option error) :=
  instance ← get;
  let sp := Spec instance in
  e ← also_if (enabled (is_Ingress sp) ing_Enabled) None (lift (reconcileIngress instance labels));
  e ← also_if (enabled (is_Route sp) route_Enabled) e (lift (reconcileRoute instance labels));
  also_if (enabled (is_GatewayHTTPRoute sp) ghr_Enabled) e (lift (reconcileHTTPRoute instance labels)).

Definition reconcileScalingResources (labels : gmap string string) : InstM (option error) :=
  instance ← get;
  let sp := Spec instance in
  e ← also_if (enabled (is_Autoscaling sp) as_Enabled) None (lift (reconcileHPA instance labels));
  e ← also_if (enabled (is_PodDisruptionBudget sp) pdb_Enabled) e (lift (reconcilePDB instance labels));
  also_if (enabled (is_Security sp) (λ s, enabled (secu_NetworkPolicy s) np_Enabled)) e
    (lift (reconcileNetworkPolicy instance labels)).

Definition scimSecretName (scim : SCIMSpec) : string :=
  if decide (scim_GeneratedTokenSecretName scim = "") then "litellm-scim-token" else scim_GeneratedTokenSecretName scim.

Definition reconcileSCIMToken (scim : SCIMSpec) : InstM (option error) :=
  let configured name := modify (map_status (with_ist_SCIM (Some (MkSCIMStatus true name)))) in
  match scim_TokenSecretRef scim with
  | Some ref => configured (skr_Name ref) ;; mret None
  | None =>
      instance ← get;
      r ← lift (ensureGeneratedSecret instance (scimSecretName scim) "token");
      match r with
      | Some err => mret (Some err)
      | None => configured (scimSecretName scim) ;; mret None
      end
  end.

Definition reconcileSecurityResources : InstM (option error) :=
  instance ← get;
  match is_SCIM (Spec instance) with
  | Some scim => if scim_Enabled scim then reconcileSCIMToken scim else mret None
  | None => mret None
  end.

(** The errors of the kinds whose CRDs may be absent are only logged. *)
Definition reconcileObservabilityResources (labels : gmap string string) : InstM (option error) :=
  instance ← get;
  let sp := Spec instance in
  let observed {A} (f : ObservabilitySpec → option A) (g : A → bool) := enabled (is_Observability sp) (λ o, enabled (f o) g) in
  when (observed obs_ServiceMonitor smon_Enabled)
    (_ ← lift (reconcileServiceMonitor instance labels); mret tt) ;;
  when (observed obs_PrometheusRule prule_Enabled)
    (_ ← lift (reconcilePrometheusRule instance labels); mret tt) ;;
  e ← also_if (observed obs_GrafanaDashboard gd_Enabled) None (lift (reconcileGrafanaDashboard instance labels));
  when (enabled (db_CloudNativePG (is_Database sp)) (λ c, enabled (cnpg_Backup c) cnpgb_Enabled)) (
    r ← lift (reconcileCNPGBackup instance labels);
    match r with
    | Some _ => mret tt
    | None => modify (map_status (with_ist_Backup (Some (MkBackupStatus true None ""))))
    end) ;;
  mret e.

Definition reconcileOptionalResources (labels : gmap string string) : InstM (option error) :=
  e ← also None (reconcileNetworkingResources labels);
  e ← also e (reconcileScalingResources labels);
  e ← also e reconcileSecurityResources;
  also e (reconcileObservabilityResources labels).

Definition reconcileResources (labels : gmap string string) (licenseSecretName : string)
    (guardrails : list LiteLLMGuardrail) : InstM (option error) :=
  instance ← get;
  e ← also None (lift (reconcileSecrets instance));
  e ← also e (lift (reconcileConfigMap instance labels guardrails));
  e ← also e (lift (reconcileServiceAccount instance labels));
  e ← also e (lift (reconcileDeployment instance labels licenseSecretName guardrails));
  e ← also e (lift (reconcileService instance labels));
  also e (reconcileOptionalResources labels).

(** ** The loop *)

(** The guardrails bound to the instance and not being deleted. *)
Definition boundGuardrails (instance : LiteLLMInstance) (items : list LiteLLMGuardrail) : list LiteLLMGuardrail :=
  filter (λ g : LiteLLMGuardrail, DeletionTimestamp (Meta g) = None ∧
    ir_Name (grs_InstanceRef (Spec g)) = Name (Meta instance)) items.

Definition listGuardrailsForInstance (instance : LiteLLMInstance) : kprog (res (list LiteLLMGuardrail) error) :=
  items ← kcallp (KList KGuardrail (Some (Namespace (Meta instance))));
  match items with
  | Err err => mret (Err err)
  | Ok items => mret (Ok (boundGuardrails instance items))
  end.

Definition handleInstanceDeletion (instance : LiteLLMInstance) : kprog Ret_t :=
  if ContainsFinalizer (Meta instance) FinalizerName then
    r ← kcallp (KUpdate KInstance (set_meta (RemoveFinalizer (Meta instance) FinalizerName) instance));
    mret (Result0, match r with Ok _ => None | Err err => Some err end)
  else mret (Result0, None).

(** The part of [Reconcile] that the unmanaged workload skips. *)
Definition reconcileWorkload (labels : gmap string string) (licenseSecretName : string)
    (guardrails : list LiteLLMGuardrail) : InstM (option error) :=
  reconcileErr ← reconcileResources labels licenseSecretName guardrails;
  reconcileAutoRollback ;;
  mret reconcileErr.

(** [Reconcile] once the object is fetched, alive and carries the finalizer. *)
Definition reconcileInstance : InstM Ret_t :=
  instance ← get;
  let labels := labelsForInstance (Name (Meta instance)) in
  licenseSecretName ← reconcileLicense;
  guardrails ← lift (listGuardrailsForInstance instance);
  let guardrails := match guardrails with Ok l => l | Err _ => [] end in
  reconcileMigrationStatus labels ;;
  reconcileErr ←
    (if workloadManaged instance then reconcileWorkload labels licenseSecretName guardrails else mret None);
  updateInstanceStatus reconcileErr ;;
  mret (RequeueIn (match reconcileErr with Some _ => 30 | None => 60 end * time_Second), None).

Definition ReconcileInstance (ns name : string) : kprog Ret_t :=
  r ← kcallp (KGet KInstance ns name);
  match r with
  | Err err => mret (Result0, IgnoreNotFound err)
  | Ok instance =>
      match DeletionTimestamp (Meta instance) with
      | Some _ => handleInstanceDeletion instance
      | None =>
          if ContainsFinalizer (Meta instance) FinalizerName then
            '(_, r) ← run_M reconcileInstance instance; mret r
          else
            r ← kcallp (KUpdate KInstance (set_meta (AddFinalizer (Meta instance) FinalizerName) instance));
            mret (Result0, match r with Ok _ => None | Err err => Some err end)
      end
  end.

(** ** Watches *)

(** A [reconcile.Request]: namespace and name. *)
Definition request (o : LiteLLMInstance) : string * string := (Namespace (Meta o), Name (Meta o)).

Definition findInstanceForLicenseSecret (secret : Secret) : kprog (list (string * string)) :=
  let ns := Namespace (sec_meta secret) in
  if decide (Name (sec_meta secret) = namespaceLicense) then
    instances ← kcallp (KList KInstance (Some ns));
    match instances with
    | Err _ => mret []
    | Ok instances => mret (request <$> instances)
    end
  else if strings_HasSuffix (Name (sec_meta secret)) licenseSuffix then
    mret [(ns, strings_TrimSuffix (Name (sec_meta secret)) licenseSuffix)]
  else mret [].

Definition findInstanceForGuardrail (g : LiteLLMGuardrail) : list (string * string) :=
  let name := ir_Name (grs_InstanceRef (Spec g)) in
  if decide (name = "") then [] else [(Namespace (Meta g), name)].
End Instance.
