(* ===== verification/InstanceCalls.v ===== *)
(** * What a pass over an instance may do

    [keeps G I m]: run on an instance that satisfies [I], the handler [m] makes only calls
    that [G] allows and leaves an instance that satisfies [I].  The rules follow the
    constructs of the handlers, and give the calls of a whole pass. *)

From S2P Require Import Prelude KubeTypes InstanceTypes Types Updates World Sha256 Common Reconcile.
From S2P Require Import VirtualKey Rollout ProxyConfig Workload Manifests PodHealth InstanceResources InstanceStatus Instance.
Open Scope Z_scope.

Section Keeps.
Context (G : khist → kcall → Prop) `{!benign_ok G} (I : LiteLLMInstance → Prop).

#[local] Notation InstM := (M K LiteLLMInstance Ret_t).

Definition keeps {A} (m : InstM A) : Prop :=
  ∀ s h, I s → wpM G any_answer m s h (λ _ s' _, I s').

(** The calls of a program that does not touch the instance. *)
Definition calls {A} (p : kprog A) (Q : A → Prop) : Prop := ∀ h, wp G any_answer p h (λ _ a, Q a).

Lemma keeps_ret {A} (a : A) : keeps (mret a).
Proof. by intros s h Hs. Qed.
Lemma keeps_modify f : (∀ s, I s → I (f s)) → keeps (modify f).
Proof. intros Hf s h Hs. mstep. by apply Hf. Qed.
Lemma keeps_lift {A} (p : kprog A) : calls p (λ _, True) → keeps (lift p).
Proof. intros Hp s h Hs. mstep. eapply wp_mono; [apply Hp|]. done. Qed.

Lemma keeps_bind {A B} (m : InstM A) (f : A → InstM B) :
  keeps m → (∀ a, keeps (f a)) → keeps (m ≫= f).
Proof.
  intros Hm Hf s h Hs. mstep. eapply wpM_mono; [by apply Hm|]. intros h' s' [e|a] Hs'; [done|]. by apply Hf.
Qed.

Lemma keeps_get {B} (f : LiteLLMInstance → InstM B) :
  (∀ s, I s → keeps (f s)) → keeps (get ≫= f).
Proof. intros Hf s h Hs. mstep. mstep. by apply Hf. Qed.

Lemma keeps_lift_bind {A B} (p : kprog A) (Q : A → Prop) (f : A → InstM B) :
  calls p Q → (∀ a, Q a → keeps (f a)) → keeps (lift p ≫= f).
Proof.
  intros Hp Hf s h Hs. mstep. mstep. eapply wp_mono; [apply Hp|]. intros h' a HQ. by apply Hf.
Qed.

Lemma keeps_when b (m : InstM unit) : (b = true → keeps m) → keeps (when b m).
Proof. intros Hm. destruct b; [by apply Hm|apply keeps_ret]. Qed.

Lemma keeps_for_each {A} (l : list A) (body : A → InstM unit) :
  (∀ x, keeps (body x)) → keeps (for_each l body).
Proof.
  intros Hb. induction l as [|x l IH]; [apply keeps_ret|]. by apply keeps_bind; [apply Hb|intros _].
Qed.

Lemma keeps_event t r f a : keeps (@m_event KInstance _ t r f a).
Proof. intros s h Hs. mstep; [by apply benign_holds|done]. Qed.

Lemma keeps_api c r : (∀ h, G h (KApi c r)) → keeps (@m_api KInstance _ c r).
Proof. intros HG s h Hs. mstep; [apply HG|done]. Qed.

Lemma calls_ret {A} (a : A) (Q : A → Prop) : Q a → calls (mret a) Q.
Proof. by intros HQ h. Qed.
Lemma calls_bind {A B} (p : kprog A) (P : A → Prop) (f : A → kprog B) (Q : B → Prop) :
  calls p P → (∀ a, P a → calls (f a) Q) → calls (p ≫= f) Q.
Proof. intros Hp Hf h. kstep. eapply wp_mono; [apply Hp|]. intros h' a HP. by apply Hf. Qed.
Lemma calls_benign c (Q : kans c → Prop) : benign c = true → (∀ x, Q x) → calls (kcallp c) Q.
Proof. intros Hc HQ h. kstep; [by apply benign_holds|done]. Qed.
Lemma calls_event {k} (o : obj k) t r f a (Q : unit → Prop) : Q tt → calls (emitEvent o t r f a) Q.
Proof. intros HQ h. kstep; [by apply benign_holds|done]. Qed.
Lemma calls_mono {A} (p : kprog A) (Q Q' : A → Prop) : calls p Q → (∀ a, Q a → Q' a) → calls p Q'.
Proof. intros Hp HQ h. eapply wp_mono; [apply Hp|]. auto. Qed.
End Keeps.

Create HintDb keeps.

(** Structural proof: the rules, branch by branch. *)
Ltac keeps_step :=
  lazymatch goal with
  | |- ∀ _, _ => intros
  | |- keeps _ _ (get ≫= _) => apply keeps_get
  | |- keeps _ _ (lift _ ≫= _) => first [solve [eauto with keeps] | apply (keeps_lift_bind _ _ _ (λ _, True))]
  | |- keeps _ _ (_ ≫= _) => apply keeps_bind
  | |- keeps _ _ (mret _) => apply keeps_ret
  | |- keeps _ _ (modify _) => apply keeps_modify
  | |- keeps _ _ (lift _) => apply keeps_lift
  | |- keeps _ _ (when _ _) => apply keeps_when
  | |- keeps _ _ (for_each _ _) => apply keeps_for_each
  | |- keeps _ _ (m_event _ _ _ _) => exact (keeps_event _ _ _ _ _ _)
  | |- keeps _ _ (m_api _ _) => apply keeps_api
  | |- calls _ (mret _) _ => apply calls_ret
  | |- calls _ (kcallp _) _ => eapply calls_benign; [apply _|reflexivity|]
  | |- calls _ (emitEvent _ _ _ _ _) _ => apply calls_event
  | |- benign_ok _ => apply _
  | |- calls _ (_ ≫= _) _ => apply (calls_bind _ _ (λ _, True))
  | |- _ => first [done | solve [eauto with keeps] | case_match]
  end.

Ltac keeps_tac := repeat keeps_step.

Section PassCalls.
Context `{KubeLib} `{!KubeLibLaws} `{JSONUnmarshal} `{YAMLMarshal} `{JSONMarshal PodSchedulingSpec} `{SemanticDeepEqual DeploymentSpec} `{SemanticDeepEqual KServiceSpec}.
Context `{TimeFormat} (i : LiteLLMInstance).

(** The objects a managed workload of [i] consists of, by kind and name: all in its
    namespace, and no other is ever written. *)
Definition owned_objects : list (Res * string) :=
  let name := Name (Meta i) in
  [(RDeployment, name); (RService, name); (RServiceAccount, name); (RJob, jobName i);
   (RConfigMap, name +:+ "-config"); (RConfigMap, name +:+ "-grafana-dashboard");
   (ROther "networking.k8s.io/Ingress", name); (ROther "autoscaling/HorizontalPodAutoscaler", name);
   (ROther "policy/PodDisruptionBudget", name); (ROther "networking.k8s.io/NetworkPolicy", name);
   (ROther "route.openshift.io/Route", name); (ROther "gateway.networking.k8s.io/HTTPRoute", name);
   (ROther "monitoring.coreos.com/ServiceMonitor", name);
   (ROther "monitoring.coreos.com/PrometheusRule", name +:+ "-alerts");
   (ROther "postgresql.cnpg.io/ScheduledBackup", name +:+ "-backup")].

Definition owned_secrets : list string :=
  [Name (Meta i) +:+ "-master-key"; Name (Meta i) +:+ "-salt-key"] ++
  match is_SCIM (Spec i) with Some scim => [scimSecretName scim] | None => [] end.

(** The object is the one of [i] of its kind: its namespace and name. *)
Definition placed (r : Res) (m : ObjectMeta) : Prop :=
  Namespace m = Namespace (Meta i) ∧ (r, Name m) ∈ owned_objects.

(** The object of that kind and name was not found in the pass. *)
Definition res_absent (h : khist) (r : Res) (m : ObjectMeta) : Prop :=
  ∃ err, KEv (KGetRes r (Namespace m) (Name m)) (Err err) ∈ h ∧ apierrors_IsNotFound err = true.

(** [m] is written over the object [live]: on its version, and either as an object that [i]
    controls, under the name that was read, or as [live] itself, with other labels and
    annotations. *)
Definition written_over (n : string) (live m : ObjectMeta) : Prop :=
  ResourceVersion m = ResourceVersion live ∧
  ((Namespace m = Namespace (Meta i) ∧ Name m = n ∧ IsControlledBy m (Meta i) = true) ∨
   ∃ l a, m = set_labels_annotations l a live).

(** The pass has read the object of [i] that [m] is written over. *)
Definition res_read (h : khist) (r : Res) (m : ObjectMeta) : Prop :=
  ∃ n live, (r, n) ∈ owned_objects ∧ KEv (KGetRes r (Namespace (Meta i)) n) (Ok live) ∈ h ∧
    written_over n (res_meta live) m.

Definition is_instance (o : LiteLLMInstance) : Prop := Spec o = Spec i ∧ Meta o = Meta i.

Definition is_probe (q : api_req) : Prop :=
  match q with HealthCheckLiveness | HealthReadiness | HealthCachePing => True | _ => False end.

(** The calls of a pass over [i]: besides the reads and the events, it updates the status of
    [i], probes the proxy at the endpoint of [i], and, only when the workload is managed,
    creates the Secrets and objects of [i] that it has found absent, under its control, and
    updates those it has read. *)
Definition instance_call_ok (h : khist) (c : kcall) : Prop :=
  match c with
  | KStatusUpdate k o => match k return obj k → Prop with KInstance => is_instance | _ => λ _, False end o
  | KApi cl q => ac_endpoint cl = instanceEndpoint i ∧ is_probe q
  | KCreateSecret s =>
      workloadManaged i = true ∧ IsControlledBy (sec_meta s) (Meta i) = true ∧
      Namespace (sec_meta s) = Namespace (Meta i) ∧ Name (sec_meta s) ∈ owned_secrets ∧
      ∃ err, KEv (KGetSecret (Namespace (sec_meta s)) (Name (sec_meta s))) (Err err) ∈ h ∧ apierrors_IsNotFound err = true
  | KCreateRes r o =>
      workloadManaged i = true ∧ IsControlledBy (res_meta o) (Meta i) = true ∧ placed r (res_meta o) ∧
      res_absent h r (res_meta o)
  | KUpdateRes r o => workloadManaged i = true ∧ res_read h r (res_meta o)
  | _ => benign c = true
  end.

#[local] Instance instance_call_ok_benign : benign_ok instance_call_ok.
Proof. by intros h [] Hc. Qed.

#[local] Abbreviation pcalls p := (calls instance_call_ok p (λ _, True)).
#[local] Abbreviation pkeeps m := (keeps instance_call_ok is_instance m).

Lemma res_meta_set {r} m (o : res_ty r) : res_meta (set_res_meta m o) = m.
Proof. by destruct r. Qed.

(** An object of [i] that it controls. *)
Definition mine (r : Res) (m : ObjectMeta) : Prop := IsControlledBy m (Meta i) = true ∧ placed r m.

Lemma own_mine {r} (s : LiteLLMInstance) (o o' : res_ty r) :
  is_instance s → placed r (res_meta o) → own s o = Ok o' → mine r (res_meta o').
Proof.
  intros [_ Hm] Hp. unfold own. rewrite Hm. destruct (SetControllerReference _ _) eqn:Hset; [|done].
  intros [= <-]. rewrite res_meta_set. split; [by eapply Controlled_Set|].
  destruct (Name_SetController _ _ _ Hset) as [Hn Hns]. unfold placed. by rewrite Hn, Hns.
Qed.

(** Every builder names its object after the instance. *)
Definition built (r : Res) (o : option (res_ty r)) : Prop := ∀ d, o = Some d → placed r (res_meta d).

Lemma placed_meta (s : LiteLLMInstance) r n l a :
  is_instance s → (r, n) ∈ owned_objects → placed r (metaOf s n l a).
Proof. intros [_ Hm] Hn. by split; [simpl; by rewrite Hm|]. Qed.

Lemma jobName_instance s : is_instance s → jobName s = jobName i.
Proof.
  intros [Hsp Hm]. unfold jobName, jobHashSeed, migrationImage, useDatabaseImage, proxyRepository, runsAsNonRoot. by rewrite Hsp, Hm.
Qed.

Ltac built_tac :=
  let d := fresh in let Hd := fresh in
  intros d Hd; cbv delta [BuildIngress BuildHPA BuildPDB BuildNetworkPolicy BuildRoute BuildHTTPRoute BuildServiceMonitor
    BuildPrometheusRule BuildGrafanaDashboardConfigMap BuildCNPGScheduledBackup] beta zeta in Hd;
  repeat case_match; simplify_eq;
  (apply placed_meta; [done|match goal with Hs : is_instance ?s |- _ => destruct Hs as [_ ->] end]);
  unfold owned_objects; set_solver.

Lemma built_Ingress s labels : is_instance s → built (ROther "networking.k8s.io/Ingress") (BuildIngress s labels).
Proof. intros Hs. built_tac. Qed.
Lemma built_HPA s labels : is_instance s → built (ROther "autoscaling/HorizontalPodAutoscaler") (BuildHPA s labels).
Proof. intros Hs. built_tac. Qed.
Lemma built_PDB s labels : is_instance s → built (ROther "policy/PodDisruptionBudget") (BuildPDB s labels).
Proof. intros Hs. built_tac. Qed.
Lemma built_NetworkPolicy s labels : is_instance s → built (ROther "networking.k8s.io/NetworkPolicy") (BuildNetworkPolicy s labels).
Proof. intros Hs. built_tac. Qed.
Lemma built_Route s labels : is_instance s → built (ROther "route.openshift.io/Route") (BuildRoute s labels).
Proof. intros Hs. built_tac. Qed.
Lemma built_HTTPRoute s labels : is_instance s → built (ROther "gateway.networking.k8s.io/HTTPRoute") (BuildHTTPRoute s labels).
Proof. intros Hs. built_tac. Qed.
Lemma built_ServiceMonitor s labels : is_instance s → built (ROther "monitoring.coreos.com/ServiceMonitor") (BuildServiceMonitor s labels).
Proof. intros Hs. built_tac. Qed.
Lemma built_PrometheusRule s labels : is_instance s → built (ROther "monitoring.coreos.com/PrometheusRule") (BuildPrometheusRule s labels).
Proof. intros Hs. built_tac. Qed.
Lemma built_CNPGScheduledBackup s labels : is_instance s → built (ROther "postgresql.cnpg.io/ScheduledBackup") (BuildCNPGScheduledBackup s labels).
Proof. intros Hs. built_tac. Qed.
Lemma built_GrafanaDashboard s labels : is_instance s → built RConfigMap (BuildGrafanaDashboardConfigMap s labels).
Proof. intros Hs. built_tac. Qed.
Lemma built_ConfigMap s labels gs d : is_instance s → BuildConfigMap s labels gs = Ok d → built RConfigMap (Some d).
Proof.
  intros [_ Hm] Hd d' [= <-]. unfold BuildConfigMap in Hd. case_match; [|done]. injection Hd as <-. unfold placed. simpl.
  rewrite Hm. split; [done|]. unfold owned_objects. set_solver.
Qed.
#[local] Hint Resolve built_Ingress built_HPA built_PDB built_NetworkPolicy built_Route built_HTTPRoute built_ServiceMonitor
  built_PrometheusRule built_CNPGScheduledBackup built_GrafanaDashboard built_ConfigMap : keeps.

Lemma placed_Deployment s labels license gs :
  is_instance s → placed RDeployment (dep_meta (BuildDeployment s labels license gs)).
Proof. intros [_ Hm]. split; simpl; rewrite Hm; [done|]. unfold owned_objects. set_solver. Qed.
Lemma placed_Service s labels : is_instance s → placed RService (ksvc_meta (BuildService s labels)).
Proof. intros [_ Hm]. split; simpl; rewrite Hm; [done|]. unfold owned_objects. set_solver. Qed.
Lemma placed_ServiceAccount s labels : is_instance s → placed RServiceAccount (ko_meta (BuildServiceAccount s labels)).
Proof.
  intros [_ Hm]. unfold BuildServiceAccount. destruct (is_ServiceAccount _); split; simpl; rewrite Hm; try done;
    unfold owned_objects; set_solver.
Qed.
Lemma placed_Job s labels : is_instance s → placed RJob (job_meta (BuildMigrationJob s labels)).
Proof.
  intros Hs. split; simpl; [by rewrite (proj2 Hs)|]. rewrite (jobName_instance s Hs). unfold owned_objects. set_solver.
Qed.

(** The workload of the instance is managed: its objects. *)
Section Managed.
Context (Hmanaged : workloadManaged i = true).

Lemma create_ok h r (o : res_ty r) err :
  mine r (res_meta o) → apierrors_IsNotFound err = true →
  instance_call_ok (h ++ [KEv (KGetRes r (Namespace (res_meta o)) (Name (res_meta o))) (Err err)]) (KCreateRes r o).
Proof. intros [Hc Hp] Hnf. split_and!; [done..|]. exists err. split; [set_solver|done]. Qed.

(** An update over the object read at the place of [d], an object of [i]. *)
Lemma update_ok h r (d live o : res_ty r) :
  mine r (res_meta d) → written_over (Name (res_meta d)) (res_meta live) (res_meta o) →
  instance_call_ok (h ++ [KEv (KGetRes r (Namespace (res_meta d)) (Name (res_meta d))) (Ok live)]) (KUpdateRes r o).
Proof.
  intros [_ [Hns Hn]] Hw. split; [done|]. exists (Name (res_meta d)), live. rewrite <- Hns. split_and!; [done|set_solver|done].
Qed.

(** What is written is the live object with other labels and annotations. *)
Lemma merge_ok h r (d live o : res_ty r) l a :
  mine r (res_meta d) → res_meta o = set_labels_annotations l a (res_meta live) →
  instance_call_ok (h ++ [KEv (KGetRes r (Namespace (res_meta d)) (Name (res_meta d))) (Ok live)]) (KUpdateRes r o).
Proof. intros Hd Ho. apply update_ok; [done|]. rewrite Ho. split; [done|]. right. by exists l, a. Qed.

Lemma calls_createOrUpdate {r} (o : res_ty r) : mine r (res_meta o) → pcalls (createOrUpdate o).
Proof.
  intros Ho h. unfold createOrUpdate. kstep. kstep; [done|]. destruct x as [live|err].
  - kstep; [|done]. apply update_ok; [done|]. rewrite res_meta_set. split; [done|]. left.
    destruct Ho as [Hc [Hns _]]. split_and!; [done..|]. rewrite <- Hc. by apply Controlled_refs.
  - case_match; [|done]. kstep; [|done]. by apply create_ok.
Qed.

Lemma calls_reconcileOwned r s o : is_instance s → built r o → pcalls (reconcileOwned r s o).
Proof.
  intros Hs Hb. unfold reconcileOwned. destruct o as [o|]; [|by apply calls_ret].
  destruct (own s o) eqn:Ho; [|by apply calls_ret]. apply calls_createOrUpdate. eapply own_mine; [done| |done]. by apply Hb.
Qed.
#[local] Hint Resolve calls_reconcileOwned : keeps.

Lemma calls_reconcileConfigMap s labels gs : is_instance s → pcalls (reconcileConfigMap s labels gs).
Proof. intros Hs. unfold reconcileConfigMap. keeps_tac. Qed.

Lemma calls_ensureGeneratedSecret s name key :
  is_instance s → name ∈ owned_secrets → pcalls (ensureGeneratedSecret s name key).
Proof.
  intros [_ Hm] Hname h. unfold ensureGeneratedSecret. kstep. kstep; [done|]. destruct x as [live|err]; [done|].
  case_match eqn:Hnf; [|done]. unfold generateRandomToken. kstep. kstep. kstep; [done|]. kstep. simpl.
  destruct (SetControllerReference _ _) as [m|e] eqn:Hset; [|done]. rewrite Hm in Hset.
  destruct (Name_SetController _ _ _ Hset) as [Hn Hns]. simpl in Hn, Hns.
  kstep; [|done]. split_and!; [done|by eapply Controlled_Set|simpl; by rewrite Hns|simpl; by rewrite Hn|].
  simpl. exists err. rewrite Hn, Hns, Hm. split; [set_solver|done].
Qed.

Lemma owned_scim s scim : is_instance s → is_SCIM (Spec s) = Some scim → scimSecretName scim ∈ owned_secrets.
Proof. intros [Hsp _]. rewrite Hsp. intros Hscim. unfold owned_secrets. rewrite Hscim. set_solver. Qed.
#[local] Hint Resolve calls_ensureGeneratedSecret owned_scim : keeps.

Lemma calls_reconcileSecrets s : is_instance s → pcalls (reconcileSecrets s).
Proof.
  intros Hs. assert (∀ n, n ∈ ["-master-key"; "-salt-key"] → Name (Meta s) +:+ n ∈ owned_secrets) as Hn.
  { destruct Hs as [_ ->]. unfold owned_secrets. set_solver. }
  pose proof (Hn "-master-key" ltac:(set_solver)). pose proof (Hn "-salt-key" ltac:(set_solver)).
  unfold reconcileSecrets. keeps_tac.
Qed.

Lemma calls_reconcileServiceAccount s labels : is_instance s → pcalls (reconcileServiceAccount s labels).
Proof.
  intros Hs h. unfold reconcileServiceAccount. destruct (own s _) as [o|] eqn:Ho; [|done].
  apply (own_mine (r := RServiceAccount)) in Ho; [|done|by apply placed_ServiceAccount].
  kstep. kstep; [done|]. destruct x as [live|err].
  - cbv zeta. case_match; [done|]. kstep; [|done]. by eapply (merge_ok _ RServiceAccount).
  - case_match; [|done]. kstep; [|done]. by apply (create_ok h RServiceAccount).
Qed.

Lemma calls_reconcileMigrationJob s labels : is_instance s → pcalls (reconcileMigrationJob s labels).
Proof.
  intros Hs h. unfold reconcileMigrationJob. destruct (own s _) as [o|] eqn:Ho; [|done].
  apply (own_mine (r := RJob)) in Ho; [|done|].
  2: by apply placed_Job.
  kstep. kstep; [done|]. destruct x as [live|err].
  - cbv zeta. by repeat case_match.
  - case_match; [|done]. kstep. kstep; [|done]. by apply (create_ok h RJob).
Qed.

Lemma calls_hashSecrets ns refs names w : pcalls (hashSecrets ns refs names w).
Proof.
  revert w. induction names as [|n names IH]; intros w h; [done|]. cbn [hashSecrets]. cbv zeta.
  kstep. kstep; [done|]. destruct x; [apply IH|]. case_match; [apply IH|done].
Qed.

Lemma calls_hashConfigMaps ns refs names w : pcalls (hashConfigMaps ns refs names w).
Proof.
  revert w. induction names as [|n names IH]; intros w h; [done|]. cbn [hashConfigMaps]. cbv zeta.
  kstep. kstep; [done|]. destruct x; [apply IH|]. case_match; [apply IH|done].
Qed.
#[local] Hint Resolve calls_hashSecrets calls_hashConfigMaps : keeps.

Lemma calls_podTemplateSecretHash ns spec : pcalls (podTemplateSecretHash ns spec).
Proof. unfold podTemplateSecretHash. keeps_tac. Qed.
Lemma calls_podTemplateConfigMapHash ns spec : pcalls (podTemplateConfigMapHash ns spec).
Proof. unfold podTemplateConfigMapHash. keeps_tac. Qed.
#[local] Hint Resolve calls_podTemplateSecretHash calls_podTemplateConfigMapHash : keeps.

(** The digests are stamped on the pod template. *)
Lemma calls_stampDigests d :
  calls instance_call_ok (stampDigests d) (λ r, match r with Ok d' => dep_meta d' = dep_meta d | Err _ => True end).
Proof. unfold stampDigests. keeps_tac. Qed.

Lemma calls_applyDeployment (d : Deployment) :
  mine RDeployment (dep_meta d) → pcalls (applyDeployment d).
Proof.
  intros Hd h. unfold applyDeployment. kstep. kstep; [done|]. destruct x as [live|err].
  - cbv zeta. case_match; [done|]. kstep; [|done]. by eapply (merge_ok _ RDeployment).
  - case_match; [|done]. kstep; [|done]. by apply (create_ok h RDeployment).
Qed.

Lemma calls_reconcileDeployment s labels license gs : is_instance s → pcalls (reconcileDeployment s labels license gs).
Proof.
  intros Hs. unfold reconcileDeployment. destruct (own s _) as [o|] eqn:Ho; [|by apply calls_ret].
  apply (own_mine (r := RDeployment)) in Ho; [|done|by apply placed_Deployment].
  eapply calls_bind; [apply calls_stampDigests|]. intros [d|e] Hd; [|by apply calls_ret].
  apply calls_applyDeployment. by rewrite Hd.
Qed.

Lemma calls_reconcileService s labels : is_instance s → pcalls (reconcileService s labels).
Proof.
  intros Hs h. unfold reconcileService. destruct (own s _) as [o|] eqn:Ho; [|done].
  apply (own_mine (r := RService)) in Ho; [|done|by apply placed_Service].
  kstep. kstep; [done|]. destruct x as [live|err].
  - cbv zeta. case_match; [done|]. kstep; [|done]. by eapply (merge_ok _ RService).
  - case_match; [|done]. kstep; [|done]. by apply (create_ok h RService).
Qed.
#[local] Hint Resolve calls_reconcileSecrets calls_reconcileConfigMap calls_reconcileServiceAccount
  calls_reconcileDeployment calls_reconcileService calls_reconcileMigrationJob : keeps.

Lemma keeps_also e m : pkeeps m → pkeeps (also e m).
Proof. intros Hm. unfold also. by apply keeps_bind; [|intros a; apply keeps_ret]. Qed.

Lemma keeps_also_if b e m : pkeeps m → pkeeps (also_if b e m).
Proof. intros Hm. destruct b; [by apply keeps_also|apply keeps_ret]. Qed.

Lemma keeps_reconcileResources labels license gs : pkeeps (reconcileResources labels license gs).
Proof.
  assert (pkeeps (reconcileNetworkingResources labels)) as Hn
    by (unfold reconcileNetworkingResources; keeps_tac; apply keeps_also_if; keeps_tac).
  assert (pkeeps (reconcileScalingResources labels)) as Hs
    by (unfold reconcileScalingResources; keeps_tac; apply keeps_also_if; keeps_tac).
  assert (pkeeps reconcileSecurityResources) as Hse
    by (unfold reconcileSecurityResources, reconcileSCIMToken; keeps_tac).
  assert (pkeeps (reconcileObservabilityResources labels)) as Ho
    by (unfold reconcileObservabilityResources; keeps_tac; apply keeps_also_if; keeps_tac).
  unfold reconcileResources, reconcileOptionalResources.
  repeat first [apply keeps_also | keeps_step].
Qed.

(** The rollback writes the Deployment it has read. *)
Lemma keeps_triggerRollback d lastGood s h :
  is_instance s → res_read h RDeployment (dep_meta d) →
  wpM instance_call_ok any_answer (triggerRollback d lastGood) s h (λ _ s' _, is_instance s').
Proof.
  intros Hs (n & live & Hn & Hin & Hw). unfold triggerRollback. mpure. kstep; [done|]. mpure. kstep.
  { split; [done|]. exists n, live. split_and!; [done|set_solver|exact Hw]. }
  destruct x0; [by mpure|]. unfold setCondition. by mpure.
Qed.

Lemma keeps_reconcileAutoRollback : pkeeps reconcileAutoRollback.
Proof.
  intros s h Hs. unfold reconcileAutoRollback. mpure. apply wpM_when; intros _; [|done].
  mpure. kstep; [done|]. destruct x as [d|e]; [|by mpure]. cbv zeta.
  case_match; [apply wpM_when; intros _; [by mpure|done]|].
  apply wpM_when; intros _; [|done]. apply keeps_triggerRollback; [done|].
  destruct Hs as [_ Hm]. rewrite Hm in *. exists (Name (Meta i)), d. split_and!.
  - unfold owned_objects. set_solver.
  - apply elem_of_app. right. by apply list_elem_of_singleton.
  - split; [done|]. right. exists (Labels (dep_meta d)), (Annotations (dep_meta d)). by destruct d as [[] ? ?].
Qed.

Lemma keeps_reconcileWorkload labels license gs : pkeeps (reconcileWorkload labels license gs).
Proof.
  unfold reconcileWorkload. apply keeps_bind; [apply keeps_reconcileResources|]. intros e.
  apply keeps_bind; [apply keeps_reconcileAutoRollback|]. intros _. apply keeps_ret.
Qed.
End Managed.

Lemma keeps_reconcileMigrationStatus labels : pkeeps (reconcileMigrationStatus labels).
Proof.
  unfold reconcileMigrationStatus, setCondition. apply keeps_get. intros s Hs.
  destruct (workloadManaged s) eqn:Hman; [|keeps_tac].
  assert (workloadManaged i = true) as Hmi.
  { destruct Hs as [Hsp _]. revert Hman. unfold workloadManaged. by rewrite Hsp. }
  pose proof (calls_reconcileMigrationJob Hmi). case_match; keeps_tac.
Qed.

Lemma calls_findLicense ns names : pcalls (findLicense ns names).
Proof.
  induction names as [|n names IH]; intros h; [done|]. cbn [findLicense]. kstep. kstep; [done|].
  destruct x; [|apply IH]. by case_match; [|apply IH].
Qed.
#[local] Hint Resolve calls_findLicense : keeps.

Lemma keeps_reconcileLicense : pkeeps reconcileLicense.
Proof. unfold reconcileLicense. keeps_tac. Qed.

(** ** The status *)

(** The endpoint of the instance has been set. *)
Definition attached (s : LiteLLMInstance) : Prop := is_instance s ∧ ist_Endpoint (Status s) = instanceEndpoint i.

#[local] Abbreviation skeeps m := (keeps instance_call_ok attached m).

Lemma calls_readSecretKey ns name key : pcalls (readSecretKey ns name key).
Proof. unfold readSecretKey. keeps_tac. Qed.
#[local] Hint Resolve calls_readSecretKey : keeps.

Lemma calls_operatorProxyCACert s : pcalls (operatorProxyCACert s).
Proof. unfold operatorProxyCACert. keeps_tac. Qed.

Lemma calls_getSecretValue ns ref : pcalls (getSecretValue ns ref).
Proof. unfold getSecretValue. keeps_tac. Qed.
#[local] Hint Resolve calls_operatorProxyCACert calls_getSecretValue : keeps.

Lemma calls_inspectPodHealth s : pcalls (inspectPodHealth s).
Proof. unfold inspectPodHealth. keeps_tac. Qed.
#[local] Hint Resolve calls_inspectPodHealth : keeps.

(** The clients of the probes are those of the instance. *)
Definition own_client (cl : ApiClient) : Prop := ac_endpoint cl = instanceEndpoint i.

Lemma calls_proxyClient s :
  attached s → calls instance_call_ok (proxyClient s) (λ o, ∀ cl, o = Some cl → own_client cl).
Proof.
  intros [_ He]. unfold proxyClient. keeps_tac. naive_solver.
Qed.

Lemma calls_proxyReachable s : attached s → pcalls (proxyReachable s).
Proof.
  intros Hs. unfold proxyReachable. eapply calls_bind; [by apply calls_proxyClient|]. intros [cl|] Hcl; [|by apply calls_ret].
  intros h. kstep. kstep; [|done]. split; [by apply Hcl|done].
Qed.

Lemma keeps_probe cl q : own_client cl → is_probe q → skeeps (@m_api KInstance _ cl q).
Proof. intros Hcl Hq. apply keeps_api. by intros h. Qed.

Lemma keeps_probeRedisHealth cl : own_client cl → skeeps (probeRedisHealth cl).
Proof.
  intros Hcl. unfold probeRedisHealth, setCondition, removeCondition. apply keeps_get. intros s Hs.
  repeat first [apply keeps_probe | keeps_step].
Qed.

Lemma keeps_probeInstanceHealth : skeeps probeInstanceHealth.
Proof.
  unfold probeInstanceHealth, probeFailed, setCondition. apply keeps_get. intros s Hs.
  eapply keeps_lift_bind; [by apply calls_proxyClient|]. intros [cl|] Hcl; [|apply keeps_ret].
  specialize (Hcl cl eq_refl).
  repeat first [apply keeps_probe | apply keeps_probeRedisHealth | keeps_step].
Qed.

Lemma keeps_setPodsHealthyCondition : skeeps setPodsHealthyCondition.
Proof. unfold setPodsHealthyCondition, setCondition. keeps_tac. Qed.

Lemma keeps_requireSecretKeys name field keys : skeeps (requireSecretKeys name field keys).
Proof. unfold requireSecretKeys. keeps_tac. Qed.
#[local] Hint Resolve keeps_setPodsHealthyCondition keeps_requireSecretKeys : keeps.

Lemma keeps_for_some {A} (o : option A) f : (∀ a, skeeps (f a)) → skeeps (for_some o f).
Proof. intros Hf. destruct o; [apply Hf|apply keeps_ret]. Qed.

Lemma keeps_updateReadiness : skeeps updateReadiness.
Proof.
  pose proof calls_proxyReachable. unfold updateReadiness, removeCondition. keeps_tac.
Qed.

Lemma keeps_validateTLSSecrets : skeeps validateTLSSecrets.
Proof.
  unfold validateTLSSecrets. repeat first [apply keeps_for_some | keeps_step].
Qed.

Lemma keeps_updateReady e : skeeps (updateReady e).
Proof.
  pose proof keeps_probeInstanceHealth. unfold updateReady, updateReadyCondition, setCondition.
  keeps_tac. intros h. kstep; [|done].
  match goal with Ha : attached ?o |- instance_call_ok _ (KStatusUpdate _ ?o) => apply Ha end.
Qed.

Lemma keeps_updateInstanceStatus e : pkeeps (updateInstanceStatus e).
Proof.
  intros s h [Hsp Hm]. assert (instanceEndpoint s = instanceEndpoint i) as He.
  { unfold instanceEndpoint, instanceServesTLS. by rewrite Hsp, Hm. }
  assert (skeeps (updateReadiness ;; updateVersion ;; updateIgnoredSections ;; updateSSO ;;
    checkEnterpriseFeaturesWarning ;; reconcileSecretManagerStatus ;; validateTLSSecrets)) as Hrest.
  { pose proof keeps_updateReadiness. pose proof keeps_validateTLSSecrets.
    unfold updateVersion, updateIgnoredSections, updateSSO, checkEnterpriseFeaturesWarning,
      reconcileSecretManagerStatus, setCondition, removeCondition.
    repeat first [apply keeps_for_some | keeps_step]. }
  unfold updateInstanceStatus, updateBeforeReady. mstep. mstep. mstep.
  eapply wpM_mono; [apply Hrest; by split|]. intros h1 s1 [r|[]] Hs1; [by destruct Hs1|].
  eapply wpM_mono; [by apply keeps_updateReady|]. by intros h2 s2 r2 [Hs2 _].
Qed.

Lemma keeps_reconcileInstance : pkeeps reconcileInstance.
Proof.
  pose proof keeps_reconcileLicense. pose proof keeps_reconcileMigrationStatus.
  pose proof keeps_updateInstanceStatus.
  unfold reconcileInstance, listGuardrailsForInstance. apply keeps_get. intros s Hs.
  assert (∀ labels license gs, pkeeps (if workloadManaged s then reconcileWorkload labels license gs else mret None)).
  { intros labels license gs. destruct (workloadManaged s) eqn:Hman; [|apply keeps_ret].
    apply keeps_reconcileWorkload. destruct Hs as [Hsp _]. revert Hman. unfold workloadManaged. by rewrite Hsp. }
  keeps_tac.
Qed.
End PassCalls.

Section Loop.
Context `{KubeLib} `{!KubeLibLaws} `{JSONUnmarshal} `{YAMLMarshal} `{JSONMarshal PodSchedulingSpec} `{SemanticDeepEqual DeploymentSpec} `{SemanticDeepEqual KServiceSpec}.
Context `{TimeFormat}.

(** The calls of [Reconcile] on the instance [name]: reads and events; the removal of the
    finalizer from a deleted instance and its addition to a live one; and, for a live
    instance that carries it, the calls of a pass. *)
Definition reconcile_call_ok (ns name : string) (h : khist) (c : kcall) : Prop :=
  benign c = true ∨
  ∃ i, KEv (KGet KInstance ns name) (Ok i) ∈ h ∧
    match DeletionTimestamp (Meta i), ContainsFinalizer (Meta i) FinalizerName with
    | Some _, true => c = KUpdate KInstance (set_meta (RemoveFinalizer (Meta i) FinalizerName) i)
    | None, false => c = KUpdate KInstance (set_meta (AddFinalizer (Meta i) FinalizerName) i)
    | None, true => instance_call_ok i h c
    | Some _, false => False
    end.

Lemma retries_also e (m : M K LiteLLMInstance Ret_t (option error)) : early (k := KInstance) retried m → early (k := KInstance) retried (also e m).
Proof. intros Hm. unfold also. apply early_bind; [done|]. intros a. apply early_ret. Qed.

Lemma retries_also_if b e (m : M K LiteLLMInstance Ret_t (option error)) :
  early (k := KInstance) retried m → early (k := KInstance) retried (also_if b e m).
Proof. intros Hm. destruct b; [by apply retries_also|apply early_ret]. Qed.

Lemma retries_for_some {A} (o : option A) f : (∀ a, early (k := KInstance) retried (f a)) → early (k := KInstance) retried (for_some o f).
Proof. intros Hf. destruct o; [apply Hf|apply early_ret]. Qed.

#[local] Ltac instance_retries := repeat first [apply retries_also | apply retries_also_if | apply retries_for_some | retries_step].

Lemma retries_reconcileMigrationStatus labels : early (k := KInstance) retried (reconcileMigrationStatus labels).
Proof. unfold reconcileMigrationStatus, setCondition. instance_retries. Qed.

Lemma retries_reconcileWorkload labels license gs : early (k := KInstance) retried (reconcileWorkload labels license gs).
Proof.
  unfold reconcileWorkload, reconcileResources, reconcileOptionalResources, reconcileNetworkingResources,
    reconcileScalingResources, reconcileSecurityResources, reconcileSCIMToken, reconcileObservabilityResources,
    reconcileAutoRollback, triggerRollback, setCondition.
  instance_retries.
Qed.

Lemma retries_updateInstanceStatus e : early (k := KInstance) retried (updateInstanceStatus e).
Proof.
  unfold updateInstanceStatus, updateBeforeReady, updateReadiness, setPodsHealthyCondition, updateVersion,
    updateIgnoredSections, updateSSO, checkEnterpriseFeaturesWarning, reconcileSecretManagerStatus, validateTLSSecrets,
    requireSecretKeys, updateReady, updateReadyCondition, probeInstanceHealth, probeRedisHealth, probeFailed,
    setCondition, removeCondition.
  instance_retries.
Qed.

Lemma reconcileInstance_returns : returns_retried (k := KInstance) reconcileInstance.
Proof.
  pose proof retries_reconcileMigrationStatus. pose proof retries_reconcileWorkload.
  pose proof retries_updateInstanceStatus. unfold reconcileInstance, reconcileLicense.
  instance_retries.
Qed.

Lemma wp_reconcileInstance_calls ns name i :
  DeletionTimestamp (Meta i) = None → ContainsFinalizer (Meta i) FinalizerName = true →
  wp (reconcile_call_ok ns name) any_answer (run_M reconcileInstance i) [KEv (KGet KInstance ns name) (Ok i)] (λ _ _, True).
Proof.
  intros Hdel Hfin. apply wp_run_M. eapply (wp_weaken_from (instance_call_ok i)).
  - eapply wp_mono; [by apply (keeps_reconcileInstance i i)|done].
  - intros h c Hext Hc. right. exists i. rewrite Hdel, Hfin. split; [|done].
    eapply extends_elem; [exact Hext|]. by apply list_elem_of_singleton.
Qed.

(** C3: whatever the cluster and the proxy answer, and wherever the operator stops, a pass over
    an instance makes no other calls than: reads and events; the finalizer, removed from a
    deleted instance and added to a live one before anything else; the status of that
    instance; probes of the proxy at its own endpoint; and, only when
    [spec.workload.managed] is not false, writes of the Secrets and objects of its workload,
    known by kind and name, in its namespace: the creation, under its control, of one it has
    found absent, and the update of one it has read under that name, on the version it has
    read, by an object of that name it controls or by the object read with other labels and
    annotations (and the spec merged).  So an unmanaged workload is never touched, nothing
    is deleted, no concurrent write is overwritten, and no object of another name or
    namespace is written; one of such a name is, whoever owns it.  A pass over a live
    instance that carries the finalizer is always followed by another one. *)
Theorem ReconcileInstance_calls ns name :
  kalways (reconcile_call_ok ns name) (ReconcileInstance ns name) ∧
  ∀ t r i x, runs (ReconcileInstance ns name) (KEv (KGet KInstance ns name) x :: t) r → x = Ok i →
    DeletionTimestamp (Meta i) = None → ContainsFinalizer (Meta i) FinalizerName = true → retried r = true.
Proof.
  split.
  - apply (wp_always _ _ (λ _ _, True)). unfold ReconcileInstance. kstep. kstep; [by left|].
    destruct x as [i|err]; [|done].
    assert (KEv (KGet KInstance ns name) (Ok i) ∈ [KEv (KGet KInstance ns name) (Ok i)]) as Hin by (by apply list_elem_of_singleton).
    destruct (DeletionTimestamp (Meta i)) eqn:Hdel.
    + unfold handleInstanceDeletion. destruct (ContainsFinalizer _ _) eqn:Hfin; [|done].
      kstep. kstep; [|by destruct x]. right. exists i. by rewrite Hdel, Hfin.
    + destruct (ContainsFinalizer _ _) eqn:Hfin.
      * kstep. eapply wp_mono; [by apply wp_reconcileInstance_calls|]. by intros h [].
      * kstep. kstep; [|by destruct x]. right. exists i. by rewrite Hdel, Hfin.
  - intros t r i x Hr -> Hdel Hfin. destruct Hr as (y & t' & Heq & Hr). apply Ev_cons_inj in Heq as [<- <-].
    cbn -[run_M reconcileInstance] in Hr. rewrite Hdel, Hfin in Hr. apply runs_bind_inv in Hr as (t1 & t2 & [i' r'] & _ & Hr & [_ ->]).
    eapply (returns_runs (k := KInstance)); [apply reconcileInstance_returns|exact Hr].
Qed.
End Loop.
