(* ===== verification/InstanceReady.v ===== *)
(** * What an instance reports, and its watches

    The Ready condition against the probes, the rollback of a failed rollout, and the
    watch of the license Secrets against what the detection reads. *)

From S2P Require Import Prelude KubeTypes InstanceTypes Types Updates World Sha256 Common Reconcile.
From S2P Require Import VirtualKey Rollout ProxyConfig Workload Manifests PodHealth InstanceResources InstanceStatus Instance.
Open Scope Z_scope.

Section Ready.
Context `{KubeLib} `{!KubeLibLaws}.

(** A probe of the proxy has failed. *)
Definition probe_failed (h : khist) : Prop :=
  ∃ cl err, KEv (KApi cl HealthCheckLiveness) (Some err) ∈ h ∨ KEv (KApi cl HealthReadiness) (Err err) ∈ h.

Definition event_with (reason : string) (e : event K) : Prop :=
  match ev_op e with KEvent _ _ _ r _ => r = reason | _ => False end.

(** What the calls of a pass say of the workload of [s]: the Deployment of its name, read
    first, has a ready replica (when it cannot be read, the last status stands); and, when it
    is not managed, the proxy has answered the liveness probe. *)
Definition workload_ready (s : LiteLLMInstance) (h : khist) : Prop :=
  if workloadManaged s then
    ∃ a t, h = KEv (KGetRes RDeployment (Namespace (Meta s)) (Name (Meta s))) a :: t ∧
      match a with Ok d => 0 < dst_ReadyReplicas (dep_Status d) | Err _ => ist_Ready (Status s) = true end
  else ∃ cl, KEv (KApi cl HealthCheckLiveness) None ∈ h.

(** The status written last: it is ready exactly when the workload is, and its Ready condition
    is true exactly when, besides, the pass had no error and no probe has failed. *)
Definition ready_reported (s : LiteLLMInstance) (reconcileErr : option error) (h : khist) : Prop :=
  ∃ st x c, last h = Some (KEv (KStatusUpdate KInstance (set_status st s)) x) ∧
    FindStatusCondition (ist_Conditions st) ConditionReady = Some c ∧
    cond_ObservedGeneration c = Generation (Meta s) ∧
    cond_Reason c ≠ "AutoRollback" ∧
    (ist_Ready st = true ↔ workload_ready s h) ∧
    (cond_Status c = ConditionTrue ↔ reconcileErr = None ∧ workload_ready s h ∧ ¬ probe_failed h).

(** The same with the [ready] of the status itself. *)
Definition condition_reported (s : LiteLLMInstance) (reconcileErr : option error) (h : khist) : Prop :=
  ∃ st x c, last h = Some (KEv (KStatusUpdate KInstance (set_status st s)) x) ∧
    FindStatusCondition (ist_Conditions st) ConditionReady = Some c ∧
    cond_ObservedGeneration c = Generation (Meta s) ∧
    cond_Reason c ≠ "AutoRollback" ∧
    (cond_Status c = ConditionTrue ↔ reconcileErr = None ∧ ist_Ready st = true ∧ ¬ probe_failed h).

(** Neither a failed probe nor an event that the proxy is healthy again. *)
Definition neutral (e : event K) : Prop := ¬ probe_failed [e] ∧ ¬ event_with EventReasonHealthRestored e.
Definition quiet (h : khist) : Prop := ∀ e, e ∈ h → ¬ event_with EventReasonHealthRestored e.

Definition neutral_call (c : kcall) : Prop :=
  match c with
  | KApi _ HealthCheckLiveness | KApi _ HealthReadiness => False
  | KEvent _ _ _ r _ => r ≠ EventReasonHealthRestored
  | _ => True
  end.

Lemma probe_failed_app h h' : probe_failed (h ++ h') ↔ probe_failed h ∨ probe_failed h'.
Proof. unfold probe_failed. setoid_rewrite elem_of_app. naive_solver. Qed.

Lemma not_failed_nil : ¬ probe_failed [].
Proof. intros (cl & err & [Hin|Hin]); by apply not_elem_of_nil in Hin. Qed.

Lemma quiet_step h e : quiet h → ¬ event_with EventReasonHealthRestored e → quiet (h ++ [e]).
Proof.
  intros Hq He e2 Hin. apply elem_of_app in Hin as [Hin|Hin]; [by apply Hq|]. by apply list_elem_of_singleton in Hin as ->.
Qed.

Lemma neutral_ev c x : neutral_call c → neutral (KEv c x).
Proof.
  intros Hc. split; [|unfold event_with; destruct c; simpl in *; tauto].
  intros (cl & err & [Hin|Hin]); apply list_elem_of_singleton, (f_equal ev_op) in Hin; simpl in Hin; by subst c.
Qed.

Lemma neutral_of (e : event K) : neutral_call (ev_op e) → neutral e.
Proof. destruct e as [c x]. apply neutral_ev. Qed.

Lemma neutral_live cl : neutral (KEv (KApi cl HealthCheckLiveness) None).
Proof.
  split; [|by intros ?]. intros (cl' & err & [Hin|Hin]); apply list_elem_of_singleton in Hin.
  - pose proof (f_equal ev_op Hin) as [= ->]. by apply Ev_inj in Hin.
  - by apply (f_equal ev_op) in Hin.
Qed.

Lemma neutral_ready cl r : neutral (KEv (KApi cl HealthReadiness) (Ok r)).
Proof.
  split; [|by intros ?]. intros (cl' & err & [Hin|Hin]); apply list_elem_of_singleton in Hin.
  - by apply (f_equal ev_op) in Hin.
  - pose proof (f_equal ev_op Hin) as [= ->]. by apply Ev_inj in Hin.
Qed.

(** The Ready condition of a status. *)
Definition readyCondition (s : LiteLLMInstance) : option Condition :=
  FindStatusCondition (ist_Conditions (Status s)) ConditionReady.

(** The change of a status that touches neither [ready] nor the Ready condition. *)
Definition same_ready (f : LiteLLMInstanceStatus → LiteLLMInstanceStatus) : Prop :=
  ∀ st, ist_Ready (f st) = ist_Ready st ∧
    FindStatusCondition (ist_Conditions (f st)) ConditionReady = FindStatusCondition (ist_Conditions st) ConditionReady.

(** [Q] at the end of a handler that has not returned early. *)
Definition no_return {A} (Q : khist → LiteLLMInstance → Prop) (h : khist) (s : LiteLLMInstance) (r : Ret_t + A) : Prop :=
  match r with inl _ => False | inr _ => Q h s end.

(** ** Handlers that neither probe nor decide

    [keeps_ready I m]: [m] keeps what [I] says of the history and of the instance, for an [I]
    that neutral events and such changes of the status preserve. *)
Section Keeps.
Context (I : khist → LiteLLMInstance → Prop).
Context (I_neutral : ∀ h s (e : event K), I h s → neutral_call (ev_op e) → I (h ++ [e]) s).
Context (I_status : ∀ h s f, I h s → same_ready f → I h (map_status f s)).

Definition keeps_ready {A} (m : M K LiteLLMInstance Ret_t A) : Prop :=
  ∀ h s, I h s → wpM no_guarantee any_answer m s h (no_return I).

Lemma neutral_extends h h' s : I h s → extends neutral_call h h' → I h' s.
Proof.
  intros Hp (t & -> & Ht). revert h Hp. induction t as [|[c x] t IH]; intros h Hp; [by rewrite app_nil_r|].
  rewrite cons_middle, app_assoc. apply IH; [intros e He; apply Ht, elem_of_cons; by right|].
  apply I_neutral; [exact Hp|]. apply (Ht (KEv c x)), elem_of_cons. by left.
Qed.

(** A program whose calls are neutral. *)
Definition neutral_prog {A} (p : kprog A) : Prop :=
  ∀ h, wp (λ (_ : khist) (c : kcall), neutral_call c) any_answer p h (λ _ _, True).

Lemma wp_neutral {A} (p : kprog A) h s :
  I h s → neutral_prog p → wp no_guarantee any_answer p h (λ h' _, I h' s).
Proof.
  intros Hp Hw. eapply (wp_weaken (λ (_ : khist) (c : kcall), neutral_call c)); [|done].
  eapply wp_mono; [by apply wp_extends, Hw|]. intros h' a [Hext _]. by eapply neutral_extends.
Qed.

Lemma keeps_ready_lift {A} (p : kprog A) : neutral_prog p → keeps_ready (lift p).
Proof. intros Hp h s HI. mstep. by apply wp_neutral. Qed.

Lemma keeps_ready_event t reason f a : reason ≠ EventReasonHealthRestored → keeps_ready (@m_event KInstance _ t reason f a).
Proof. intros Hr h s HI. mstep; [done|]. by apply I_neutral. Qed.

Lemma keeps_ready_ping cl : keeps_ready (@m_api KInstance _ cl HealthCachePing).
Proof. intros h s HI. mstep; [done|]. by apply I_neutral. Qed.

Lemma keeps_ready_set type status reason msg : type ≠ ConditionReady → keeps_ready (setCondition type status reason msg).
Proof.
  intros Ht h s HI. unfold setCondition. mstep. apply I_status; [done|]. intros st. split; [done|]. simpl.
  by rewrite Find_Set_ne.
Qed.

Lemma keeps_ready_remove type : type ≠ ConditionReady → keeps_ready (removeCondition type).
Proof.
  intros Ht h s HI. unfold removeCondition. mstep. apply I_status; [done|]. intros st. split; [done|]. simpl.
  by rewrite Find_Remove_ne.
Qed.

Lemma keeps_ready_status f : same_ready f → keeps_ready (modify (map_status f)).
Proof. intros Hf h s HI. mstep. by apply I_status. Qed.

Lemma keeps_ready_bind {A B} (m : M K LiteLLMInstance Ret_t A) (f : A → M K LiteLLMInstance Ret_t B) :
  keeps_ready m → (∀ a, keeps_ready (f a)) → keeps_ready (m ≫= f).
Proof.
  intros Hm Hf h s HI. mstep. eapply wpM_mono; [by apply Hm|]. intros h' s' [e|a] HI'; [done|]. by apply Hf.
Qed.

Lemma keeps_ready_get {B} (f : LiteLLMInstance → M K LiteLLMInstance Ret_t B) : (∀ o, keeps_ready (f o)) → keeps_ready (get ≫= f).
Proof. intros Hf h s HI. mstep. mstep. by apply Hf. Qed.

Lemma keeps_ready_ret {A} (a : A) : keeps_ready (mret a).
Proof. by intros h s HI. Qed.

Lemma keeps_ready_when b (m : M K LiteLLMInstance Ret_t unit) : keeps_ready m → keeps_ready (when b m).
Proof. intros Hm. destruct b; [done|apply keeps_ready_ret]. Qed.

Lemma keeps_ready_for_each {A} (l : list A) body : (∀ x, keeps_ready (body x)) → keeps_ready (for_each l body).
Proof.
  intros Hb. induction l as [|x l IH]; [apply keeps_ready_ret|]. by apply keeps_ready_bind; [apply Hb|intros _].
Qed.

Lemma keeps_ready_for_some {A} (o : option A) f : (∀ a, keeps_ready (f a)) → keeps_ready (for_some o f).
Proof. intros Hf. destruct o; [apply Hf|apply keeps_ready_ret]. Qed.
End Keeps.

#[local] Ltac neutral_prog_tac :=
  intros ?; repeat first [kstep; [done|] | kstep | progress cbn beta iota | case_match]; done.

Lemma neutral_proxyClient o : neutral_prog (proxyClient o).
Proof. unfold proxyClient, getSecretValue, operatorProxyCACert, readSecretKey. neutral_prog_tac. Qed.
Lemma neutral_proxyCACert o : neutral_prog (operatorProxyCACert o).
Proof. unfold operatorProxyCACert, readSecretKey. neutral_prog_tac. Qed.
Lemma neutral_inspectPodHealth o : neutral_prog (inspectPodHealth o).
Proof. unfold inspectPodHealth. neutral_prog_tac. Qed.

(** Structural proof: the rules, branch by branch. *)
#[local] Ltac ready_step :=
  lazymatch goal with
  | |- ∀ _, _ => intros
  | |- keeps_ready _ (get ≫= _) => apply keeps_ready_get
  | |- keeps_ready _ (_ ≫= _) => apply keeps_ready_bind
  | |- keeps_ready _ (mret _) => apply keeps_ready_ret
  | |- keeps_ready _ (when _ _) => apply keeps_ready_when
  | |- keeps_ready _ (for_each _ _) => apply keeps_ready_for_each
  | |- keeps_ready _ (for_some _ _) => apply keeps_ready_for_some
  | |- keeps_ready _ (setCondition _ _ _ _) => by apply keeps_ready_set
  | |- keeps_ready _ (removeCondition _) => by apply keeps_ready_remove
  | |- keeps_ready _ (modify (map_status _)) => by apply keeps_ready_status
  | |- keeps_ready _ (m_event _ _ _ _) => by apply keeps_ready_event
  | |- keeps_ready _ (m_api _ HealthCachePing) => by apply keeps_ready_ping
  | |- keeps_ready _ (lift _) => apply keeps_ready_lift; [done|]
  | |- neutral_prog (operatorProxyCACert _) => apply neutral_proxyCACert
  | |- neutral_prog (inspectPodHealth _) => apply neutral_inspectPodHealth
  | |- neutral_prog (kcallp _) => by intros ?
  | |- _ => first [progress cbv zeta | case_match]
  end.

(** ** The probes *)

(** Along the probes, from the Ready condition [b]: what the instance is, its Ready condition,
    and whether a probe has failed. *)
Definition ready_now (s : LiteLLMInstance) (b : bool) (s' : LiteLLMInstance) : Prop :=
  Meta s' = Meta s ∧ Spec s' = Spec s ∧ ist_Ready (Status s') = ist_Ready (Status s) ∧
  ∃ c, readyCondition s' = Some c ∧ cond_ObservedGeneration c = Generation (Meta s) ∧
    cond_Reason c ≠ "AutoRollback" ∧ cond_Status c = (if b then ConditionTrue else ConditionFalse).

Definition probed (s : LiteLLMInstance) (b : bool) (h0 h : khist) (s' : LiteLLMInstance) : Prop :=
  ∃ t, h = h0 ++ t ∧ (∃ b', ready_now s b' s' ∧ (b' = true ↔ b = true ∧ ¬ probe_failed t)) ∧
    (b = true → quiet h).

Lemma ready_set s b b' s' reason msg :
  ready_now s b s' → reason ≠ "AutoRollback" →
  ready_now s b' (with_condition ConditionReady (if b' then ConditionTrue else ConditionFalse) reason msg s').
Proof.
  intros (Hm & Hsp & Hr & _) Hne. split_and!; [done..|]. eexists. split; [apply Find_Set|]. simpl. by rewrite Hm.
Qed.

Lemma probed_neutral s b h0 h s' e : probed s b h0 h s' → neutral e → probed s b h0 (h ++ [e]) s'.
Proof.
  intros (t & -> & (b' & Hnow & Hb) & Hq) [He1 He2]. exists (t ++ [e]). split; [by rewrite app_assoc|]. split.
  - exists b'. split; [done|]. rewrite probe_failed_app. tauto.
  - intros Hbt. apply quiet_step; [by apply Hq|done].
Qed.

Lemma probed_call s b h0 h s' (e : event K) : probed s b h0 h s' → neutral_call (ev_op e) → probed s b h0 (h ++ [e]) s'.
Proof. intros Hp He. by apply probed_neutral, neutral_of. Qed.

Lemma probed_status s b h0 h s' f : probed s b h0 h s' → same_ready f → probed s b h0 h (map_status f s').
Proof.
  intros (t & -> & (b' & (Hm & Hsp & Hr & c & Hc & Hrest) & Hb) & Hq) Hf. exists t. split; [done|]. split; [|done].
  exists b'. split; [|done]. destruct (Hf (Status s')) as [Hf1 Hf2]. split_and!; [done..| |].
  - etrans; [exact Hf1|exact Hr].
  - exists c. split; [|done]. etrans; [exact Hf2|exact Hc].
Qed.

Lemma keeps_ready_probeRedisHealth s b h0 cl : keeps_ready (probed s b h0) (probeRedisHealth cl).
Proof.
  pose proof (probed_call s b h0). pose proof (probed_status s b h0). unfold probeRedisHealth. repeat ready_step.
Qed.

Lemma ready_now_true s b s1 : ready_now s b s1 → isConditionTrue (ist_Conditions (Status s1)) ConditionReady = b.
Proof.
  intros (_ & _ & _ & c & Hc & _ & _ & Hs). unfold isConditionTrue, readyCondition in *. rewrite Hc, Hs. by destruct b.
Qed.

(** A failed probe: Ready becomes false. *)
Lemma wpM_probeFailed reason fmt s b h0 s1 h e prev err :
  reason ≠ "AutoRollback" → probed s b h0 h s1 → probe_failed [e] → ¬ event_with EventReasonHealthRestored e →
  wpM no_guarantee any_answer (probeFailed reason fmt prev err) s1 (h ++ [e]) (no_return (probed s b h0)).
Proof.
  intros Hne (t & -> & (b0 & Hnow & _) & Hq) Hfail He. unfold probeFailed, setCondition. mstep. mstep.
  assert (probed s b h0 ((h0 ++ t) ++ [e]) (with_condition ConditionReady ConditionFalse reason (Sprintf fmt [FErr err]) s1)) as Hp'.
  { exists (t ++ [e]). split; [by rewrite app_assoc|]. split.
    - exists false. split; [by apply (ready_set s b0 false)|]. rewrite probe_failed_app. naive_solver.
    - intros Hb. apply quiet_step; [by apply Hq|done]. }
  apply wpM_when; intros _; [|done]. apply keeps_ready_event; [apply probed_call|done|done].
Qed.

Lemma wpM_probeInstanceHealth s b s1 h :
  ready_now s b s1 → quiet h →
  wpM no_guarantee any_answer probeInstanceHealth s1 h (no_return (probed s b h)).
Proof.
  intros Hnow Hq. assert (probed s b h h s1) as Hp.
  { exists []. rewrite app_nil_r. split_and!; [done| |done]. exists b. split; [done|]. pose proof not_failed_nil. tauto. }
  unfold probeInstanceHealth. mstep. mstep. mstep. mstep.
  eapply wp_mono; [eapply (wp_neutral (probed s b h)); [apply probed_call|exact Hp|apply neutral_proxyClient]|].
  intros h1 [cl|] Hp1; [|by mpure].
  match goal with |- context [isConditionTrue ?cs ConditionReady] =>
    replace (isConditionTrue cs ConditionReady) with b by (symmetry; exact (ready_now_true _ _ _ Hnow)) end.
  mstep. mstep; [done|]. destruct x as [err|].
  { apply wpM_probeFailed; [done|done| |by intros ?]. exists cl, err. left. by apply list_elem_of_singleton. }
  mstep. mstep; [done|]. apply (probed_neutral _ _ _ _ _ (KEv (KApi cl HealthCheckLiveness) None)) in Hp1;
    [|apply neutral_live].
  destruct x as [readiness|err].
  2:{ apply wpM_probeFailed; [done|done| |by intros ?]. exists cl, err. right. by apply list_elem_of_singleton. }
  apply (probed_neutral _ _ _ _ _ (KEv (KApi cl HealthReadiness) (Ok readiness))) in Hp1; [|apply neutral_ready].
  mstep. eapply wpM_mono.
  { eapply (keeps_ready_when (probed s b h)); [|exact Hp1]. apply keeps_ready_status; [apply probed_status|done]. }
  intros h2 s2 [r|[]] Hp2; [done|]. mstep.
  apply wpM_when; [|intros _; by apply keeps_ready_probeRedisHealth]. intros Hb%negb_true_iff.
  mstep; [done|]. apply keeps_ready_probeRedisHealth. destruct Hp2 as (t & -> & (b' & Hnow2 & Hb') & _).
  eexists. rewrite <- app_assoc. split; [done|]. split; [|congruence]. exists b'. split; [done|]. naive_solver.
Qed.

(** ** The whole status *)

(** Before the Ready condition is decided. *)
Definition before_ready (s : LiteLLMInstance) (h : khist) (s' : LiteLLMInstance) : Prop :=
  Meta s' = Meta s ∧ Spec s' = Spec s ∧ quiet h ∧ (probe_failed h → ist_Ready (Status s') = false).

Lemma before_ready_neutral s h s' e : before_ready s h s' → neutral e → before_ready s (h ++ [e]) s'.
Proof.
  intros (Hm & Hsp & Hq & Hf) [He1 He2]. split_and!; [done..|by apply quiet_step|]. rewrite probe_failed_app. tauto.
Qed.

Lemma before_ready_call s h s' (e : event K) :
  before_ready s h s' → neutral_call (ev_op e) → before_ready s (h ++ [e]) s'.
Proof. intros Hp He. by apply before_ready_neutral, neutral_of. Qed.

Lemma before_ready_status s h s' f : before_ready s h s' → same_ready f → before_ready s h (map_status f s').
Proof.
  intros (Hm & Hsp & Hq & Hf) Hsame. split_and!; [done..|]. intros Hfail. destruct (Hsame (Status s')) as [Hr _].
  etrans; [exact Hr|by apply Hf].
Qed.

Lemma wpM_updateReadiness s h s1 :
  before_ready s h s1 → ¬ probe_failed h →
  wpM no_guarantee any_answer updateReadiness s1 h (no_return (before_ready s)).
Proof.
  intros Hb Hnf. pose proof (before_ready_call s). pose proof (before_ready_status s).
  assert (∀ h' s' f, quiet h' → ¬ probe_failed h' → Meta s' = Meta s → Spec s' = Spec s →
    before_ready s h' (map_status f s')) as Hany by (intros; split_and!; done).
  unfold updateReadiness. mstep. mstep. destruct (workloadManaged s1).
  - mstep. mstep. kstep; [done|].
    assert (neutral (KEv (KGetRes RDeployment (Namespace (Meta s1)) (Name (Meta s1))) x)) as Hn by (by apply neutral_ev).
    assert (keeps_ready (before_ready s) setPodsHealthyCondition) as Hpods by (unfold setPodsHealthyCondition; repeat ready_step).
    apply (before_ready_neutral s h s1) in Hn as Hb2; [|done].
    mstep. destruct x as [d|e]; mstep; apply Hpods; [|done].
    destruct Hb2 as (Hm & Hsp & Hq & _). apply Hany; [done| |done|done]. rewrite probe_failed_app. destruct Hn. tauto.
  - mstep. mstep. unfold proxyReachable. mstep.
    eapply wp_mono; [eapply (wp_neutral (λ h' s', before_ready s h' s' ∧ ¬ probe_failed h'));
      [|split; [exact Hb|done]|apply neutral_proxyClient]|].
    { intros h' s' e [Hb' Hnf'] He%neutral_of. split; [by apply before_ready_neutral|]. rewrite probe_failed_app. destruct He. tauto. }
    intros h1 cl [Hb1 Hnf1]. 
    assert (∀ h2 ready, quiet h2 → (probe_failed h2 → ready = false) →
      wpM no_guarantee any_answer
        (modify (map_status (λ st, with_ist_UnhealthyPods [] (with_ist_ReadyReplicas 0 (with_ist_Replicas 0 (with_ist_Ready ready st))))) ;;
         removeCondition ConditionPodsHealthy) s1 h2 (no_return (A := unit) (before_ready s))) as Hend.
    { intros h2 ready Hq2 Hr. mstep. mstep. apply keeps_ready_remove; [done|done|].
      destruct Hb1 as (Hm & Hsp & _). split_and!; [done..|]. exact Hr. }
    destruct Hb1 as (_ & _ & Hq1 & _).
    destruct cl as [cl|]; [|mstep; apply Hend; [done|tauto]].
    mstep. kstep; [done|]. mstep. assert (quiet (h1 ++ [KEv (KApi cl HealthCheckLiveness) x])) as Hq2
      by (by apply quiet_step; [|intros ?]).
    destruct x as [err|]; apply Hend; try done.
    rewrite probe_failed_app. destruct (neutral_live cl). tauto.
Qed.

Lemma wpM_updateBeforeReady s :
  wpM no_guarantee any_answer updateBeforeReady s [] (no_return (before_ready s)).
Proof.
  pose proof (before_ready_call s). pose proof (before_ready_status s). pose proof not_failed_nil.
  unfold updateBeforeReady. mstep. mstep. mstep. eapply wpM_mono.
  { apply (wpM_updateReadiness s); [|done]. split_and!; [done|done| |done].
    by intros e He%not_elem_of_nil. }
  intros h1 s1 [r|[]] Hb1; [done|].
  assert (keeps_ready (before_ready s) (updateVersion ;; updateIgnoredSections ;; updateSSO ;; checkEnterpriseFeaturesWarning ;;
    reconcileSecretManagerStatus ;; validateTLSSecrets)) as Hrest.
  { unfold updateVersion, updateIgnoredSections, updateSSO, checkEnterpriseFeaturesWarning, reconcileSecretManagerStatus,
      validateTLSSecrets, requireSecretKeys. repeat ready_step. }
  by apply Hrest.
Qed.

(** What is decided before the probes. *)
Lemma wpM_updateReadyCondition s1 e h :
  wpM no_guarantee any_answer (updateReadyCondition e) s1 h (λ h' s' r,
    r = inr tt ∧ ready_now s1 (match e with None => ist_Ready (Status s1) | Some _ => false end) s' ∧
    (h' = h ∨ ∃ ev : event K, h' = h ++ [ev] ∧ neutral_call (ev_op ev))).
Proof.
  assert (∀ (b : bool) reason msg, reason ≠ "AutoRollback" →
    ready_now s1 b (with_condition ConditionReady (if b then ConditionTrue else ConditionFalse) reason msg s1)) as Hset.
  { intros b reason msg Hne. split_and!; [done..|]. eexists. split; [apply Find_Set|done]. }
  unfold updateReadyCondition, setCondition. mstep. mstep. destruct e as [err|].
  - mstep. mstep. mstep; [done|]. split_and!; [done|by apply (Hset false)|]. right. by eexists.
  - cbv zeta. destruct (ist_Ready (Status s1)) eqn:Hr;
      match goal with |- context [if ?b then _ else _] => change b with (ist_Ready (Status s1)) end; rewrite Hr;
      destruct (workloadManaged s1); mstep; (split_and!; [done| |by left]);
      first [by apply (Hset true) | by apply (Hset false)].
Qed.

(** Once the condition has been decided. *)
Lemma condition_reported_after s s1 e b h0 h s2 x :
  Meta s1 = Meta s → Spec s1 = Spec s → (probe_failed h0 → ist_Ready (Status s1) = false) →
  b = (match e with None => ist_Ready (Status s1) | Some _ => false end) →
  probed s1 b h0 h s2 → condition_reported s e (h ++ [KEv (KStatusUpdate KInstance s2) x]).
Proof.
  intros Hm Hsp Hf Hb (t & -> & (b' & (Hm2 & Hsp2 & Hr2 & c & Hc & Hgen & Hreason & Hst) & Hb') & _).
  exists (Status s2), x, c. rewrite last_snoc. split_and!; [|done|etrans; [exact Hgen|exact (f_equal Generation Hm)]|done|].
  - f_equal. f_equal. destruct s2 as [m sp st]. simpl in *. subst. by destruct s1, s; simpl in *; subst.
  - rewrite Hst, !probe_failed_app, Hr2.
    assert (¬ probe_failed [KEv (KStatusUpdate KInstance s2) x]) as Hn by (by destruct (neutral_ev (KStatusUpdate KInstance s2) x)).
    match goal with |- context [ist_Ready ?u = true] => change (ist_Ready u) with (ist_Ready (Status s1)) end.
    transitivity (b' = true); [by destruct b'|]. rewrite Hb', Hb. destruct e as [err|]; [split; by intros [? _]|].
    destruct (ist_Ready (Status s1)) eqn:Hr; [|split; [by intros [? _]|by intros (_ & ? & _)]].
    assert (¬ probe_failed h0) as Hnf by (intros Hp; by specialize (Hf Hp)).
    assert (@None error = None ∧ true = true) as [? ?] by done. tauto.
Qed.

Lemma wpM_updateReady s s1 e h :
  before_ready s h s1 →
  wpM no_guarantee any_answer (updateReady e) s1 h (λ h' _ _, condition_reported s e h' ∧ (e = None → quiet h')).
Proof.
  intros (Hm & Hsp & Hq & Hf). unfold updateReady. mstep.
  eapply wpM_mono; [apply wpM_updateReadyCondition|]. intros h2 s2 r (-> & Hnow & Hh2).
  assert (quiet h2 ∧ (probe_failed h2 → ist_Ready (Status s1) = false)) as [Hq2 Hf2].
  { destruct Hh2 as [->|(ev & -> & [He1 He2]%neutral_of)]; [done|]. split; [by apply quiet_step|].
    rewrite probe_failed_app. tauto. }
  set (b := match e with None => _ | Some _ => false end) in *.
  assert (∀ h' s', probed s1 b h2 h' s' → (e = None → quiet h') →
    wpM no_guarantee any_answer (instance ← get; _ ← lift (kcallp (KStatusUpdate KInstance instance)); mret tt) s' h'
      (λ h' _ (_ : Ret_t + unit), condition_reported s e h' ∧ (e = None → quiet h'))) as Hend.
  { intros h' s' Hp Hq'. mstep. mstep. mstep. mstep. kstep; [done|]. mstep. split.
    - by eapply (condition_reported_after s s1 e b h2 h').
    - intros He. apply quiet_step; [by apply Hq'|by intros ?]. }
  mstep. mstep. mstep. apply wpM_when; intros Hready.
  - eapply wpM_mono; [apply (wpM_probeInstanceHealth s1 b); done|]. intros h3 s3 [r|[]] Hp; [by destruct Hp|].
    apply Hend; [done|]. intros ->. destruct Hp as (t & -> & _ & Hq3). apply Hq3. unfold b.
    destruct Hnow as (_ & _ & Hr & _). rewrite <- Hr. exact Hready.
  - apply Hend; [|done]. exists []. rewrite app_nil_r. split_and!; [done| |done]. exists b. split; [done|].
    pose proof not_failed_nil. tauto.
Qed.

(** ** The workload *)

(** Once the workload has been looked at: [ready] is what the calls say of it. *)
Definition looked_at (s : LiteLLMInstance) (h : khist) (s' : LiteLLMInstance) : Prop :=
  Meta s' = Meta s ∧ Spec s' = Spec s ∧ (workloadManaged s = true → h ≠ []) ∧
  (ist_Ready (Status s') = true ↔ workload_ready s h).

Lemma workload_ready_grows s h t : workload_ready s h → workload_ready s (h ++ t).
Proof.
  unfold workload_ready. destruct (workloadManaged s).
  - intros (a & t' & -> & Ha). by exists a, (t' ++ t).
  - intros (cl & Hin). exists cl. set_solver.
Qed.

Lemma looked_at_call s h s' (e : event K) : looked_at s h s' → neutral_call (ev_op e) → looked_at s (h ++ [e]) s'.
Proof.
  intros (Hm & Hsp & Hne & Hr) He. split_and!; [done|done|by destruct h|]. rewrite Hr. split; [apply workload_ready_grows|].
  unfold workload_ready. destruct (workloadManaged s).
  - destruct h as [|e0 h]; [by destruct Hne|]. intros (a & t & [= -> _] & Ha). by exists a, h.
  - intros (cl & [Hin|Hin%list_elem_of_singleton]%elem_of_app); [by exists cl|]. by subst e.
Qed.

Lemma looked_at_status s h s' f : looked_at s h s' → same_ready f → looked_at s h (map_status f s').
Proof.
  intros (Hm & Hsp & Hne & Hr) Hf. split_and!; [done..|]. destruct (Hf (Status s')) as [Hf1 _].
  etrans; [|exact Hr]. by rewrite <- Hf1.
Qed.

Definition no_liveness (h : khist) : Prop := ∀ cl x, KEv (KApi cl HealthCheckLiveness) x ∉ h.

Lemma wpM_readiness_looks (s s1 : LiteLLMInstance) :
  Meta s1 = Meta s → Spec s1 = Spec s → ist_Ready (Status s1) = ist_Ready (Status s) →
  wpM no_guarantee any_answer updateReadiness s1 [] (no_return (looked_at s)).
Proof.
  intros Hm Hsp Hr. pose proof (looked_at_call s). pose proof (looked_at_status s).
  assert (workloadManaged s1 = workloadManaged s) as Hman by (unfold workloadManaged; by rewrite Hsp).
  unfold updateReadiness. mstep. mstep. rewrite Hman. destruct (workloadManaged s) eqn:Hs.
  - assert (keeps_ready (looked_at s) setPodsHealthyCondition) as Hpods by (unfold setPodsHealthyCondition; repeat ready_step).
    rewrite Hm. mstep. mstep. kstep; [done|]. mstep. destruct x as [d|e]; mstep; apply Hpods; split_and!; try done.
    + unfold workload_ready. rewrite Hs. simpl. rewrite Z.ltb_lt. split; [intros ?; by eexists (Ok d), []|].
      by intros (a & t & Heq & Ha); apply Ev_cons_inj in Heq as [<- _].
    + unfold workload_ready. rewrite Hs, Hr. split; [intros ?; by eexists (Err e), []|].
      by intros (a & t & Heq & Ha); apply Ev_cons_inj in Heq as [<- _].
  - mstep. mstep. unfold proxyReachable. mstep.
    eapply wp_mono; [eapply (wp_neutral (λ h' _, no_liveness h')) with (s := s1); [|by intros cl x Hin%not_elem_of_nil|apply neutral_proxyClient]|].
    { intros h' s' e Hn He cl x [Hin|Hin%list_elem_of_singleton]%elem_of_app; [by eapply Hn|]. by subst e. }
    intros h1 cl Hn. assert (∀ h2 ready, (ready = true ↔ workload_ready s h2) →
      wpM no_guarantee any_answer
        (modify (map_status (λ st, with_ist_UnhealthyPods [] (with_ist_ReadyReplicas 0 (with_ist_Replicas 0 (with_ist_Ready ready st))))) ;;
         removeCondition ConditionPodsHealthy) s1 h2 (no_return (A := unit) (looked_at s))) as Hend.
    { intros h2 ready Hready. mstep. mstep. apply keeps_ready_remove; [done|done|].
      split_and!; [done|done|congruence|exact Hready]. }
    unfold workload_ready in Hend. rewrite Hs in Hend.
    destruct cl as [cl|]; [|mstep; apply Hend; split; [done|]; by intros (cl & Hin%Hn)].
    mstep. kstep; [done|]. mstep. destruct x as [err|]; apply Hend; (split; [try done|]).
    + intros (cl' & [Hin%Hn|Hin%list_elem_of_singleton]%elem_of_app); [done|].
      pose proof (f_equal ev_op Hin) as [= ->]. by apply Ev_inj in Hin.
    + intros _. exists cl. set_solver.
    + done.
Qed.

Lemma wpM_before_looks s : wpM no_guarantee any_answer updateBeforeReady s [] (no_return (looked_at s)).
Proof.
  pose proof (looked_at_call s). pose proof (looked_at_status s).
  unfold updateBeforeReady. mstep. mstep. mstep. eapply wpM_mono; [by apply (wpM_readiness_looks s)|].
  intros h1 s1 [r|[]] Hb1; [done|].
  assert (keeps_ready (looked_at s) (updateVersion ;; updateIgnoredSections ;; updateSSO ;; checkEnterpriseFeaturesWarning ;;
    reconcileSecretManagerStatus ;; validateTLSSecrets)) as Hrest.
  { unfold updateVersion, updateIgnoredSections, updateSSO, checkEnterpriseFeaturesWarning, reconcileSecretManagerStatus,
      validateTLSSecrets, requireSecretKeys. repeat ready_step. }
  by apply Hrest.
Qed.

(** The probes leave the instance and [ready] as they are. *)
Definition stays (s : LiteLLMInstance) (h0 h : khist) (s' : LiteLLMInstance) : Prop :=
  Meta s' = Meta s ∧ Spec s' = Spec s ∧ ist_Ready (Status s') = ist_Ready (Status s) ∧ ∃ t, h = h0 ++ t.

Lemma stays_step s h0 h s' (e : event K) : stays s h0 h s' → stays s h0 (h ++ [e]) s'.
Proof. intros (? & ? & ? & t & ->). split_and!; [done..|]. exists (t ++ [e]). by rewrite app_assoc. Qed.

Lemma stays_call s h0 h s' (e : event K) : stays s h0 h s' → neutral_call (ev_op e) → stays s h0 (h ++ [e]) s'.
Proof. intros Hs _. by apply stays_step. Qed.

Lemma stays_status s h0 h s' f : stays s h0 h s' → same_ready f → stays s h0 h (map_status f s').
Proof.
  intros (? & ? & Hr & Ht) Hf. split_and!; [done..| |done]. destruct (Hf (Status s')) as [Hf1 _]. by rewrite <- Hr, <- Hf1.
Qed.

Lemma stays_condition s h0 h s' type status reason msg :
  stays s h0 h s' → stays s h0 h (with_condition type status reason msg s').
Proof. done. Qed.

Lemma wpM_probes_extend s2 h2 : wpM no_guarantee any_answer probeInstanceHealth s2 h2 (no_return (stays s2 h2)).
Proof.
  pose proof (stays_call s2 h2). pose proof (stays_status s2 h2).
  assert (stays s2 h2 h2 s2) as Hp by (split_and!; [done..|exists []; by rewrite app_nil_r]).
  assert (∀ reason fmt prev err h s, stays s2 h2 h s →
    wpM no_guarantee any_answer (probeFailed reason fmt prev err) s h (no_return (stays s2 h2))) as Hfailed.
  { intros reason fmt prev err h s Hs. unfold probeFailed, setCondition. mstep. mstep.
    apply wpM_when; intros _; [|done]. apply keeps_ready_event; [done|done|by apply stays_condition]. }
  unfold probeInstanceHealth. mstep. mstep. mstep. mstep.
  eapply wp_mono; [by eapply (wp_neutral (stays s2 h2)); [|exact Hp|apply neutral_proxyClient]|].
  intros h1 [cl|] Hp1; [|by mpure]. mstep. mstep; [done|].
  destruct x as [err|]; [apply Hfailed; by apply stays_step|].
  mstep. mstep; [done|]. destruct x as [readiness|err]; [|apply Hfailed; by apply stays_step, stays_step].
  mstep. eapply wpM_mono.
  { eapply (keeps_ready_when (stays s2 h2)); [|apply stays_step, stays_step; exact Hp1]. by apply keeps_ready_status. }
  intros h3 s3 [r|[]] Hp3; [done|].
  assert (keeps_ready (stays s2 h2) (probeRedisHealth cl)) as Hredis by (unfold probeRedisHealth; repeat ready_step).
  mstep. apply wpM_when; intros _; [|by apply Hredis]. mstep; [done|]. apply Hredis. by apply stays_step.
Qed.

(** The status written last is ready exactly when the workload is. *)
Definition status_tells (s : LiteLLMInstance) (h : khist) : Prop :=
  ∃ s' x, last h = Some (KEv (KStatusUpdate KInstance s') x) ∧ (ist_Ready (Status s') = true ↔ workload_ready s h).

Lemma wpM_status_tells (s s1 : LiteLLMInstance) e h :
  looked_at s h s1 → wpM no_guarantee any_answer (updateReady e) s1 h (λ h' _ _, status_tells s h').
Proof.
  intros Hl. assert (∀ h' s', looked_at s h' s' → wpM no_guarantee any_answer
    (instance ← get; _ ← lift (kcallp (KStatusUpdate KInstance instance)); mret tt) s' h'
    (λ h' _ (_ : Ret_t + unit), status_tells s h')) as Hend.
  { intros h' s' Hl'. mstep. mstep. mstep. mstep. kstep; [done|]. mstep. exists s', x. rewrite last_snoc. split; [done|].
    by apply (looked_at_call s h' s' (KEv (KStatusUpdate KInstance s') x)). }
  unfold updateReady. mstep. eapply wpM_mono; [apply wpM_updateReadyCondition|]. intros h2 s2 r (-> & Hnow & Hh2).
  assert (looked_at s h2 s2) as Hl2.
  { destruct Hnow as (Hm2 & Hsp2 & Hr2 & _). assert (looked_at s h2 s1) as (Hm & Hsp & Hne & Hr).
    { destruct Hh2 as [->|(ev & -> & Hev)]; [done|]. by apply looked_at_call. }
    split_and!; [congruence|congruence|done|]. etrans; [|exact Hr]. by rewrite <- Hr2. }
  mstep. mstep. mstep. apply wpM_when; intros Hready; [|by apply Hend].
  destruct Hl2 as (Hm & Hsp & Hne & Hr). assert (ist_Ready (Status s2) = true) as Hrt by exact Hready.
  eapply wpM_mono; [apply (wpM_probes_extend s2 h2)|]. intros h3 s3 [r|[]] Hp3; [by destruct Hp3|].
  destruct Hp3 as (Hm3 & Hsp3 & Hr3 & t & ->).
  apply Hend. split_and!; [congruence|congruence|intros Hs [-> _]%app_nil; by apply Hne|].
  split; intros _; [apply workload_ready_grows, (proj1 Hr), Hrt|]. etrans; [exact Hr3|exact Hrt].
Qed.

(** C18: the status of an instance tells the truth about the proxy: whatever the cluster and the
    proxy answer, the last call writes the status.  It is ready exactly when the Deployment
    of the instance, read by the pass, has a ready replica (the previous value stands when
    it could not be read), or, when the workload is not managed, when the proxy has answered
    the liveness probe.  The Ready condition, for the generation of the pass, is true exactly
    when, besides, the pass had no error and no probe has failed; the condition of a rollback
    never reaches the API server; and no pass without an error announces that the proxy is
    healthy again. *)
Theorem updateInstanceStatus_reports s e t s' r :
  runs (updateInstanceStatus e s) t (s', r) →
  ready_reported s e t ∧ (e = None → quiet t).
Proof.
  intros Hr. assert (condition_reported s e t ∧ (e = None → quiet t)) as [(st & x & c & Hlast & Hc & Hgen & Hne & Hst) Hq].
  { refine (kruns_post _ t (s', r) (λ h _, condition_reported s e h ∧ (e = None → quiet h)) _ Hr).
    change (wpM no_guarantee any_answer (updateInstanceStatus e) s [] (λ h _ _, condition_reported s e h ∧ (e = None → quiet h))).
    unfold updateInstanceStatus. mstep. eapply wpM_mono; [apply wpM_updateBeforeReady|].
    intros h1 s1 [?|[]] Hb; [by destruct Hb|]. by apply wpM_updateReady. }
  assert (status_tells s t) as (s2 & x2 & Hlast2 & Htells).
  { refine (kruns_post _ t (s', r) (λ h _, status_tells s h) _ Hr).
    change (wpM no_guarantee any_answer (updateInstanceStatus e) s [] (λ h _ _, status_tells s h)).
    unfold updateInstanceStatus. mstep. eapply wpM_mono; [apply wpM_before_looks|].
    intros h1 s1 [?|[]] Hb; [by destruct Hb|]. by apply wpM_status_tells. }
  split; [|done]. exists st, x, c. rewrite Hlast in Hlast2.
  apply (f_equal (fmap ev_op)) in Hlast2. cbn [fmap option_fmap option_map ev_op] in Hlast2. assert (KStatusUpdate KInstance (set_status st s) = KStatusUpdate KInstance s2) as <-%KStatusUpdate_inj
    by congruence. split_and!; [done..|]. by rewrite <- Htells.
Qed.
End Ready.

(** ** Rollback *)

Section Rollback.
Context `{KubeLib} `{TimeFormat}.

Lemma external_insert k v m :
  k ∈ operatorManagedPodTemplateAnnotations → external (Some (<[k := v]> (default ∅ m))) = external m.
Proof.
  intros Hk. apply map_eq. intros j. rewrite !external_lookup. case_decide; [done|]. simpl.
  by rewrite lookup_insert_ne by naive_solver.
Qed.

Lemma merge_restartAnnotated now live desired :
  mergeDeployment (restartAnnotated now live) desired = mergeDeployment live desired.
Proof.
  unfold mergeDeployment, restartAnnotated, map_template, set_template. simpl. do 2 f_equal. f_equal.
  rewrite !preserveExternal_spec, external_insert; [done|]. by left.
Qed.

(** When the rollback writes: a Deployment read in the pass that has exceeded its progress
    deadline at another revision than the last good one. *)
Definition rollback_due (i : LiteLLMInstance) (d : Deployment) : Prop :=
  autoRollbackEnabled i = true ∧ healthyDeployment d = false ∧
  ist_LastSuccessfulRevision (Status i) ≠ "" ∧ ist_LastSuccessfulRevision (Status i) ≠ currentRevision d ∧
  existsb progressDeadlineExceeded (dst_Conditions (dep_Status d)) = true.

(** C40: the rollback writes only the stuck Deployment it has read, at a revision other than the
    last one that was healthy, and it restores nothing: the containers stay those of the
    failing revision, the only change is an annotation of the pod template, and the next pass,
    whatever it renders, merges that Deployment as if the rollback had not happened. *)
Theorem autoRollback_inert i :
  kalways (λ h c, ∀ d', c = KUpdateRes RDeployment d' →
    ∃ d now, KEv (KGetRes RDeployment (Namespace (Meta i)) (Name (Meta i))) (Ok d) ∈ h ∧
      KEv KNow now ∈ h ∧ rollback_due i d ∧ d' = restartAnnotated now d ∧
      pt_Spec (ds_Template (dep_Spec d')) = pt_Spec (ds_Template (dep_Spec d)) ∧
      ∀ desired, mergeDeployment d' desired = mergeDeployment d desired)
    (reconcileAutoRollback i).
Proof.
  match goal with |- kalways ?G _ => apply (wp_always G _ (λ _ _, True)) end.
  change (wpM (λ (h : khist) (c : kcall), ∀ d', c = KUpdateRes RDeployment d' →
    ∃ d now, KEv (KGetRes RDeployment (Namespace (Meta i)) (Name (Meta i))) (Ok d) ∈ h ∧
      KEv KNow now ∈ h ∧ rollback_due i d ∧ d' = restartAnnotated now d ∧
      pt_Spec (ds_Template (dep_Spec d')) = pt_Spec (ds_Template (dep_Spec d)) ∧
      ∀ desired, mergeDeployment d' desired = mergeDeployment d desired) any_answer reconcileAutoRollback i [] (λ _ _ _, True)).
  unfold reconcileAutoRollback. mstep. mstep. apply wpM_when; intros Hen; [|done].
  mstep. mstep. kstep; [done|]. destruct x as [d|e]; [|by mpure]. cbv zeta.
  destruct (healthyDeployment d) eqn:Hh; [apply wpM_when; intros _; [by mpure|done]|].
  apply wpM_when; [|done]. intros [[Hne1 Hne2]%bool_decide_eq_true Hdl]%andb_prop.
  unfold triggerRollback. mstep. mstep. kstep; [done|]. mstep. mstep. kstep.
  - intros d' Heq. apply KUpdateRes_inj in Heq as <-. exists d, x. split_and!; [|set_solver|done..|done|done|].
    + apply elem_of_app. left. by apply list_elem_of_singleton.
    + intros desired. apply merge_restartAnnotated.
  - destruct x0; [done|]. unfold setCondition. by mpure.
Qed.
End Rollback.

(** ** The watch of the license Secrets *)

Section License.
Context `{KubeLib}.

Lemma substring_all s : String.substring 0 (String.length s) s = s.
Proof. induction s as [|a s IH]; simpl; congruence. Qed.

Lemma substring_app_l x y : String.substring 0 (String.length x) (x +:+ y) = x.
Proof. induction x as [|a x IH]; simpl; [by destruct y|]. f_equal. exact IH. Qed.

Lemma substring_app_r x y : String.substring (String.length x) (String.length y) (x +:+ y) = y.
Proof. induction x as [|a x IH]; simpl; [apply substring_all|exact IH]. Qed.

Lemma substring_split n s :
  (n ≤ String.length s)%nat → String.substring 0 n s +:+ String.substring n (String.length s - n) s = s.
Proof.
  revert n. induction s as [|a s IH]; intros [|n] Hn; simpl in *; [done|lia| |].
  - change (String a (String.substring 0 (String.length s) s) = String a s). by rewrite substring_all.
  - change (String a (String.substring 0 n s +:+ String.substring n (String.length s - n) s) = String a s).
    rewrite IH; [done|lia].
Qed.

Lemma HasSuffix_spec s suffix : strings_HasSuffix s suffix = true ↔ ∃ x, s = x +:+ suffix.
Proof.
  unfold strings_HasSuffix. rewrite andb_true_iff, !bool_decide_eq_true. split.
  - intros [Hle Hs]. exists (String.substring 0 (String.length s - String.length suffix) s).
    rewrite <- Hs at 2. rewrite <- (substring_split (String.length s - String.length suffix) s) at 1 by lia.
    f_equal. f_equal. lia.
  - intros [x ->]. rewrite length_append. split; [lia|].
    replace (String.length x + String.length suffix - String.length suffix)%nat with (String.length x) by lia.
    apply substring_app_r.
Qed.

Lemma TrimSuffix_app x suffix : strings_TrimSuffix (x +:+ suffix) suffix = x.
Proof.
  unfold strings_TrimSuffix. rewrite (proj2 (HasSuffix_spec _ _)) by eauto. rewrite length_append.
  replace (String.length x + String.length suffix - String.length suffix)%nat with (String.length x) by lia.
  apply substring_app_l.
Qed.

Lemma findLicense_reads ns names t o :
  runs (findLicense ns names) t o → ∀ e, e ∈ t → ∃ n, n ∈ names ∧ ev_op e = KGetSecret ns n.
Proof.
  revert t. induction names as [|n names IH]; intros t; [by intros [-> _] e ?%not_elem_of_nil|].
  cbn [findLicense]. intros (x & t' & -> & Hr) e [->|He]%elem_of_cons; [exists n; split; [set_solver|done]|].
  assert (t' = [] ∨ runs (findLicense ns names) t' o) as [->|Hr'].
  { destruct x as [secret|err]; [|by right]. simpl in Hr. destruct (sec_Data secret !! _); [left; by destruct Hr|by right]. }
  - by apply not_elem_of_nil in He.
  - destruct (IH _ Hr' e He) as (m & Hm & ?). exists m. split; [set_solver|done].
Qed.

(** A license is found exactly when a Secret read holds the key. *)
Lemma findLicense_found ns names t o :
  runs (findLicense ns names) t o →
  match o with
  | Some n => n ∈ names ∧ ∃ s, KEv (KGetSecret ns n) (Ok s) ∈ t ∧ is_Some (sec_Data s !! "license-key")
  | None => ∀ n s, KEv (KGetSecret ns n) (Ok s) ∈ t → sec_Data s !! "license-key" = None
  end.
Proof.
  revert t. induction names as [|n names IH]; intros t; [intros [-> ->]; by intros n s ?%not_elem_of_nil|].
  cbn [findLicense]. intros (x & t' & -> & Hr). simpl in Hr.
  assert (runs (findLicense ns names) t' o → (∀ s, x = Ok s → sec_Data s !! "license-key" = None) →
    match o with
    | Some n' => n' ∈ n :: names ∧ ∃ s, KEv (KGetSecret ns n') (Ok s) ∈ KEv (KGetSecret ns n) x :: t' ∧
                   is_Some (sec_Data s !! "license-key")
    | None => ∀ n' s, KEv (KGetSecret ns n') (Ok s) ∈ KEv (KGetSecret ns n) x :: t' → sec_Data s !! "license-key" = None
    end) as Hnext.
  { intros Hr' Hx. pose proof (IH _ Hr') as H1. destruct o as [m|].
    - destruct H1 as (Hm & s & Hin & Hs). split; [by right|]. exists s. split; [by right|done].
    - intros m s [Heq|Hin]%elem_of_cons; [|by eapply H1].
      pose proof (f_equal ev_op Heq) as [= ->]. apply Ev_inj in Heq. by apply Hx. }
  destruct x as [secret|err]; simpl in Hr; [destruct (sec_Data secret !! "license-key") eqn:Hk|].
  - destruct Hr as [-> ->]. split; [by left|]. exists secret. split; [by left|by rewrite Hk].
  - apply Hnext; [done|]. by intros s [= <-].
  - by apply Hnext.
Qed.

(** An event on a Secret the detection looks at enqueues the instance. *)
Lemma license_secret_enqueues i s tw out :
  Namespace (sec_meta s) = Namespace (Meta i) → Name (sec_meta s) ∈ licenseSecretNames i →
  runs (findInstanceForLicenseSecret s) tw out →
  (∀ x, KEv (KList KInstance (Some (Namespace (sec_meta s)))) x ∈ tw →
     ∃ l j, x = Ok l ∧ j ∈ l ∧ request j = request i) →
  request i ∈ out.
Proof.
  intros Hns Hm. unfold findInstanceForLicenseSecret. cbv zeta. case_decide as Hname.
  - intros (x & tw' & -> & Hw) Hlist. destruct (Hlist x) as (l & j & -> & Hj & Hreq); [by left|].
    destruct Hw as [_ ->]. rewrite <- Hreq. by apply list_elem_of_fmap_2.
  - assert (Name (sec_meta s) = Name (Meta i) +:+ licenseSuffix) as Hn.
    { by apply elem_of_cons in Hm as [Hm|Hm%list_elem_of_singleton]. }
    assert (strings_HasSuffix (Name (sec_meta s)) licenseSuffix = true) as -> by (apply HasSuffix_spec; eauto).
    intros [-> ->] _. apply list_elem_of_singleton. unfold request. by rewrite Hns, Hn, TrimSuffix_app.
Qed.

(** C28: the license of an instance is one of the Secret read under its own name, else of the
    Secret shared by the namespace, that holds the key, and is reported as active exactly when
    there is one; every Secret the detection looks at is watched: an event on it enqueues the
    instance (for the shared Secret, when the instances can be listed), and an event on a
    Secret named after one instance enqueues only the instance whose name, with the suffix put
    back, is the name of the Secret. *)
Theorem license_watched i t i' r :
  runs (reconcileLicense i) t (i', r) →
  (∃ n, r = inr n ∧ ist_License (Status i') = Some (MkLicenseStatus (bool_decide (n ≠ "")) n) ∧
     ((∃ m s, KEv (KGetSecret (Namespace (Meta i)) m) (Ok s) ∈ t ∧ is_Some (sec_Data s !! "license-key")) ↔ n ≠ "") ∧
     (n ≠ "" → n ∈ licenseSecretNames i)) ∧
  ∀ s tw out, runs (findInstanceForLicenseSecret s) tw out →
    ((∃ e, e ∈ t ∧ ev_op e = KGetSecret (Namespace (sec_meta s)) (Name (sec_meta s))) →
     (∀ x, KEv (KList KInstance (Some (Namespace (sec_meta s)))) x ∈ tw →
        ∃ l j, x = Ok l ∧ j ∈ l ∧ request j = request i) →
     request i ∈ out) ∧
    (Name (sec_meta s) ≠ namespaceLicense → ∀ q, q ∈ out →
       q.1 = Namespace (sec_meta s) ∧ q.2 +:+ licenseSuffix = Name (sec_meta s)).
Proof.
  intros Hr. unfold reconcileLicense in Hr. rewrite get_bind in Hr.
  apply runs_bind_inv in Hr as (t1 & t2 & [i1 r1] & -> & Hr1 & Hr2).
  apply runs_bind_inv in Hr1 as (t3 & t4 & o & -> & Hr & [-> [= -> ->]]).
  pose proof (findLicense_reads _ _ _ _ Hr) as Hreads. pose proof (findLicense_found _ _ _ _ Hr) as Hfound.
  assert (t2 = []) as ->.
  { destruct o; simpl in Hr2; by destruct Hr2 as [-> _]. }
  rewrite !app_nil_r. split.
  - assert (∀ n, n ∈ licenseSecretNames i → n ≠ "") as Hne.
    { intros n [->| ->%list_elem_of_singleton]%elem_of_cons; [|done]. by destruct (Name (Meta i)). }
    destruct o as [n|]; simpl in Hr2; destruct Hr2 as [_ [= -> ->]].
    + destruct Hfound as (Hn & s & Hin & Hs). exists n. rewrite bool_decide_true by auto. split_and!; [done..| |done].
      split; [auto|]. eauto.
    + exists "". split_and!; [done..| |done]. split; [|done]. intros (m & s & Hin & [v Hv]).
      rewrite (Hfound m s Hin) in Hv. done.
  - intros s tw out Hw. split.
    + intros (e & He & Hop) Hlist. destruct (Hreads e He) as (m & Hm & Hop'). rewrite Hop in Hop'.
      injection Hop' as Hns Hn. eapply license_secret_enqueues; [done|by rewrite Hn|exact Hw|exact Hlist].
    + revert Hw. unfold findInstanceForLicenseSecret. cbv zeta. intros Hw Hname. rewrite decide_False in Hw by done.
      destruct (strings_HasSuffix _ _) eqn:Hsuf; destruct Hw as [-> ->]; [|by intros q ?%not_elem_of_nil].
      apply HasSuffix_spec in Hsuf as [x Hx]. rewrite Hx, TrimSuffix_app. by intros q ->%list_elem_of_singleton.
Qed.
End License.
