(* ===== verification/Guardrail.v ===== *)
(** * Guardrails (internal/controller/litellmguardrail_controller.go)

    A guardrail is rendered by the instance controller; its own controller validates
    the specification and reports on it. *)

From S2P Require Import Prelude KubeTypes InstanceTypes Types Updates World Sha256 Common Reconcile.
Open Scope Z_scope.

Section Guardrail.
Context `{KubeLib}.

#[local] Notation GuardM := (M K LiteLLMGuardrail Ret_t).
#[local] Notation get := (@get K LiteLLMGuardrail _).
#[local] Notation modify := (@modify K LiteLLMGuardrail _).
#[local] Notation update_obj := (@update_obj KGuardrail _).
#[local] Notation status_update_obj := (@status_update_obj KGuardrail _).
#[local] Notation m_event := (@m_event KGuardrail _).

Definition setReady (status reason : string) (msg : text) (g : LiteLLMGuardrail) : LiteLLMGuardrail :=
  map_status (λ st, with_grst_Conditions (SetStatusCondition (grst_Conditions st)
    (MkCondition ConditionReady status reason msg (Generation (Meta g)))) st) g.

(** A refusal: the event, the condition, [configured = false], the status update whose
    error is ignored, and the requeue. *)
Definition refuse (eventReason fmt : string) (args : list farg) (reason : string) (msg : text) (result : Result) :
    GuardM Ret_t :=
  m_event EventTypeWarning eventReason fmt args ;;
  modify (λ g, map_status (with_grst_Configured false) (setReady ConditionFalse reason msg g)) ;;
  _ ← status_update_obj;
  mret (result, None).

Definition customGuardrail : string := "custom_guardrail".
Definition genericGuardrail : string := "generic_guardrail_api".

(** The rules on the fields of the specification: the event and the condition of the
    first rule that is broken. *)
Record specError := MkSpecError { se_event : string; se_reason : string; se_message : text }.

Definition checkSpec (sp : LiteLLMGuardrailSpec) : option specError :=
  let provider := grs_Provider sp in
  if decide (provider = customGuardrail ∧ grs_GuardrailClass sp = "") then
    Some (MkSpecError "Guardrail %q: provider custom_guardrail requires spec.guardrailClass" "GuardrailClassRequired"
      (lit "provider custom_guardrail requires spec.guardrailClass (dotted path to a CustomGuardrail subclass)"))
  else if decide (provider ≠ customGuardrail ∧ grs_GuardrailClass sp ≠ "") then
    Some (MkSpecError "Guardrail %q: spec.guardrailClass is only valid for provider custom_guardrail"
      "GuardrailClassNotAllowed" (Sprintf "spec.guardrailClass must be empty for provider %q" [FStr provider]))
  else if decide (provider = genericGuardrail ∧ grs_APIBase sp = "") then
    Some (MkSpecError "Guardrail %q: provider generic_guardrail_api requires spec.apiBase" "APIBaseRequired"
      (lit "provider generic_guardrail_api requires spec.apiBase (the guardrail HTTP endpoint)"))
  else if decide (grs_UnreachableFallback sp ≠ "" ∧ provider ≠ genericGuardrail) then
    Some (MkSpecError "Guardrail %q: spec.unreachableFallback is only valid for provider generic_guardrail_api"
      "UnreachableFallbackNotAllowed"
      (Sprintf "spec.unreachableFallback must be empty for provider %q" [FStr provider]))
  else None.

(** [if apierrors.IsNotFound(err) { reason = notFound }] *)
Definition fetchReason (notFound other : string) (err : error) : string :=
  if apierrors_IsNotFound err then notFound else other.

(** The check of the API key Secret: goes on when it is fine. *)
Definition checkAPIKey (ref : SecretKeyRef) : GuardM unit :=
  g ← get;
  let name := FStr (grs_GuardrailName (Spec g)) in
  let retry := RequeueIn (30 * time_Second) in
  secret ← lift (kcallp (KGetSecret (Namespace (Meta g)) (skr_Name ref)));
  match secret with
  | Err err =>
      r ← refuse EventReasonSecretNotFound "Guardrail %q API key Secret %q: %v" [name; FStr (skr_Name ref); FErr err]
            (fetchReason "SecretNotFound" "SecretFetchFailed" err)
            (Sprintf "API key Secret %q: %s" [FStr (skr_Name ref); FErr err]) retry;
      exit r
  | Ok secret =>
      match sec_Data secret !! skr_Key ref with
      | Some _ => mret tt
      | None =>
          r ← refuse EventReasonValidationFailed "Guardrail %q: key %q not found in Secret %q"
                [name; FStr (skr_Key ref); FStr (skr_Name ref)] "SecretKeyMissing"
                (Sprintf "key %q not found in Secret %q" [FStr (skr_Key ref); FStr (skr_Name ref)]) retry;
          exit r
      end
  end.

(** The end of [Reconcile]: everything has been validated. *)
Definition markValidated : GuardM Ret_t :=
  g ← get;
  let wasReady :=
    match FindStatusCondition (grst_Conditions (Status g)) ConditionReady with
    | Some c => bool_decide (cond_Status c = ConditionTrue)
    | None => false
    end in
  now ← lift (kcallp KNow);
  modify (λ g, setReady ConditionTrue "Validated"
    (lit "Guardrail spec is valid; waiting for instance controller to render config")
    (map_status (λ st, with_grst_LastSyncTime (Some now) (with_grst_Configured true st)) g)) ;;
  when (negb wasReady)
    (m_event EventTypeNormal EventReasonSynced "Guardrail %q validated" [FStr (grs_GuardrailName (Spec g))]) ;;
  _ ← status_update_obj;
  mret (RequeueIn (5 * time_Minute), None).

(** [Reconcile] once the object is fetched, alive and carries the finalizer. *)
Definition reconcileGuardrail : GuardM Ret_t :=
  g ← get;
  let name := FStr (grs_GuardrailName (Spec g)) in
  match checkSpec (Spec g) with
  | Some e => refuse EventReasonValidationFailed (se_event e) [name] (se_reason e) (se_message e) Result0
  | None =>
      instance ← lift (kcallp (KGet KInstance (Namespace (Meta g)) (ir_Name (grs_InstanceRef (Spec g)))));
      match instance with
      | Err err =>
          let reason := fetchReason "InstanceNotFound" "InstanceFetchFailed" err in
          refuse EventReasonInstanceNotReady "Guardrail %q: %s: %v" [name; FStr reason; FErr err] reason (err_text err)
            (RequeueIn (30 * time_Second))
      | Ok instance =>
          if workloadManaged instance then
            match grs_APIKeySecretRef (Spec g) with
            | Some ref => checkAPIKey ref
            | None => mret tt
            end ;;
            markValidated
          else
            refuse EventReasonValidationFailed "Guardrail %q: instance %q is unmanaged, so no config is rendered for it"
              [name; FStr (Name (Meta instance))] "InstanceUnmanaged"
              (Sprintf "instance %q has workload.managed=false; the operator never renders guardrail config for it"
                 [FStr (Name (Meta instance))]) (RequeueIn (5 * time_Minute))
      end
  end.

Definition handleGuardrailDeletion (g : LiteLLMGuardrail) : kprog Ret_t :=
  if ContainsFinalizer (Meta g) FinalizerName then
    r ← kcallp (KUpdate KGuardrail (set_meta (RemoveFinalizer (Meta g) FinalizerName) g));
    mret (Result0, match r with Ok _ => None | Err err => Some err end)
  else mret (Result0, None).

Definition ReconcileGuardrail (ns name : string) : kprog Ret_t :=
  r ← kcallp (KGet KGuardrail ns name);
  match r with
  | Err err => mret (Result0, IgnoreNotFound err)
  | Ok g =>
      let live (g : LiteLLMGuardrail) := '(_, r) ← run_M reconcileGuardrail g; mret r in
      match DeletionTimestamp (Meta g) with
      | Some _ => handleGuardrailDeletion g
      | None =>
          if ContainsFinalizer (Meta g) FinalizerName then live g
          else
            r ← kcallp (KUpdate KGuardrail (set_meta (AddFinalizer (Meta g) FinalizerName) g));
            match r with
            | Err err => mret (Result0, Some err)
            | Ok g' => live g'
            end
      end
  end.
End Guardrail.

(** ** What is reported *)

Section GuardrailTheorems.
Context `{KubeLib} `{!KubeLibLaws}.

(** The rules on the fields: a class exactly for custom guardrails, an API base for the
    generic API, a fallback only for it. *)
Definition valid_spec (sp : LiteLLMGuardrailSpec) : Prop :=
  (grs_Provider sp = customGuardrail ↔ grs_GuardrailClass sp ≠ "") ∧
  (grs_Provider sp = genericGuardrail → grs_APIBase sp ≠ "") ∧
  (grs_UnreachableFallback sp ≠ "" → grs_Provider sp = genericGuardrail).

Lemma checkSpec_None sp : checkSpec sp = None ↔ valid_spec sp.
Proof.
  unfold checkSpec, valid_spec. cbv zeta.
  destruct (decide (grs_Provider sp = customGuardrail)), (decide (grs_GuardrailClass sp = "")),
    (decide (grs_Provider sp = genericGuardrail)), (decide (grs_APIBase sp = "")),
    (decide (grs_UnreachableFallback sp = ""));
    repeat case_decide; naive_solver.
Qed.

(** The guardrail is valid by what the pass has read: the rules of the specification hold, the
    instance of its namespace exists and renders a configuration, and the API key, if any,
    is in its Secret. *)
Definition valid_guardrail (g : LiteLLMGuardrail) (h : khist) : Prop :=
  valid_spec (Spec g) ∧
  (∃ instance, KEv (KGet KInstance (Namespace (Meta g)) (ir_Name (grs_InstanceRef (Spec g)))) (Ok instance) ∈ h ∧
     workloadManaged instance = true) ∧
  ∀ ref, grs_APIKeySecretRef (Spec g) = Some ref → ∃ v, secret_value h (Namespace (Meta g)) ref v.

(** The status written last tells whether the guardrail is valid. *)
Definition reported (g : LiteLLMGuardrail) (h : khist) : Prop :=
  ∃ st x c, last h = Some (KEv (KStatusUpdate KGuardrail (set_status st g)) x) ∧
    FindStatusCondition (grst_Conditions st) ConditionReady = Some c ∧
    cond_ObservedGeneration c = Generation (Meta g) ∧
    (cond_Status c = ConditionTrue ↔ grst_Configured st = true) ∧
    (grst_Configured st = true ↔ valid_guardrail g h).

(** No call but reads, events and the status. *)
Definition guardrail_call_ok : khist → kcall → Prop :=
  λ _ c, benign c = true ∨ ∃ g', c = KStatusUpdate KGuardrail g'.

#[local] Instance guardrail_call_ok_benign : benign_ok guardrail_call_ok.
Proof. intros h c Hc. by left. Qed.

(** The two calls of a refusal, after the history [h]. *)
Definition refusal (g : LiteLLMGuardrail) (h : khist) (er : string) (m : text) (st : LiteLLMGuardrailStatus)
    (x : res (obj KGuardrail) error) : khist :=
  (h ++ [KEv (KEvent KGuardrail g EventTypeWarning er m) tt]) ++ [KEv (KStatusUpdate KGuardrail (set_status st g)) x].

Definition refused_status (g : LiteLLMGuardrail) (st : LiteLLMGuardrailStatus) : Prop :=
  grst_Configured st = false ∧
  ∃ c, FindStatusCondition (grst_Conditions st) ConditionReady = Some c ∧
    cond_Status c = ConditionFalse ∧ cond_ObservedGeneration c = Generation (Meta g).

Lemma wpM_refuse g er fmt args reason msg result h (Q : khist → LiteLLMGuardrail → Ret_t + Ret_t → Prop) :
  (∀ m x st s', refused_status g st → Q (refusal g h er m st x) s' (inr (result, None))) →
  wpM guardrail_call_ok any_answer (refuse er fmt args reason msg result) g h Q.
Proof.
  intros HQ. unfold refuse. mpure. mstep; [by left|]. mpure.
  mstep; [right; by eexists| |]; mpure; unfold setReady, map_status; simpl;
    (eapply HQ; split; [done|]; eexists; split; [apply Find_Set|done]).
Qed.

Lemma wpM_refuse_exit g er fmt args reason msg result h (Q : khist → LiteLLMGuardrail → Ret_t + unit → Prop) :
  (∀ m x st s', refused_status g st → Q (refusal g h er m st x) s' (inl (result, None))) →
  wpM guardrail_call_ok any_answer (r ← refuse er fmt args reason msg result; exit r) g h Q.
Proof. intros HQ. mpure. apply wpM_refuse. intros m x st s' Hst. mpure. eauto. Qed.

(** The reads after a refusal are those of [h]. *)
Lemma refusal_get k ns n y g h er m st x :
  KEv (KGet k ns n) y ∈ refusal g h er m st x → KEv (KGet k ns n) y ∈ h.
Proof. unfold refusal. rewrite !elem_of_app, !list_elem_of_singleton. naive_solver. Qed.

Lemma refusal_getSecret ns n y g h er m st x :
  KEv (KGetSecret ns n) y ∈ refusal g h er m st x → KEv (KGetSecret ns n) y ∈ h.
Proof. unfold refusal. rewrite !elem_of_app, !list_elem_of_singleton. naive_solver. Qed.

Lemma refused_reported g h er m st x :
  refused_status g st → ¬ valid_guardrail g (refusal g h er m st x) → reported g (refusal g h er m st x).
Proof.
  intros (Hst & c & Hc & Hf & Hgen) Hinv. exists st, x, c. unfold refusal in *. rewrite last_snoc.
  split_and!; [done..| |]; rewrite Hst; [by rewrite Hf|by split].
Qed.

Lemma KGet_instance_inj ns n (x y : res LiteLLMInstance error) :
  KEv (KGet KInstance ns n) x = KEv (KGet KInstance ns n) y → x = y.
Proof. apply (Ev_inj (S := K) (KGet KInstance ns n)). Qed.

Lemma KGetSecret_inj ns n (x y : res Secret error) :
  KEv (KGetSecret ns n) x = KEv (KGetSecret ns n) y → x = y.
Proof. apply (Ev_inj (S := K) (KGetSecret ns n)). Qed.

(** What a pass leaves: the report, no error, and another pass when the specification is correct. *)
Definition outcome_ok (g : LiteLLMGuardrail) (h : khist) (r : Ret_t) : Prop :=
  reported g h ∧ r.2 = None ∧ (valid_spec (Spec g) → retried r = true).

(** The pass after the instance has been read. *)
Lemma wpM_validated g instance h0 :
  valid_spec (Spec g) → workloadManaged instance = true →
  h0 = [KEv (KGet KInstance (Namespace (Meta g)) (ir_Name (grs_InstanceRef (Spec g)))) (Ok instance)] →
  wpM guardrail_call_ok any_answer
    (match grs_APIKeySecretRef (Spec g) with Some ref => checkAPIKey ref | None => mret tt end ;; markValidated) g h0
    (λ h s r, outcome_ok g h (match r with inl e => e | inr e => e end)).
Proof.
  intros Hsp Hman ->. mstep.
  assert (∀ h : khist, KEv (KGet KInstance (Namespace (Meta g)) (ir_Name (grs_InstanceRef (Spec g)))) (Ok instance) ∈ h →
    (∀ ref, grs_APIKeySecretRef (Spec g) = Some ref → ∃ v, secret_value h (Namespace (Meta g)) ref v) →
    wpM guardrail_call_ok any_answer markValidated g h
      (λ h s r, outcome_ok g h (match r with inl e => e | inr e => e end))) as Hend.
  { intros h Hin Hkey. unfold markValidated. mpure. kstep; [by left|]. mpure.
    assert (∀ h1 x st, extends (λ _, True) h h1 → grst_Configured st = true →
      FindStatusCondition (grst_Conditions st) ConditionReady =
        Some (MkCondition ConditionReady ConditionTrue "Validated"
               (lit "Guardrail spec is valid; waiting for instance controller to render config") (Generation (Meta g))) →
      reported g (h1 ++ [KEv (KStatusUpdate KGuardrail (set_status st g)) x])) as Hrep.
    { intros h1 y st Hext Hst Hc. eexists st, y, _. rewrite last_snoc. split_and!; [done|exact Hc|done|done|].
      rewrite Hst. split; [|done]. intros _.
      assert (extends (λ _, True) h (h1 ++ [KEv (KStatusUpdate KGuardrail (set_status st g)) y])) as Hext'.
      { eapply extends_trans; [exact Hext|by apply extends_ev]. }
      split_and!; [done|exists instance; split; [by eapply extends_elem|done]|].
      intros ref Href. destruct (Hkey ref Href) as [v Hv]. exists v. by eapply secret_value_extends. }
    apply wpM_when; intros _.
    - mstep; [by left|]. mpure. mstep; [right; by eexists| |]; mpure; (split; [|done]); apply Hrep; try done;
        first [apply Find_Set | (eapply extends_trans; by apply extends_ev)].
    - mpure. mstep; [right; by eexists| |]; mpure; (split; [|done]); apply Hrep; try done;
        first [apply Find_Set | by apply extends_ev]. }
  destruct (grs_APIKeySecretRef (Spec g)) as [ref|] eqn:Href; [|mpure; apply Hend; [set_solver|done]].
  unfold checkAPIKey. mpure. kstep; [by left|]. destruct x as [secret|err].
  - destruct (sec_Data secret !! skr_Key ref) as [v|] eqn:Hv.
    + mpure. apply Hend; [set_solver|]. intros ref' [= <-]. exists v. exists secret. split; [set_solver|done].
    + apply wpM_refuse_exit. intros m y st s' Hst. split; [|done]. apply refused_reported; [done|].
      intros (_ & _ & Hk). destruct (Hk ref Href) as (v & s0 & Hin%refusal_getSecret & Hs0).
      apply elem_of_cons in Hin as [[=]|Hin%list_elem_of_singleton].
      apply KGetSecret_inj in Hin as [= ->]. congruence.
  - apply wpM_refuse_exit. intros m y st s' Hst. split; [|done]. apply refused_reported; [done|].
    intros (_ & _ & Hk). destruct (Hk ref Href) as (v & s0 & Hin%refusal_getSecret & Hs0).
    apply elem_of_cons in Hin as [[=]|Hin%list_elem_of_singleton]. by apply KGetSecret_inj in Hin.
Qed.

Lemma reconcileGuardrail_wp g :
  wpM guardrail_call_ok any_answer reconcileGuardrail g []
    (λ h s r, outcome_ok g h (match r with inl e => e | inr e => e end)).
Proof.
  unfold reconcileGuardrail. mpure. assert (checkSpec (Spec g) = None ↔ valid_spec (Spec g)) as Hsp by apply checkSpec_None.
  change (Spec g) with (@Spec (SpecOf KGuardrail) (StatusOf KGuardrail) g) in *.
  destruct (checkSpec _) as [e|] eqn:Hc.
  { apply wpM_refuse. intros m x st s' Hst. split_and!; [|done|naive_solver].
    apply refused_reported; [done|]. intros (Hv & _). naive_solver. }
  mpure. kstep; [by left|]. destruct x as [instance|err]; cbn beta iota zeta.
  - destruct (workloadManaged instance) eqn:Hman; [apply (wpM_validated g instance); naive_solver|].
    apply wpM_refuse. intros m x st s' Hst. split_and!; [|done|done].
    apply refused_reported; [done|]. intros (_ & (i & Hin%refusal_get & Hi) & _).
    apply list_elem_of_singleton, KGet_instance_inj in Hin as [= ->]. congruence.
  - apply wpM_refuse. intros m x st s' Hst. split_and!; [|done|done].
    apply refused_reported; [done|]. intros (_ & (i & Hin%refusal_get & Hi) & _).
    by apply list_elem_of_singleton, KGet_instance_inj in Hin.
Qed.

(** C23: a pass over a live guardrail makes no call but reads, events and its status; the
    status written last says configured, and Ready=True, exactly when the guardrail is valid
    by what the pass has read (the rules of the specification, a managed instance in its own
    namespace, the API key in its Secret); and a guardrail whose specification is correct is
    always looked at again. *)
Theorem reconcileGuardrail_reports g :
  kalways guardrail_call_ok (run_M reconcileGuardrail g) ∧
  ∀ t g' r, runs (run_M reconcileGuardrail g) t (g', r) →
    reported g t ∧ r.2 = None ∧ (valid_spec (Spec g) → retried r = true).
Proof.
  assert (wp guardrail_call_ok any_answer (run_M reconcileGuardrail g) [] (λ h p, outcome_ok g h p.2)) as Hwp.
  { apply wp_run_M. eapply wpM_mono; [apply reconcileGuardrail_wp|]. done. }
  split; [by eapply wp_always|]. intros t g' r Hr. exact (wp_runs_any _ _ _ _ _ Hwp Hr).
Qed.
End GuardrailTheorems.
