(* ===== verification/Watches.v ===== *)
(** * Watches: which events start a pass

    Each controller registers itself with a chain of calls on the builder of
    controller-runtime (its [SetupWithManager], internal/controller).  The chains are data
    here, the functions that map an event to requests are those of the controllers; how the
    runtime acts on a chain is the class [ControllerRuntime], with its documented behaviour
    as laws.  Two results: what a controller reads under the name its specification gives is
    watched, so that a change of it starts a pass; and a pass that succeeds starts the next
    one, because its status carries the time of the pass and nothing filters the event. *)

From S2P Require Import Prelude KubeTypes InstanceTypes Types Updates World Sha256 Common Reconcile Team VirtualKey.
From S2P Require Import Model Password User Organization Customer Budget Credential ConfigSync Instance Guardrail.
From S2P Require Import InstanceStatus InstanceReady.
Open Scope Z_scope.

(** ** The builder *)

(** The types the operator watches. *)
Inductive watched := WKind (k : Kind) | WSecret | WRes (r : Res).

Definition watched_ty (w : watched) : Type :=
  match w with WKind k => obj k | WSecret => Secret | WRes r => res_ty r end.

Definition watched_meta {w : watched} : watched_ty w → ObjectMeta :=
  match w with WKind _ => Meta | WSecret => sec_meta | WRes _ => res_meta end.

(** [reconcile.Request]. *)
Abbreviation Request := (string * string)%type.

Definition request_of {w} (x : watched_ty w) : Request := (Namespace (watched_meta x), Name (watched_meta x)).

Inductive predicate := ResourceVersionChangedPredicate.

Inductive builder_call :=
| For (k : Kind)
| Owns (w : watched)
| Watches (w : watched) (f : watched_ty w → kprog (list Request)) (ps : list predicate)
| Named (name : string).

Definition builder := list builder_call.

(** What the API server tells a watch. *)
Inductive event_on (w : watched) :=
| Created (x : watched_ty w)
| Updated (old new : watched_ty w)
| Deleted (x : watched_ty w).
Arguments Created {w} x.
Arguments Updated {w} old new.
Arguments Deleted {w} x.

(** The objects of an event; handlers see both sides of an update. *)
Definition event_objects {w} (e : event_on w) : list (watched_ty w) :=
  match e with Created x | Deleted x => [x] | Updated old new => [old; new] end.

Definition passes {w} (p : predicate) (e : event_on w) : Prop :=
  match p, e with
  | ResourceVersionChangedPredicate, Updated old new =>
      ResourceVersion (watched_meta old) ≠ ResourceVersion (watched_meta new)
  | _, _ => True
  end.

(** The runtime: [enqueues b e t q] if the event [e] makes a controller registered by [b] put
    [q] in its queue, its map functions having made the calls [t]. *)
Class ControllerRuntime := {
  enqueues : builder → ∀ w, event_on w → khist → Request → Prop;
}.
Arguments enqueues {_} b {w} e t q.

Class ControllerRuntimeLaws `{KubeLib} `{ControllerRuntime} := {
  (** [EnqueueRequestForObject] *)
  enqueues_For b k (e : event_on (WKind k)) x :
    For k ∈ b → x ∈ event_objects e → enqueues b e [] (request_of (w := WKind k) x);
  (** [EnqueueRequestForOwner] with [OnlyControllerOwner] *)
  enqueues_Owns b k w (e : event_on w) x (owner : obj k) :
    For k ∈ b → Owns w ∈ b → x ∈ event_objects e → IsControlledBy (watched_meta x) (Meta owner) = true →
    enqueues b e [] (Namespace (watched_meta x), Name (Meta owner));
  (** [EnqueueRequestsFromMapFunc] *)
  enqueues_Watches b w f ps (e : event_on w) x t out q :
    Watches w f ps ∈ b → (∀ p, p ∈ ps → passes p e) → x ∈ event_objects e → runs (f x) t out → q ∈ out →
    enqueues b e t q;
}.

(** ** [SetupWithManager] of the controllers *)

Section Setup.
Context `{KubeLib}.

Definition LiteLLMInstance_SetupWithManager : builder :=
  [For KInstance;
   Owns (WRes RDeployment);
   Owns (WRes RConfigMap);
   Owns (WRes RService);
   Owns WSecret;
   Owns (WRes RJob);
   Watches WSecret findInstanceForLicenseSecret [ResourceVersionChangedPredicate];
   Watches (WKind KGuardrail) (λ g : LiteLLMGuardrail, mret (findInstanceForGuardrail g)) [];
   Named "litellminstance"].

Definition LiteLLMModel_SetupWithManager : builder :=
  [For KModel; Watches (WKind KCredential) findModelsForCredential []; Named "litellmmodel"].

Definition LiteLLMTeam_SetupWithManager : builder := [For KTeam; Named "litellmteam"].

Definition LiteLLMUser_SetupWithManager : builder :=
  [For KUser; Watches WSecret findUsersForSecret []; Named "litellmuser"].

(** The uncached reader is the manager's unless one was set. *)
Definition LiteLLMVirtualKey_SetupWithManager {Reader} (GetAPIReader : Reader) (APIReader : option Reader) :
    Reader * builder :=
  (default GetAPIReader APIReader, [For KVirtualKey; Owns WSecret; Named "litellmvirtualkey"]).

Definition LiteLLMOrganization_SetupWithManager : builder := [For KOrganization; Named "litellmorganization"].
Definition LiteLLMCustomer_SetupWithManager : builder := [For KCustomer; Named "litellmcustomer"].

Definition LiteLLMCredential_SetupWithManager : builder :=
  [For KCredential; Watches WSecret findCredentialsForSecret []; Named "litellmcredential"].

Definition LiteLLMGuardrail_SetupWithManager : builder := [For KGuardrail; Named "litellmguardrail"].
Definition LiteLLMBudget_SetupWithManager : builder := [For KBudget; Named "litellmbudget"].
Definition ConfigSync_SetupWithManager : builder := [For KInstance; Named "configsync"].
End Setup.

(** ** What is read by name is watched *)

(** Membership of a call in a chain. *)
Ltac in_chain := repeat first [apply list_elem_of_here | apply list_elem_of_further].

Section Watching.
Context `{ControllerRuntimeLaws}.

(** The version of an object changed. *)
Definition changed {w} (e : event_on w) : Prop := passes ResourceVersionChangedPredicate e.

(** The lists a map function got hold the object as it is: its names and its specification. *)
Definition listed {k} (o : obj k) (t : khist) : Prop :=
  ∀ ns x, KEv (KList k ns) x ∈ t → ∃ l o', x = Ok l ∧ o' ∈ l ∧ Spec o' = Spec o ∧
    request_of (w := WKind k) o' = request_of (w := WKind k) o.

(** Events on the object [ns/n] of the type [w] make the controller registered by [b] reconcile
    [o], through the map function [f]. *)
Definition wakes (b : builder) {w} (f : watched_ty w → kprog (list Request)) (ns n : string) {k} (o : obj k) : Prop :=
  ∀ (e : event_on w) x t out,
    x ∈ event_objects e → request_of x = (ns, n) → changed e → runs (f x) t out → listed o t →
    enqueues b e t (request_of (w := WKind k) o).

Lemma wakes_intro b w (f : watched_ty w → kprog (list Request)) ps ns n k (o : obj k) :
  Watches w f ps ∈ b →
  (∀ x t out, request_of x = (ns, n) → runs (f x) t out → listed o t → request_of (w := WKind k) o ∈ out) →
  wakes b f ns n o.
Proof.
  intros Hb Hf e x t out Hx Hreq Hch Hr Hl. eapply enqueues_Watches; [exact Hb| |exact Hx|exact Hr|by eapply Hf].
  intros [] _. exact Hch.
Qed.

(** A map function that keeps the listed objects of the namespace that use the one of the event. *)
Lemma mapped_listed {k} (p : obj k → Prop) `{∀ o, Decision (p o)} ns (o : obj k) t out :
  runs (objs ← kcallp (KList k ns);
        match objs with
        | Err _ => mret []
        | Ok objs => mret ((λ o : obj k, (Namespace (Meta o), Name (Meta o))) <$> filter p objs)
        end) t out →
  listed o t → (∀ o', Spec o' = Spec o → p o') → request_of (w := WKind k) o ∈ out.
Proof.
  intros (x & t' & -> & Hr) Hl Hp. destruct (Hl ns x) as (l & o' & -> & Ho' & Hs & Hreq); [by left|].
  destruct Hr as [_ ->]. rewrite <-Hreq.
  apply (list_elem_of_fmap_2 (λ o : obj k, (Namespace (Meta o), Name (Meta o)))), list_elem_of_filter. auto.
Qed.

Lemma user_wakes (user : LiteLLMUser) ref :
  us_InitialPasswordSecretRef (Spec user) = Some ref →
  wakes LiteLLMUser_SetupWithManager (w := WSecret) findUsersForSecret (Namespace (Meta user)) (skr_Name ref) user.
Proof.
  intros Href. eapply wakes_intro; [in_chain|]. intros s t out [= Hns Hn] Hr Hl.
  eapply (mapped_listed (k := KUser)); [exact Hr|exact Hl|]. intros u Hu. unfold usesPasswordSecret.
  rewrite Hu, Href. by apply bool_decide_eq_true.
Qed.

Lemma credential_wakes (cred : LiteLLMCredential) :
  wakes LiteLLMCredential_SetupWithManager (w := WSecret) findCredentialsForSecret (Namespace (Meta cred))
    (skr_Name (crs_APIKeySecretRef (Spec cred))) cred.
Proof.
  eapply wakes_intro; [in_chain|]. intros s t out [= Hns Hn] Hr Hl.
  eapply (mapped_listed (k := KCredential)); [exact Hr|exact Hl|]. intros c Hc. cbn beta. rewrite Hc. exact (eq_sym Hn).
Qed.

Lemma model_wakes (model : LiteLLMModel) ref :
  lmp_CredentialRef (ms_LiteLLMParams (Spec model)) = Some ref →
  wakes LiteLLMModel_SetupWithManager (w := WKind KCredential) findModelsForCredential (Namespace (Meta model))
    (cr_Name ref) model.
Proof.
  intros Href. eapply wakes_intro; [in_chain|]. intros c t out [= Hns Hn] Hr Hl.
  eapply (mapped_listed (k := KModel)); [exact Hr|exact Hl|]. intros m Hm. unfold usesCredential.
  rewrite Hm, Href. by apply bool_decide_eq_true.
Qed.

Lemma instance_wakes (i : LiteLLMInstance) n :
  n ∈ licenseSecretNames i →
  wakes LiteLLMInstance_SetupWithManager (w := WSecret) findInstanceForLicenseSecret (Namespace (Meta i)) n i.
Proof.
  intros Hn. eapply wakes_intro; [in_chain|]. intros s t out [= Hns <-] Hr Hl.
  eapply license_secret_enqueues; [exact Hns|exact Hn|exact Hr|]. intros x Hx.
  destruct (Hl _ x Hx) as (l & j & -> & Hj & _ & Hreq). eauto.
Qed.

(** *** The reads *)

Lemma password_reads `{Argon2} cl (user : LiteLLMUser) :
  kalways (λ _ c, ∀ ns n, c = KGetSecret ns n →
      ns = Namespace (Meta user) ∧ ∃ ref, us_InitialPasswordSecretRef (Spec user) = Some ref ∧ n = skr_Name ref)
    (run_M (reconcileInitialPassword cl) user).
Proof.
  match goal with |- kalways ?G _ => apply (wp_always G _ (λ _ _, True)), wp_run_M; set (guard := G) end.
  assert (∀ h c, (match c with KGetSecret _ _ => false | _ => true end) = true → guard h c) as Hg by by intros h [].
  unfold reconcileInitialPassword. mpure.
  destruct (us_InitialPasswordSecretRef _) as [ref|] eqn:Href; [|by mpure].
  mpure. mstep; [intros ns n [= <- <-]; eauto|]. destruct x as [secret|e].
  - cbv zeta. unfold applyPassword, rejectPassword, recordPassword, passwordDigest, setPasswordCondition.
    repeat first [mstep | by apply Hg | done | case_match].
  - unfold setPasswordCondition. repeat first [mstep | by apply Hg | done | case_match].
Qed.

Lemma apiKey_reads (cred : LiteLLMCredential) :
  kalways (λ _ c, ∀ ns n, c = KGetSecret ns n →
      ns = Namespace (Meta cred) ∧ n = skr_Name (crs_APIKeySecretRef (Spec cred))) (fetchAPIKey cred).
Proof.
  match goal with |- kalways ?G _ => apply (wp_always G _ (λ _ _, True)) end.
  unfold fetchAPIKey. kstep. kstep; [by intros ns n [= <- <-]|]. by repeat case_match.
Qed.

Lemma model_reads (model : LiteLLMModel) :
  kalways (λ _ c, ∀ ns n, c = KGet KCredential ns n →
      ns = Namespace (Meta model) ∧
      ∃ ref, lmp_CredentialRef (ms_LiteLLMParams (Spec model)) = Some ref ∧ n = cr_Name ref)
    (resolveParams model model).
Proof.
  match goal with |- kalways ?G _ => apply (wp_always G _ (λ _ _, True)); change (wpM G any_answer (resolveParams model) model [] (λ _ _ _, True)); set (guard := G) end.
  assert (∀ h c, (match c with KGet _ _ _ => false | _ => true end) = true → guard h c) as Hg by by intros h [].
  unfold resolveParams. cbv zeta. destruct (lmp_CredentialRef _) as [ref|] eqn:Href.
  - unfold resolveCredential, getSecretValue, readSecretKey.
    repeat first [mstep | kstep | by apply Hg | by intros ns n [= <- <-]; eauto | done | case_match].
  - unfold inlineSecret, getSecretValue, readSecretKey.
    repeat first [mstep | kstep | by apply Hg | done | case_match].
Qed.

(** The Secret an inline [apiKeySecretRef] of a model names is read by name and not watched: the
    controller of models registers no handler for Secrets.  A new key waits for the resync. *)
Lemma model_secrets_not_watched `{KubeLib} :
  Owns WSecret ∉ LiteLLMModel_SetupWithManager ∧
  ∀ f ps, Watches WSecret f ps ∉ LiteLLMModel_SetupWithManager.
Proof. unfold LiteLLMModel_SetupWithManager. split; [|intros f ps]; rewrite !elem_of_cons, elem_of_nil; naive_solver. Qed.

(** C35: six of the objects a controller reads under a name its resource gives are watched: the
    initial password Secret of a user, the Secret of a credential, the credential of a model
    and the license Secrets of an instance, for every read of the step that reads them; the
    guardrails bound to an instance, also on the update that binds one elsewhere; and a Secret a
    virtual key controls.  An event that changes one makes the controller reconcile the
    resource; for the first four, whose map functions list the resources, under the condition
    that the list succeeds and holds the resource.  The Secret of an inline [apiKeySecretRef]
    ([model_secrets_not_watched]), of a guardrail's key and of a given master key are not among
    them. *)
Theorem watched_reads `{Argon2} :
  (∀ cl (user : LiteLLMUser),
     kalways (λ _ c, ∀ ns n, c = KGetSecret ns n →
         wakes LiteLLMUser_SetupWithManager (w := WSecret) findUsersForSecret ns n user)
       (run_M (reconcileInitialPassword cl) user)) ∧
  (∀ cred : LiteLLMCredential,
     kalways (λ _ c, ∀ ns n, c = KGetSecret ns n →
         wakes LiteLLMCredential_SetupWithManager (w := WSecret) findCredentialsForSecret ns n cred)
       (fetchAPIKey cred)) ∧
  (∀ model : LiteLLMModel,
     kalways (λ _ c, ∀ ns n, c = KGet KCredential ns n →
         wakes LiteLLMModel_SetupWithManager (w := WKind KCredential) findModelsForCredential ns n model)
       (resolveParams model model)) ∧
  (∀ (i : LiteLLMInstance) t out e ns n,
     runs (findLicense (Namespace (Meta i)) (licenseSecretNames i)) t out → e ∈ t → ev_op e = KGetSecret ns n →
     wakes LiteLLMInstance_SetupWithManager (w := WSecret) findInstanceForLicenseSecret ns n i) ∧
  (∀ (i : LiteLLMInstance) items (g : LiteLLMGuardrail) (e : event_on (WKind KGuardrail)),
     Name (Meta i) ≠ "" → g ∈ boundGuardrails i items → Namespace (Meta g) = Namespace (Meta i) →
     g ∈ event_objects e →
     enqueues LiteLLMInstance_SetupWithManager e [] (request i)) ∧
  (∀ (vk : LiteLLMVirtualKey) (s : Secret) (e : event_on WSecret) Reader (reader : Reader) o,
     IsControlledBy (sec_meta s) (Meta vk) = true → s ∈ event_objects e →
     enqueues (LiteLLMVirtualKey_SetupWithManager reader o).2 e [] (Namespace (sec_meta s), Name (Meta vk))).
Proof.
  split_and!.
  - intros cl user t Hp t1 e t2 Ht ns n Hop. destruct (password_reads cl user t Hp t1 e t2 Ht ns n Hop) as (-> & ref & Href & ->).
    by apply user_wakes.
  - intros cred t Hp t1 e t2 Ht ns n Hop. destruct (apiKey_reads cred t Hp t1 e t2 Ht ns n Hop) as [-> ->]. apply credential_wakes.
  - intros model t Hp t1 e t2 Ht ns n Hop. destruct (model_reads model t Hp t1 e t2 Ht ns n Hop) as (-> & ref & Href & ->).
    by apply model_wakes.
  - intros i t out e ns n Hr He Hop. destruct (findLicense_reads _ _ _ _ Hr e He) as (m & Hm & Hop').
    rewrite Hop in Hop'. injection Hop' as -> ->. by apply instance_wakes.
  - intros i items g e Hi (Hb & _)%list_elem_of_filter Hns He.
    eapply (enqueues_Watches _ (WKind KGuardrail) (λ g : LiteLLMGuardrail, mret (findInstanceForGuardrail g)));
      [in_chain|by intros p ?%not_elem_of_nil|exact He|by split|].
    destruct Hb as [_ Hb]. unfold findInstanceForGuardrail. cbv zeta.
    rewrite Hb, decide_False by done. apply list_elem_of_singleton. unfold request. by rewrite Hns.
  - intros vk s e Reader reader o Hs He.
    eapply (enqueues_Owns _ KVirtualKey WSecret); [in_chain|in_chain|exact He|exact Hs].
Qed.

End Watching.

(** ** A pass that succeeds starts the next one *)

(** The time of the last pass in the status of a resource, which every body sets to the clock
    unless it asks for another pass right away. *)
Class Stamped (k : Kind) `{Reconciler k} := {
  last_sync : StatusOf k → option Time;
  last_sync_conditions cs st : last_sync (rc_set_conditions cs st) = last_sync st;
  body_stamps ri o t o' r :
    runs (rc_body ri o) t (o', r) → repeated r = false → ∃ now, KEv KNow now ∈ t ∧ last_sync (Status o') = Some now
}.

(** Bodies that end with the stamp: earlier returns ask for another pass. *)
Definition ends_stamped {k} (last : StatusOf k → option Time) (m : M K (obj k) Ret_t Ret_t) : Prop :=
  ∀ s h, wpM no_guarantee any_answer m s h (λ h' s' r,
    match r with
    | inl e => repeated e = true
    | inr e => ∃ now, KEv KNow now ∈ h' ∧ last (Status s') = Some now
    end).

Section Stamps.
Context {k : Kind} (last : StatusOf k → option Time).

Lemma ends_bind {A} (m : M K (obj k) Ret_t A) (f : A → M K (obj k) Ret_t Ret_t) :
  early repeated m → (∀ a, ends_stamped last (f a)) → ends_stamped last (m ≫= f).
Proof.
  intros Hm Hf s h. mstep. eapply wpM_mono; [apply Hm|]. intros h' s' [e|a]; [done|]. intros _. apply Hf.
Qed.

Lemma ends_stamp (set : Time → obj k → obj k) r :
  (∀ now o, last (Status (set now o)) = Some now) →
  ends_stamped last (now ← lift (kcallp KNow); modify (set now) ;; mret r).
Proof.
  intros Hset s h. mpure. mstep; [done|]. mpure.
  eexists. split; [|apply Hset]. set_solver.
Qed.

Lemma ends_runs (m : M K (obj k) Ret_t Ret_t) o t o' r :
  ends_stamped last m → runs (run_M m o) t (o', r) → repeated r = false →
  ∃ now, KEv KNow now ∈ t ∧ last (Status o') = Some now.
Proof.
  intros Hm Hr.
  refine (kruns_post _ t (o', r) (λ h p, repeated p.2 = false → ∃ now, KEv KNow now ∈ h ∧ last (Status p.1) = Some now)
            _ Hr).
  apply wp_run_M. eapply wpM_mono; [apply Hm|]. intros h' s' [e|e] He Hn; simpl in *; [congruence|exact He].
Qed.
End Stamps.

Ltac stamps_tac :=
  repeat lazymatch goal with
  | |- ends_stamped _ (lift (kcallp KNow) ≫= _) => apply ends_stamp; by intros ? []
  | |- ends_stamped _ (_ ≫= _) => apply ends_bind; [retries_tac|intros]
  | |- ends_stamped _ (if _ then _ else _) => case_match
  | |- ends_stamped _ (let '(_, _) := ?p in _) => destruct p
  end.

Section Stamped.
Context `{KubeLib}.

#[export] Instance LiteLLMTeam_stamped `{JSONMarshal LiteLLMTeamSpec} : Stamped KTeam.
Proof.
  refine {| last_sync := tst_LastSyncTime |}; [done|]. intros ri o t o' r. apply ends_runs.
  unfold reconcileTeam, bindTeam, adoptExistingTeam, createTeam, updateTeam, refreshTeam. stamps_tac.
Defined.

#[export] Instance LiteLLMUser_stamped `{JSONMarshal LiteLLMUserSpec} `{Argon2} : Stamped KUser.
Proof.
  refine {| last_sync := ust_LastSyncTime |}; [done|]. intros ri o t o' r. apply ends_runs.
  unfold reconcileUser, createUser, createOrAdopt, updateUser, refreshUser. stamps_tac.
Defined.

#[export] Instance LiteLLMVirtualKey_stamped `{JSONMarshal LiteLLMVirtualKeySpec} `{ParseFloat} : Stamped KVirtualKey.
Proof.
  refine {| last_sync := kys_LastSyncTime |}; [done|]. intros ri o t o' r. apply ends_runs.
  unfold reconcileKey, rotateIfSecretMissing, generateKey, updateKey, pushKeySpec, stampKey. stamps_tac.
Defined.

#[export] Instance LiteLLMModel_stamped `{JSONMarshal SyncInput} : Stamped KModel.
Proof.
  refine {| last_sync := mst_LastSyncTime |}; [done|]. intros ri o t o' r. apply ends_runs.
  unfold reconcileModel, resolveParams, inlineSecret, pushModel, createModel, recreateModel, updateModel,
    updateModelHealth, setHealth. stamps_tac.
Defined.

#[export] Instance LiteLLMOrganization_stamped `{JSONMarshal LiteLLMOrganizationSpec} : Stamped KOrganization.
Proof.
  refine {| last_sync := ost_LastSyncTime |}; [done|]. intros ri o t o' r. apply ends_runs.
  unfold reconcileOrganization, createOrganization, updateOrganization, refreshOrganization. stamps_tac.
Defined.

#[export] Instance LiteLLMCustomer_stamped `{JSONMarshal LiteLLMCustomerSpec} : Stamped KCustomer.
Proof.
  refine {| last_sync := cst_LastSyncTime |}; [done|]. intros ri o t o' r. apply ends_runs.
  unfold reconcileCustomer, createCustomer, updateCustomer, refreshCustomer. stamps_tac.
Defined.

#[export] Instance LiteLLMBudget_stamped `{JSONMarshal LiteLLMBudgetSpec} : Stamped KBudget.
Proof.
  refine {| last_sync := bst_LastSyncTime |}; [done|]. intros ri o t o' r. apply ends_runs.
  unfold reconcileBudget, createBudget, updateBudget, refreshBudget. stamps_tac.
Defined.
End Stamped.

Section Resync.
Context `{KubeLib} {k : Kind} `{Reconciler k} `{!ReconcilerLaws k} `{!KubeLibLaws} `{!Stamped k}.

Definition reports_synced (o : obj k) : Prop :=
  cond_Status <$> FindStatusCondition (rc_conditions (Status o)) ConditionSynced = Some ConditionTrue.

Lemma synced_true status reason msg g (o : obj k) :
  reports_synced (set_synced status reason msg g o) → status = ConditionTrue.
Proof.
  unfold reports_synced, set_synced. simpl. rewrite rc_conditions_set, Find_Set. by intros [= ->].
Qed.

(** The last write of a live pass, when it reports success, carries the time of the pass. *)
Lemma reconcileLive_stamps (o o1 : obj k) t x res :
  runs (reconcileLive o) (t ++ [KEv (KStatusUpdate k o1) x]) (res, None) →
  Requeue res = false → reports_synced o1 →
  ∃ now, KEv KNow now ∈ t ∧ last_sync (Status o1) = Some now.
Proof.
  unfold reconcileLive. intros (t1 & t2 & r & Ht & _ & Hr)%runs_bind_inv Hres Hs. destruct r as [ri|e].
  - apply runs_bind_inv in Hr as (t3 & t4 & [o' [result err]] & -> & Hbody & Hr). rewrite app_assoc in Ht.
    unfold finishReconcile in Hr. destruct err as [e|]; [destruct (rc_enterprise && _)|].
    + destruct Hr as (? & ? & -> & y & ? & -> & -> & [= ->]). change (?a :: ?b :: ?c) with ([a] ++ b :: c) in Ht.
      rewrite app_assoc in Ht. apply app_inj_tail in Ht as [_ Heq]. apply (f_equal ev_op) in Heq.
      simpl in Heq. apply KStatusUpdate_inj in Heq as ->. by apply synced_true in Hs.
    + by destruct Hr as (? & ? & -> & y & ? & -> & -> & [=]).
    + destruct Hr as (y & ? & -> & -> & [= ->]). apply app_inj_tail in Ht as [-> Heq]. apply (f_equal ev_op) in Heq.
      simpl in Heq. apply KStatusUpdate_inj in Heq as ->.
      destruct (body_stamps ri o t3 o' _ Hbody Hres) as (now & Hin & Hl). exists now. split; [set_solver|].
      unfold set_synced. simpl. by rewrite last_sync_conditions.
  - destruct Hr as (? & ? & -> & y & ? & -> & -> & [= ->]). change (?a :: ?b :: ?c) with ([a] ++ b :: c) in Ht.
    rewrite app_assoc in Ht. apply app_inj_tail in Ht as [_ Heq]. apply (f_equal ev_op) in Heq.
    simpl in Heq. apply KStatusUpdate_inj in Heq as ->. by apply synced_true in Hs.
Qed.

Context `{!ControllerRuntime} `{!ControllerRuntimeLaws}.

(** C36: a pass that succeeds starts the next one.  When a pass over a live resource ends without
    asking for another one and its last write reports Synced, the status it writes carries the
    time the clock gave in this very pass; so the object stored differs from the one fetched as
    soon as the clock shows another time, and the update event of that write, which no predicate
    filters, makes the controller reconcile the resource again, not five minutes later.  (Only a
    pass within the resolution of the stamp, one second, changes nothing and stops there.) *)
Theorem success_wakes_itself b ns name (o o1 o2 : obj k) t res :
  For k ∈ b →
  runs (Reconcile ns name) (KEv (KGet k ns name) (Ok o) :: t ++ [KEv (KStatusUpdate k o1) (Ok o2)]) (res, None) →
  DeletionTimestamp (Meta o) = None → Requeue res = false → reports_synced o1 →
  request_of (w := WKind k) o2 = (ns, name) →
  (∃ now, KEv KNow now ∈ t ∧ last_sync (Status o1) = Some now ∧
     (last_sync (Status o) ≠ Some now → Status o1 ≠ Status o)) ∧
  ∀ old, enqueues b (Updated (w := WKind k) old o2) [] (ns, name).
Proof.
  intros Hb (x & t' & Heq & Hr) Hlive Hres Hs Hreq. split.
  - apply (Ev_cons_inj (S := K) (KGet k ns name)) in Heq as [<- <-]. simpl in Hr. rewrite Hlive in Hr.
    assert (∃ now, KEv KNow now ∈ t ∧ last_sync (Status o1) = Some now) as (now & Hnow & Hl).
    { destruct (ContainsFinalizer (Meta o) FinalizerName); [by eapply reconcileLive_stamps|].
      destruct Hr as (y & t'' & Ht & Hr). destruct t as [|e t].
      { by apply (f_equal (λ l, ev_op <$> head l)) in Ht. }
      apply (f_equal tail) in Ht. simpl in Ht. subst t''. destruct y as [o'|e']; [|by destruct Hr as [_ [=]]].
      destruct (reconcileLive_stamps _ _ _ _ _ Hr Hres Hs) as (now & Hin & Hl). exists now. split; [by right|done]. }
    exists now. split_and!; [done..|]. intros Hne Heq. by rewrite <-Heq in Hne.
  - intros old. rewrite <-Hreq. apply enqueues_For; [done|]. right. by left.
Qed.
End Resync.
