(* ===== verification/CopyExamples.v ===== *)
(** * A user resource copied in a concrete memory

    The user controller takes [base := user.DeepCopy()] before it records a digest and a
    condition, and sends the difference between the two.  Conditions are updated in place, in
    the array of the slice: here is the memory before and after. *)

From S2P Require Import Prelude Memory CopyTypes DeepCopy DeepCopyFacts.

(** Types of other packages, cut down to a map and a list of strings. *)
Definition ObjectMeta_ty : ty := TStruct [("Name", TBasic KString); ("Annotations", TMap (TBasic KString))].
Definition Condition_ty : ty := TStruct [("Type", TBasic KString); ("Status", TBasic KString)].

#[local] Instance order : RangeOrder := { range_order _ m := map_to_list m; range_order_perm _ _ := reflexivity _ }.

#[local] Instance concrete : External := {
  ext n := if decide (n = "metav1.ObjectMeta") then ObjectMeta_ty
           else if decide (n = "metav1.Condition") then Condition_ty else TStruct [];
  ext_DeepCopyInto n := if decide (n = "metav1.ObjectMeta") then into [if_set "Annotations" (make_map mret)] else mret;
  ext_DeepCopy n := DeepCopy_of (TStruct [])
    (if decide (n = "metav1.ObjectMeta") then into [if_set "Annotations" (make_map mret)] else mret);
}.

Lemma ObjectMeta_copies : copies ObjectMeta_ty (into [if_set "Annotations" (make_map mret)]).
Proof. copy_fields. Qed.

#[local] Instance concrete_laws : ExternalLaws.
Proof.
  assert (∀ n, copies (ext n) (ext_DeepCopyInto n)) as Hc.
  { intros n. simpl. repeat case_decide; [apply ObjectMeta_copies|by apply copies_mret..]. }
  split; [done|..].
  - intros n. exact (copies_DeepCopy _ (TStruct []) _ (Hc n)).
  - intros n Hn. repeat (apply elem_of_cons in Hn as [->|Hn]; [reflexivity|]). by apply not_elem_of_nil in Hn.
Qed.

Definition str (s : string) : value := VBasic (BString s).
Definition condition (status : string) : value := VStruct [("Type", str "PasswordSynced"); ("Status", str status)].

Definition user : value :=
  set_field "Status" (set_field "Conditions" (VSlice 1 0 1) (zero LiteLLMUserStatus_ty))
    (set_field "ObjectMeta" (VStruct [("Name", str "alice"); ("Annotations", VMap 2)]) (zero LiteLLMUser_ty)).

Definition before : heap :=
  {[ 1%positive := CArray [condition "False"]; 2%positive := CMap {[ "team" := str "web" ]}; 3%positive := CVar user ]}.

Definition user_data : data := default DNil (read_data before (TPtr LiteLLMUser_ty) (VPtr 3)).

Definition user_type : generated_type :=
  Generated "LiteLLMUser" LiteLLMUser_ty LiteLLMUser_DeepCopyInto LiteLLMUser_DeepCopy (Some LiteLLMUser_DeepCopyObject).

Lemma user_generated : user_type ∈ generated.
Proof. apply (list_elem_of_lookup_2 _ 144). reflexivity. Qed.

Lemma user_represented : reps (TPtr LiteLLMUser_ty) (VPtr 3) user_data before.
Proof. apply read_data_reps. vm_compute. reflexivity. Qed.

(** The copy, and the memory once the condition is set in place. *)
Definition copied : option (value * heap) := LiteLLMUser_DeepCopy (VPtr 3) before.
Definition set_condition (h : heap) : heap := <[1%positive := CArray [condition "True"]]> h.

Example copy_keeps_condition :
  (λ '(q, h), (read_data (set_condition h) (TPtr LiteLLMUser_ty) q,
               bool_decide (read_data (set_condition h) (TPtr LiteLLMUser_ty) (VPtr 3) = None))) <$> copied =
  Some (Some user_data, false).
Proof. vm_compute. reflexivity. Qed.

(** Assigning the struct would not do: the condition set in place shows in the copy. *)
Example assignment_shares :
  (λ '(q, h), read_data (set_condition h) (TPtr LiteLLMUser_ty) q) <$> DeepCopy_of LiteLLMUser_ty mret (VPtr 3) before ≠
  Some (Some user_data).
Proof. vm_compute. discriminate. Qed.

Lemma DeepCopy_isolates_witness :
  ∃ q h', LiteLLMUser_DeepCopy (VPtr 3) before = Some (q, h') ∧
    reps (TPtr LiteLLMUser_ty) q user_data (set_condition h').
Proof.
  destruct (DeepCopy_isolates user_type user_generated before (VPtr 3) user_data user_represented)
    as (q & hx & Hrun & _ & _ & Hafter & _ & _).
  exists q, (before ∪ hx). split; [exact Hrun|]. apply Hafter. intros l Hl. unfold set_condition.
  apply lookup_insert_ne. intros <-. apply Hl. apply elem_of_dom. by eexists.
Defined.
