(* ===== verification/Examples.v ===== *)
(** * The components on concrete inputs

    A small cluster that answers every call ([cluster]), the resources it serves, and
    the theorems of the library at these inputs: the hypotheses of each are met by an
    execution that is computed. *)

From S2P Require Import Prelude KubeTypes InstanceTypes Types Updates World Sha256 Common Reconcile Team VirtualKey Model.
From S2P Require Import Password User Organization Customer Budget Bodies Credential Duration ConfigSync Rollout.
Open Scope Z_scope.

(** ** The cluster *)

#[local] Existing Instance Documented.lib.
#[local] Existing Instance Documented.lib_laws.
#[local] Existing Instance ToyArgon2.toy.
#[local] Existing Instance ToyArgon2.toy_laws.
#[local] Instance plain_Marshal {A} : JSONMarshal A := λ _, "{}".
#[local] Instance plain_Unmarshal : JSONUnmarshal := λ s, Ok (JString s).
#[local] Instance plain_ParseFloat : ParseFloat := λ _, Err (ErrLib "not a number").

Definition meta (ns name : string) : ObjectMeta :=
  MkObjectMeta name ns ("uid-" +:+ name) 1 ∅ None [FinalizerName] [] None "1".

(** A specification with every optional section left out, and the status of a ready instance. *)
Definition plainSpec : LiteLLMInstanceSpec := {|
  is_Image := MkImageSpec "" "" "" [];
  is_Workload := None;
  is_Replicas := 1;
  is_Autoscaling := None;
  is_MasterKey := MkMasterKeySpec (Some (MkSecretKeyRef "master" "key")) false;
  is_Database := MkDatabaseSpec None None None None None None;
  is_Redis := None;
  is_SaltKey := None;
  is_GeneralSettings := None;
  is_RouterSettings := None;
  is_LiteLLMSettings := None;
  is_Fallbacks := None;
  is_ConfigSync := None;
  is_Service := MkServiceSpec "ClusterIP" 4000;
  is_ServiceAccount := None;
  is_Deployment := None;
  is_PodScheduling := None;
  is_Ingress := None;
  is_Route := None;
  is_GatewayHTTPRoute := None;
  is_Security := None;
  is_HealthCheck := None;
  is_Resources := None;
  is_PodDisruptionBudget := None;
  is_TopologySpreadConstraints := [];
  is_ExtraEnvVars := [];
  is_ExtraEnvFrom := [];
  is_Callbacks := None;
  is_Observability := None;
  is_Upgrade := None;
  is_SSO := None;
  is_SCIM := None;
  is_JWTAuth := None;
  is_OAuth2Auth := None;
  is_Caching := None;
  is_PassThroughEndpoints := [];
  is_DefaultCustomerBudget := None;
  is_SecretManager := None;
  is_RBAC := None;
  is_Logging := None;
  is_AdminUI := None;
  is_TLS := None;
  is_ExtraVolumes := [];
  is_ExtraVolumeMounts := [];
  is_AllowedNamespaces := None
|}.

Definition readyStatus : LiteLLMInstanceStatus := {|
  ist_Ready := true;
  ist_Replicas := 1;
  ist_ReadyReplicas := 1;
  ist_Endpoint := "http://gateway.litellm.svc:4000";
  ist_Version := "";
  ist_Database := MkDatabaseStatus false "";
  ist_Redis := None;
  ist_ConfigSync := None;
  ist_SSO := None;
  ist_SCIM := None;
  ist_SecretManager := None;
  ist_License := None;
  ist_Backup := None;
  ist_LastSuccessfulRevision := "";
  ist_UnhealthyPods := [];
  ist_Conditions := []
|}.

(** An instance that admits virtual keys and teams from namespaces labelled team=ml. *)
Definition gateway : LiteLLMInstance :=
  MkObj (meta "litellm" "gateway")
    (with_is_ConfigSync (Some (MkConfigSyncSpec true "1m" "prune" "crd-wins" false))
      (with_is_AllowedNamespaces (Some (MkAllowedNamespaces NamespacesFromSelector
         (Some (MkLabelSelector {["team" := "ml"]} [])) [kindVirtualKey; kindTeam])) plainSpec))
    readyStatus.

Definition gatewayRef : InstanceRef := MkInstanceRef "gateway" "litellm".

Definition budget : LiteLLMBudget :=
  MkObj (meta "litellm" "monthly")
    (MkLiteLLMBudgetSpec gatewayRef "" None None "30d" (Some 1000) None None ∅)
    (MkLiteLLMBudgetStatus true "monthly" None None []).

Definition credentials : Secret :=
  MkSecret (meta "litellm" "master") "Opaque" {["key" := "sk-master"; "password" := "hunter2"]} ∅.

(** No method of LiteLLM is available but those that answer only an error. *)
Definition unavailable (r : api_req) : api_ans r.
Proof. destruct r; first [exact None|exact (Err (ErrLib "unavailable"))]. Defined.

Definition cluster (c : kcall) (w : unit) : kans c * unit :=
  (match c return kans c with
   | KGet k _ _ =>
       match k return res (obj k) error with
       | KInstance => Ok gateway
       | KBudget => Ok budget
       | _ => Err (ErrKube KNotFound "no such object")
       end
   | KList _ _ => Ok []
   | KUpdate _ o | KStatusUpdate _ o | KStatusPatch _ o _ => Ok o
   | KGetSecret _ _ | KReadSecret _ _ => Ok credentials
   | KCreateSecret _ | KUpdateSecret _ => None
   | KGetConfigMap _ _ => Err (ErrKube KNotFound "no such config map")
   | KGetNamespace _ => Ok {["team" := "ml"]}
   | KGetRes _ _ _ => Err (ErrKube KNotFound "no such object")
   | KCreateRes _ _ | KUpdateRes _ _ => None
   | KListPods _ _ => Ok []
   | KEvent _ _ _ _ _ => tt
   | KNow => 1700000000
   | KRandom n => Ok (replicate n 7)
   | KChoose _ => 0%nat
   | KApi _ r => unavailable r
   end, w).

(** The calls of a program against a server, and what it returns. *)
Definition server : Type := ∀ c : kcall, unit → kans c * unit.
Definition traceOf {A} (srv : server) (p : kprog A) : khist := (interp (S := K) srv p tt).1.1.
Definition outcomeOf {A} (srv : server) (p : kprog A) : A := (interp (S := K) srv p tt).1.2.
Abbreviation trace := (traceOf cluster).
Abbreviation outcome := (outcomeOf cluster).

Lemma trace_runs {A} (srv : server) (p : kprog A) : runs p (traceOf srv p) (outcomeOf srv p).
Proof.
  unfold traceOf, outcomeOf. destruct (interp (S := K) srv p tt) as [[t a] w] eqn:Hi. by eapply interp_runs.
Qed.

Lemma trace_runs_to {A} (srv : server) (p : kprog A) t a :
  traceOf srv p = t → outcomeOf srv p = a → runs p t a.
Proof. intros <- <-. apply trace_runs. Qed.

Lemma trace_runs_from {A} (srv : server) (p : kprog A) e a :
  head (traceOf srv p) = Some e → outcomeOf srv p = a → runs p (e :: tail (traceOf srv p)) a.
Proof.
  intros Hh <-. pose proof (trace_runs srv p) as Hr. destruct (traceOf srv p) as [|e' t]; [done|].
  injection Hh as ->. exact Hr.
Qed.

(** ** Common *)

Definition resolvedGateway : ResolvedInstance :=
  MkResolvedInstance "http://gateway.litellm.svc:4000" "sk-master" "" gateway.

Lemma resolveInstance_permitted_witness :
  ist_Ready (Status gateway) = true ∧
  ("tenant" = Namespace (Meta gateway) ∨
   admits (trace (resolveInstance "tenant" kindTeam gatewayRef)) gateway "tenant" ∧
   AllowsKind (is_AllowedNamespaces (Spec gateway)) kindTeam = true).
Proof.
  apply (resolveInstance_permitted "tenant" kindTeam gatewayRef
           (trace (resolveInstance "tenant" kindTeam gatewayRef)) resolvedGateway).
  apply (trace_runs_to cluster); by vm_compute.
Defined.

(** ** The reconcile loop *)

Lemma handleDeletion_spec_witness :
  ∃ t0 x,
    trace (handleDeletion budget) =
      t0 ++ [KEv (KUpdate KBudget (set_meta (RemoveFinalizer (Meta budget) FinalizerName) budget)) x] ∧
    (∀ e, e ∈ t0 → benign (ev_op e) = true ∨ delete_call budget (ev_op e)) ∧
    outcome (handleDeletion budget) = (Result0, match x with Ok _ => None | Err e => Some e end).
Proof.
  apply (handleDeletion_spec budget); [by vm_compute|apply trace_runs].
Defined.

Lemma finishReconcile_spec_applies :
  let err := ErrLib "unavailable" in
  ∃ o' x c,
    last (trace (finishReconcile budget Result0 (Some err))) = Some (KEv (KStatusUpdate KBudget o') x) ∧
    FindStatusCondition (rc_conditions (Status o')) ConditionSynced = Some c ∧
    (cond_Status c = ConditionTrue ↔ Some err = None) ∧
    cond_Reason c = "SyncFailed" ∧
    outcome (finishReconcile budget Result0 (Some err)) = (Result0, Some err).
Proof.
  exact (finishReconcile_spec budget Result0 (Some (ErrLib "unavailable")) _ _ (trace_runs cluster _)).
Defined.

Lemma Reconcile_retries_witness :
  retried (outcome (Reconcile (k := KBudget) "litellm" "monthly")) = true.
Proof.
  apply (Reconcile_retries "litellm" "monthly" budget (tail (trace (Reconcile (k := KBudget) "litellm" "monthly"))));
    [by vm_compute|].
  apply (trace_runs_from cluster (Reconcile (k := KBudget) "litellm" "monthly")); by vm_compute.
Defined.

Definition client : ApiClient := client_of resolvedGateway.

Definition noFollowUp : M K (obj KBudget) Ret_t unit := mret tt.

Definition pushBudget : kprog (LiteLLMBudget * (Ret_t + unit)) :=
  pushSpec "deadbeef" (m_send client (BudgetsUpdate (budgetUpdateRequest budget)) id) "update budget: %w"
    noFollowUp budget.

Lemma pushSpec_spec_applies :
  ∃ x t1, trace pushBudget = KEv (KApi client (BudgetsUpdate (budgetUpdateRequest budget))) x :: t1 ∧
    match x with
    | Some err => t1 = [] ∧ (outcome pushBudget).1 = budget ∧
        (outcome pushBudget).2 = inl (retry30 (Errorf "update budget: %w" [] (Some err)))
    | None => ∃ (y : res (obj KBudget) error) t2,
        t1 = KEv (KUpdate KBudget (annotate AnnotationSyncHash "deadbeef" budget)) y :: t2 ∧
        match y with
        | Err err => t2 = [] ∧ (outcome pushBudget).2 = inl (fail0 err)
        | Ok server => runs (noFollowUp server) t2 ((outcome pushBudget).1, (outcome pushBudget).2)
        end
    end.
Proof.
  exact (pushSpec_spec "deadbeef" client (BudgetsUpdate (budgetUpdateRequest budget)) id "update budget: %w"
           noFollowUp budget _ _ _ (trace_runs_to cluster pushBudget _ ((outcome pushBudget).1, (outcome pushBudget).2) eq_refl eq_refl)).
Defined.

(** The stored hash is not that of the specification: the whole body starts with the update and
    the record of its hash. *)
Lemma bodies_calls_witness :
  let p := run_M (reconcileBudget resolvedGateway) budget in
  ∃ x t1, trace p = KEv (KApi client (BudgetsUpdate (budgetUpdateRequest budget))) x :: t1 ∧
    (x = None → ∃ (y : res (obj KBudget) error) t2,
       t1 = KEv (KUpdate KBudget (annotate AnnotationSyncHash (computeSpecHash (Spec budget)) budget)) y :: t2).
Proof.
  intros p. destruct (bodies_calls resolvedGateway) as (_ & _ & Hbudget).
  destruct (proj2 (Hbudget budget) (trace p) (outcome p) (trace_runs cluster p) ltac:(by vm_compute)) as (x & t1 & Ht & Hrec).
  exists x, t1. split; [exact Ht|]. intros ->. by apply Hrec.
Defined.

(** ** Models *)

(** A model of another specification than the one recorded: one update, and no health check. *)
Definition model : LiteLLMModel :=
  MkObj (meta "litellm" "gpt")
    (MkLiteLLMModelSpec gatewayRef "gpt" (MkLiteLLMModelParams "openai/gpt-4o" "" "" None None None None None None None None None None None None None None "" "" ∅ None "" "" None) None [])
    (MkLiteLLMModelStatus true "model-1" None "" None None None []).

Definition modelPass : kprog (LiteLLMModel * Ret_t) := run_M (reconcileModel resolvedGateway) model.

Lemma reconcileModel_calls_witness : model_due resolvedGateway model (trace modelPass) (outcome modelPass).2 ∧
  length (requests_of (trace modelPass)) = 1%nat.
Proof.
  split; [|by vm_compute].
  apply (proj2 (reconcileModel_calls resolvedGateway model) (trace modelPass) (outcome modelPass)), (trace_runs cluster).
Defined.

(** ** Teams *)

(** Of two listed members, LiteLLM's own one is kept; the one the operator had added
    is removed, and the one of the spec is added. *)
Definition team : LiteLLMTeam :=
  MkObj (meta "tenant" "ml")
    (MkLiteLLMTeamSpec gatewayRef None "" "ml" [] None "" None None None ∅ ∅ None None None ∅ None None [] None
       "mixed" [MkTeamMember "new@example.com" "user"] [] None)
    (MkLiteLLMTeamStatus true "team-1" None 1 [MkTeamMemberStatus "old@example.com" "user" "crd" true] []
       false false None []).

Definition listedMembers : list TeamMemberInfo :=
  [MkTeamMemberInfo "old@example.com" "user"; MkTeamMemberInfo "sso@example.com" "user"].

Definition memberCluster (c : kcall) (w : unit) : kans c * unit :=
  match c return kans c * unit with
  | KApi cl r =>
      match r return api_ans r * unit with
      | TeamsListMembers _ => (Ok listedMembers, w)
      | r => (unavailable r, w)
      end
  | c => cluster c w
  end.

Definition membersPass : kprog (LiteLLMTeam * option error) := run_M (reconcileMembers client) team.

(** The operator's member of old leaves team-1 and the one of the spec joins; team-2 is untouched. *)
Lemma reconcileMembers_converges_witness :
  let listed id := listed_members (λ _, listedMembers) id in
  (outcomeOf memberCluster membersPass).2 = None ∧
  members_after "team-1" (listed "team-1") (traceOf memberCluster membersPass) =
    intended_members "mixed" (listed "team-1") {["new@example.com"]} {["old@example.com"]} ∧
  members_after "team-2" (listed "team-2") (traceOf memberCluster membersPass) = listed "team-2".
Proof.
  intros listed. destruct (reconcileMembers_converges (λ _, listedMembers) client team (traceOf memberCluster membersPass)
    (outcomeOf memberCluster membersPass).1 (outcomeOf memberCluster membersPass).2) as [Herr Hafter].
  - change (member_mode team) with "mixed". by right; right; left.
  - apply (trace_runs_to memberCluster membersPass); by vm_compute.
  - vm_compute. repeat split.
  - split; [exact Herr|]. split; [exact (Hafter "team-1")|exact (Hafter "team-2")].
Defined.

(** ** Organizations *)

(** One listed member stays, with its role; one leaves; one is added. *)
Definition organization : LiteLLMOrganization :=
  MkObj (meta "tenant" "research")
    (MkLiteLLMOrganizationSpec gatewayRef "research" [] None "" None None None ∅ ∅
       [MkOrganizationMember "ada@example.com" "org_admin"; MkOrganizationMember "new@example.com" ""] None ∅)
    (MkLiteLLMOrganizationStatus true "org-1" None 2 None []).

Definition listedOrgMembers : list OrgMemberInfo :=
  [MkOrgMemberInfo "u1" "old@example.com" "internal_user"; MkOrgMemberInfo "u2" "ada@example.com" "internal_user"].

Definition orgCluster (c : kcall) (w : unit) : kans c * unit :=
  match c return kans c * unit with
  | KApi cl r =>
      match r return api_ans r * unit with
      | OrganizationsGet id => (Ok (MkOrganizationInfo id "research" [] None listedOrgMembers), w)
      | r => (unavailable r, w)
      end
  | c => cluster c w
  end.

Definition orgMembersPass : kprog (LiteLLMOrganization * option error) := run_M (reconcileOrgMembers client) organization.

Lemma reconcileOrgMembers_converges_witness :
  roster_after "org-1" listedOrgMembers (traceOf orgCluster orgMembersPass) =
    MkRoster [MkOrgMemberInfo "u2" "ada@example.com" "internal_user"] [MkOrgMemberRequest "new@example.com" "internal_user"].
Proof.
  refine (eq_trans (proj1 (proj2 (reconcileOrgMembers_converges (λ _, listedOrgMembers) client organization
    (traceOf orgCluster orgMembersPass) (outcomeOf orgCluster orgMembersPass).1 (outcomeOf orgCluster orgMembersPass).2
    _ _ _)) "org-1") _).
  - repeat constructor; set_solver.
  - apply (trace_runs_to orgCluster orgMembersPass); by vm_compute.
  - vm_compute. repeat split. by eexists.
  - by vm_compute.
Defined.

(** ** Virtual keys *)

Definition virtualKey : LiteLLMVirtualKey :=
  annotate AnnotationSyncHash
    (keySyncHash (MkLiteLLMVirtualKeySpec gatewayRef "ci" None None [] None "" None None None None ∅ ∅ ∅ None None
       ∅ None "" None []))
    (MkObj (meta "tenant" "ci")
      (MkLiteLLMVirtualKeySpec gatewayRef "ci" None None [] None "" None None None None ∅ ∅ ∅ None None
         ∅ None "" None [])
      (MkLiteLLMVirtualKeyStatus true (Some (MkSecretKeyRef "ci-key" "api_key")) "tok-1" None true None None [])).

(** A key that LiteLLM has not issued yet, and a cluster without its Secret. *)
Definition freshKey : LiteLLMVirtualKey :=
  MkObj (Meta virtualKey) (Spec virtualKey) (with_kys_KeySecretRef None (with_kys_LiteLLMKeyToken "" (Status virtualKey))).

Definition issuing (c : kcall) (w : unit) : kans c * unit :=
  match c return kans c * unit with
  | KGetSecret _ _ | KReadSecret _ _ => (Err (ErrKube KNotFound "no such secret"), w)
  | KApi cl r =>
      match r return api_ans r * unit with
      | KeysGenerate _ => (Ok (MkKeyGenerateResponse "sk-new" "tok-new"), w)
      | r => (unavailable r, w)
      end
  | c => cluster c w
  end.

Definition keyPass : kprog (LiteLLMVirtualKey * Ret_t) := run_M (reconcileKey resolvedGateway) freshKey.
Definition issued : LiteLLMVirtualKey :=
  default freshKey (head (omap (λ e : event K, match ev_op e with
    | KStatusUpdate k o => match k return obj k → option LiteLLMVirtualKey with KVirtualKey => Some | _ => λ _, None end o
    | _ => None
    end) (traceOf issuing keyPass))).

Definition answered_key (e : event K) : option KeyGenerateResponse :=
  match ev_op e as c return kans c → option KeyGenerateResponse with
  | KApi _ r =>
      match r as r0 return api_ans r0 → option KeyGenerateResponse with
      | KeysGenerate _ => λ x, match x with Ok resp => Some resp | Err _ => None end
      | _ => λ _, None
      end
  | _ => λ _, None
  end (ev_ans e).

(** The status that names the new key is written after its Secret is in the cluster. *)
Lemma reconcileKey_stores_before_recording_witness :
  kys_LiteLLMKeyToken (Status issued) = "tok-new" ∧
  ∃ secret, key_secret freshKey secret ∧ kys_KeySecretRef (Status issued) = Some (MkSecretKeyRef secret "api_key") ∧
    key_stored "tenant" secret "sk-new" (take 3 (traceOf issuing keyPass)).
Proof.
  split; [by vm_compute|].
  destruct (reconcileKey_stores_before_recording resolvedGateway freshKey (traceOf issuing keyPass)
    (runs_partial _ _ _ (trace_runs issuing keyPass)) (take 3 (traceOf issuing keyPass))
    (KEv (KStatusUpdate KVirtualKey issued) (Ok issued)) (drop 4 (traceOf issuing keyPass)) ltac:(by vm_compute) issued eq_refl)
    as (cl & req & resp & secret & Hname & Hresp & Htok & Href & Hst).
  assert (resp = MkKeyGenerateResponse "sk-new" "tok-new") as ->.
  { apply list_elem_of_singleton. assert (resp ∈ omap answered_key (take 3 (traceOf issuing keyPass))) as Hin.
    { apply list_elem_of_omap. eexists. by split; [exact Hresp|]. }
    by vm_compute in Hin |- *. }
  exists secret. split; [exact Hname|]. split; [exact Href|]. by apply Hst.
Defined.

(** The key's Secret, before the operator's labels. *)
Definition keySecret : Secret :=
  MkSecret (MkObjectMeta "ci-key" "tenant" "uid-s" 1 ∅ None [] [MkOwnerReference "" "" "ci" "uid-ci" true] None "1")
    "Opaque" {["api_key" := "sk-old"]} ∅.

Lemma reconcileKeySecret_writes_applies :
  kalways (secret_writes_ok virtualKey "sk-new") (reconcileKeySecret virtualKey "sk-new").
Proof. exact (reconcileKeySecret_writes virtualKey "sk-new"). Defined.

Lemma updateKeySecret_converges_applies :
  let s := (mergeKeySecret virtualKey "sk-new" (sec_meta keySecret) false keySecret).1 in
  sec_StringData s = {["api_key" := "sk-new"]} ∧ runs (updateKeySecret virtualKey "" s) [] None.
Proof.
  split; [by vm_compute|].
  apply (updateKeySecret_converges virtualKey "sk-new" keySecret _ None).
  apply (trace_runs_to cluster); by vm_compute.
Defined.

Lemma pushKeySpec_ignores_secret_fields_applies :
  let renamed : LiteLLMVirtualKey :=
    MkObj (Meta virtualKey) (with_ks_KeySecretTemplate None (with_ks_KeySecretName "renamed" (Spec virtualKey)))
      (Status virtualKey) in
  trace (pushKeySpec client renamed) = [].
Proof.
  intros renamed.
  apply (pushKeySpec_ignores_secret_fields client virtualKey "renamed" None _
           (outcome (pushKeySpec client renamed))); [by vm_compute|].
  apply (trace_runs cluster (pushKeySpec client renamed)).
Defined.

(** ** Users *)

Definition user : LiteLLMUser :=
  MkObj (meta "litellm" "ada")
    (MkLiteLLMUserSpec gatewayRef "ada" "ada@example.com" "internal_user" None "" [] [] None None None ∅ ∅ ∅ None
       None (Some (MkSecretKeyRef "master" "password")) None)
    (MkLiteLLMUserStatus true "ada" None [] None (digestWith (replicate 16 7) "hunter2") []).

Definition passwordPass : kprog (LiteLLMUser * Z) := run_M (reconcileInitialPassword client) user.

Lemma reconcileInitialPassword_idempotent_applies :
  tail (trace passwordPass) = [] ∧ (outcome passwordPass).2 = 0 ∧
  ust_InitialPasswordDigest (Status (outcome passwordPass).1) = digestWith (replicate 16 7) "hunter2".
Proof.
  apply (reconcileInitialPassword_idempotent client user (MkSecretKeyRef "master" "password") "hunter2"
           (replicate 16 7) credentials).
  - reflexivity.
  - repeat constructor; unfold is_byte; lia.
  - reflexivity.
  - by vm_compute.
  - done.
  - apply (trace_runs_from cluster passwordPass); by vm_compute.
Defined.

(** ** Credentials *)

Definition credential : LiteLLMCredential :=
  MkObj (meta "litellm" "openai")
    (MkLiteLLMCredentialSpec gatewayRef "openai" (MkSecretKeyRef "openai-key" "key") "" "" ∅)
    (MkLiteLLMCredentialStatus true 0 None []).

(** A cluster in which the credential's own Secret is gone. *)
Definition secretGone (c : kcall) (w : unit) : kans c * unit :=
  match c return kans c * unit with
  | KGetSecret ns name =>
      if decide (name = "openai-key") then (Err (ErrKube KNotFound "no such secret"), w) else (Ok credentials, w)
  | c => cluster c w
  end.

Definition credentialPass : kprog (LiteLLMCredential * Ret_t) := run_M reconcileCredential credential.

Lemma reconcileCredential_requeues_applies : retried (outcomeOf secretGone credentialPass).2 = true.
Proof.
  apply (reconcileCredential_requeues credential (traceOf secretGone credentialPass)
           (outcomeOf secretGone credentialPass).1).
  apply (trace_runs_to secretGone credentialPass); by vm_compute.
Defined.

Lemma credential_orphaned_after_failed_pass_applies :
  let t0 := traceOf secretGone (resolveInstance "litellm" kindCredential gatewayRef) in
  (∃ st x, last (drop (S (length t0)) (traceOf secretGone credentialPass)) =
             Some (KEv (KStatusUpdate KCredential st) x) ∧ crst_Configured (Status st) = false) ∧
  ∀ gone : LiteLLMCredential, crst_Configured (Status gone) = false →
    kalways (λ _ c, ∀ cl req, c ≠ KApi cl req) (handleCredentialDeletion gone).
Proof.
  intros t0.
  apply (credential_orphaned_after_failed_pass credential resolvedGateway t0 (ErrKube KNotFound "no such secret")
           (drop (S (length t0)) (traceOf secretGone credentialPass))
           (outcomeOf secretGone credentialPass).1 (outcomeOf secretGone credentialPass).2).
  - apply (trace_runs_to secretGone); by vm_compute.
  - apply (trace_runs_to secretGone credentialPass); by vm_compute.
Defined.

(** ** Config sync *)

Definition syncer : configSyncer :=
  MkConfigSyncer client gateway (MkConfigSyncSpec true "1m" "prune" "crd-wins" false).

Definition driftedTeam : LiteLLMTeam := annotate AnnotationSyncHash "deadbeef" team.
Definition driftPass : kprog (LiteLLMTeam * syncResult) := handleDrift (k := KTeam) syncer driftedTeam syncResult0.

Lemma handleDrift_remediates_applies :
  ∃ (y : res (obj KTeam) error) t1,
    trace driftPass = KEv (KUpdate KTeam (drop_hash {[AnnotationSyncHash := "deadbeef"]} driftedTeam)) y :: t1.
Proof.
  destruct (handleDrift_remediates syncer (k := KTeam) driftedTeam {[AnnotationSyncHash := "deadbeef"]} syncResult0
    (trace driftPass) (outcome driftPass).1 (outcome driftPass).2) as (y & t1 & Ht & _).
  - reflexivity.
  - apply (trace_runs_to cluster driftPass); by vm_compute.
  - exists y, t1. exact Ht.
Defined.

Lemma ConfigSyncReconcile_requeues_applies :
  outcome (ConfigSyncReconcile "litellm" "gateway") = (RequeueIn (60 * time_Second), None).
Proof.
  apply (ConfigSyncReconcile_requeues "litellm" "gateway" gateway
           (MkConfigSyncSpec true "1m" "prune" "crd-wins" false)
           (tail (trace (ConfigSyncReconcile "litellm" "gateway")))).
  - reflexivity.
  - reflexivity.
  - apply (trace_runs_from cluster (ConfigSyncReconcile "litellm" "gateway")); by vm_compute.
Defined.

(** ** Rollouts *)

Definition pod : PodSpec :=
  barePod [bareContainer "litellm"
    [MkEnvVar "LITELLM_MASTER_KEY" "" (Some (MkEnvVarSource (Some (MkKeySelector "master" "key")) None JNull))] []].

Lemma podTemplateSecretHash_spec_applies :
  let refs := podSpecSecretRefs pod in
  let p := podTemplateSecretHash "litellm" pod in
  (refs = ∅ ∧ trace p = [] ∧ outcome p = Ok "") ∨
  refs ≠ ∅ ∧ ∃ l, trace p = reads "litellm" l ∧
    match outcome p with
    | Ok h => l.*1 = sortedKeys refs ∧ h = sum (secretPreimage refs l) ∧
        ∀ name e, (name, Err e) ∈ l → apierrors_IsNotFound e = true
    | Err err => ∃ l' name e, l = l' ++ [(name, Err e)] ∧ apierrors_IsNotFound e = false ∧
        err = Errorf "hashing Secret %s/%s for pod template: %w" [FStr "litellm"; FStr name] (Some e)
    end.
Proof. apply (podTemplateSecretHash_spec "litellm" pod), (trace_runs cluster). Defined.

Lemma bytes_unmarked name (s : Secret) :
  forallb (λ kv, negb (bool_decide (bytes_of kv.2 = missingMark))) (map_to_list (sec_Data s)) = true → unmarked (name, Ok s).
Proof.
  intros Hall s' k v [= <-] Hk Hv. eapply forallb_forall in Hall; [|apply list_elem_of_In, elem_of_map_to_list, Hk].
  simpl in Hall. by rewrite bool_decide_true in Hall.
Qed.

(** Rotating the master key changes what is hashed. *)
Lemma secretPreimage_faithful_witness :
  let refs := podSpecSecretRefs pod in
  let rotated := MkSecret (sec_meta credentials) "Opaque" {["key" := "sk-rotated"; "password" := "hunter2"]} ∅ in
  secretPreimage refs [("master", Ok credentials)] ≠ secretPreimage refs [("master", Ok rotated)].
Proof.
  intros refs rotated Heq.
  assert (refs = {["master" := MkDataRef false (Some {["key"]})]}) as Hrefs by (by vm_compute).
  destruct (secretPreimage_faithful pod [("master", Ok credentials)] [("master", Ok rotated)]) as [_ Hback].
  - fold refs. rewrite Hrefs. apply map_Forall_singleton. split; [done|]. intros k Hk. simpl in Hk.
    apply elem_of_singleton in Hk as ->. by vm_compute.
  - repeat constructor. fold refs. rewrite Hrefs. by eexists.
  - reflexivity.
  - repeat constructor.
  - repeat constructor.
  - specialize (Hback (Forall_cons_2 _ _ _ (bytes_unmarked "master" credentials ltac:(by vm_compute)) (Forall_nil_2 _))
                      (Forall_cons_2 _ _ _ (bytes_unmarked "master" rotated ltac:(by vm_compute)) (Forall_nil_2 _)) Heq).
    apply Forall2_cons_1 in Hback as [[_ Hsame] _]. simpl in Hsame.
    fold refs in Hsame. rewrite Hrefs in Hsame. specialize (Hsame "key"). rewrite lookup_singleton_eq in Hsame.
    discriminate Hsame. by apply elem_of_singleton.
Defined.
