(* ===== verification/WatchExamples.v ===== *)
(** * Watches at work

    A runtime that does what its documentation says and no more, and the theorems of
    [Watches] at the cluster of [Examples]. *)

From S2P Require Import Prelude KubeTypes InstanceTypes Types Updates World Sha256 Common Reconcile Budget Password User.
From S2P Require Import Instance InstanceStatus Watches Examples.
Open Scope Z_scope.

#[local] Existing Instance Documented.lib.
#[local] Existing Instance Documented.lib_laws.
#[local] Existing Instance Examples.plain_Marshal.
#[local] Existing Instance ToyArgon2.toy.

Inductive queued (b : builder) : ∀ w, event_on w → khist → Request → Prop :=
| queued_For k (e : event_on (WKind k)) x :
    For k ∈ b → x ∈ event_objects e → queued b (WKind k) e [] (request_of (w := WKind k) x)
| queued_Owns k w (e : event_on w) x (owner : obj k) :
    For k ∈ b → Owns w ∈ b → x ∈ event_objects e → IsControlledBy (watched_meta x) (Meta owner) = true →
    queued b w e [] (Namespace (watched_meta x), Name (Meta owner))
| queued_Watches w f ps (e : event_on w) x t out q :
    Watches w f ps ∈ b → (∀ p, p ∈ ps → passes p e) → x ∈ event_objects e → runs (f x) t out → q ∈ out →
    queued b w e t q.

#[local] Instance runtime : ControllerRuntime := {| enqueues b w e t q := queued b w e t q |}.
#[local] Instance runtime_laws : ControllerRuntimeLaws.
Proof. split; intros; [by constructor|by eapply queued_Owns|by eapply queued_Watches]. Qed.

(** The pass over a budget, its last write and what is before it. *)
Definition budgetPass : kprog Ret_t := Reconcile (k := KBudget) "litellm" "monthly".

Definition stored : LiteLLMBudget :=
  match last (trace budgetPass) with
  | Some e => match ev_op e with KStatusUpdate KBudget o => o | _ => budget end
  | None => budget
  end.

Lemma success_wakes_itself_witness :
  last_sync (k := KBudget) (Status stored) = Some 1700000000 ∧
  enqueues LiteLLMBudget_SetupWithManager (Updated (w := WKind KBudget) budget stored) [] ("litellm", "monthly").
Proof.
  split; [by vm_compute|].
  apply (success_wakes_itself (k := KBudget) LiteLLMBudget_SetupWithManager "litellm" "monthly" budget stored stored
           (removelast (tail (trace budgetPass))) (outcome budgetPass).1); [by left| |by vm_compute..].
  apply (trace_runs_to cluster); by vm_compute.
Defined.

(** The Secret of the initial password changes: the user is reconciled. *)
Definition rotated : Secret := MkSecret (meta "litellm" "master") "Opaque" {["password" := "hunter3"]} ∅.

Definition withUser (c : kcall) (w : unit) : kans c * unit :=
  match c return kans c * unit with
  | KList KUser _ => (Ok [user], w)
  | c => cluster c w
  end.

Lemma watched_reads_witness :
  ∃ out, enqueues LiteLLMUser_SetupWithManager (Created (w := WSecret) rotated)
           (traceOf withUser (findUsersForSecret rotated)) out ∧ out = ("litellm", "ada").
Proof.
  exists ("litellm", "ada"). split; [|done].
  destruct watched_reads as (Huser & _).
  assert (∃ e t, trace passwordPass = e :: t ∧ ev_op e = KGetSecret "litellm" "master") as (e & t & Ht & He).
  { eexists _, _. split; [by vm_compute|done]. }
  refine (Huser client user (trace passwordPass) _ [] e t Ht "litellm" "master" He (Created (w := WSecret) rotated)
            rotated _ (outcomeOf withUser (findUsersForSecret rotated)) _ eq_refl I _ _).
  - apply runs_partial with (outcome passwordPass). apply trace_runs.
  - by left.
  - apply trace_runs.
  - intros ns x Hin. assert (traceOf withUser (findUsersForSecret rotated) =
      [KEv (KList KUser (Some "litellm")) (Ok [user])]) as Htr by by vm_compute.
    rewrite Htr in Hin. apply list_elem_of_singleton in Hin. pose proof (f_equal ev_op Hin) as [= ->].
    apply Ev_inj in Hin as ->. exists [user], user. split_and!; [done|by left|done..].
Defined.
