(* ===== verification/InstanceExamples.v ===== *)
(** * The instance controller on concrete inputs

    A rendering of the manifests, an API server that stores Secrets, and passes over an
    instance computed against them: the hypotheses of the theorems on instances are met. *)

From S2P Require Import Prelude KubeTypes InstanceTypes Types Updates World Sha256 Common Reconcile.
From S2P Require Import VirtualKey Rollout ProxyConfig Workload Manifests PodHealth InstanceResources InstanceStatus Instance InstanceCalls InstanceReady Guardrail.
From S2P Require Import Examples.
Open Scope Z_scope.

#[local] Existing Instance Documented.lib.
#[local] Existing Instance Documented.lib_laws.

(** ** A rendering *)

#[local] Existing Instance Examples.plain_Unmarshal.
#[local] Instance plain_YAML : YAMLMarshal := λ config, Ok (foldr String.append "" (sortedKeys config)).

#[local] Instance plain_Format : TimeFormat := λ _, "2026-01-01T00:00:00Z".

#[local] Instance plain_DeploymentSpec : SemanticDeepEqual DeploymentSpec := λ a b,
  bool_decide (ds_Replicas a = ds_Replicas b) &&
  bool_decide (pod_RestartPolicy (pt_Spec (ds_Template a)) = pod_RestartPolicy (pt_Spec (ds_Template b))) &&
  maps_DeepEqual (pt_Annotations (ds_Template a)) (pt_Annotations (ds_Template b)).
#[local] Instance plain_DeploymentSpec_laws : SemanticDeepEqualLaws DeploymentSpec.
Proof.
  intros a. unfold Semantic_DeepEqual, plain_DeploymentSpec, maps_DeepEqual. by rewrite !bool_decide_true.
Qed.
#[local] Instance plain_DeploymentSpec_equal : DeploymentSpecEqual.
Proof.
  split; intros a b [[Hr _]%andb_prop Ha]%andb_prop; [by apply bool_decide_eq_true in Hr|by apply bool_decide_eq_true in Ha].
Qed.
#[local] Instance plain_ServiceSpec : SemanticDeepEqual KServiceSpec := λ a b,
  bool_decide (kss_Type a = kss_Type b).

Definition bare (ns name : string) : ObjectMeta := MkObjectMeta name ns "" 0 ∅ None [] [] None "".
#[local] Instance plain_Scheduling : JSONMarshal PodSchedulingSpec := λ s, foldr String.append "" (sortedKeys (psch_NodeSelector s)).
Definition rolling : DeploymentStrategy := MkDeploymentStrategy "RollingUpdate" (Some (None, None)).

(** ** Passes against the cluster *)

(** A managed instance: the pass creates its objects, and probes nothing since no replica is ready. *)
Definition is_write (c : kcall) : bool := match c with KCreateRes _ _ | KUpdateRes _ _ | KCreateSecret _ => true | _ => false end.
Definition writesOf (h : khist) : nat := length (List.filter (λ e : event K, is_write (ev_op e)) h).

Example managed_pass_creates : writesOf (trace (ReconcileInstance "litellm" "gateway")) = 4%nat.
Proof. by vm_compute. Qed.

(** Attached to a proxy that it does not manage, it creates nothing. *)
Definition attachedGateway : LiteLLMInstance :=
  MkObj (Meta gateway) (with_is_Workload (Some (MkWorkloadSpec (Some false) "http://proxy:4000")) (Spec gateway))
    (Status gateway).

Example unmanaged_pass_writes_nothing : writesOf (trace (run_M reconcileInstance attachedGateway)) = 0%nat.
Proof. by vm_compute. Qed.

(** The whole pass over the managed instance. *)
Definition managedPass : kprog Ret_t := ReconcileInstance "litellm" "gateway".

Lemma ReconcileInstance_calls_witness :
  kalways (reconcile_call_ok "litellm" "gateway") managedPass ∧ retried (outcome managedPass) = true.
Proof.
  destruct (ReconcileInstance_calls "litellm" "gateway") as [Hcalls Hretried]. split; [exact Hcalls|].
  apply (Hretried (tail (trace managedPass)) (outcome managedPass) gateway (Ok gateway)).
  - apply (trace_runs_from cluster managedPass); by vm_compute.
  - reflexivity.
  - reflexivity.
  - by vm_compute.
Defined.

(** ** Pods *)

Definition crashing : Pod :=
  MkPod (bare "litellm" "gateway-0") "Running" "" "" []
    [MkContainerStatus 7 (Some (MkContainerStateWaiting "CrashLoopBackOff" "back-off 5m0s")) None None].
Definition running : Pod := MkPod (bare "litellm" "gateway-1") "Running" "" "" [] [].

Definition podsCluster : server := λ c w,
  match c return kans c * unit with
  | KListPods _ _ => (Ok [running; crashing], w)
  | c => cluster c w
  end.

Lemma inspectPodHealth_spec_witness :
  ∃ r, traceOf podsCluster (inspectPodHealth gateway) =
      [KEv (KListPods (Namespace (Meta gateway)) (labelsForInstance (Name (Meta gateway)))) r] ∧
    match r with
    | Err _ => outcomeOf podsCluster (inspectPodHealth gateway) = []
    | Ok pods => ∃ ps, ps = take podHealthMaxReported (filter faulty pods) ∧
        Forall2 report_ok ps (outcomeOf podsCluster (inspectPodHealth gateway))
    end.
Proof. apply (inspectPodHealth_spec gateway), (trace_runs podsCluster). Defined.

(** ** The Deployment *)

(** The Deployment of the instance. *)
Definition rendered : Deployment := BuildDeployment gateway (labelsForInstance "gateway") "" [].

(** A Deployment restarted with kubectl, which the pass brings up to date. *)
Definition liveDeployment : Deployment :=
  MkDeployment (bare "litellm" "gateway")
    (MkDeploymentSpec (Some 3) ∅ (MkPodTemplate ∅ (Some {["kubectl.kubernetes.io/restartedAt" := "now"]}) pod) rolling JNull)
    (MkDeploymentStatus 3 3 3 []).

(** An API server that fills in the restart policy, and the cluster at one Deployment. *)
Definition with_RestartPolicy (p : PodSpec) : PodSpec :=
  MkPodSpec (pod_ServiceAccountName p) (if decide (pod_RestartPolicy p = "") then "Always" else pod_RestartPolicy p)
    (pod_ImagePullSecrets p) (pod_Containers p) (pod_InitContainers p) (pod_Volumes p) (pod_SecurityContext p)
    (pod_NodeSelector p) (pod_Tolerations p) (pod_Affinity p) (pod_TopologySpreadConstraints p) (pod_Rest p).
Definition apiDefaults : api_defaults := MkDefaults id with_RestartPolicy id id (λ _, eq_refl).

Definition store (d : Deployment) : Deployment := MkDeployment (dep_meta d) (defaulted apiDefaults (dep_Spec d)) (dep_Status d).

Definition liveCluster (d : Deployment) : server := λ c w,
  match c return kans c * unit with
  | KGetRes RDeployment _ _ => (Ok d, w)
  | c => cluster c w
  end.

Definition deployed : Deployment := store (mergeDeployment liveDeployment rendered).

Lemma update_steps ns n live t :
  t = [KEv (KGetRes RDeployment ns n) (Ok live); KEv (KUpdateRes RDeployment (mergeDeployment live rendered)) None] →
  deployment_steps apiDefaults t (Some live) (Some (store (mergeDeployment live rendered))).
Proof.
  intros ->. assert (∀ d, option_Forall2 same_Deployment (Some d) (Some d)) as Hrefl by by constructor.
  exists (Some live), (Some live). split; [apply Hrefl|]. split; [by split|].
  exists (Some live), (Some (store (mergeDeployment live rendered))). split; [apply Hrefl|]. split; [|apply Hrefl].
  split; [eauto|]. by exists (store (mergeDeployment live rendered)).
Qed.

(** Every pass sends an update, since the server filled in what is not rendered; after the first
    they change nothing. *)
Lemma applyDeployment_converges_witness :
  let p := applyDeployment rendered in
  writesOf (traceOf (liveCluster liveDeployment) p) = 1%nat ∧
  writesOf (traceOf (liveCluster deployed) p) = 1%nat ∧
  brought_up apiDefaults (Some liveDeployment) rendered deployed ∧
  ∃ live', Some (store (mergeDeployment deployed rendered)) = Some live' ∧ same_Deployment deployed live'.
Proof.
  intros p. split; [by vm_compute|]. split; [by vm_compute|].
  destruct (applyDeployment_converges apiDefaults rendered (Some liveDeployment) (traceOf (liveCluster liveDeployment) p)
    (Some deployed) [(traceOf (liveCluster deployed) p, None)] (Some (store (mergeDeployment deployed rendered))))
    as (live & live' & [= <-] & Hw2 & Hup & Hsame & _).
  - apply (trace_runs_to (liveCluster liveDeployment)); by vm_compute.
  - apply (update_steps (Namespace (dep_meta rendered)) (Name (dep_meta rendered))). by vm_compute.
  - eexists. split_and!; [apply (trace_runs_to (liveCluster deployed)); by vm_compute| |reflexivity].
    apply (update_steps (Namespace (dep_meta rendered)) (Name (dep_meta rendered))). by vm_compute.
  - split; [exact Hup|]. by exists live'.
Defined.

(** ** Generated Secrets *)

Definition secretsServer (c : kcall) (w : gmap (string * string) Secret) : kans c * gmap (string * string) Secret :=
  match c return kans c * gmap (string * string) Secret with
  | KGetSecret ns n =>
      (match w !! (ns, n) with Some s => Ok s | None => Err (ErrKube KNotFound "no such secret") end, w)
  | KCreateSecret s =>
      let key := (Namespace (sec_meta s), Name (sec_meta s)) in
      match w !! key with
      | Some _ => (Some (ErrKube KOtherReason "already exists"), w)
      | None => (None, <[key := s]> w)
      end
  | c => ((cluster c tt).1, w)
  end.

Definition secretsStore : secret_store (gmap (string * string) Secret).
Proof.
  refine (MkSecretStore _ secretsServer id id _ _ _).
  - intros ns name w. simpl. destruct (w !! (ns, name)); [done|].
    eexists. split; [|reflexivity]. done.
  - intros s w. simpl. destruct (w !! _); [eexists _, _|eexists]; (split; [reflexivity|done]).
  - done.
Defined.

Definition generating : LiteLLMInstance :=
  MkObj (Meta gateway) (with_is_MasterKey (MkMasterKeySpec None true) (Spec gateway)) (Status gateway).

Definition secretsPass := interp (S := K) secretsServer (reconcileSecrets generating) ∅.

Lemma reconcileSecrets_refines_witness :
  secretsPass.1.2 = None ∧
  is_Some (secretsPass.2 !! ("litellm", "gateway-master-key")) ∧
  ∃ t', interp (S := K) secretsServer (reconcileSecrets generating) secretsPass.2 = (t', None, secretsPass.2) ∧
    ∀ e : event K, e ∈ t' → benign (ev_op e) = true.
Proof.
  assert (secretsPass.1.2 = None) as Hout by (by vm_compute). split; [done|].
  assert (secretsPass = (secretsPass.1.1, secretsPass.1.2, secretsPass.2)) as Hrun by (by destruct secretsPass as [[? ?] ?]).
  destruct (reconcileSecrets_refines secretsStore generating ∅ _ _ _ Hrun) as [_ Hok].
  destruct (Hok Hout) as [Hall Hidle]. split; [|exact Hidle].
  apply (Hall "gateway-master-key" "master-key"). by left.
Defined.

(** ** The status *)

(** The proxy answers its probes. *)
Definition healthyCluster : server := λ c w,
  match c return kans c * unit with
  | KApi _ r =>
      (match r return api_ans r with
       | HealthReadiness => Ok (MkReadinessResponse "connected" "connected" "1.86.0")
       | r => unavailable r
       end, w)
  | c => cluster c w
  end.

Definition statusPass : kprog (LiteLLMInstance * (Ret_t + unit)) := updateInstanceStatus None attachedGateway.

Lemma updateInstanceStatus_reports_witness :
  ready_reported attachedGateway None (traceOf healthyCluster statusPass) ∧ quiet (traceOf healthyCluster statusPass).
Proof.
  destruct (updateInstanceStatus_reports attachedGateway None (traceOf healthyCluster statusPass)
              (outcomeOf healthyCluster statusPass).1 (outcomeOf healthyCluster statusPass).2) as [Hr Hq].
  - apply (trace_runs_to healthyCluster statusPass); [done|by destruct (outcomeOf healthyCluster statusPass)].
  - split; [exact Hr|by apply Hq].
Defined.

(** A pass with an error announces that the proxy is healthy again, although Ready is false. *)
Example error_announces_health :
  existsb (λ e : event K, match ev_op e with KEvent _ _ _ r _ => bool_decide (r = EventReasonHealthRestored) | _ => false end)
    (traceOf healthyCluster (updateInstanceStatus (Some (ErrLib "conflict")) attachedGateway)) = true.
Proof. by vm_compute. Qed.

(** ** The license *)

Definition licenseSecret : Secret := MkSecret (bare "litellm" "gateway-license") "Opaque" {["license-key" := "eyJ"]} ∅.

Definition licenseCluster : server := λ c w,
  match c return kans c * unit with
  | KGetSecret _ _ => (Ok licenseSecret, w)
  | c => cluster c w
  end.

Definition licensePass : kprog (LiteLLMInstance * (Ret_t + string)) := reconcileLicense gateway.

Lemma license_watched_witness :
  (outcomeOf licenseCluster licensePass).2 = inr "gateway-license" ∧
  request gateway ∈ outcome (findInstanceForLicenseSecret licenseSecret).
Proof.
  assert (runs licensePass (traceOf licenseCluster licensePass)
            ((outcomeOf licenseCluster licensePass).1, (outcomeOf licenseCluster licensePass).2)) as Hr.
  { apply (trace_runs_to licenseCluster); [done|by destruct (outcomeOf licenseCluster licensePass)]. }
  destruct (license_watched gateway _ _ _ Hr) as [_ Hwatch]. split; [by vm_compute|].
  apply (Hwatch licenseSecret (trace (findInstanceForLicenseSecret licenseSecret))).
  - apply trace_runs.
  - exists (KEv (KGetSecret "litellm" "gateway-license") (Ok licenseSecret)). split; [|done].
    apply elem_of_cons. left. by vm_compute.
  - intros x Hin. exfalso. assert (trace (findInstanceForLicenseSecret licenseSecret) = []) as E by (by vm_compute).
    rewrite E in Hin. by apply not_elem_of_nil in Hin.
Defined.

(** ** Guardrails *)

Definition lakera : LiteLLMGuardrail :=
  MkObj (meta "litellm" "lakera")
    (MkLiteLLMGuardrailSpec gatewayRef "lakera" "lakera" "" "" "pre_call" (Some (MkSecretKeyRef "master" "key")) "" None ∅ [])
    (MkLiteLLMGuardrailStatus false None []).

Definition guardrailPass : kprog (LiteLLMGuardrail * Ret_t) := run_M reconcileGuardrail lakera.

Lemma reconcileGuardrail_reports_witness :
  kalways guardrail_call_ok guardrailPass ∧ reported lakera (trace guardrailPass) ∧
  (outcome guardrailPass).2 = (RequeueIn (5 * time_Minute), None).
Proof.
  destruct (reconcileGuardrail_reports lakera) as [Hcalls Hall].
  assert (runs guardrailPass (trace guardrailPass) ((outcome guardrailPass).1, (outcome guardrailPass).2)) as Hr.
  { apply (trace_runs_to cluster); [done|by destruct (outcome guardrailPass)]. }
  destruct (Hall _ _ _ Hr) as [Hrep _]. split; [exact Hcalls|]. split; [exact Hrep|by vm_compute].
Defined.

(** ** Rendering *)

(** The instance with a guardrail, a user variable and a cache in S3. *)
Definition cached : LiteLLMInstance :=
  MkObj (Meta gateway)
    (with_is_ExtraEnvVars [plainEnv "LITELLM_LOG" "DEBUG"]
       (with_is_Caching (Some (MkCachingSpec true "s3" None
          (Some (MkCacheS3Spec "bucket" "" (Some (MkSecretKeyRef "aws" "")))) None None None "" [] "")) (Spec gateway)))
    (Status gateway).

Lemma guardrail_key_injected_witness :
  let v := GuardrailEnvVarName "lakera" in
  let pod := pt_Spec (ds_Template (dep_Spec (BuildDeployment cached ∅ "" [lakera]))) in
  withParams lakera (guardrailParams lakera) !! "api_key" = Some (env_ref v) ∧
  (∃ c, pod_Containers pod = [c] ∧ env_value v (ctr_Env c) = Some (envFromSecret v (MkSecretKeyRef "master" "key"))) ∧
  covered (podSpecSecretRefs pod) "master" (Some "key").
Proof.
  intros v pod. destruct (guardrail_key_injected cached "" [lakera] ∅ lakera (MkSecretKeyRef "master" "key"))
    as (Hcfg & c & e & Hc & Hv & _ & Hkey & Hcov); [by left|reflexivity|].
  assert (e = envFromSecret v (MkSecretKeyRef "master" "key")) as ->.
  { apply Hkey; [compute_done|]. intros e' He _. by apply list_elem_of_singleton in He. }
  split; [exact Hcfg|]. split; [by exists c|]. by apply Hcov.
Defined.

Lemma references_defined_witness :
  "CACHE_S3_ACCESS_KEY_ID" ∈ env_Name <$> proxyEnv cached "" [lakera] ∨
  ("CACHE_S3_ACCESS_KEY_ID" = "REDIS_PASSWORD" ∧ redisAmbiguous cached).
Proof.
  apply (references_defined cached "" [lakera] "CACHE_S3_ACCESS_KEY_ID").
  eapply (refers_cache cached [lakera] _ _ "s3_aws_access_key_id"); [reflexivity|reflexivity|compute_done|].
  by vm_compute.
Defined.

Lemma mergeEnvVars_spec_applies :
  let operator := [plainEnv "CONFIG_FILE_PATH" configFilePath; plainEnv "LITELLM_LOG" "INFO"] in
  let user := [plainEnv "TZ" "UTC"; plainEnv "LITELLM_LOG" "DEBUG"] in
  mergeEnvVars operator user =
    (overriding user <$> operator) ++ filter (λ e, env_Name e ∉ env_Name <$> operator) user ∧
  ∀ name, env_value name (mergeEnvVars operator user) =
    match env_value name user with Some e => Some e | None => env_value name operator end.
Proof. apply mergeEnvVars_spec. compute_done. Defined.

(** Redis given both ways: the configuration refers to a variable that is not there. *)
Definition ambiguous : LiteLLMInstance :=
  MkObj (Meta gateway)
    (with_is_Redis (Some (MkRedisSpec true (Some (MkSecretKeyRef "redis" "url")) "redis" 6379 (Some (MkSecretKeyRef "redis" "password"))))
       (with_is_Caching (Some (MkCachingSpec true "" None None None None None "" [] "")) (Spec gateway)))
    (Status gateway).

Example redis_password_dangling :
  refers ambiguous [] "REDIS_PASSWORD" ∧ "REDIS_PASSWORD" ∉ env_Name <$> proxyEnv ambiguous "" [].
Proof.
  split; [|compute_done].
  eapply (refers_cache ambiguous [] _ _ "password"); [reflexivity|reflexivity|compute_done|]. by vm_compute.
Qed.

(** Two guardrails whose variables collide: the second reads the key of the first. *)
Definition guardrailNamed (name secret : string) : LiteLLMGuardrail :=
  MkObj (bare "litellm" name)
    (MkLiteLLMGuardrailSpec gatewayRef name "lakera" "" "" "pre_call" (Some (MkSecretKeyRef secret "key")) "" None ∅ [])
    (MkLiteLLMGuardrailStatus false None []).

Example guardrail_keys_collide :
  let gs := [guardrailNamed "pii-eu" "eu"; guardrailNamed "PII_EU" "us"] in
  let v := GuardrailEnvVarName "PII_EU" in
  guardrailParams (guardrailNamed "PII_EU" "us") !! "api_key" = Some (env_ref v) ∧
  env_value v (proxyEnv gateway "" gs) = Some (secretEnv v "eu" "key").
Proof. split; by vm_compute. Qed.

(** A guardrail can replace a variable of the operator. *)
Definition impostor : LiteLLMGuardrail :=
  MkObj (bare "litellm" "impostor")
    (MkLiteLLMGuardrailSpec gatewayRef "x" "lakera" "" "" "pre_call" None "" None ∅ [plainEnv "LITELLM_MASTER_KEY" "sk-mine"])
    (MkLiteLLMGuardrailStatus false None []).
Example guardrail_replaces_master_key :
  env_value "LITELLM_MASTER_KEY" (proxyEnv gateway "" [impostor]) = Some (plainEnv "LITELLM_MASTER_KEY" "sk-mine") ∧
  env_value "LITELLM_MASTER_KEY" (proxyEnv gateway "" []) ≠ Some (plainEnv "LITELLM_MASTER_KEY" "sk-mine").
Proof. split; [by vm_compute|vm_compute; discriminate]. Qed.

Lemma jobName_identifies_applies :
  String.length (jobName gateway) = 24%nat ∧ (jobHashSeed gateway = jobHashSeed cached ↔
     useDatabaseImage gateway = useDatabaseImage cached ∧
     mi_Image (migrationImage gateway) = mi_Image (migrationImage cached) ∧
     podSchedulingSeed (is_PodScheduling (Spec gateway)) = podSchedulingSeed (is_PodScheduling (Spec cached))).
Proof. apply (jobName_identifies gateway cached); compute_done. Defined.

Lemma grafanaDashboardJSON_valid_applies : is_json (grafanaDashboardJSON "litellm" "gateway").
Proof. apply grafanaDashboardJSON_valid; compute_done. Defined.
