(* ===== verification/ClientExamples.v ===== *)
(** * The client on concrete inputs

    A proxy that answers over HTTP, and the theorems on the client at these exchanges. *)

From S2P Require Import Prelude KubeTypes InstanceTypes Types Updates World Sha256 Common Rollout ProxyConfig Wire Client ClientFacts.
From S2P Require Import Redaction Queries Transport Mock.
From stdpp Require Import pretty.
Open Scope Z_scope.

(** Every URL is accepted, a bundle is one certificate, floats are not needed, instants are
    their seconds, and the only texts that are read are users. *)
#[local] Instance plain_HTTPLib : HTTPLib :=
  {| http_NewRequest _ _ := None; AppendCertsFromPEM pem := bool_decide (pem = "CERTIFICATE") |}.
#[local] Instance plain_FormatFloat : FormatFloat := λ _, None.
#[local] Instance plain_FormatTime : FormatTime := λ t, pretty (t / time_Second).
#[local] Instance plain_FormatTimeLaw : FormatTimeLaw.
Proof.
  intros t t' Heq. unfold format_time, plain_FormatTime, Time in *.
  by apply (inj (pretty (A := Z))) in Heq.
Qed.
#[local] Instance plain_JSONParse : JSONParse := λ text,
  if decide (text = "user") then Ok (WObject [("user_id", WString "ada"); ("Spend", WInt 3); ("teams", WNull)])
  else if decide (text = "ada") then Ok (WObject [("user_id", WString "ada")])
  else Err "invalid character".

Definition gatewayClient : ApiClient := MkApiClient "http://gateway.litellm.svc:4000/" "sk-master" "CERTIFICATE".

(** Knows one user, and echoes what it refuses. *)
Definition proxy (req : http_request) (_ : unit) : res http_response string * unit :=
  (if decide (hr_Method req = GET)
   then Ok (MkHttpResponse 200 (Ok "user"))
   else Ok (MkHttpResponse 422 (Ok ("refused: hunter2, twice hunter2"))), tt).

Definition exchanged (r : api_req) : hist HTTP := (interp (S := HTTP) proxy (client gatewayClient r) tt).1.1.
Definition answered (r : api_req) : api_ans r := (interp (S := HTTP) proxy (client gatewayClient r) tt).1.2.

Lemma exchanged_runs r : runs (client gatewayClient r) (exchanged r) (answered r).
Proof.
  unfold exchanged, answered. destruct (interp _ _ _) as [[t x] w] eqn:Hi. by eapply interp_runs.
Qed.

Example answered_user : answered (UsersGet "ada") = Ok (MkUserInfo "ada" "" "" (Some (f64_of_int 3)) []).
Proof. by vm_compute. Qed.

Lemma client_errors_witness :
  let r := ApiDelete SUsers "ada" in
  (exchanged r = [] ∧ request gatewayClient r = None ∧ ∃ e, api_error r (answered r) = Some e ∧ IsAPIError e = None) ∨
  ∃ req a, exchanged r = [@Ev HTTP req a] ∧ request gatewayClient r = Some req ∧
    hr_Header req = [("Authorization", "Bearer " +:+ ac_masterKey gatewayClient); ("Content-Type", "application/json")] ∧
    reports (trim_right_slashes (ac_endpoint gatewayClient)) (edit_of r) req a (api_error r (answered r)).
Proof. intros r. apply (client_errors gatewayClient r), exchanged_runs. Defined.

(** A limit of zero and no limit are two requests. *)
Definition limiting (tpm : option Z) : api_req :=
  UsersUpdate (MkUserCreateRequest "ada" "" "" None "" [] [] tpm None None ∅ ∅ None ∅ None None).
Definition sent_for (r : api_req) : http_request :=
  default (http_request_of (NewClient gatewayClient) GET "" None) (request gatewayClient r).

Lemma requests_distinct_witness :
  let zero := sent_for (limiting (Some 0)) in
  let none := sent_for (limiting None) in
  hr_Method zero = hr_Method none ∧ hr_URL zero = hr_URL none ∧ hr_Body zero ≠ hr_Body none.
Proof.
  intros zero none. assert (hr_Method zero = hr_Method none ∧ hr_URL zero = hr_URL none) as [Hm Hu] by (by vm_compute).
  split; [exact Hm|]. split; [exact Hu|]. intros Hb.
  apply (requests_distinct gatewayClient (limiting (Some 0)) (limiting None) zero none); [by vm_compute..|by intros [=]|].
  by rewrite Hm, Hu, Hb.
Defined.

Lemma SetPassword_redacts_witness :
  match answered (UsersSetPassword "ada" "hunter2") with
  | Some err =>
      match IsAPIError err with
      | Some e => strings_Contains (Message e) "hunter2" = false ∧ strings_Contains (Message e) (json_escape "hunter2") = false
      | None => False
      end
  | None => False
  end.
Proof.
  destruct (answered (UsersSetPassword "ada" "hunter2")) as [err|] eqn:Ha; [|by vm_compute in Ha].
  destruct (IsAPIError err) as [e|] eqn:He; [|vm_compute in Ha; by injection Ha as <-].
  apply (SetPassword_redacts gatewayClient "ada" "hunter2" (exchanged (UsersSetPassword "ada" "hunter2")) err e).
  - unfold redactable. compute_done.
  - rewrite <-Ha. apply exchanged_runs.
  - exact He.
Defined.

Lemma lookups_address_witness :
  query_get "end_user_id" "http://gateway.litellm.svc:4000/customer/info?end_user_id=acme-1" = Some "acme-1".
Proof.
  refine (lookups_address gatewayClient (CustomersGet "acme-1") "end_user_id" "acme-1"
    (http_request_of (NewClient gatewayClient) GET "/customer/info?end_user_id=acme-1" None) eq_refl _ _ _ _).
  - by vm_compute.
  - compute_done.
  - compute_done.
  - unfold plain_id. compute_done.
Defined.

(** A user is looked up: one request is all that is sent. *)
Definition lookup : kprog (res UserInfo error) := api gatewayClient (UsersGet "ada").
Definition lookup_request : http_request :=
  http_request_of (NewClient gatewayClient) GET "/user/info?user_id=ada" None.

Lemma controller_traffic_witness :
  sent_as gatewayClient (UsersGet "ada") lookup_request ∧
  ∃ h cl r, implements h [] ∧ KApi cl r = KApi gatewayClient (UsersGet "ada") ∧ sent_as cl r lookup_request.
Proof.
  destruct (controller_traffic lookup) as (Hsent & _ & _).
  destruct (Hsent (λ _ c, c = KApi gatewayClient (UsersGet "ada")) [] lookup_request
           (Ok (MkHttpResponse 200 (Ok "user"))) []) as (h & cl & r & Hh & Hc & Hs).
  - apply (wp_always _ _ (λ _ _, True)). unfold lookup, api, kcallp, call. by split.
  - right. exists (Ok (MkHttpResponse 200 (Ok "user"))), []. by split.
  - injection Hc as -> ->. split; [exact Hs|by exists h, gatewayClient, (UsersGet "ada")].
Defined.

(** The same lookup, answered by the mock and by a proxy. *)
Definition mock_user : UserInfo := MkUserInfo "ada" "" "" None [].

Lemma mock_realistic_witness :
  ∃ t, runs (lower lookup) t (Ok mock_user) ∧ implements [KEv (KApi gatewayClient (UsersGet "ada")) (Ok mock_user)] t ∧
       Forall accepted t.
Proof.
  apply (mock_realistic lookup [KEv (KApi gatewayClient (UsersGet "ada")) (Ok mock_user)] (Ok mock_user)).
  - exists (Ok mock_user), []. by repeat split.
  - constructor; [|done]. split; [by repeat split|]. exists lookup_request, "ada". split; by vm_compute.
Defined.
