(* ===== verification/MainExamples.v ===== *)
(** * Starting the operator on a concrete command line *)

From S2P Require Import Prelude Password PodHealth Main.
Open Scope Z_scope.

#[local] Instance plain_OtherFlags : OtherFlags :=
  {| other_flag name := if decide (name = "kubeconfig") then Some false
                        else if decide (name = "zap-devel") then Some true else None;
     other_set _ _ := true |}.

Definition doubling : GoRuntime := λ cap n, (if decide (n ≤ 2 * cap) then 2 * cap else n)%nat.
Definition roomy : GoRuntime := λ cap n, (2 * n)%nat.

(** Everything works but, perhaps, one controller; the variable lists two namespaces. *)
Definition cluster (broken : string) (c : os_call) (_ : unit) : os_ans c * unit :=
  (match c return os_ans c with
   | Getenv _ => "litellm, ,prod "
   | SetupWithManager r => if decide (rec_Name r = broken) then Some "no matches for kind" else None
   | _ => None
   end, tt).

Definition command : list string :=
  ["--metrics-cert-path=/tmp//metrics/./"; "-webhook-cert-path"; "/etc/webhook/x/.."; "--zap-devel"; "--leader-elect"; "--"].
Definition parsed : Flags :=
  MkFlags "0" "/tmp//metrics/./" "tls.crt" "tls.key" "/etc/webhook/x/.." "tls.crt" "tls.key" true ":8081" true false "".

Example command_parsed : parse_flags command defaultFlags = Ok parsed.
Proof. by vm_compute. Qed.
Example command_refused : parse_flags ["--metrics-secure=maybe"] defaultFlags = Err 2 ∧ parse_flags ["-h"] defaultFlags = Err 0.
Proof. by vm_compute. Qed.

Example metrics_watcher : metricsWatcher parsed = Some (MkWatcher "/tmp/metrics/tls.crt" "/tmp/metrics/tls.key").
Proof. by vm_compute. Qed.
Example webhook_watcher : webhookWatcher parsed = Some (MkWatcher "/etc/webhook/tls.crt" "/etc/webhook/tls.key").
Proof. by vm_compute. Qed.

Definition started (runtime : GoRuntime) (broken : string) : hist OS * Z :=
  (interp (S := OS) (cluster broken) (main (H0 := runtime) command) tt).1.

Lemma started_runs runtime broken :
  runs (main (H0 := runtime) command) (started runtime broken).1 (started runtime broken).2.
Proof.
  unfold started. destruct (interp _ _ _) as [[t x] w] eqn:Hi. by eapply interp_runs.
Qed.

Example all_well : (started doubling "").2 = 0.
Proof. by vm_compute. Qed.
Example one_controller_fails : (started doubling "LiteLLMGuardrail").2 = 1.
Proof. by vm_compute. Qed.

(** The options with which the manager was made. *)
Definition made (h : hist OS) : list ManagerOptions :=
  omap (λ e, match ev_op (S := OS) e with NewManager o => Some o | _ => None end) h.

(** With a runtime that leaves room in the first array, the two servers would share the
    options: the webhook server would serve the certificate of the metrics. *)
Example servers_mixed_up :
  (λ o, (mo_WebhookTLSOpts o, mo_MetricsTLSOpts o)) <$> made (started roomy "").1 =
  let opts := [DisableHTTP2; ServeCertificate (MkWatcher "/tmp/metrics/tls.crt" "/tmp/metrics/tls.key")] in [(opts, opts)].
Proof. by vm_compute. Qed.

Lemma main_starts_witness :
  (started doubling "").2 = 0 ↔ Ev (S := OS) StartManager None ∈ (started doubling "").1.
Proof.
  apply (proj2 (proj2 (main_starts (H0 := doubling) command parsed command_parsed))), started_runs.
Defined.

(** The history before the manager is made, and its options. *)
Definition before : hist OS := take 7 (started doubling "").1.
Definition options : ManagerOptions := default (manager_options parsed "" [] []) (head (made (started doubling "").1)).

Lemma manager_is_made :
  partial (main (H0 := doubling) command) (before ++ Ev (S := OS) (NewManager options) None :: drop 8 (started doubling "").1).
Proof.
  apply (runs_partial _ _ (started doubling "").2).
  match goal with |- runs _ ?t _ => replace t with (started doubling "").1 by by vm_compute end.
  apply started_runs.
Qed.

Lemma manager_configured_witness :
  configured (MkTLSConfig ["h2"] None) (mo_WebhookTLSOpts options) =
    MkTLSConfig ["http/1.1"] (Some (MkWatcher "/etc/webhook/tls.crt" "/etc/webhook/tls.key")) ∧
  ∃ text entries,
    Ev (S := OS) (Getenv "WATCH_NAMESPACE") text ∈ before ∧ String.concat "," entries = text ∧
    ∀ ns, ns ∈ default ∅ (mo_DefaultNamespaces options) ↔ ns ≠ "" ∧ ∃ e, e ∈ entries ∧ ns = strings_TrimSpace e.
Proof.
  destruct (manager_configured (H0 := doubling) command parsed _ _ _ _ (MkTLSConfig ["h2"] None) command_parsed
    manager_is_made) as (Hw & _ & _ & _ & text & entries & [[_ Hne]|[_ Hin]] & Hc & _ & Hm); [done|].
  split; [by rewrite Hw, webhook_watcher|].
  exists text, entries. split; [exact Hin|]. split; [exact Hc|].
  destruct (mo_DefaultNamespaces options) as [m|] eqn:Ho; [by apply Hm|]. by vm_compute in Ho.
Defined.
